(** * Concat / Split / SplitByLengths operators (caffe2/operators/concat_split_op.h)

    A shallow embedding of the three operators of concat_split_op.h and the
    properties of their axis resolution, validation and byte copies.

    Conventions of the embedding.
    - A C++ [int] is a [Z] kept in range by [Int32.wrap] after every
      arithmetic operation the source performs on ints; a [size_t] is a [Z]
      reduced by [to_size_t].  C++ [/] and [%] are [Z.quot] and [Z.rem].
    - A raw buffer is a [list byte]; a pointer into it is the buffer together
      with a byte offset.
    - A failed CAFFE_ENFORCE throws: the operator returns the error and the
      outputs as they were when it was thrown.  [M S A] is the state and
      error monad used for that. *)

From Stdlib Require Import String ZArith Bool Lia List.
From Stdlib Require Import Strings.Byte.
Import ListNotations.
Open Scope Z_scope.

(** ** Machine integers *)

Module Int32.
Definition INT_MAX : Z := 2147483647.
Definition wrap (z : Z) : Z := (z + 2147483648) mod 4294967296 - 2147483648.
Definition mul (a b : Z) : Z := wrap (a * b).
Definition add (a b : Z) : Z := wrap (a + b).
End Int32.

Definition to_size_t (z : Z) : Z := z mod 18446744073709551616.

(** ** Errors

    Every CAFFE_ENFORCE of the file is mapped to the failure class it
    implements; [ShapeMismatch] carries what the message of lines 280-297
    prints. *)

Inductive Error : Type :=
| ConflictingConfiguration
| UnsupportedStorageOrder (order : string)
| AxisOutOfRange
| SizeMismatch
| IndivisibleSplit
| ShapeSumMismatch (got expected : Z)
| TypeMismatch (input : Z)
| ShapeMismatch (dim dim_j axis input canonical_axis : Z) (shape_0 shape_j : list Z)
| TensorAccessError.

Inductive result (A : Type) : Type :=
| Ok (a : A)
| Err (e : Error).
Arguments Ok {A} a.
Arguments Err {A} e.

Definition rbind {A B : Type} (r : result A) (k : A -> result B) : result B :=
  match r with
  | Ok a => k a
  | Err e => Err e
  end.

Definition is_ok {A : Type} (r : result A) : bool :=
  match r with Ok _ => true | Err _ => false end.

(** The state and error monad: a failure keeps the state reached so far. *)

Definition M (S A : Type) : Type := S -> S * result A.

Definition ret {S A : Type} (a : A) : M S A := fun s => (s, Ok a).

Definition bind {S A B : Type} (m : M S A) (k : A -> M S B) : M S B :=
  fun s => match m s with
           | (s', Ok a) => k a s'
           | (s', Err e) => (s', Err e)
           end.

Definition throw {S A : Type} (e : Error) : M S A := fun s => (s, Err e).

Definition lift {S A : Type} (r : result A) : M S A := fun s => (s, r).

Definition gets {S A : Type} (f : S -> A) : M S A := fun s => (s, Ok (f s)).

Definition modify {S : Type} (f : S -> S) : M S unit := fun s => (f s, Ok tt).

Definition CAFFE_ENFORCE {S : Type} (cond : bool) (e : Error) : M S unit :=
  if cond then ret tt else throw e.

Declare Scope op_scope.
Delimit Scope op_scope with op.
Notation "x <- m ;; k" := (bind m (fun x => k))
  (at level 61, m at next level, right associativity) : op_scope.
Notation "m ;;; k" := (bind m (fun _ => k))
  (at level 61, right associativity) : op_scope.

(** [for (int i = lo; i < hi; ++i)]: the indices the loop visits. *)

Definition range (lo hi : Z) : list Z :=
  map (fun k => lo + Z.of_nat k) (seq 0 (Z.to_nat (hi - lo))).

Fixpoint foldR {A : Type} (body : A -> Z -> result A) (idx : list Z) (acc : A)
  : result A :=
  match idx with
  | [] => Ok acc
  | i :: rest => rbind (body acc i) (foldR body rest)
  end.

Fixpoint foldM {S A : Type} (body : A -> Z -> M S A) (idx : list Z) (acc : A)
  : M S A :=
  match idx with
  | [] => ret acc
  | i :: rest => bind (body acc i) (foldM body rest)
  end.

(** ** Tensors *)

Record TypeMeta : Type := mkTypeMeta { type_id : Z; itemsize : Z }.

(** [TypeMeta::operator==] compares the type identifiers. *)
Definition TypeMeta_eqb (a b : TypeMeta) : bool := type_id a =? type_id b.

Record Tensor : Type := mkTensor {
  sizes : list Z;
  dtype : TypeMeta;
  raw_data : list byte
}.

(** The host-side tensor of ints ([Tensor] read through [data<int>()]): the
    ratio tensor of Split, the lengths of SplitByLengths and the second
    output of Concat. *)
Record IntTensor : Type := mkIntTensor {
  isizes : list Z;
  idata : list Z
}.

Definition prodZ (l : list Z) : Z := fold_right Z.mul 1 l.
Definition sumZ (l : list Z) : Z := fold_right Z.add 0 l.

Definition ndim (t : Tensor) : Z := Z.of_nat (length (sizes t)).
Definition numel (t : Tensor) : Z := prodZ (sizes t).
Definition inumel (t : IntTensor) : Z := prodZ (isizes t).

(** Modelled from the spec: [Tensor::dim32] (caffe2/core/tensor.h) is not
    among the sources.  It returns the extent at index [i] as an int and
    enforces that the index is inside the shape and that the extent fits in
    an int. *)
Definition dim32 (t : Tensor) (i : Z) : result Z :=
  if i <? 0 then Err TensorAccessError
  else match nth_error (sizes t) (Z.to_nat i) with
       | Some s => if s <? Int32.INT_MAX then Ok s else Err TensorAccessError
       | None => Err TensorAccessError
       end.

(** Modelled from the spec: [canonical_axis_index_] (caffe2/core/tensor.h)
    is not among the sources.  Section 4.1: a non-negative raw axis is the
    canonical axis, a negative one is [rank + rawAxis]; the call fails with
    [AxisOutOfRange] when the canonical axis is not in [[0, rank)]. *)
Definition canonical_value (rank rawAxis : Z) : Z :=
  if 0 <=? rawAxis then rawAxis else rank + rawAxis.

Definition canonical_axis_index_ (axis_index ndims : Z) : result Z :=
  let c := canonical_value ndims axis_index in
  if (0 <=? c) && (c <? ndims) then Ok c else Err AxisOutOfRange.

(** [Tensor::canonical_axis_index]: the same against the tensor's own rank. *)
Definition canonical_axis_index (t : Tensor) (axis_index : Z) : result Z :=
  canonical_axis_index_ axis_index (ndim t).

(** Modelled from the spec: [Tensor::size_to_dim] and [Tensor::size_from_dim]
    (caffe2/core/tensor.h): the product of the extents before, and from, an
    index; the source narrows both to int. *)
Definition size_to_dim (t : Tensor) (k : Z) : Z := prodZ (firstn (Z.to_nat k) (sizes t)).
Definition size_from_dim (t : Tensor) (k : Z) : Z := prodZ (skipn (Z.to_nat k) (sizes t)).

(** ** Buffers *)

Definition zero_byte : byte := x00.

Definition zth (l : list byte) (i : Z) : byte := nth (Z.to_nat i) l zero_byte.

Definition blen (l : list byte) : Z := Z.of_nat (length l).

Definition slice (buf : list byte) (off len : Z) : list byte :=
  firstn (Z.to_nat len) (skipn (Z.to_nat off) buf).

(** [memcpy (dst + doff, src + soff, n)]: the bytes of [dst] with [n] bytes
    of [src] spliced in.  The source leaves a copy outside either buffer
    undefined; every copy the properties below reason about stays inside. *)
Definition memcpy (dst : list byte) (doff : Z) (src : list byte) (soff n : Z)
  : list byte :=
  firstn (Z.to_nat doff) dst ++ slice src soff n ++ skipn (Z.to_nat (doff + n)) dst.

(** Modelled from the spec: [math::CopyMatrix] (caffe2/utils/math) is not
    among the sources.  Section 6: the strided-matrix copy with signature
    (itemSize, rows, cols, src, srcRowStride, dst, dstRowStride, ...); row
    [i] of [N] items is copied from [A + lda * i] items to [B + ldb * i]
    items, bit for bit. *)
Definition CopyMatrix (item M N : Z) (A : list byte) (a_off lda : Z)
           (B : list byte) (b_off ldb : Z) : list byte :=
  fold_left
    (fun B i => memcpy B (b_off + ldb * i * item) A (a_off + lda * i * item) (item * N))
    (range 0 M) B.

(** Modelled from the spec: [Tensor::Resize] and [Tensor::raw_mutable_data]
    (caffe2/core/tensor.h).  Section 3: the buffer of a tensor holds
    extent-product times item-size bytes.  [Resize] sets the shape;
    [raw_mutable_data] binds the element type and hands out a buffer of
    that length, whose bytes are whatever the tensor held (zero where it
    held nothing). *)
Definition resize_buf (n : Z) (old : list byte) : list byte :=
  firstn (Z.to_nat n) old ++ repeat zero_byte (Z.to_nat n - length old).

Definition Resize (t : Tensor) (dims : list Z) : Tensor :=
  {| sizes := dims; dtype := dtype t; raw_data := raw_data t |}.

Definition raw_mutable_data (t : Tensor) (meta : TypeMeta) : Tensor :=
  {| sizes := sizes t; dtype := meta;
     raw_data := resize_buf (numel t * itemsize meta) (raw_data t) |}.

Definition set_raw_data (t : Tensor) (buf : list byte) : Tensor :=
  {| sizes := sizes t; dtype := dtype t; raw_data := buf |}.

Definition resize_ints (n : Z) (old : list Z) : list Z :=
  firstn (Z.to_nat n) old ++ repeat 0 (Z.to_nat n - length old).

(** [t->Resize(dims); t->mutable_data<int>()] on the host tensor of ints. *)
Definition IntResize (t : IntTensor) (dims : list Z) : IntTensor :=
  {| isizes := dims; idata := resize_ints (prodZ dims) (idata t) |}.

(** ** Vectors *)

(** [v[i] = x]. *)
Definition vset {A : Type} (v : list A) (i : Z) (x : A) : list A :=
  if (0 <=? i) && (i <? Z.of_nat (length v))
  then firstn (Z.to_nat i) v ++ x :: skipn (S (Z.to_nat i)) v
  else v.

(** [v.erase(v.begin() + i)]. *)
Definition verase {A : Type} (v : list A) (i : Z) : list A :=
  firstn (Z.to_nat i) v ++ skipn (S (Z.to_nat i)) v.

(** [v.insert(v.begin() + i, x)]. *)
Definition vinsert {A : Type} (v : list A) (i : Z) (x : A) : list A :=
  firstn (Z.to_nat i) v ++ x :: skipn (Z.to_nat i) v.

(** [std::accumulate(p, p + n, 0)] over ints. *)
Definition accumulate (p : list Z) (n : Z) : Z :=
  fold_left Int32.add (firstn (Z.to_nat n) p) 0.

(** ** Operator arguments and the layout order *)

Record OperatorDef : Type := mkOperatorDef {
  arg_axis : option Z;
  arg_order : option string;
  arg_add_axis : option Z;
  arg_split : list Z
}.

Definition HasArgument {A : Type} (a : option A) : bool :=
  match a with Some _ => true | None => false end.

Definition GetSingleArgument {A : Type} (a : option A) (default : A) : A :=
  match a with Some v => v | None => default end.

Inductive StorageOrder : Type := UNKNOWN | NHWC | NCHW.

(** Modelled from the spec: [StringToStorageOrder] (caffe2/core/types.h) is
    not among the sources.  Section 3: two supported layout names. *)
Definition StringToStorageOrder (str : string) : StorageOrder :=
  if (String.eqb str "NHWC" || String.eqb str "nhwc")%bool then NHWC
  else if (String.eqb str "NCHW" || String.eqb str "nchw")%bool then NCHW
  else UNKNOWN.

Definition GetDimFromOrderString (str : string) : result Z :=
  match StringToStorageOrder str with
  | NHWC => Ok 3
  | NCHW => Ok 1
  | UNKNOWN => Err (UnsupportedStorageOrder str)
  end.

(** [Input(i)] of an operator whose inputs are a vector of tensors; asking
    for an input the operator does not have is a failed enforce of the
    operator base class. *)
Definition Input (inputs : list Tensor) (i : Z) : result Tensor :=
  if i <? 0 then Err TensorAccessError
  else match nth_error inputs (Z.to_nat i) with
       | Some t => Ok t
       | None => Err TensorAccessError
       end.

(** A tensor no operator has written yet. *)
Definition empty_tensor : Tensor :=
  {| sizes := [0]; dtype := mkTypeMeta 0 0; raw_data := [] |}.

(** [Output(i)] of an operator whose outputs are a vector of tensors. *)
Definition Output (outs : list Tensor) (i : Z) : Tensor :=
  nth (Z.to_nat i) outs empty_tensor.

Definition OutputSize (outs : list Tensor) : Z := Z.of_nat (length outs).

(** [v.size()]. *)
Definition vsize {A : Type} (v : list A) : Z := Z.of_nat (length v).

(** [p[i]] on an array of ints. *)
Definition at_ (p : list Z) (i : Z) : Z := nth (Z.to_nat i) p 0.

(** An int used as a condition. *)
Definition truthy (flag : Z) : bool := negb (flag =? 0).

(** The body shared by the two output loops of Split and SplitByLengths
    (lines 182-192 and 228-238): resize the output, bind its buffer and copy
    [before] rows of [cols] items out of the input. *)
Definition fill_output (input : Tensor) (output_dims : list Z)
           (before cols : Z) (input_offset lda : Z) (output : Tensor) : Tensor :=
  let output := raw_mutable_data (Resize output output_dims) (dtype input) in
  set_raw_data output
    (CopyMatrix (itemsize (dtype input)) before cols
                (raw_data input) input_offset lda
                (raw_data output) 0 cols).

Definition write_output (input : Tensor) (output_dims : list Z)
           (before cols : Z) (input_offset lda : Z) (i : Z)
  : M (list Tensor) unit :=
  modify (fun outs =>
    vset outs i (fill_output input output_dims before cols input_offset lda
                             (Output outs i))).

(** ** SplitOp *)

Module SplitOp.

Record t : Type := mk { axis_ : Z; add_axis_ : Z; split_ : list Z }.

Definition kSplitOpInputSize : Z := 2.

(** Lines 32-49. *)
Definition new (def : OperatorDef) : result t :=
  let split_ := arg_split def in
  if HasArgument (arg_axis def) && HasArgument (arg_order def)
  then Err ConflictingConfiguration
  else if HasArgument (arg_axis def)
  then Ok {| axis_ := GetSingleArgument (arg_axis def) (-1);
             add_axis_ := GetSingleArgument (arg_add_axis def) 0;
             split_ := split_ |}
  else rbind (GetDimFromOrderString (GetSingleArgument (arg_order def) "NCHW"%string))
             (fun a => Ok {| axis_ := a; add_axis_ := 0; split_ := split_ |}).

(** Input 0 and the optional ratio tensor (input 1); [InputSize()] is 2
    exactly when the ratio tensor is there. *)
Record Inputs : Type := mkInputs { X : Tensor; split_tensor : option IntTensor }.

Definition InputSize (ins : Inputs) : Z :=
  match split_tensor ins with Some _ => 2 | None => 1 end.

(** [this->template Input<Tensor>(1, CPU)]. *)
Definition Input1 (ins : Inputs) : result IntTensor :=
  match split_tensor ins with
  | Some st => Ok st
  | None => Err TensorAccessError
  end.

(** Lines 130-156: where the per-output extents come from. *)
Definition select_axis_data (op : t) (ins : Inputs) (input_channels nout : Z)
  : result (list Z) :=
  if InputSize ins =? kSplitOpInputSize then
    if negb (vsize (split_ op) =? 0) then Err ConflictingConfiguration
    else rbind (Input1 ins) (fun st =>
           if negb (inumel st =? nout) then Err SizeMismatch
           else Ok (idata st))
  else if vsize (split_ op) =? 0 then
    if negb (Z.rem input_channels nout =? 0) then Err IndivisibleSplit
    else Ok (repeat (Z.quot input_channels nout) (Z.to_nat nout))
  else
    if negb (vsize (split_ op) =? nout) then Err SizeMismatch
    else Ok (split_ op).

(** Lines 165-171. *)
Definition before_loop (input : Tensor) (canonical_axis : Z) : result Z :=
  foldR (fun before i => rbind (dim32 input i) (fun d => Ok (Int32.mul before d)))
        (range 0 canonical_axis) 1.

Definition after_loop (input : Tensor) (canonical_axis : Z) : result Z :=
  foldR (fun after i => rbind (dim32 input i) (fun d => Ok (Int32.mul after d)))
        (range (canonical_axis + 1) (ndim input)) 1.

(** Lines 176-194: one iteration; the accumulator is
    [(output_dims, input_offset)]. *)
Definition output_step (op : t) (input : Tensor) (axis_data : list Z)
           (canonical_axis before after : Z)
           (acc : list Z * Z) (i : Z) : M (list Tensor) (list Z * Z) :=
  (let '(output_dims, input_offset) := acc in
   let axis_dim := if truthy (add_axis_ op) then 1 else at_ axis_data i in
   let output_dims :=
     if negb (truthy (add_axis_ op))
     then vset output_dims canonical_axis (at_ axis_data i)
     else output_dims in
   lda <- lift (rbind (dim32 input canonical_axis)
                      (fun d => Ok (Int32.mul d after))) ;;
   write_output input output_dims before (Int32.mul axis_dim after)
                input_offset lda i ;;;
   ret (output_dims,
        to_size_t (input_offset
                   + to_size_t (Int32.mul axis_dim after) * itemsize (dtype input))))%op.

(** Lines 121-196. *)
Definition RunOnDevice (op : t) (ins : Inputs) : M (list Tensor) bool :=
  (let input := X ins in
   canonical_axis <- lift (canonical_axis_index input (axis_ op)) ;;
   CAFFE_ENFORCE (canonical_axis <? ndim input) AxisOutOfRange ;;;
   input_channels <- lift (dim32 input canonical_axis) ;;
   nout <- gets OutputSize ;;
   axis_data <- lift (select_axis_data op ins input_channels nout) ;;
   let total := if truthy (add_axis_ op) then nout else accumulate axis_data nout in
   CAFFE_ENFORCE (total =? input_channels)
                 (ShapeSumMismatch total input_channels) ;;;
   let output_dims := sizes input in
   before <- lift (before_loop input canonical_axis) ;;
   after <- lift (after_loop input canonical_axis) ;;
   let output_dims :=
     if truthy (add_axis_ op) then verase output_dims canonical_axis
     else output_dims in
   foldM (output_step op input axis_data canonical_axis before after)
         (range 0 nout) (output_dims, 0) ;;;
   ret true)%op.

End SplitOp.

(** ** SplitByLengthsOp *)

Module SplitByLengthsOp.

Record t : Type := mk { axis_ : Z }.

(** Lines 65-78. *)
Definition new (def : OperatorDef) : result t :=
  if HasArgument (arg_axis def) && HasArgument (arg_order def)
  then Err ConflictingConfiguration
  else if HasArgument (arg_axis def)
  then Ok {| axis_ := GetSingleArgument (arg_axis def) 0 |}
  else rbind (GetDimFromOrderString (GetSingleArgument (arg_order def) "NCHW"%string))
             (fun a => Ok {| axis_ := a |}).

Record Inputs : Type := mkInputs { X : Tensor; lengths : IntTensor }.

(** Lines 222-240: one iteration; the accumulator is
    [(output_dims, input_offset)]. *)
Definition output_step (input : Tensor) (axis_data : list Z)
           (length_length nout canonical_axis before after : Z)
           (acc : list Z * Z) (i : Z) : M (list Tensor) (list Z * Z) :=
  (let '(output_dims, input_offset) := acc in
   let axis_offset := Z.quot length_length nout * i in
   let axis_dim :=
     accumulate (skipn (Z.to_nat axis_offset) axis_data) (Z.quot length_length nout) in
   let output_dims := vset output_dims canonical_axis axis_dim in
   lda <- lift (rbind (dim32 input canonical_axis)
                      (fun d => Ok (Int32.mul d after))) ;;
   write_output input output_dims before (Int32.mul axis_dim after)
                input_offset lda i ;;;
   ret (output_dims,
        to_size_t (input_offset
                   + to_size_t (Int32.mul axis_dim after) * itemsize (dtype input))))%op.

(** Lines 199-242. *)
Definition RunOnDevice (op : t) (ins : Inputs) : M (list Tensor) bool :=
  (let input := X ins in
   let length := lengths ins in
   let length_length := inumel length in
   nout <- gets OutputSize ;;
   CAFFE_ENFORCE (Z.rem length_length nout =? 0) SizeMismatch ;;;
   canonical_axis <- lift (canonical_axis_index input (axis_ op)) ;;
   CAFFE_ENFORCE (canonical_axis <? ndim input) AxisOutOfRange ;;;
   input_channels <- lift (dim32 input canonical_axis) ;;
   let axis_data := idata length in
   let total := accumulate axis_data (inumel length) in
   CAFFE_ENFORCE (total =? input_channels)
                 (ShapeSumMismatch total input_channels) ;;;
   let output_dims := sizes input in
   let before := Int32.wrap (size_to_dim input canonical_axis) in
   let after := Int32.wrap (size_from_dim input (canonical_axis + 1)) in
   foldM (output_step input axis_data length_length nout canonical_axis before after)
         (range 0 nout) (output_dims, 0) ;;;
   ret true)%op.

End SplitByLengthsOp.

(** ** ConcatOp *)

Module ConcatOp.

Record t : Type := mk { axis_ : Z; add_axis_ : Z }.

(** Lines 94-109. *)
Definition new (def : OperatorDef) : result t :=
  if HasArgument (arg_axis def) && HasArgument (arg_order def)
  then Err ConflictingConfiguration
  else if HasArgument (arg_axis def)
  then Ok {| axis_ := GetSingleArgument (arg_axis def) (-1);
             add_axis_ := GetSingleArgument (arg_add_axis def) 0 |}
  else rbind (GetDimFromOrderString (GetSingleArgument (arg_order def) "NCHW"%string))
             (fun a => Ok {| axis_ := a; add_axis_ := 0 |}).

(** Output 0 (the concatenation) and output 1 (the host tensor [split]). *)
Record Outputs : Type := mkOutputs { output : Tensor; split : IntTensor }.

Definition set_output (f : Tensor -> Tensor) (s : Outputs) : Outputs :=
  {| output := f (output s); split := split s |}.

Definition set_split (f : IntTensor -> IntTensor) (s : Outputs) : Outputs :=
  {| output := output s; split := f (split s) |}.

(** Lines 254-263. *)
Definition check_types (inputs : list Tensor) (input_zero : Tensor) : result unit :=
  foldR (fun _ i =>
           rbind (Input inputs i) (fun input_i =>
             if TypeMeta_eqb (dtype input_i) (dtype input_zero)
             then Ok tt else Err (TypeMismatch i)))
        (range 1 (vsize inputs)) tt.

(** Lines 278-298: the inner loop at dimension [i]. *)
Definition check_dim (inputs : list Tensor) (input_zero : Tensor)
           (canonical_axis i dim : Z) : result unit :=
  foldR (fun _ j =>
           rbind (Input inputs j) (fun input_j =>
           rbind (dim32 input_j i) (fun dim_j =>
             if dim =? dim_j then Ok tt
             else Err (ShapeMismatch dim dim_j i j canonical_axis
                                     (sizes input_zero) (sizes input_j)))))
        (range 1 (vsize inputs)) tt.

(** Lines 267-299: the accumulator is [(before, after)]. *)
Definition dims_step (op : t) (inputs : list Tensor) (input_zero : Tensor)
           (canonical_axis : Z) (acc : Z * Z) (i : Z) : result (Z * Z) :=
  let '(before, after) := acc in
  if (i =? canonical_axis) && negb (truthy (add_axis_ op)) then Ok (before, after)
  else
    rbind (dim32 input_zero i) (fun dim =>
      let acc' := if i <? canonical_axis
                  then (Int32.mul before dim, after)
                  else (before, Int32.mul after dim) in
      rbind (check_dim inputs input_zero canonical_axis i dim) (fun _ => Ok acc')).

Definition dims_loop (op : t) (inputs : list Tensor) (input_zero : Tensor)
           (canonical_axis : Z) : result (Z * Z) :=
  foldR (dims_step op inputs input_zero canonical_axis)
        (range 0 (ndim input_zero)) (1, 1).

(** Lines 302-305: the accumulator is [output_channels]. *)
Definition channels_step (op : t) (inputs : list Tensor) (canonical_axis : Z)
           (output_channels : Z) (i : Z) : M Outputs Z :=
  (v <- lift (if truthy (add_axis_ op) then Ok 1
              else rbind (Input inputs i) (fun input_i => dim32 input_i canonical_axis)) ;;
   modify (set_split (fun s => {| isizes := isizes s; idata := vset (idata s) i v |})) ;;;
   axis_data_i <- gets (fun s => at_ (idata (split s)) i) ;;
   ret (Int32.add output_channels axis_data_i))%op.

(** Lines 313-328: the accumulator is [output_offset]. *)
Definition copy_step (op : t) (inputs : list Tensor) (input_zero : Tensor)
           (canonical_axis before after output_channels : Z)
           (output_offset : Z) (i : Z) : M Outputs Z :=
  (input <- lift (Input inputs i) ;;
   axis_dim <- lift (if truthy (add_axis_ op) then Ok 1
                     else dim32 input canonical_axis) ;;
   modify (set_output (fun o =>
     let o' := raw_mutable_data o (dtype input_zero) in
     set_raw_data o'
       (CopyMatrix (itemsize (dtype input)) before (Int32.mul axis_dim after)
                   (raw_data input) 0 (Int32.mul axis_dim after)
                   (raw_data o') output_offset (Int32.mul output_channels after)))) ;;;
   ret (to_size_t (output_offset
                   + to_size_t (Int32.mul axis_dim after) * itemsize (dtype input))))%op.

(** Lines 244-330. *)
Definition RunOnDevice (op : t) (inputs : list Tensor) : M Outputs bool :=
  (let ninputs := vsize inputs in
   modify (set_split (fun s => IntResize s [ninputs])) ;;;
   input_zero <- lift (Input inputs 0) ;;
   let adj_size := Int32.add (ndim input_zero) (if truthy (add_axis_ op) then 1 else 0) in
   canonical_axis <- lift (canonical_axis_index_ (axis_ op) adj_size) ;;
   CAFFE_ENFORCE (canonical_axis <? adj_size) AxisOutOfRange ;;;
   lift (check_types inputs input_zero) ;;;
   let output_dims := sizes input_zero in
   ba <- lift (dims_loop op inputs input_zero canonical_axis) ;;
   let '(before, after) := ba in
   output_channels <- foldM (channels_step op inputs canonical_axis)
                            (range 0 ninputs) 0 ;;
   let output_dims :=
     if truthy (add_axis_ op)
     then vinsert output_dims canonical_axis output_channels
     else vset output_dims canonical_axis output_channels in
   modify (set_output (fun o => Resize o output_dims)) ;;;
   foldM (copy_step op inputs input_zero canonical_axis before after output_channels)
         (range 0 ninputs) 0 ;;;
   ret true)%op.

End ConcatOp.

(** ** Running examples *)

Definition float_meta : TypeMeta := mkTypeMeta 1 4.
Definition byte_meta : TypeMeta := mkTypeMeta 2 1.

Definition bytes_of (f : nat -> byte) (n : nat) : list byte := map f (seq 0 n).

Definition fresh_outputs (n : nat) : list Tensor := repeat empty_tensor n.

Definition fresh_concat_outputs : ConcatOp.Outputs :=
  {| ConcatOp.output := empty_tensor;
     ConcatOp.split := {| isizes := [0]; idata := [] |} |}.

(** * Derived definitions used by the statements *)

(** What a Split run reports when it is given a ratio tensor and a non-empty
    [split] argument: the conflict, unless the axis steps before it
    (lines 124-127) have already failed. *)
Definition both_specs_error (input : Tensor) (axis : Z) : Error :=
  match canonical_axis_index input axis with
  | Err e => e
  | Ok c => match dim32 input c with
            | Err e => e
            | Ok _ => ConflictingConfiguration
            end
  end.

(** The product of the extents with every zero extent read as one: a bound
    for every intermediate product the operators compute on a shape. *)
Definition span (l : list Z) : Z := fold_right (fun d acc => Z.max 1 d * acc) 1 l.

(** One iteration of an output loop (lines 176-194 and 222-240) with the
    slab extent and the shape update left open: [SplitOp.output_step] and
    [SplitByLengthsOp.output_step] are its two instances. *)
Definition slab_step (input : Tensor) (canonical_axis before after : Z)
           (axis_dim_of : Z -> Z) (dims_of : list Z -> Z -> list Z)
           (acc : list Z * Z) (i : Z) : M (list Tensor) (list Z * Z) :=
  (let '(output_dims, input_offset) := acc in
   let axis_dim := axis_dim_of i in
   let output_dims := dims_of output_dims i in
   lda <- lift (rbind (dim32 input canonical_axis)
                      (fun d => Ok (Int32.mul d after))) ;;
   write_output input output_dims before (Int32.mul axis_dim after)
                input_offset lda i ;;;
   ret (output_dims,
        to_size_t (input_offset
                   + to_size_t (Int32.mul axis_dim after) * itemsize (dtype input))))%op.

(** The value of [input_offset] when iteration [k] starts. *)
Definition slab_offset (input : Tensor) (after : Z) (axis_dim_of : Z -> Z) (k : Z) : Z :=
  fold_left
    (fun off i => to_size_t (off + to_size_t (Int32.mul (axis_dim_of i) after)
                                   * itemsize (dtype input)))
    (range 0 k) 0.

(** The slab extent and the shape of output [k] of a Split run
    (lines 172-181). *)
Definition split_axis_dim (op : SplitOp.t) (axis_data : list Z) (k : Z) : Z :=
  if truthy (SplitOp.add_axis_ op) then 1 else at_ axis_data k.

Definition split_output_dims (op : SplitOp.t) (input : Tensor) (canonical_axis : Z)
           (axis_data : list Z) (k : Z) : list Z :=
  if truthy (SplitOp.add_axis_ op) then verase (sizes input) canonical_axis
  else vset (sizes input) canonical_axis (at_ axis_data k).

(** The total that line 158 compares with the extent of the input. *)
Definition split_total (op : SplitOp.t) (axis_data : list Z) (nout : Z) : Z :=
  if truthy (SplitOp.add_axis_ op) then nout else accumulate axis_data nout.

(** The run has failed on the range of the axis. *)
Definition is_AxisOutOfRange {A : Type} (r : result A) : bool :=
  match r with
  | Err AxisOutOfRange => true
  | _ => false
  end.

(** The validation of a Split run (lines 124-171) in the order the source
    performs it: the canonical axis, the extent at the axis, the per-output
    extents, the sum check and the two products. *)
Definition split_plan (op : SplitOp.t) (ins : SplitOp.Inputs) (nout : Z)
  : result (Z * Z * list Z * Z * Z) :=
  rbind (canonical_axis_index (SplitOp.X ins) (SplitOp.axis_ op)) (fun c =>
  rbind (dim32 (SplitOp.X ins) c) (fun ic =>
  rbind (SplitOp.select_axis_data op ins ic nout) (fun axis_data =>
  if split_total op axis_data nout =? ic then
    rbind (SplitOp.before_loop (SplitOp.X ins) c) (fun before =>
    rbind (SplitOp.after_loop (SplitOp.X ins) c) (fun after =>
    Ok (c, ic, axis_data, before, after)))
  else Err (ShapeSumMismatch (split_total op axis_data nout) ic)))).

(** A shape of non-negative extents that fit in an int. *)
Definition shape_ok (dims : list Z) : Prop :=
  Forall (fun d => 0 <= d < Int32.INT_MAX) dims.

(** A partition spec is supplied (as the [split] argument or as the ratio
    tensor, not both) and has one entry per output. *)
Definition spec_supplied (op : SplitOp.t) (ins : SplitOp.Inputs) (nout : Z) : bool :=
  match SplitOp.split_tensor ins with
  | Some st => (vsize (SplitOp.split_ op) =? 0) && (inumel st =? nout)
  | None => negb (vsize (SplitOp.split_ op) =? 0) && (vsize (SplitOp.split_ op) =? nout)
  end.

(** C2 as it is stated, for Split: in add-axis mode the axis is resolved
    with the rank raised by one and accepted exactly in [[0, rank + 1)]. *)
Definition split_add_axis_range_claim : Prop :=
  forall (op : SplitOp.t) (ins : SplitOp.Inputs) (outs : list Tensor),
    truthy (SplitOp.add_axis_ op) = true ->
    let rank := ndim (SplitOp.X ins) in
    let c := canonical_value (rank + 1) (SplitOp.axis_ op) in
    is_AxisOutOfRange (snd (SplitOp.RunOnDevice op ins outs))
    = negb ((0 <=? c) && (c <? rank + 1)).

(** A buffer of [n] zero bytes, for the examples. *)
Definition zeros (n : nat) : list byte := repeat zero_byte n.

(** Section 4.3 in its own words: the group of output [i] is
    [lengths[i * groupSize .. (i + 1) * groupSize)] with
    [groupSize = lengths.count / outputCount], and the extent of output [i]
    is the sum of its group. *)
Definition group_size (lengths : list Z) (outputCount : Z) : Z :=
  vsize lengths / outputCount.

Definition group_of (lengths : list Z) (outputCount i : Z) : list Z :=
  firstn (Z.to_nat (group_size lengths outputCount))
         (skipn (Z.to_nat (i * group_size lengths outputCount)) lengths).

Definition group_extent (lengths : list Z) (outputCount i : Z) : Z :=
  sumZ (group_of lengths outputCount i).

(** The extent the source computes for output [i] (lines 224-226). *)
Definition lengths_axis_dim (axis_data : list Z) (length_length nout i : Z) : Z :=
  accumulate (skipn (Z.to_nat (Z.quot length_length nout * i)) axis_data)
             (Z.quot length_length nout).

(** The axis extent Concat records and copies for input [i]
    (lines 303 and 315). *)
Definition concat_axis_dim (op : ConcatOp.t) (inputs : list Tensor)
           (canonical_axis i : Z) : result Z :=
  if truthy (ConcatOp.add_axis_ op) then Ok 1
  else rbind (Input inputs i) (fun input_i => dim32 input_i canonical_axis).

(** The validation of a Concat run (lines 250-299) in the order the source
    performs it, after [split] has been resized (line 248). *)
Definition concat_plan (op : ConcatOp.t) (inputs : list Tensor)
  : result (Tensor * Z * Z * Z) :=
  rbind (Input inputs 0) (fun input_zero =>
  let adj_size := Int32.add (ndim input_zero)
                            (if truthy (ConcatOp.add_axis_ op) then 1 else 0) in
  rbind (canonical_axis_index_ (ConcatOp.axis_ op) adj_size) (fun c =>
  rbind (ConcatOp.check_types inputs input_zero) (fun _ =>
  rbind (ConcatOp.dims_loop op inputs input_zero c) (fun ba =>
  Ok (input_zero, c, fst ba, snd ba))))).

(** The state of the outputs once line 248 has run. *)
Definition split_resized (inputs : list Tensor) (s : ConcatOp.Outputs)
  : ConcatOp.Outputs :=
  ConcatOp.set_split (fun t => IntResize t [vsize inputs]) s.

(** C3 as it is stated: a failed Concat run leaves both outputs as they
    were. *)
Definition concat_failure_leaves_outputs_claim : Prop :=
  forall (op : ConcatOp.t) (inputs : list Tensor) (s s' : ConcatOp.Outputs) (e : Error),
    ConcatOp.RunOnDevice op inputs s = (s', Err e) -> s' = s.

(** Section 4.4, step 3, in its own words: at every dimension except the
    canonical axis (at every dimension under add-axis) every input has the
    extent of input 0. *)
Definition agree_at (inputs : list Tensor) (i d : Z) : bool :=
  forallb (fun input_j => nth (Z.to_nat i) (sizes input_j) 0 =? d) (tl inputs).

Definition dim_checked (op : ConcatOp.t) (canonical_axis i : Z) : bool :=
  negb ((i =? canonical_axis) && negb (truthy (ConcatOp.add_axis_ op))).

Definition shapes_agree (op : ConcatOp.t) (inputs : list Tensor) (input_zero : Tensor)
           (canonical_axis : Z) : bool :=
  forallb (fun i => negb (dim_checked op canonical_axis i)
                    || agree_at inputs i (nth (Z.to_nat i) (sizes input_zero) 0))
          (range 0 (ndim input_zero)).

(** One copy of the Concat loop (lines 314-326) on output 0. *)
Definition concat_copy (input_zero : Tensor) (before after output_channels : Z)
           (input : Tensor) (axis_dim output_offset : Z) (o : Tensor) : Tensor :=
  let o' := raw_mutable_data o (dtype input_zero) in
  set_raw_data o'
    (CopyMatrix (itemsize (dtype input)) before (Int32.mul axis_dim after)
                (raw_data input) 0 (Int32.mul axis_dim after)
                (raw_data o') output_offset (Int32.mul output_channels after)).

(** The value of [output_offset] when iteration [k] of the copy loop
    starts. *)
Definition concat_offset (inputs : list Tensor) (after : Z) (axis_dim_of : Z -> Z)
           (k : Z) : Z :=
  fold_left
    (fun off i =>
       to_size_t (off + to_size_t (Int32.mul (axis_dim_of i) after)
                        * itemsize (dtype (nth (Z.to_nat i) inputs empty_tensor))))
    (range 0 k) 0.

(** Output 0 after the first [k] copies. *)
Definition concat_output (inputs : list Tensor) (input_zero : Tensor)
           (before after output_channels : Z) (axis_dim_of : Z -> Z)
           (k : Z) (o : Tensor) : Tensor :=
  fold_left
    (fun o i => concat_copy input_zero before after output_channels
                            (nth (Z.to_nat i) inputs empty_tensor) (axis_dim_of i)
                            (concat_offset inputs after axis_dim_of i) o)
    (range 0 k) o.

(** A tensor the operators can process without leaving the range of int:
    non-negative extents, every product of extents and the rank below
    INT_MAX, offsets below the range of size_t, and a buffer of
    extent-product times item-size bytes (section 3). *)
Definition tensor_ok (t : Tensor) : Prop :=
  shape_ok (sizes t)
  /\ span (sizes t) < Int32.INT_MAX
  /\ ndim t < Int32.INT_MAX
  /\ 0 <= itemsize (dtype t)
  /\ span (sizes t) * itemsize (dtype t) < 18446744073709551616
  /\ blen (raw_data t) = numel t * itemsize (dtype t).

(** The extent at index [i] of a shape. *)
Definition extent (dims : list Z) (i : Z) : Z := nth (Z.to_nat i) dims 0.

(** The extents of the outputs before output [k], summed. *)
Definition prefix_sum (e : Z -> Z) (k : Z) : Z := sumZ (map e (range 0 k)).

(** What one iteration of the dimension loop of Concat (lines 267-276) does
    to [(before, after)] when its checks pass. *)
Definition dims_acc (op : ConcatOp.t) (dims_zero : list Z) (canonical_axis : Z)
           (acc : Z * Z) (i : Z) : Z * Z :=
  if (i =? canonical_axis) && negb (truthy (ConcatOp.add_axis_ op)) then acc
  else if i <? canonical_axis
       then (Int32.mul (fst acc) (extent dims_zero i), snd acc)
       else (fst acc, Int32.mul (snd acc) (extent dims_zero i)).

(** The bytes 0, 1, ..., n - 1: a buffer whose every position is told apart. *)
Definition count_bytes (n : nat) : list byte :=
  bytes_of (fun i => match Byte.of_nat i with Some b => b | None => zero_byte end) n.

(** The extent input [k] contributes along the axis of a Concat run
    (lines 303 and 315): one unit when an axis is added. *)
Definition concat_extent (add : Z) (inputs : list Tensor) (c k : Z) : Z :=
  if truthy add then 1
  else extent (sizes (nth (Z.to_nat k) inputs empty_tensor)) c.

(** The shape Concat gives output 0 (lines 306-311) when the sum of the
    extents does not leave the range of int. *)
Definition concat_dims (add : Z) (inputs : list Tensor) (c : Z) : list Z :=
  let output_channels := prefix_sum (concat_extent add inputs c) (vsize inputs) in
  if truthy add
  then vinsert (sizes (nth 0 inputs empty_tensor)) c output_channels
  else vset (sizes (nth 0 inputs empty_tensor)) c output_channels.

(** Inputs that Concat joins along axis [c]: one element type, buffers of
    extent-product times item-size bytes, extents in the range of int, and
    the shape of input 0 except, when no axis is added, at the axis. *)
Definition concat_inputs_ok (add : Z) (inputs : list Tensor) (c : Z) : Prop :=
  forall t, In t inputs ->
    dtype t = dtype (nth 0 inputs empty_tensor)
    /\ blen (raw_data t) = numel t * itemsize (dtype t)
    /\ shape_ok (sizes t)
    /\ sizes t = if truthy add then sizes (nth 0 inputs empty_tensor)
                 else vset (sizes (nth 0 inputs empty_tensor)) c (extent (sizes t) c).

(** A shape and an item size whose products stay in the range of int and
    of size_t. *)
Definition dims_in_range (dims : list Z) (item : Z) : Prop :=
  shape_ok dims
  /\ span dims < Int32.INT_MAX
  /\ vsize dims < Int32.INT_MAX
  /\ 0 <= item
  /\ span dims * item < 18446744073709551616.

(** C7 as it is stated: with neither sizes nor a ratio tensor, a Split run
    on a well-formed input fails with IndivisibleSplit when the extent at
    the axis is not divisible by the number of outputs, and otherwise goes
    on to give every output the quotient, that is, it succeeds. *)
Definition equal_split_claim : Prop :=
  forall (op : SplitOp.t) (input : Tensor) (outs : list Tensor) (c ic : Z),
    SplitOp.split_ op = [] ->
    tensor_ok input ->
    canonical_axis_index input (SplitOp.axis_ op) = Ok c ->
    dim32 input c = Ok ic ->
    0 < OutputSize outs ->
    snd (SplitOp.RunOnDevice op (SplitOp.mkInputs input None) outs)
    = if Z.rem ic (OutputSize outs) =? 0 then Ok true else Err IndivisibleSplit.

(** * Properties *)

(** ** Machine integers and the monad *)

Lemma wrap_small (z : Z) :
  -2147483648 <= z <= Int32.INT_MAX -> Int32.wrap z = z.
Proof.
  unfold Int32.wrap, Int32.INT_MAX. intros H.
  rewrite Z.mod_small by lia. lia.
Qed.

Lemma to_size_t_small (z : Z) :
  0 <= z < 18446744073709551616 -> to_size_t z = z.
Proof. intros H. unfold to_size_t. apply Z.mod_small. exact H. Qed.

Lemma canonical_axis_index__range (axis_index ndims c : Z) :
  canonical_axis_index_ axis_index ndims = Ok c -> 0 <= c < ndims.
Proof.
  unfold canonical_axis_index_.
  destruct (0 <=? canonical_value ndims axis_index) eqn:E1;
    destruct (canonical_value ndims axis_index <? ndims) eqn:E2; simpl;
    intros H; inversion H; subst; lia.
Qed.

Lemma dim32_err (t : Tensor) (i : Z) (e : Error) :
  dim32 t i = Err e -> e = TensorAccessError.
Proof.
  unfold dim32. destruct (i <? 0); [intros H; inversion H; reflexivity|].
  destruct (nth_error (sizes t) (Z.to_nat i)) as [s|];
    [destruct (s <? Int32.INT_MAX)|]; intros H; inversion H; reflexivity.
Qed.

(** ** C8: axis resolution *)

(** C8.  Axis resolution maps a negative raw axis to [rank + rawAxis] and a
    non-negative one to itself (the value is then range-checked against the
    rank), so that resolving [-1] and resolving [rank - 1] give the same
    result for every rank, on the resolver and on a tensor. *)
Theorem axis_resolution_negative_is_rank_plus_axis :
  (forall rank rawAxis : Z,
      canonical_value rank rawAxis
      = if rawAxis <? 0 then rank + rawAxis else rawAxis) /\
  (forall rank rawAxis : Z,
      canonical_axis_index_ rawAxis rank
      = if rawAxis <? 0
        then (if 0 <=? rank + rawAxis then Ok (rank + rawAxis) else Err AxisOutOfRange)
        else (if rawAxis <? rank then Ok rawAxis else Err AxisOutOfRange)) /\
  (forall rank : Z,
      canonical_axis_index_ (-1) rank = canonical_axis_index_ (rank - 1) rank) /\
  (forall (t : Tensor),
      canonical_axis_index t (-1) = canonical_axis_index t (ndim t - 1)).
Proof.
  assert (V : forall rank rawAxis : Z,
             canonical_value rank rawAxis
             = if rawAxis <? 0 then rank + rawAxis else rawAxis).
  { intros rank rawAxis. unfold canonical_value.
    destruct (0 <=? rawAxis) eqn:E1; destruct (rawAxis <? 0) eqn:E2;
      try reflexivity; lia. }
  assert (R : forall rank rawAxis : Z,
             canonical_axis_index_ rawAxis rank
             = if rawAxis <? 0
               then (if 0 <=? rank + rawAxis then Ok (rank + rawAxis)
                     else Err AxisOutOfRange)
               else (if rawAxis <? rank then Ok rawAxis else Err AxisOutOfRange)).
  { intros rank rawAxis. unfold canonical_axis_index_. rewrite V.
    destruct (rawAxis <? 0) eqn:E1.
    - destruct (0 <=? rank + rawAxis) eqn:E2; simpl; [|reflexivity].
      destruct (rank + rawAxis <? rank) eqn:E3; [reflexivity|lia].
    - destruct (0 <=? rawAxis) eqn:E2; [|lia]. reflexivity. }
  assert (E : forall rank : Z,
             canonical_axis_index_ (-1) rank = canonical_axis_index_ (rank - 1) rank).
  { intros rank. rewrite !R. change (-1 <? 0) with true. cbv iota.
    destruct (rank - 1 <? 0) eqn:E1.
    - destruct (0 <=? rank + -1) eqn:E2; [lia|].
      destruct (0 <=? rank + (rank - 1)) eqn:E3; [lia|reflexivity].
    - destruct (0 <=? rank + -1) eqn:E2; [|lia].
      destruct (rank - 1 <? rank) eqn:E3; [|lia].
      f_equal. }
  repeat split; auto.
  intros t. unfold canonical_axis_index. apply E.
Qed.

(** ** C9: conflicting configuration *)

(** C9.  Giving both [axis] and [order] fails with ConflictingConfiguration
    in the constructor of each of the three operators, whatever the other
    arguments are; a Split run with both a non-empty [split] argument and a
    ratio tensor always fails and leaves the outputs untouched, with
    ConflictingConfiguration as soon as the axis of the input resolves. *)
Theorem conflicting_configuration_rejected :
  (forall (a : Z) (o : string) (add : option Z) (sp : list Z),
      SplitOp.new (mkOperatorDef (Some a) (Some o) add sp) = Err ConflictingConfiguration
      /\ SplitByLengthsOp.new (mkOperatorDef (Some a) (Some o) add sp)
         = Err ConflictingConfiguration
      /\ ConcatOp.new (mkOperatorDef (Some a) (Some o) add sp)
         = Err ConflictingConfiguration) /\
  (forall (axis add s : Z) (rest : list Z) (input : Tensor) (ratio : IntTensor)
          (outs : list Tensor),
      SplitOp.RunOnDevice (SplitOp.mk axis add (s :: rest))
                          (SplitOp.mkInputs input (Some ratio)) outs
      = (outs, Err (both_specs_error input axis))) /\
  (forall (axis : Z) (input : Tensor) (c d : Z),
      canonical_axis_index input axis = Ok c -> dim32 input c = Ok d ->
      both_specs_error input axis = ConflictingConfiguration).
Proof.
  split; [|split].
  - intros a o add sp. repeat split; reflexivity.
  - intros axis add s rest input ratio outs.
    unfold SplitOp.RunOnDevice, both_specs_error, bind, lift, gets, CAFFE_ENFORCE.
    cbn [SplitOp.X SplitOp.axis_].
    destruct (canonical_axis_index input axis) as [c|e] eqn:Hc; [|reflexivity].
    apply canonical_axis_index__range in Hc.
    rewrite (proj2 (Z.ltb_lt c (ndim input))) by lia.
    unfold ret. destruct (dim32 input c) as [d|e]; reflexivity.
  - intros axis input c d Hc Hd. unfold both_specs_error.
    rewrite Hc, Hd. reflexivity.
Qed.

(** The constructor and the run of C9 on a rank-2 input. *)
Lemma conflicting_configuration_rejected_witness :
  both_specs_error (mkTensor [2; 3] byte_meta (bytes_of (fun _ => zero_byte) 6)) 1
  = ConflictingConfiguration.
Proof.
  destruct conflicting_configuration_rejected as [_ [_ H]].
  apply (H 1 (mkTensor [2; 3] byte_meta (bytes_of (fun _ => zero_byte) 6)) 1 3);
    reflexivity.
Defined.

(** ** Loops *)

Lemma range_nil (lo hi : Z) : hi <= lo -> range lo hi = [].
Proof.
  intros H. unfold range. replace (Z.to_nat (hi - lo)) with 0%nat by lia.
  reflexivity.
Qed.

Lemma range_cons (lo hi : Z) : lo < hi -> range lo hi = lo :: range (lo + 1) hi.
Proof.
  intros H. unfold range.
  replace (Z.to_nat (hi - lo)) with (S (Z.to_nat (hi - (lo + 1)))) by lia.
  cbn [seq map]. f_equal; [lia|].
  rewrite <- seq_shift, map_map. apply map_ext. intros k. lia.
Qed.

Lemma range_snoc (lo hi : Z) : lo <= hi -> range lo (hi + 1) = range lo hi ++ [hi].
Proof.
  intros H. unfold range.
  replace (Z.to_nat (hi + 1 - lo)) with (Z.to_nat (hi - lo) + 1)%nat by lia.
  rewrite seq_app, map_app. cbn [seq map Nat.add]. do 2 f_equal. lia.
Qed.

Lemma in_range (i lo hi : Z) : In i (range lo hi) <-> lo <= i < hi.
Proof.
  unfold range. rewrite in_map_iff. split.
  - intros [k [Hk Hin]]. apply in_seq in Hin. lia.
  - intros H. exists (Z.to_nat (i - lo)). split; [lia|]. apply in_seq. lia.
Qed.

Lemma range_length (lo hi : Z) : length (range lo hi) = Z.to_nat (hi - lo).
Proof. unfold range. rewrite length_map, length_seq. reflexivity. Qed.

Lemma foldM_app {S A : Type} (body : A -> Z -> M S A) (l1 l2 : list Z) (acc : A)
      (s : S) :
  foldM body (l1 ++ l2) acc s = bind (foldM body l1 acc) (foldM body l2) s.
Proof.
  revert acc s. induction l1 as [|i l1 IH]; intros acc s; cbn [foldM app].
  - reflexivity.
  - unfold bind in *.
    destruct (body acc i s) as [s' [a|e]]; [|reflexivity].
    rewrite IH. reflexivity.
Qed.

(** ** Products, sums and the int range *)

Lemma span_pos (l : list Z) : 1 <= span l.
Proof. induction l as [|d l IH]; cbn [span fold_right]; [lia|]. fold (span l). nia. Qed.

Lemma span_app (l1 l2 : list Z) : span (l1 ++ l2) = span l1 * span l2.
Proof.
  induction l1 as [|d l1 IH]; cbn [span fold_right app].
  - fold (span l2). lia.
  - fold (span (l1 ++ l2)) (span l1). rewrite IH. ring.
Qed.

Lemma prodZ_app (l1 l2 : list Z) : prodZ (l1 ++ l2) = prodZ l1 * prodZ l2.
Proof.
  induction l1 as [|d l1 IH]; cbn [prodZ fold_right app].
  - fold (prodZ l2). lia.
  - fold (prodZ (l1 ++ l2)) (prodZ l1). rewrite IH. ring.
Qed.

Lemma sumZ_app (l1 l2 : list Z) : sumZ (l1 ++ l2) = sumZ l1 + sumZ l2.
Proof.
  induction l1 as [|d l1 IH]; cbn [sumZ fold_right app].
  - fold (sumZ l2). lia.
  - fold (sumZ (l1 ++ l2)) (sumZ l1). rewrite IH. ring.
Qed.

Lemma prodZ_nonneg (l : list Z) : Forall (fun d => 0 <= d) l -> 0 <= prodZ l.
Proof.
  induction 1 as [|d l Hd Hl IH]; cbn [prodZ fold_right]; [lia|].
  fold (prodZ l). nia.
Qed.

Lemma prodZ_le_span (l : list Z) : Forall (fun d => 0 <= d) l -> prodZ l <= span l.
Proof.
  induction 1 as [|d l Hd Hl IH]; cbn [prodZ span fold_right]; [lia|].
  fold (prodZ l) (span l). pose proof (prodZ_nonneg l Hl). nia.
Qed.

Lemma sumZ_nonneg (l : list Z) : Forall (fun d => 0 <= d) l -> 0 <= sumZ l.
Proof.
  induction 1 as [|d l Hd Hl IH]; cbn [sumZ fold_right]; [lia|].
  fold (sumZ l). lia.
Qed.

Lemma span_firstn (n : nat) (l : list Z) : span (firstn n l) <= span l.
Proof.
  rewrite <- (firstn_skipn n l) at 2. rewrite span_app.
  pose proof (span_pos (firstn n l)). pose proof (span_pos (skipn n l)). nia.
Qed.

Lemma span_skipn (n : nat) (l : list Z) : span (skipn n l) <= span l.
Proof.
  rewrite <- (firstn_skipn n l) at 2. rewrite span_app.
  pose proof (span_pos (firstn n l)). pose proof (span_pos (skipn n l)). nia.
Qed.

(** ** Buffers and the strided copy *)

Lemma nth_firstn_lt {A : Type} (n i : nat) (l : list A) (d : A) :
  (i < n)%nat -> nth i (firstn n l) d = nth i l d.
Proof.
  revert i l. induction n as [|n IH]; intros i l H; [lia|].
  destruct l as [|x l]; [destruct i; reflexivity|].
  destruct i as [|i]; cbn [firstn nth]; [reflexivity|]. apply IH. lia.
Qed.

Lemma nth_skipn_add {A : Type} (n i : nat) (l : list A) (d : A) :
  nth i (skipn n l) d = nth (n + i) l d.
Proof.
  revert l. induction n as [|n IH]; intros l; [reflexivity|].
  destruct l as [|x l]; [destruct i; reflexivity|].
  cbn [skipn Nat.add nth]. apply IH.
Qed.

Lemma slice_length (buf : list byte) (off len : Z) :
  0 <= off -> 0 <= len -> off + len <= blen buf -> blen (slice buf off len) = len.
Proof.
  unfold blen, slice. intros Ho Hl Hb.
  rewrite length_firstn, length_skipn. lia.
Qed.

Lemma slice_zth (buf : list byte) (off len p : Z) :
  0 <= off -> 0 <= p < len -> zth (slice buf off len) p = zth buf (off + p).
Proof.
  unfold zth, slice. intros Ho Hp.
  rewrite nth_firstn_lt by lia. rewrite nth_skipn_add. f_equal. lia.
Qed.

Lemma memcpy_length (dst : list byte) (doff : Z) (src : list byte) (soff n : Z) :
  0 <= doff -> 0 <= soff -> 0 <= n ->
  doff + n <= blen dst -> soff + n <= blen src ->
  blen (memcpy dst doff src soff n) = blen dst.
Proof.
  intros Hd Hs Hn Hbd Hbs. unfold memcpy.
  pose proof (slice_length src soff n Hs Hn Hbs) as Hsl.
  unfold blen in *. rewrite !length_app, length_firstn, length_skipn. lia.
Qed.

Lemma memcpy_zth (dst : list byte) (doff : Z) (src : list byte) (soff n p : Z) :
  0 <= doff -> 0 <= soff -> 0 <= n ->
  doff + n <= blen dst -> soff + n <= blen src -> 0 <= p ->
  zth (memcpy dst doff src soff n) p
  = if (doff <=? p) && (p <? doff + n) then zth src (soff + (p - doff))
    else zth dst p.
Proof.
  intros Hd Hs Hn Hbd Hbs Hp. unfold memcpy.
  pose proof (slice_length src soff n Hs Hn Hbs) as Hsl.
  assert (Hf : length (firstn (Z.to_nat doff) dst) = Z.to_nat doff).
  { rewrite length_firstn. unfold blen in Hbd. lia. }
  unfold zth at 1.
  destruct (Z.leb_spec doff p) as [Hge|Hlt]; cbn [andb].
  - rewrite app_nth2 by lia. rewrite Hf.
    destruct (Z.ltb_spec p (doff + n)) as [Hin|Hout].
    + rewrite app_nth1 by (unfold blen in Hsl; lia).
      replace (Z.to_nat p - Z.to_nat doff)%nat with (Z.to_nat (p - doff)) by lia.
      change (zth (slice src soff n) (p - doff) = zth src (soff + (p - doff))).
      apply slice_zth; lia.
    + rewrite app_nth2 by (unfold blen in Hsl; lia).
      rewrite nth_skipn_add. unfold zth. f_equal. unfold blen in Hsl. lia.
  - rewrite app_nth1 by lia. rewrite nth_firstn_lt by lia. reflexivity.
Qed.

Lemma CopyMatrix_snoc (item : Z) (m : nat) (N : Z) (A : list byte) (a_off lda : Z)
      (B : list byte) (b_off ldb : Z) :
  CopyMatrix item (Z.of_nat (S m)) N A a_off lda B b_off ldb
  = memcpy (CopyMatrix item (Z.of_nat m) N A a_off lda B b_off ldb)
           (b_off + ldb * Z.of_nat m * item) A (a_off + lda * Z.of_nat m * item)
           (item * N).
Proof.
  unfold CopyMatrix.
  replace (Z.of_nat (S m)) with (Z.of_nat m + 1) by lia.
  rewrite range_snoc by lia. rewrite fold_left_app. reflexivity.
Qed.

Section CopyMatrixFacts.
Variables (item N : Z) (A : list byte) (a_off lda : Z) (B : list byte) (b_off ldb : Z).
Variable M : Z.
Hypothesis Hitem : 0 <= item.
Hypothesis HN : 0 <= N.
Hypothesis Ha_off : 0 <= a_off.
Hypothesis Hb_off : 0 <= b_off.
Hypothesis Hlda : 0 <= lda.
Hypothesis Hldb : 0 <= ldb.
Hypothesis HA : forall r, 0 <= r < M -> a_off + lda * r * item + item * N <= blen A.
Hypothesis HB : forall r, 0 <= r < M -> b_off + ldb * r * item + item * N <= blen B.

Let CM (m : nat) : list byte := CopyMatrix item (Z.of_nat m) N A a_off lda B b_off ldb.

Lemma CopyMatrix_rows (m : nat) :
  Z.of_nat m <= M ->
  blen (CM m) = blen B /\
  (forall p, 0 <= p ->
     (forall r, 0 <= r < Z.of_nat m ->
                ~ (b_off + ldb * r * item <= p < b_off + ldb * r * item + item * N)) ->
     zth (CM m) p = zth B p) /\
  (N <= ldb ->
   forall r t, 0 <= r < Z.of_nat m -> 0 <= t < item * N ->
     zth (CM m) (b_off + ldb * r * item + t) = zth A (a_off + lda * r * item + t)).
Proof.
  induction m as [|m IH]; intros Hm.
  - unfold CM, CopyMatrix. rewrite range_nil by lia. cbn [fold_left].
    split; [reflexivity|]. split; [reflexivity|]. intros _ r t Hr. lia.
  - destruct IH as [IHlen [IHmiss IHhit]]; [lia|].
    assert (Hrow : 0 <= Z.of_nat m < M) by lia.
    pose proof (HA _ Hrow) as HAm. pose proof (HB _ Hrow) as HBm.
    assert (Hdo : 0 <= b_off + ldb * Z.of_nat m * item) by nia.
    assert (Hso : 0 <= a_off + lda * Z.of_nat m * item) by nia.
    assert (Hn : 0 <= item * N) by nia.
    unfold CM in *. rewrite CopyMatrix_snoc.
    split; [|split].
    + rewrite memcpy_length; try assumption; rewrite ?IHlen; lia.
    + intros p Hp Hmiss.
      rewrite memcpy_zth; try assumption; rewrite ?IHlen; try lia.
      assert (Hw : ~ (b_off + ldb * Z.of_nat m * item <= p
                      < b_off + ldb * Z.of_nat m * item + item * N))
        by (apply Hmiss; lia).
      destruct (Z.leb_spec (b_off + ldb * Z.of_nat m * item) p);
        destruct (Z.ltb_spec p (b_off + ldb * Z.of_nat m * item + item * N));
        cbn [andb]; try lia;
        apply IHmiss; try assumption; intros r Hr; apply Hmiss; lia.
    + intros HNl r t Hr Ht.
      rewrite memcpy_zth by (try assumption; rewrite ?IHlen; nia).
      destruct (Z.eq_dec r (Z.of_nat m)) as [->|Hne].
      * destruct (Z.leb_spec (b_off + ldb * Z.of_nat m * item)
                             (b_off + ldb * Z.of_nat m * item + t)); [|lia].
        destruct (Z.ltb_spec (b_off + ldb * Z.of_nat m * item + t)
                             (b_off + ldb * Z.of_nat m * item + item * N)); [|lia].
        cbn [andb]. f_equal. lia.
      * assert (Hlt : r + 1 <= Z.of_nat m) by lia.
        assert (H1 : item * N <= item * ldb) by nia.
        assert (H2 : ldb * (r + 1) * item <= ldb * Z.of_nat m * item)
          by (apply Z.mul_le_mono_nonneg_r; [lia|]; apply Z.mul_le_mono_nonneg_l; lia).
        assert (Hend : b_off + ldb * r * item + t < b_off + ldb * Z.of_nat m * item)
          by lia.
        destruct (Z.leb_spec (b_off + ldb * Z.of_nat m * item)
                             (b_off + ldb * r * item + t)); [lia|].
        cbn [andb]. apply IHhit; [assumption|lia|assumption].
Qed.

End CopyMatrixFacts.

(** ** Vectors *)

Lemma vset_length {A : Type} (v : list A) (i : Z) (x : A) :
  length (vset v i x) = length v.
Proof.
  unfold vset.
  destruct (Z.leb_spec 0 i); destruct (Z.ltb_spec i (Z.of_nat (length v)));
    cbn [andb]; try reflexivity.
  rewrite length_app, length_firstn. cbn [length]. rewrite length_skipn. lia.
Qed.

Lemma nth_vset_same {A : Type} (v : list A) (i : Z) (x d : A) :
  0 <= i < Z.of_nat (length v) -> nth (Z.to_nat i) (vset v i x) d = x.
Proof.
  intros H. unfold vset.
  destruct (Z.leb_spec 0 i); destruct (Z.ltb_spec i (Z.of_nat (length v)));
    cbn [andb]; try lia.
  rewrite app_nth2 by (rewrite length_firstn; lia).
  rewrite length_firstn.
  replace (Z.to_nat i - Nat.min (Z.to_nat i) (length v))%nat with 0%nat by lia.
  reflexivity.
Qed.

Lemma nth_vset_other {A : Type} (v : list A) (i : Z) (x d : A) (j : nat) :
  j <> Z.to_nat i -> nth j (vset v i x) d = nth j v d.
Proof.
  intros H. unfold vset.
  destruct (Z.leb_spec 0 i); destruct (Z.ltb_spec i (Z.of_nat (length v)));
    cbn [andb]; try reflexivity.
  destruct (Nat.ltb_spec j (Z.to_nat i)) as [Hlt|Hge].
  - rewrite app_nth1 by (rewrite length_firstn; lia).
    apply nth_firstn_lt. exact Hlt.
  - rewrite app_nth2 by (rewrite length_firstn; lia).
    rewrite length_firstn.
    replace (j - Nat.min (Z.to_nat i) (length v))%nat
      with (S (j - S (Z.to_nat i))) by lia.
    cbn [nth]. rewrite nth_skipn_add. f_equal. lia.
Qed.

Lemma vset_vset {A : Type} (v : list A) (i : Z) (x y : A) :
  vset (vset v i x) i y = vset v i y.
Proof.
  unfold vset at 1 3. rewrite vset_length.
  destruct (Z.leb_spec 0 i); destruct (Z.ltb_spec i (Z.of_nat (length v)));
    cbn [andb]; unfold vset;
    try (destruct (Z.leb_spec 0 i); destruct (Z.ltb_spec i (Z.of_nat (length v)));
         cbn [andb]; try lia; reflexivity).
  destruct (Z.leb_spec 0 i); destruct (Z.ltb_spec i (Z.of_nat (length v)));
    cbn [andb]; try lia.
  assert (Hf : length (firstn (Z.to_nat i) v) = Z.to_nat i)
    by (rewrite length_firstn; lia).
  rewrite firstn_app, firstn_firstn, Hf.
  replace (Z.to_nat i - Z.to_nat i)%nat with 0%nat by lia.
  replace (Nat.min (Z.to_nat i) (Z.to_nat i)) with (Z.to_nat i) by lia.
  cbn [firstn]. rewrite app_nil_r. f_equal. f_equal.
  rewrite skipn_app, Hf.
  replace (S (Z.to_nat i) - Z.to_nat i)%nat with 1%nat by lia.
  rewrite (@skipn_all2 A (S (Z.to_nat i)) (firstn (Z.to_nat i) v)) by lia.
  reflexivity.
Qed.

Lemma vset_nth_same (v : list Z) (i : Z) :
  0 <= i < Z.of_nat (length v) -> vset v i (nth (Z.to_nat i) v 0) = v.
Proof.
  intros H. apply (nth_ext _ _ 0 0); [apply vset_length|].
  intros n Hn. destruct (Nat.eq_dec n (Z.to_nat i)) as [->|Hne].
  - apply nth_vset_same. exact H.
  - apply nth_vset_other. exact Hne.
Qed.

Lemma Output_vset_same (outs : list Tensor) (i : Z) (x : Tensor) :
  0 <= i < OutputSize outs -> Output (vset outs i x) i = x.
Proof. intros H. unfold Output. apply nth_vset_same. exact H. Qed.

Lemma Output_vset_other (outs : list Tensor) (i k : Z) (x : Tensor) :
  0 <= i -> 0 <= k -> k <> i -> Output (vset outs i x) k = Output outs k.
Proof. intros Hi Hk H. unfold Output. apply nth_vset_other. lia. Qed.

Lemma resize_buf_length (n : Z) (old : list byte) :
  0 <= n -> blen (resize_buf n old) = n.
Proof.
  intros H. unfold blen, resize_buf.
  rewrite length_app, length_firstn, repeat_length. lia.
Qed.

Lemma resize_buf_id (n : Z) (old : list byte) :
  blen old = n -> resize_buf n old = old.
Proof.
  intros H. unfold blen in H. unfold resize_buf.
  rewrite firstn_all2 by lia.
  replace (Z.to_nat n - length old)%nat with 0%nat by lia.
  cbn [repeat]. apply app_nil_r.
Qed.

(** ** The output loop of Split and SplitByLengths *)

Section SlabLoop.
Variables (input : Tensor) (canonical_axis before after ic : Z).
Variables (axis_dim_of : Z -> Z) (dims_of : list Z -> Z -> list Z) (d0 : list Z).
Hypothesis Hdim : dim32 input canonical_axis = Ok ic.

Let step := slab_step input canonical_axis before after axis_dim_of dims_of.

Lemma slab_offset_succ (k : Z) :
  0 <= k ->
  slab_offset input after axis_dim_of (k + 1)
  = to_size_t (slab_offset input after axis_dim_of k
               + to_size_t (Int32.mul (axis_dim_of k) after) * itemsize (dtype input)).
Proof.
  intros Hk. unfold slab_offset. rewrite range_snoc by lia.
  rewrite fold_left_app. reflexivity.
Qed.

Lemma slab_loop_run (n : nat) (outs : list Tensor) :
  Z.of_nat n <= OutputSize outs ->
  exists outs',
    foldM step (range 0 (Z.of_nat n)) (d0, 0) outs
    = (outs', Ok (fold_left dims_of (range 0 (Z.of_nat n)) d0,
                  slab_offset input after axis_dim_of (Z.of_nat n)))
    /\ length outs' = length outs
    /\ (forall k, 0 <= k < Z.of_nat n ->
          Output outs' k
          = fill_output input (fold_left dims_of (range 0 (k + 1)) d0) before
                        (Int32.mul (axis_dim_of k) after)
                        (slab_offset input after axis_dim_of k)
                        (Int32.mul ic after) (Output outs k))
    /\ (forall k, Z.of_nat n <= k -> Output outs' k = Output outs k).
Proof.
  induction n as [|n IH]; intros Hn.
  - exists outs. cbn [Z.of_nat]. rewrite range_nil by lia.
    repeat split; try reflexivity. intros k Hk. lia.
  - destruct IH as [outs1 [Hrun [Hlen [Hdone Hrest]]]]; [lia|].
    replace (Z.of_nat (S n)) with (Z.of_nat n + 1) by lia.
    rewrite range_snoc by lia.
    set (T := fill_output input
                          (dims_of (fold_left dims_of (range 0 (Z.of_nat n)) d0)
                                   (Z.of_nat n))
                          before (Int32.mul (axis_dim_of (Z.of_nat n)) after)
                          (slab_offset input after axis_dim_of (Z.of_nat n))
                          (Int32.mul ic after) (Output outs1 (Z.of_nat n))).
    exists (vset outs1 (Z.of_nat n) T).
    assert (Hin : 0 <= Z.of_nat n < OutputSize outs1).
    { unfold OutputSize in *. rewrite Hlen. lia. }
    split; [|split; [|split]].
    + rewrite foldM_app. unfold bind at 1. rewrite Hrun.
      cbn [foldM]. unfold step, slab_step, bind, lift, write_output, modify, ret.
      rewrite Hdim. cbn [rbind]. rewrite fold_left_app. cbn [fold_left].
      rewrite slab_offset_succ by lia. reflexivity.
    + rewrite vset_length. exact Hlen.
    + intros k Hk. destruct (Z.eq_dec k (Z.of_nat n)) as [->|Hne].
      * rewrite Output_vset_same by exact Hin. unfold T.
        rewrite range_snoc by lia. rewrite fold_left_app. cbn [fold_left].
        rewrite Hrest by lia. reflexivity.
      * rewrite Output_vset_other by lia. apply Hdone. lia.
    + intros k Hk. rewrite Output_vset_other by lia. apply Hrest. lia.
Qed.

End SlabLoop.

Lemma SplitOp_output_step_slab (op : SplitOp.t) (input : Tensor) (axis_data : list Z)
      (canonical_axis before after : Z) :
  SplitOp.output_step op input axis_data canonical_axis before after
  = slab_step input canonical_axis before after
              (fun i => if truthy (SplitOp.add_axis_ op) then 1 else at_ axis_data i)
              (fun d i => if negb (truthy (SplitOp.add_axis_ op))
                          then vset d canonical_axis (at_ axis_data i) else d).
Proof. reflexivity. Qed.

Lemma SplitByLengthsOp_output_step_slab (input : Tensor) (axis_data : list Z)
      (length_length nout canonical_axis before after : Z) :
  SplitByLengthsOp.output_step input axis_data length_length nout
                               canonical_axis before after
  = slab_step input canonical_axis before after
              (fun i => accumulate (skipn (Z.to_nat (Z.quot length_length nout * i))
                                          axis_data)
                                   (Z.quot length_length nout))
              (fun d i => vset d canonical_axis
                            (accumulate (skipn (Z.to_nat (Z.quot length_length nout * i))
                                               axis_data)
                                        (Z.quot length_length nout))).
Proof. reflexivity. Qed.

(** ** Runs of Split *)

Lemma fold_vset_last (c : Z) (e : Z -> Z) (d0 : list Z) (n : nat) :
  fold_left (fun d i => vset d c (e i)) (range 0 (Z.of_nat n + 1)) d0
  = vset d0 c (e (Z.of_nat n)).
Proof.
  induction n as [|n IH].
  - reflexivity.
  - rewrite range_snoc by lia. rewrite fold_left_app. cbn [fold_left].
    replace (Z.of_nat (S n)) with (Z.of_nat n + 1) by lia.
    rewrite IH. apply vset_vset.
Qed.

Lemma fold_keep {A B : Type} (l : list B) (d0 : A) :
  fold_left (fun d _ => d) l d0 = d0.
Proof. induction l as [|x l IH]; [reflexivity|exact IH]. Qed.

Lemma split_dims_fold (op : SplitOp.t) (input : Tensor) (c : Z) (axis_data : list Z)
      (k : Z) :
  0 <= k ->
  fold_left (fun d i => if negb (truthy (SplitOp.add_axis_ op))
                        then vset d c (at_ axis_data i) else d)
            (range 0 (k + 1))
            (if truthy (SplitOp.add_axis_ op) then verase (sizes input) c
             else sizes input)
  = split_output_dims op input c axis_data k.
Proof.
  intros Hk. unfold split_output_dims.
  destruct (truthy (SplitOp.add_axis_ op)); cbn [negb].
  - apply fold_keep.
  - replace k with (Z.of_nat (Z.to_nat k)) by lia.
    apply (fold_vset_last c (at_ axis_data)).
Qed.

Lemma SplitOp_run (op : SplitOp.t) (ins : SplitOp.Inputs) (outs : list Tensor)
      (c ic before after : Z) (axis_data : list Z) :
  canonical_axis_index (SplitOp.X ins) (SplitOp.axis_ op) = Ok c ->
  dim32 (SplitOp.X ins) c = Ok ic ->
  SplitOp.select_axis_data op ins ic (OutputSize outs) = Ok axis_data ->
  split_total op axis_data (OutputSize outs) = ic ->
  SplitOp.before_loop (SplitOp.X ins) c = Ok before ->
  SplitOp.after_loop (SplitOp.X ins) c = Ok after ->
  exists outs',
    SplitOp.RunOnDevice op ins outs = (outs', Ok true)
    /\ length outs' = length outs
    /\ forall k, 0 <= k < OutputSize outs ->
         Output outs' k
         = fill_output (SplitOp.X ins) (split_output_dims op (SplitOp.X ins) c axis_data k)
                       before (Int32.mul (split_axis_dim op axis_data k) after)
                       (slab_offset (SplitOp.X ins) after (split_axis_dim op axis_data) k)
                       (Int32.mul ic after) (Output outs k).
Proof.
  intros Hc Hdim Hsel Htot Hb Ha.
  pose proof (canonical_axis_index__range _ _ _ Hc) as Hrange.
  destruct (slab_loop_run (SplitOp.X ins) c before after ic
              (split_axis_dim op axis_data)
              (fun d i => if negb (truthy (SplitOp.add_axis_ op))
                          then vset d c (at_ axis_data i) else d)
              (if truthy (SplitOp.add_axis_ op) then verase (sizes (SplitOp.X ins)) c
               else sizes (SplitOp.X ins))
              Hdim (length outs) outs)
    as [outs' [Hrun [Hlen [Hdone _]]]]; [unfold OutputSize; lia|].
  exists outs'. split; [|split].
  - unfold SplitOp.RunOnDevice, bind, lift, gets, CAFFE_ENFORCE, ret.
    rewrite Hc. rewrite (proj2 (Z.ltb_lt c (ndim (SplitOp.X ins)))) by lia.
    rewrite Hdim, Hsel. fold (split_total op axis_data (OutputSize outs)).
    rewrite Htot, Z.eqb_refl, Hb, Ha.
    rewrite SplitOp_output_step_slab.
    fold (split_axis_dim op axis_data). unfold OutputSize at 1.
    unfold split_axis_dim at 1.
    change (fun i : Z => if truthy (SplitOp.add_axis_ op) then 1 else at_ axis_data i)
      with (split_axis_dim op axis_data).
    rewrite Hrun. reflexivity.
  - exact Hlen.
  - intros k Hk. unfold OutputSize in Hk. rewrite Hdone by lia.
    rewrite split_dims_fold by lia. reflexivity.
Qed.

Lemma SplitOp_run_plan (op : SplitOp.t) (ins : SplitOp.Inputs) (outs : list Tensor) :
  match split_plan op ins (OutputSize outs) with
  | Err e => SplitOp.RunOnDevice op ins outs = (outs, Err e)
  | Ok (c, ic, axis_data, before, after) =>
      exists outs',
        SplitOp.RunOnDevice op ins outs = (outs', Ok true)
        /\ length outs' = length outs
        /\ forall k, 0 <= k < OutputSize outs ->
             Output outs' k
             = fill_output (SplitOp.X ins)
                           (split_output_dims op (SplitOp.X ins) c axis_data k)
                           before (Int32.mul (split_axis_dim op axis_data k) after)
                           (slab_offset (SplitOp.X ins) after
                                        (split_axis_dim op axis_data) k)
                           (Int32.mul ic after) (Output outs k)
  end.
Proof.
  unfold split_plan.
  destruct (canonical_axis_index (SplitOp.X ins) (SplitOp.axis_ op)) as [c|e] eqn:Hc;
    cbn [rbind].
  2:{ unfold SplitOp.RunOnDevice, bind, lift. rewrite Hc. reflexivity. }
  pose proof (canonical_axis_index__range _ _ _ Hc) as Hrange.
  assert (Hlt : (c <? ndim (SplitOp.X ins)) = true) by lia.
  destruct (dim32 (SplitOp.X ins) c) as [ic|e] eqn:Hdim; cbn [rbind].
  2:{ unfold SplitOp.RunOnDevice, bind, lift, CAFFE_ENFORCE, ret.
      rewrite Hc, Hlt, Hdim. reflexivity. }
  destruct (SplitOp.select_axis_data op ins ic (OutputSize outs)) as [ad|e] eqn:Hsel;
    cbn [rbind].
  2:{ unfold SplitOp.RunOnDevice, bind, lift, CAFFE_ENFORCE, ret, gets.
      rewrite Hc, Hlt, Hdim, Hsel. reflexivity. }
  destruct (split_total op ad (OutputSize outs) =? ic) eqn:Htot.
  2:{ unfold SplitOp.RunOnDevice, bind, lift, CAFFE_ENFORCE, ret, gets, throw.
      rewrite Hc, Hlt, Hdim, Hsel. fold (split_total op ad (OutputSize outs)).
      rewrite Htot. reflexivity. }
  destruct (SplitOp.before_loop (SplitOp.X ins) c) as [b|e] eqn:Hb; cbn [rbind].
  2:{ unfold SplitOp.RunOnDevice, bind, lift, CAFFE_ENFORCE, ret, gets, throw.
      rewrite Hc, Hlt, Hdim, Hsel. fold (split_total op ad (OutputSize outs)).
      rewrite Htot, Hb. reflexivity. }
  destruct (SplitOp.after_loop (SplitOp.X ins) c) as [a|e] eqn:Ha; cbn [rbind].
  2:{ unfold SplitOp.RunOnDevice, bind, lift, CAFFE_ENFORCE, ret, gets, throw.
      rewrite Hc, Hlt, Hdim, Hsel. fold (split_total op ad (OutputSize outs)).
      rewrite Htot, Hb, Ha. reflexivity. }
  apply SplitOp_run; try assumption. lia.
Qed.

Lemma foldR_err {A : Type} (body : A -> Z -> result A) (P : Error -> Prop) :
  (forall a i e, body a i = Err e -> P e) ->
  forall idx acc e, foldR body idx acc = Err e -> P e.
Proof.
  intros Hbody idx. induction idx as [|i idx IH]; intros acc e H; cbn [foldR] in H.
  - discriminate H.
  - destruct (body acc i) as [a|e'] eqn:Hb; cbn [rbind] in H.
    + apply (IH a). exact H.
    + inversion H; subst. apply (Hbody acc i). exact Hb.
Qed.

Lemma mul_loop_err (t : Tensor) (idx : list Z) (acc : Z) (e : Error) :
  foldR (fun b i => rbind (dim32 t i) (fun d => Ok (Int32.mul b d))) idx acc = Err e ->
  e = TensorAccessError.
Proof.
  apply (foldR_err _ (fun e => e = TensorAccessError)).
  intros a i e' H. destruct (dim32 t i) as [d|e''] eqn:Hd; cbn [rbind] in H.
  - discriminate H.
  - inversion H; subst. apply (dim32_err _ _ _ Hd).
Qed.

Lemma select_axis_data_cases (op : SplitOp.t) (ins : SplitOp.Inputs) (ic nout : Z) :
  SplitOp.select_axis_data op ins ic nout
  = match SplitOp.split_tensor ins with
    | Some st =>
        if negb (vsize (SplitOp.split_ op) =? 0) then Err ConflictingConfiguration
        else if negb (inumel st =? nout) then Err SizeMismatch
        else Ok (idata st)
    | None =>
        if vsize (SplitOp.split_ op) =? 0 then
          if negb (Z.rem ic nout =? 0) then Err IndivisibleSplit
          else Ok (repeat (Z.quot ic nout) (Z.to_nat nout))
        else
          if negb (vsize (SplitOp.split_ op) =? nout) then Err SizeMismatch
          else Ok (SplitOp.split_ op)
    end.
Proof.
  unfold SplitOp.select_axis_data, SplitOp.InputSize, SplitOp.Input1.
  destruct (SplitOp.split_tensor ins) as [st|]; reflexivity.
Qed.

Lemma select_axis_data_err (op : SplitOp.t) (ins : SplitOp.Inputs) (ic nout : Z)
      (e : Error) :
  SplitOp.select_axis_data op ins ic nout = Err e ->
  e = ConflictingConfiguration \/ e = SizeMismatch \/ e = IndivisibleSplit.
Proof.
  rewrite select_axis_data_cases.
  destruct (SplitOp.split_tensor ins) as [st|].
  - destruct (vsize (SplitOp.split_ op) =? 0); cbn [negb].
    + destruct (inumel st =? nout); cbn [negb]; intros H; inversion H; auto.
    + intros H; inversion H; auto.
  - destruct (vsize (SplitOp.split_ op) =? 0).
    + destruct (Z.rem ic nout =? 0); cbn [negb]; intros H; inversion H; auto.
    + destruct (vsize (SplitOp.split_ op) =? nout); cbn [negb];
        intros H; inversion H; auto.
Qed.

Lemma split_plan_axis_error (op : SplitOp.t) (ins : SplitOp.Inputs) (nout : Z) :
  is_AxisOutOfRange (split_plan op ins nout)
  = is_AxisOutOfRange (canonical_axis_index (SplitOp.X ins) (SplitOp.axis_ op)).
Proof.
  unfold split_plan.
  destruct (canonical_axis_index (SplitOp.X ins) (SplitOp.axis_ op)) as [c|e] eqn:Hc;
    cbn [rbind]; [|reflexivity].
  destruct (dim32 (SplitOp.X ins) c) as [ic|e] eqn:Hdim; cbn [rbind].
  2:{ rewrite (dim32_err _ _ _ Hdim). reflexivity. }
  destruct (SplitOp.select_axis_data op ins ic nout) as [ad|e] eqn:Hsel; cbn [rbind].
  2:{ destruct (select_axis_data_err _ _ _ _ _ Hsel) as [->|[->| ->]]; reflexivity. }
  destruct (split_total op ad nout =? ic); [|reflexivity].
  destruct (SplitOp.before_loop (SplitOp.X ins) c) as [b|e] eqn:Hb; cbn [rbind].
  2:{ rewrite (mul_loop_err _ _ _ _ Hb). reflexivity. }
  destruct (SplitOp.after_loop (SplitOp.X ins) c) as [a|e] eqn:Ha; cbn [rbind].
  2:{ rewrite (mul_loop_err _ _ _ _ Ha). reflexivity. }
  reflexivity.
Qed.

Lemma SplitOp_run_axis_error (op : SplitOp.t) (ins : SplitOp.Inputs)
      (outs : list Tensor) :
  is_AxisOutOfRange (snd (SplitOp.RunOnDevice op ins outs))
  = is_AxisOutOfRange (canonical_axis_index (SplitOp.X ins) (SplitOp.axis_ op)).
Proof.
  rewrite <- (split_plan_axis_error op ins (OutputSize outs)).
  pose proof (SplitOp_run_plan op ins outs) as H.
  destruct (split_plan op ins (OutputSize outs)) as [[[[[c ic] ad] b] a]|e].
  - destruct H as [outs' [H _]]. rewrite H. reflexivity.
  - rewrite H. reflexivity.
Qed.

(** ** C2: the range of the axis in Split *)

(** C2 (counterexample).  A rank-2 input split with [add_axis] along axis 2:
    the axis lies in [[0, rank + 1)], yet the run fails with AxisOutOfRange,
    so the claim does not hold. *)
Lemma split_add_axis_rank_plus_one_rejected :
  SplitOp.RunOnDevice (SplitOp.mk 2 1 [])
                      (SplitOp.mkInputs (mkTensor [2; 3] byte_meta (zeros 6)) None)
                      (fresh_outputs 3)
  = (fresh_outputs 3, Err AxisOutOfRange)
  /\ ~ split_add_axis_range_claim.
Proof.
  split; [reflexivity|].
  intros H.
  specialize (H (SplitOp.mk 2 1 [])
                (SplitOp.mkInputs (mkTensor [2; 3] byte_meta (zeros 6)) None)
                (fresh_outputs 3) eq_refl).
  vm_compute in H. discriminate H.
Qed.

(** C2 (amended).  Split resolves the axis against the rank of its input in
    both modes, with no add-axis adjustment: the run fails with
    AxisOutOfRange exactly when the canonical axis is outside [[0, rank)]. *)
Theorem split_axis_accepted_iff_below_rank :
  forall (op : SplitOp.t) (ins : SplitOp.Inputs) (outs : list Tensor),
    let rank := ndim (SplitOp.X ins) in
    let c := canonical_value rank (SplitOp.axis_ op) in
    is_AxisOutOfRange (snd (SplitOp.RunOnDevice op ins outs))
    = negb ((0 <=? c) && (c <? rank)).
Proof.
  intros op ins outs. cbv zeta. rewrite SplitOp_run_axis_error.
  unfold canonical_axis_index, canonical_axis_index_.
  destruct ((0 <=? canonical_value (ndim (SplitOp.X ins)) (SplitOp.axis_ op))
            && (canonical_value (ndim (SplitOp.X ins)) (SplitOp.axis_ op)
                <? ndim (SplitOp.X ins))); reflexivity.
Qed.

(** ** Sums and products computed on ints *)

Lemma fold_add_nowrap (l : list Z) (acc : Z) :
  0 <= acc -> Forall (fun d => 0 <= d) l -> acc + sumZ l <= Int32.INT_MAX ->
  fold_left Int32.add l acc = acc + sumZ l.
Proof.
  intros Hacc Hl. revert acc Hacc.
  induction Hl as [|d l Hd Hl IH]; intros acc Hacc Hs; cbn [fold_left sumZ fold_right].
  - lia.
  - fold (sumZ l) in *. cbn [sumZ fold_right] in Hs. fold (sumZ l) in Hs.
    pose proof (sumZ_nonneg l Hl) as Hnn.
    unfold Int32.add at 2. rewrite wrap_small by (unfold Int32.INT_MAX in *; lia).
    rewrite IH by lia. lia.
Qed.

Lemma accumulate_sum (p : list Z) (n : Z) :
  Forall (fun d => 0 <= d) (firstn (Z.to_nat n) p) ->
  sumZ (firstn (Z.to_nat n) p) <= Int32.INT_MAX ->
  accumulate p n = sumZ (firstn (Z.to_nat n) p).
Proof.
  intros Hnn Hs. unfold accumulate. rewrite fold_add_nowrap; try assumption; lia.
Qed.

Lemma sumZ_repeat (q : Z) (n : nat) : sumZ (repeat q n) = q * Z.of_nat n.
Proof.
  induction n as [|n IH]; cbn [repeat sumZ fold_right]; [lia|].
  fold (sumZ (repeat q n)). rewrite IH. lia.
Qed.

Lemma firstn_repeat_all {A : Type} (x : A) (n : nat) :
  firstn n (repeat x n) = repeat x n.
Proof. apply firstn_all2. rewrite repeat_length. lia. Qed.

Lemma at_repeat (q : Z) (n : nat) (k : Z) :
  0 <= k < Z.of_nat n -> at_ (repeat q n) k = q.
Proof. intros H. unfold at_. apply nth_repeat_lt. lia. Qed.

Lemma dim32_ok (t : Tensor) (i : Z) :
  shape_ok (sizes t) -> 0 <= i < ndim t ->
  dim32 t i = Ok (nth (Z.to_nat i) (sizes t) 0).
Proof.
  intros Hs Hi. unfold dim32, ndim in *.
  destruct (Z.ltb_spec i 0); [lia|].
  destruct (nth_error (sizes t) (Z.to_nat i)) as [s|] eqn:Hn.
  - rewrite (nth_error_nth _ _ 0 Hn).
    apply nth_error_In in Hn.
    unfold shape_ok in Hs. rewrite Forall_forall in Hs. specialize (Hs s Hn).
    destruct (Z.ltb_spec s Int32.INT_MAX); [reflexivity|lia].
  - apply nth_error_None in Hn. lia.
Qed.

Lemma shape_ok_nth (dims : list Z) (i : nat) :
  shape_ok dims -> 0 <= nth i dims 0 < Int32.INT_MAX.
Proof.
  intros Hs. destruct (Nat.ltb_spec i (length dims)) as [Hlt|Hge].
  - unfold shape_ok in Hs. rewrite Forall_forall in Hs.
    apply Hs. apply nth_In. exact Hlt.
  - rewrite nth_overflow by exact Hge. unfold Int32.INT_MAX. lia.
Qed.

Lemma mul_loop_total (t : Tensor) (idx : list Z) (acc : Z) :
  shape_ok (sizes t) -> (forall i, In i idx -> 0 <= i < ndim t) ->
  exists b,
    foldR (fun b i => rbind (dim32 t i) (fun d => Ok (Int32.mul b d))) idx acc = Ok b.
Proof.
  intros Hs. revert acc. induction idx as [|i idx IH]; intros acc Hidx; cbn [foldR].
  - exists acc. reflexivity.
  - rewrite dim32_ok by (try assumption; apply Hidx; left; reflexivity).
    cbn [rbind]. apply IH. intros j Hj. apply Hidx. right. exact Hj.
Qed.

Lemma before_loop_total (t : Tensor) (c : Z) :
  shape_ok (sizes t) -> 0 <= c < ndim t -> exists b, SplitOp.before_loop t c = Ok b.
Proof.
  intros Hs Hc. apply mul_loop_total; [exact Hs|].
  intros i Hi. apply in_range in Hi. lia.
Qed.

Lemma after_loop_total (t : Tensor) (c : Z) :
  shape_ok (sizes t) -> 0 <= c < ndim t -> exists a, SplitOp.after_loop t c = Ok a.
Proof.
  intros Hs Hc. apply mul_loop_total; [exact Hs|].
  intros i Hi. apply in_range in Hi. lia.
Qed.

Lemma fill_output_sizes (input : Tensor) (dims : list Z) (before cols off lda : Z)
      (output : Tensor) :
  sizes (fill_output input dims before cols off lda output) = dims.
Proof. reflexivity. Qed.

(** ** The equal split *)

Lemma select_axis_data_equal (op : SplitOp.t) (input : Tensor) (ic n : Z) :
  SplitOp.split_ op = [] ->
  SplitOp.select_axis_data op (SplitOp.mkInputs input None) ic n
  = if Z.rem ic n =? 0 then Ok (repeat (Z.quot ic n) (Z.to_nat n))
    else Err IndivisibleSplit.
Proof.
  intros Hs. rewrite select_axis_data_cases. cbn [SplitOp.split_tensor].
  rewrite Hs. cbn [vsize length Z.of_nat Z.eqb].
  destruct (Z.rem ic n =? 0); reflexivity.
Qed.

(** ** Split in add-axis mode *)

Lemma outputs_ext (l1 l2 : list Tensor) :
  length l1 = length l2 ->
  (forall k, 0 <= k < OutputSize l1 -> Output l1 k = Output l2 k) ->
  l1 = l2.
Proof.
  intros Hlen H. apply (nth_ext _ _ empty_tensor empty_tensor Hlen).
  intros n Hn. specialize (H (Z.of_nat n)). unfold Output, OutputSize in H.
  rewrite Nat2Z.id in H. apply H. lia.
Qed.

Lemma select_axis_data_supplied (op : SplitOp.t) (ins : SplitOp.Inputs) (ic n : Z) :
  spec_supplied op ins n = true ->
  exists axis_data, SplitOp.select_axis_data op ins ic n = Ok axis_data.
Proof.
  unfold spec_supplied. rewrite select_axis_data_cases.
  destruct (SplitOp.split_tensor ins) as [st|].
  - destruct (vsize (SplitOp.split_ op) =? 0); cbn [andb negb]; [|discriminate].
    intros ->. cbn [negb]. eexists. reflexivity.
  - destruct (vsize (SplitOp.split_ op) =? 0); cbn [andb negb]; [discriminate|].
    intros ->. cbn [negb]. eexists. reflexivity.
Qed.

Lemma add_axis_split_run (op : SplitOp.t) (ins : SplitOp.Inputs) (outs : list Tensor)
      (c ic : Z) :
  truthy (SplitOp.add_axis_ op) = true ->
  shape_ok (sizes (SplitOp.X ins)) ->
  canonical_axis_index (SplitOp.X ins) (SplitOp.axis_ op) = Ok c ->
  dim32 (SplitOp.X ins) c = Ok ic ->
  spec_supplied op ins (OutputSize outs) = true ->
  (OutputSize outs <> ic ->
   SplitOp.RunOnDevice op ins outs
   = (outs, Err (ShapeSumMismatch (OutputSize outs) ic))) /\
  (OutputSize outs = ic ->
   exists outs' before after,
     SplitOp.before_loop (SplitOp.X ins) c = Ok before
     /\ SplitOp.after_loop (SplitOp.X ins) c = Ok after
     /\ SplitOp.RunOnDevice op ins outs = (outs', Ok true)
     /\ length outs' = length outs
     /\ forall k, 0 <= k < OutputSize outs ->
          Output outs' k
          = fill_output (SplitOp.X ins) (verase (sizes (SplitOp.X ins)) c)
                        before (Int32.mul 1 after)
                        (slab_offset (SplitOp.X ins) after (fun _ => 1) k)
                        (Int32.mul ic after) (Output outs k)).
Proof.
  intros Hadd Hshape Hc Hdim Hsup.
  pose proof (canonical_axis_index__range _ _ _ Hc) as Hrange.
  destruct (select_axis_data_supplied op ins ic _ Hsup) as [ad Hsel].
  destruct (before_loop_total _ c Hshape Hrange) as [b Hb].
  destruct (after_loop_total _ c Hshape Hrange) as [a Ha].
  split.
  - intros Hne.
    pose proof (SplitOp_run_plan op ins outs) as H. unfold split_plan in H.
    rewrite Hc in H. cbn [rbind] in H. rewrite Hdim in H. cbn [rbind] in H.
    rewrite Hsel in H. cbn [rbind] in H.
    unfold split_total in H. rewrite Hadd in H.
    destruct (Z.eqb_spec (OutputSize outs) ic) as [E|E]; [contradiction|].
    exact H.
  - intros Heq.
    destruct (SplitOp_run op ins outs c ic b a ad) as [outs' [Hrun [Hlen Hout]]];
      try assumption.
    { unfold split_total. rewrite Hadd. exact Heq. }
    exists outs', b, a. repeat split; try assumption.
    intros k Hk. rewrite Hout by exact Hk.
    unfold split_output_dims, split_axis_dim. rewrite Hadd. reflexivity.
Qed.

(** ** C6: SplitByLengths *)

Lemma SplitByLengthsOp_run (op : SplitByLengthsOp.t) (ins : SplitByLengthsOp.Inputs)
      (outs : list Tensor) (c ic : Z) :
  let input := SplitByLengthsOp.X ins in
  let L := inumel (SplitByLengthsOp.lengths ins) in
  let axis_data := idata (SplitByLengthsOp.lengths ins) in
  let n := OutputSize outs in
  Z.rem L n = 0 ->
  canonical_axis_index input (SplitByLengthsOp.axis_ op) = Ok c ->
  dim32 input c = Ok ic ->
  (accumulate axis_data L <> ic ->
   SplitByLengthsOp.RunOnDevice op ins outs
   = (outs, Err (ShapeSumMismatch (accumulate axis_data L) ic))) /\
  (accumulate axis_data L = ic ->
   exists outs',
     SplitByLengthsOp.RunOnDevice op ins outs = (outs', Ok true)
     /\ length outs' = length outs
     /\ forall k, 0 <= k < n ->
          Output outs' k
          = fill_output input (vset (sizes input) c (lengths_axis_dim axis_data L n k))
                        (Int32.wrap (size_to_dim input c))
                        (Int32.mul (lengths_axis_dim axis_data L n k)
                                   (Int32.wrap (size_from_dim input (c + 1))))
                        (slab_offset input (Int32.wrap (size_from_dim input (c + 1)))
                                     (lengths_axis_dim axis_data L n) k)
                        (Int32.mul ic (Int32.wrap (size_from_dim input (c + 1))))
                        (Output outs k)).
Proof.
  cbv zeta. intros Hrem Hc Hdim.
  pose proof (canonical_axis_index__range _ _ _ Hc) as Hrange.
  assert (Hlt : (c <? ndim (SplitByLengthsOp.X ins)) = true) by lia.
  split.
  - intros Hne.
    unfold SplitByLengthsOp.RunOnDevice, bind, lift, gets, CAFFE_ENFORCE, ret, throw.
    rewrite Hrem. cbn [Z.eqb]. rewrite Hc, Hlt, Hdim.
    destruct (Z.eqb_spec (accumulate (idata (SplitByLengthsOp.lengths ins))
                                     (inumel (SplitByLengthsOp.lengths ins))) ic)
      as [E|E]; [contradiction|].
    reflexivity.
  - intros Heq.
    destruct (slab_loop_run (SplitByLengthsOp.X ins) c
                (Int32.wrap (size_to_dim (SplitByLengthsOp.X ins) c))
                (Int32.wrap (size_from_dim (SplitByLengthsOp.X ins) (c + 1))) ic
                (lengths_axis_dim (idata (SplitByLengthsOp.lengths ins))
                                  (inumel (SplitByLengthsOp.lengths ins))
                                  (OutputSize outs))
                (fun d i => vset d c
                   (lengths_axis_dim (idata (SplitByLengthsOp.lengths ins))
                                     (inumel (SplitByLengthsOp.lengths ins))
                                     (OutputSize outs) i))
                (sizes (SplitByLengthsOp.X ins)) Hdim (length outs) outs)
      as [outs' [Hrun [Hlen [Hdone _]]]]; [unfold OutputSize; lia|].
    assert (Hrun' :
      foldM (SplitByLengthsOp.output_step (SplitByLengthsOp.X ins)
               (idata (SplitByLengthsOp.lengths ins))
               (inumel (SplitByLengthsOp.lengths ins)) (OutputSize outs) c
               (Int32.wrap (size_to_dim (SplitByLengthsOp.X ins) c))
               (Int32.wrap (size_from_dim (SplitByLengthsOp.X ins) (c + 1))))
            (range 0 (OutputSize outs)) (sizes (SplitByLengthsOp.X ins), 0) outs
      = (outs',
         Ok (fold_left
               (fun d i => vset d c
                  (lengths_axis_dim (idata (SplitByLengthsOp.lengths ins))
                                    (inumel (SplitByLengthsOp.lengths ins))
                                    (OutputSize outs) i))
               (range 0 (OutputSize outs)) (sizes (SplitByLengthsOp.X ins)),
             slab_offset (SplitByLengthsOp.X ins)
               (Int32.wrap (size_from_dim (SplitByLengthsOp.X ins) (c + 1)))
               (lengths_axis_dim (idata (SplitByLengthsOp.lengths ins))
                                 (inumel (SplitByLengthsOp.lengths ins))
                                 (OutputSize outs))
               (OutputSize outs)))) by exact Hrun.
    exists outs'. split; [|split].
    + unfold SplitByLengthsOp.RunOnDevice, bind, lift, gets, CAFFE_ENFORCE, ret, throw.
      rewrite Hrem. cbn [Z.eqb]. rewrite Hc, Hlt, Hdim, Heq, Z.eqb_refl.
      rewrite Hrun'. reflexivity.
    + exact Hlen.
    + intros k Hk. unfold OutputSize in Hk. rewrite Hdone by lia.
      replace k with (Z.of_nat (Z.to_nat k)) at 1 by lia.
      rewrite (fold_vset_last c
                 (lengths_axis_dim (idata (SplitByLengthsOp.lengths ins))
                                   (inumel (SplitByLengthsOp.lengths ins))
                                   (OutputSize outs))).
      replace (Z.of_nat (Z.to_nat k)) with k by lia. reflexivity.
Qed.

Lemma Forall_firstn {A : Type} (P : A -> Prop) (n : nat) (l : list A) :
  Forall P l -> Forall P (firstn n l).
Proof.
  intros H. rewrite <- (firstn_skipn n l) in H. apply Forall_app in H. apply H.
Qed.

Lemma Forall_skipn {A : Type} (P : A -> Prop) (n : nat) (l : list A) :
  Forall P l -> Forall P (skipn n l).
Proof.
  intros H. rewrite <- (firstn_skipn n l) in H. apply Forall_app in H. apply H.
Qed.

Lemma sumZ_firstn_le (n : nat) (l : list Z) :
  Forall (fun d => 0 <= d) l -> 0 <= sumZ (firstn n l) <= sumZ l.
Proof.
  intros H. pose proof (sumZ_nonneg _ (Forall_firstn _ n l H)).
  pose proof (sumZ_nonneg _ (Forall_skipn _ n l H)).
  rewrite <- (firstn_skipn n l) at 3. rewrite sumZ_app. lia.
Qed.

Lemma sumZ_skipn_le (n : nat) (l : list Z) :
  Forall (fun d => 0 <= d) l -> 0 <= sumZ (skipn n l) <= sumZ l.
Proof.
  intros H. pose proof (sumZ_nonneg _ (Forall_firstn _ n l H)).
  pose proof (sumZ_nonneg _ (Forall_skipn _ n l H)).
  rewrite <- (firstn_skipn n l) at 3. rewrite sumZ_app. lia.
Qed.

Lemma lengths_axis_dim_group (axis_data : list Z) (n i : Z) :
  Forall (fun d => 0 <= d) axis_data ->
  sumZ axis_data <= Int32.INT_MAX ->
  0 < n -> 0 <= i ->
  lengths_axis_dim axis_data (vsize axis_data) n i = group_extent axis_data n i.
Proof.
  intros Hnn Hsum Hn Hi. unfold lengths_axis_dim, group_extent, group_of, group_size.
  assert (Hq : Z.quot (vsize axis_data) n = vsize axis_data / n).
  { apply Z.quot_div_nonneg; unfold vsize; lia. }
  rewrite Hq. replace (vsize axis_data / n * i) with (i * (vsize axis_data / n)) by lia.
  apply accumulate_sum.
  - apply Forall_firstn, Forall_skipn, Hnn.
  - pose proof (sumZ_firstn_le (Z.to_nat (vsize axis_data / n))
                               (skipn (Z.to_nat (i * (vsize axis_data / n))) axis_data)
                               (Forall_skipn _ _ _ Hnn)).
    pose proof (sumZ_skipn_le (Z.to_nat (i * (vsize axis_data / n))) axis_data Hnn).
    lia.
Qed.

(** C6.  SplitByLengths fails with SizeMismatch unless the number of lengths
    is a multiple of the number of outputs; otherwise it fails with
    ShapeSumMismatch unless the lengths sum to the extent of the input at
    the axis, and else succeeds with output [i] resized, at the axis, to the
    sum of the run [lengths[i * g .. (i + 1) * g)], [g] being the number of
    lengths divided by the number of outputs. *)
Theorem split_by_lengths_groups :
  forall (op : SplitByLengthsOp.t) (input : Tensor) (lengths : IntTensor)
         (outs : list Tensor),
    let ins := SplitByLengthsOp.mkInputs input lengths in
    let n := OutputSize outs in
    0 < n ->
    (Z.rem (inumel lengths) n <> 0 ->
     SplitByLengthsOp.RunOnDevice op ins outs = (outs, Err SizeMismatch)) /\
    (Z.rem (inumel lengths) n = 0 ->
     forall c ic,
       canonical_axis_index input (SplitByLengthsOp.axis_ op) = Ok c ->
       dim32 input c = Ok ic ->
       inumel lengths = vsize (idata lengths) ->
       Forall (fun d => 0 <= d) (idata lengths) ->
       sumZ (idata lengths) <= Int32.INT_MAX ->
       (sumZ (idata lengths) <> ic ->
        SplitByLengthsOp.RunOnDevice op ins outs
        = (outs, Err (ShapeSumMismatch (sumZ (idata lengths)) ic))) /\
       (sumZ (idata lengths) = ic ->
        exists outs',
          SplitByLengthsOp.RunOnDevice op ins outs = (outs', Ok true)
          /\ length outs' = length outs
          /\ forall i, 0 <= i < n ->
               sizes (Output outs' i)
               = vset (sizes input) c (group_extent (idata lengths) n i))).
Proof.
  intros op input lengths outs ins n Hn. split.
  - intros Hrem.
    unfold SplitByLengthsOp.RunOnDevice, bind, lift, gets, CAFFE_ENFORCE, ret, throw.
    cbn [SplitByLengthsOp.lengths ins]. fold n.
    destruct (Z.eqb_spec (Z.rem (inumel lengths) n) 0) as [E|E]; [contradiction|].
    reflexivity.
  - intros Hrem c ic Hc Hdim Hlen Hnn Hsum.
    destruct (SplitByLengthsOp_run op ins outs c ic Hrem Hc Hdim) as [Hbad Hgood].
    cbn [SplitByLengthsOp.lengths SplitByLengthsOp.X ins] in Hbad, Hgood.
    assert (Hacc : accumulate (idata lengths) (inumel lengths) = sumZ (idata lengths)).
    { rewrite Hlen. unfold vsize. rewrite accumulate_sum;
        rewrite Nat2Z.id, firstn_all; try assumption. reflexivity. }
    rewrite Hacc in Hbad, Hgood. split; [exact Hbad|].
    intros Heq. destruct (Hgood Heq) as [outs' [Hrun [Hl Hout]]].
    exists outs'. split; [exact Hrun|]. split; [exact Hl|].
    intros i Hi. rewrite Hout by exact Hi. rewrite fill_output_sizes.
    rewrite Hlen. fold n. rewrite lengths_axis_dim_group; try assumption; try lia.
    reflexivity.
Qed.

(** C6 on the example of the specification: lengths [[1, 1, 2, 2]], two
    outputs, extent 6 at the axis. *)
Lemma split_by_lengths_groups_witness :
  exists outs',
    SplitByLengthsOp.RunOnDevice (SplitByLengthsOp.mk 0)
      (SplitByLengthsOp.mkInputs (mkTensor [6; 1] byte_meta (zeros 6))
                                 (mkIntTensor [4] [1; 1; 2; 2]))
      (fresh_outputs 2)
    = (outs', Ok true)
    /\ sizes (Output outs' 0) = [2; 1]
    /\ sizes (Output outs' 1) = [4; 1].
Proof.
  destruct (split_by_lengths_groups (SplitByLengthsOp.mk 0)
              (mkTensor [6; 1] byte_meta (zeros 6)) (mkIntTensor [4] [1; 1; 2; 2])
              (fresh_outputs 2) eq_refl) as [_ H].
  assert (Hnn : Forall (fun d => 0 <= d) [1; 1; 2; 2]) by (repeat constructor; lia).
  assert (Hs : sumZ [1; 1; 2; 2] <= Int32.INT_MAX) by (vm_compute; discriminate).
  destruct (H eq_refl 0 6 eq_refl eq_refl eq_refl Hnn Hs) as [_ H'].
  destruct (H' eq_refl) as [outs' [Hrun [_ Hout]]].
  exists outs'. split; [exact Hrun|]. split.
  - apply (Hout 0). vm_compute. split; [discriminate|reflexivity].
  - apply (Hout 1). vm_compute. split; [discriminate|reflexivity].
Defined.

(** ** Runs of Concat *)

Lemma Input_ok (inputs : list Tensor) (i : Z) :
  0 <= i < vsize inputs ->
  Input inputs i = Ok (nth (Z.to_nat i) inputs empty_tensor).
Proof.
  intros H. unfold Input, vsize in *. destruct (Z.ltb_spec i 0); [lia|].
  destruct (nth_error inputs (Z.to_nat i)) as [t|] eqn:Hn.
  - rewrite (nth_error_nth _ _ empty_tensor Hn). reflexivity.
  - apply nth_error_None in Hn. lia.
Qed.

Lemma Input_inv (inputs : list Tensor) (i : Z) (t : Tensor) :
  Input inputs i = Ok t ->
  0 <= i < vsize inputs /\ t = nth (Z.to_nat i) inputs empty_tensor /\ In t inputs.
Proof.
  unfold Input, vsize. destruct (Z.ltb_spec i 0); [discriminate|].
  destruct (nth_error inputs (Z.to_nat i)) as [t'|] eqn:Hn; [|discriminate].
  intros Heq. inversion Heq; subst t'.
  assert (Hlt : (Z.to_nat i < length inputs)%nat).
  { apply nth_error_Some. rewrite Hn. discriminate. }
  split; [lia|]. split.
  - symmetry. apply nth_error_nth. exact Hn.
  - apply nth_error_In in Hn. exact Hn.
Qed.

Lemma Input_err (inputs : list Tensor) (i : Z) (e : Error) :
  Input inputs i = Err e -> e = TensorAccessError.
Proof.
  unfold Input. destruct (i <? 0); [intros H; inversion H; reflexivity|].
  destruct (nth_error inputs (Z.to_nat i)); intros H; inversion H; reflexivity.
Qed.

(** The channel loop (lines 302-305) writes only the data of [split]. *)
Lemma channels_loop_frame (op : ConcatOp.t) (inputs : list Tensor) (c : Z)
      (idx : list Z) (acc : Z) (s : ConcatOp.Outputs) :
  exists s' r,
    foldM (ConcatOp.channels_step op inputs c) idx acc s = (s', r)
    /\ ConcatOp.output s' = ConcatOp.output s
    /\ isizes (ConcatOp.split s') = isizes (ConcatOp.split s)
    /\ length (idata (ConcatOp.split s')) = length (idata (ConcatOp.split s))
    /\ (forall e, r = Err e -> e = TensorAccessError)
    /\ (forall oc, r = Ok oc ->
          forall i, In i idx -> is_ok (concat_axis_dim op inputs c i) = true).
Proof.
  revert acc s. induction idx as [|i idx IH]; intros acc s; cbn [foldM].
  - exists s, (Ok acc). repeat split; try reflexivity.
    + intros e H. discriminate H.
    + intros oc _ i Hi. destruct Hi.
  - unfold bind, ConcatOp.channels_step at 1, bind, lift, modify, gets, ret.
    fold (concat_axis_dim op inputs c i).
    destruct (concat_axis_dim op inputs c i) as [v|e] eqn:Hv.
    + match goal with
      | |- context [foldM _ idx ?a ?st] =>
          destruct (IH a st) as [s' [r [Hrun [Ho [Hs [Hl [He Hok]]]]]]]
      end.
      exists s', r. rewrite Hrun. cbn in Ho, Hs, Hl.
      split; [reflexivity|]. split; [exact Ho|]. split; [exact Hs|].
      split; [rewrite Hl; apply vset_length|]. split; [exact He|].
      intros oc Hr j [Hj|Hj]; [subst j; rewrite Hv; reflexivity|].
      apply (Hok oc Hr j Hj).
    + exists s, (Err e). repeat split; try reflexivity.
      * intros e' H. inversion H; subst e'. unfold concat_axis_dim in Hv.
        destruct (truthy (ConcatOp.add_axis_ op)); [discriminate|].
        destruct (Input inputs i) as [t|e0] eqn:Hin; cbn [rbind] in Hv.
        -- apply (dim32_err _ _ _ Hv).
        -- inversion Hv; subst. apply (Input_err _ _ _ Hin).
      * intros oc H. discriminate H.
Qed.

(** The copy loop (lines 313-328) cannot fail once the channel loop has
    passed, and writes only output 0. *)
Lemma copy_loop_total (op : ConcatOp.t) (inputs : list Tensor) (input_zero : Tensor)
      (c before after oc : Z) (idx : list Z) (acc : Z) (s : ConcatOp.Outputs) :
  (forall i, In i idx -> 0 <= i < vsize inputs) ->
  (forall i, In i idx -> is_ok (concat_axis_dim op inputs c i) = true) ->
  exists s' off,
    foldM (ConcatOp.copy_step op inputs input_zero c before after oc) idx acc s
    = (s', Ok off)
    /\ ConcatOp.split s' = ConcatOp.split s.
Proof.
  revert acc s. induction idx as [|i idx IH]; intros acc s Hin Hok; cbn [foldM].
  - exists s, acc. split; reflexivity.
  - unfold bind, ConcatOp.copy_step at 1, bind, lift, modify, ret.
    rewrite Input_ok by (apply Hin; left; reflexivity).
    pose proof (Hok i (or_introl eq_refl)) as Hi. unfold concat_axis_dim in Hi.
    rewrite Input_ok in Hi by (apply Hin; left; reflexivity). cbn [rbind] in Hi.
    destruct (truthy (ConcatOp.add_axis_ op)).
    + match goal with
      | |- context [foldM _ idx ?a ?st] =>
          destruct (IH a st) as [s' [off [Hrun Hs]]]
      end; [intros j Hj; apply Hin; right; exact Hj
           |intros j Hj; apply Hok; right; exact Hj|].
      exists s', off. rewrite Hrun. split; [reflexivity|exact Hs].
    + destruct (dim32 (nth (Z.to_nat i) inputs empty_tensor) c) as [d|e];
        [|discriminate Hi].
      match goal with
      | |- context [foldM _ idx ?a ?st] =>
          destruct (IH a st) as [s' [off [Hrun Hs]]]
      end; [intros j Hj; apply Hin; right; exact Hj
           |intros j Hj; apply Hok; right; exact Hj|].
      exists s', off. rewrite Hrun. split; [reflexivity|exact Hs].
Qed.

Lemma ConcatOp_run_plan_err (op : ConcatOp.t) (inputs : list Tensor)
      (s : ConcatOp.Outputs) (e : Error) :
  concat_plan op inputs = Err e ->
  ConcatOp.RunOnDevice op inputs s = (split_resized inputs s, Err e).
Proof.
  unfold concat_plan, ConcatOp.RunOnDevice, bind, lift, modify, CAFFE_ENFORCE, ret.
  fold (split_resized inputs s).
  destruct (Input inputs 0) as [t0|e0]; cbn [rbind]; [|intros H; inversion H; reflexivity].
  destruct (canonical_axis_index_ (ConcatOp.axis_ op)
              (Int32.add (ndim t0) (if truthy (ConcatOp.add_axis_ op) then 1 else 0)))
    as [c|e0] eqn:Hc; cbn [rbind]; [|intros H; inversion H; reflexivity].
  apply canonical_axis_index__range in Hc.
  rewrite (proj2 (Z.ltb_lt c _)) by lia.
  destruct (ConcatOp.check_types inputs t0) as [u|e0]; cbn [rbind];
    [|intros H; inversion H; reflexivity].
  destruct (ConcatOp.dims_loop op inputs t0 c) as [ba|e0]; cbn [rbind];
    [|intros H; inversion H; reflexivity].
  intros H. discriminate H.
Qed.

Lemma channels_loop_total (op : ConcatOp.t) (inputs : list Tensor) (c : Z)
      (idx : list Z) (acc : Z) (s : ConcatOp.Outputs) :
  (forall i, In i idx -> is_ok (concat_axis_dim op inputs c i) = true) ->
  exists s' oc,
    foldM (ConcatOp.channels_step op inputs c) idx acc s = (s', Ok oc)
    /\ ConcatOp.output s' = ConcatOp.output s.
Proof.
  revert acc s. induction idx as [|i idx IH]; intros acc s Hok; cbn [foldM].
  - exists s, acc. split; reflexivity.
  - unfold bind, ConcatOp.channels_step at 1, bind, lift, modify, gets, ret.
    fold (concat_axis_dim op inputs c i).
    pose proof (Hok i (or_introl eq_refl)) as Hi.
    destruct (concat_axis_dim op inputs c i) as [v|e]; [|discriminate Hi].
    match goal with
    | |- context [foldM _ idx ?a ?st] =>
        destruct (IH a st) as [s' [oc [Hrun Ho]]]
    end; [intros j Hj; apply Hok; right; exact Hj|].
    exists s', oc. rewrite Hrun. split; [reflexivity|exact Ho].
Qed.

Lemma ConcatOp_run_plan_ok (op : ConcatOp.t) (inputs : list Tensor)
      (s : ConcatOp.Outputs) (input_zero : Tensor) (c before after : Z) :
  concat_plan op inputs = Ok (input_zero, c, before, after) ->
  ConcatOp.RunOnDevice op inputs s
  = match foldM (ConcatOp.channels_step op inputs c) (range 0 (vsize inputs)) 0
                (split_resized inputs s) with
    | (s1, Err e) => (s1, Err e)
    | (s1, Ok output_channels) =>
        let output_dims :=
          if truthy (ConcatOp.add_axis_ op)
          then vinsert (sizes input_zero) c output_channels
          else vset (sizes input_zero) c output_channels in
        match foldM (ConcatOp.copy_step op inputs input_zero c before after
                                        output_channels)
                    (range 0 (vsize inputs)) 0
                    (ConcatOp.set_output (fun o => Resize o output_dims) s1) with
        | (s2, Err e) => (s2, Err e)
        | (s2, Ok _) => (s2, Ok true)
        end
    end.
Proof.
  unfold concat_plan, ConcatOp.RunOnDevice, bind, lift, modify, CAFFE_ENFORCE, ret.
  fold (split_resized inputs s).
  destruct (Input inputs 0) as [t0|e0]; cbn [rbind]; [|discriminate].
  destruct (canonical_axis_index_ (ConcatOp.axis_ op)
              (Int32.add (ndim t0) (if truthy (ConcatOp.add_axis_ op) then 1 else 0)))
    as [c0|e0] eqn:Hc; cbn [rbind]; [|discriminate].
  apply canonical_axis_index__range in Hc.
  rewrite (proj2 (Z.ltb_lt c0 _)) by lia.
  destruct (ConcatOp.check_types inputs t0) as [u|e0]; cbn [rbind]; [|discriminate].
  destruct (ConcatOp.dims_loop op inputs t0 c0) as [[b a]|e0]; cbn [rbind fst snd];
    [|discriminate].
  intros H. inversion H; subst. reflexivity.
Qed.

(** ** C3: what a failed Concat run leaves behind *)

(** C3 (counterexample).  Concat of shapes [[2, 3]] and [[2, 4]] along axis 0
    fails with ShapeMismatch, and the [split] output, of shape [[0]] before
    the run, has shape [[2]] after it. *)
Lemma concat_failure_resizes_split :
  (let r := ConcatOp.RunOnDevice (ConcatOp.mk 0 0)
              [mkTensor [2; 3] byte_meta (zeros 6); mkTensor [2; 4] byte_meta (zeros 8)]
              fresh_concat_outputs in
   snd r = Err (ShapeMismatch 3 4 1 1 0 [2; 3] [2; 4])
   /\ isizes (ConcatOp.split fresh_concat_outputs) = [0]
   /\ isizes (ConcatOp.split (fst r)) = [2])
  /\ ~ concat_failure_leaves_outputs_claim.
Proof.
  split; [repeat split; reflexivity|].
  intros H.
  specialize (H (ConcatOp.mk 0 0)
                [mkTensor [2; 3] byte_meta (zeros 6); mkTensor [2; 4] byte_meta (zeros 8)]
                fresh_concat_outputs _ _ eq_refl).
  discriminate H.
Qed.

(** C3 (amended).  A failed Concat run leaves output 0 as it was; [split]
    has been resized to one entry per input (line 248 runs before every
    check), and for every failure of the validation (axis, types, shapes)
    nothing else has been written. *)
Theorem concat_failure_keeps_output_resizes_split :
  forall (op : ConcatOp.t) (inputs : list Tensor) (s s' : ConcatOp.Outputs) (e : Error),
    ConcatOp.RunOnDevice op inputs s = (s', Err e) ->
    ConcatOp.output s' = ConcatOp.output s
    /\ isizes (ConcatOp.split s') = [vsize inputs]
    /\ (e <> TensorAccessError -> s' = split_resized inputs s).
Proof.
  intros op inputs s s' e Hrun.
  destruct (concat_plan op inputs) as [[[[t0 c] b] a]|e0] eqn:Hplan.
  - rewrite (ConcatOp_run_plan_ok _ _ _ _ _ _ _ Hplan) in Hrun.
    destruct (channels_loop_frame op inputs c (range 0 (vsize inputs)) 0
                                  (split_resized inputs s))
      as [s1 [r [Hch [Ho [Hs [_ [He Hok]]]]]]].
    rewrite Hch in Hrun. destruct r as [oc|e1].
    + cbv zeta in Hrun.
      match type of Hrun with
      | context [foldM ?f ?idx ?acc0 ?st] =>
          destruct (copy_loop_total op inputs t0 c b a oc idx acc0 st)
            as [s2 [off [Hcp _]]]
      end.
      * intros i Hi. apply in_range in Hi. exact Hi.
      * apply (Hok oc eq_refl).
      * rewrite Hcp in Hrun. discriminate Hrun.
    + inversion Hrun; subst s' e. split; [exact Ho|]. split; [exact Hs|].
      intros Hne. exfalso. apply Hne. apply (He e1 eq_refl).
  - rewrite (ConcatOp_run_plan_err _ _ s _ Hplan) in Hrun.
    inversion Hrun; subst s' e. repeat split.
Qed.

(** C3 (amended) on the run of the counterexample. *)
Lemma concat_failure_keeps_output_resizes_split_witness :
  ConcatOp.output
    (fst (ConcatOp.RunOnDevice (ConcatOp.mk 0 0)
            [mkTensor [2; 3] byte_meta (zeros 6); mkTensor [2; 4] byte_meta (zeros 8)]
            fresh_concat_outputs))
  = ConcatOp.output fresh_concat_outputs
  /\ isizes (ConcatOp.split
       (fst (ConcatOp.RunOnDevice (ConcatOp.mk 0 0)
               [mkTensor [2; 3] byte_meta (zeros 6); mkTensor [2; 4] byte_meta (zeros 8)]
               fresh_concat_outputs)))
     = [2].
Proof.
  destruct (concat_failure_keeps_output_resizes_split (ConcatOp.mk 0 0)
              [mkTensor [2; 3] byte_meta (zeros 6); mkTensor [2; 4] byte_meta (zeros 8)]
              fresh_concat_outputs _ _ eq_refl) as [H1 [H2 _]].
  split; [exact H1|exact H2].
Defined.

(** ** C4: the shape check of Concat *)

Lemma range_shift (lo hi k : Z) :
  range (lo + k) (hi + k) = map (fun x => x + k) (range lo hi).
Proof.
  unfold range. replace (hi + k - (lo + k)) with (hi - lo) by lia.
  rewrite map_map. apply map_ext. intros n. lia.
Qed.

Lemma map_nth_range (l : list Tensor) :
  map (fun j => nth (Z.to_nat j) l empty_tensor) (range 0 (vsize l)) = l.
Proof.
  induction l as [|x l IH]; [reflexivity|].
  unfold vsize in *. cbn [length].
  rewrite range_cons by lia. cbn [map]. f_equal.
  replace (Z.of_nat (S (length l))) with (Z.of_nat (length l) + 1) by lia.
  rewrite (range_shift 0 (Z.of_nat (length l)) 1), map_map.
  rewrite <- IH at 2. apply map_ext_in. intros j Hj. apply in_range in Hj.
  replace (Z.to_nat (j + 1)) with (S (Z.to_nat j)) by lia. reflexivity.
Qed.

Lemma map_nth_range_tl (l : list Tensor) :
  map (fun j => nth (Z.to_nat j) l empty_tensor) (range 1 (vsize l)) = tl l.
Proof.
  destruct l as [|x l]; [reflexivity|].
  unfold vsize. cbn [length tl].
  replace (Z.of_nat (S (length l))) with (Z.of_nat (length l) + 1) by lia.
  replace (range 1 (Z.of_nat (length l) + 1))
    with (map (fun x => x + 1) (range 0 (Z.of_nat (length l))))
    by (symmetry; apply (range_shift 0 (Z.of_nat (length l)) 1)).
  rewrite map_map.
  rewrite <- (map_nth_range l) at 2. apply map_ext_in. intros j Hj.
  apply in_range in Hj.
  replace (Z.to_nat (j + 1)) with (S (Z.to_nat j)) by lia. reflexivity.
Qed.

Lemma forallb_map_comp {A B : Type} (f : B -> bool) (g : A -> B) (l : list A) :
  forallb f (map g l) = forallb (fun x => f (g x)) l.
Proof.
  induction l as [|x l IH]; [reflexivity|]. cbn [map forallb]. rewrite IH. reflexivity.
Qed.

Lemma agree_at_range (inputs : list Tensor) (i d : Z) :
  agree_at inputs i d
  = forallb (fun j => nth (Z.to_nat i)
                          (sizes (nth (Z.to_nat j) inputs empty_tensor)) 0 =? d)
            (range 1 (vsize inputs)).
Proof.
  unfold agree_at. rewrite <- (map_nth_range_tl inputs).
  apply forallb_map_comp.
Qed.

Lemma foldR_unit_ok (body : unit -> Z -> result unit) (idx : list Z) :
  (forall i, In i idx -> body tt i = Ok tt) -> foldR body idx tt = Ok tt.
Proof.
  induction idx as [|i idx IH]; intros H; cbn [foldR]; [reflexivity|].
  rewrite H by (left; reflexivity). cbn [rbind].
  apply IH. intros j Hj. apply H. right. exact Hj.
Qed.

Lemma nth_inputs_In (inputs : list Tensor) (j : Z) :
  0 <= j < vsize inputs -> In (nth (Z.to_nat j) inputs empty_tensor) inputs.
Proof. intros H. apply nth_In. unfold vsize in H. lia. Qed.

Lemma check_types_ok (inputs : list Tensor) (input_zero : Tensor) :
  (forall t, In t inputs -> TypeMeta_eqb (dtype t) (dtype input_zero) = true) ->
  ConcatOp.check_types inputs input_zero = Ok tt.
Proof.
  intros H. unfold ConcatOp.check_types. apply foldR_unit_ok.
  intros i Hi. apply in_range in Hi.
  rewrite Input_ok by lia. cbn [rbind].
  rewrite H by (apply nth_inputs_In; lia). reflexivity.
Qed.

Section ConcatShapes.
Variables (op : ConcatOp.t) (inputs : list Tensor) (input_zero : Tensor) (c : Z).
Hypothesis Hzero_shape : shape_ok (sizes input_zero).
Hypothesis Hreadable :
  forall t, In t inputs -> shape_ok (sizes t) /\ ndim input_zero <= ndim t.

Let ext (j i : Z) : Z :=
  nth (Z.to_nat i) (sizes (nth (Z.to_nat j) inputs empty_tensor)) 0.

Lemma check_dim_idx (i dim : Z) (idx : list Z) :
  0 <= i < ndim input_zero ->
  (forall j, In j idx -> 1 <= j < vsize inputs) ->
  (forallb (fun j => ext j i =? dim) idx = true
   /\ foldR (fun (_ : unit) j =>
               rbind (Input inputs j) (fun input_j =>
               rbind (dim32 input_j i) (fun dim_j =>
                 if dim =? dim_j then Ok tt
                 else Err (ShapeMismatch dim dim_j i j c
                                         (sizes input_zero) (sizes input_j)))))
            idx tt = Ok tt)
  \/ (forallb (fun j => ext j i =? dim) idx = false
      /\ exists j, 1 <= j < vsize inputs /\ ext j i <> dim
         /\ foldR (fun (_ : unit) j =>
               rbind (Input inputs j) (fun input_j =>
               rbind (dim32 input_j i) (fun dim_j =>
                 if dim =? dim_j then Ok tt
                 else Err (ShapeMismatch dim dim_j i j c
                                         (sizes input_zero) (sizes input_j)))))
            idx tt
            = Err (ShapeMismatch dim (ext j i) i j c (sizes input_zero)
                     (sizes (nth (Z.to_nat j) inputs empty_tensor)))).
Proof.
  intros Hi. induction idx as [|j idx IH]; intros Hidx; cbn [foldR forallb].
  - left. split; reflexivity.
  - assert (Hj : 1 <= j < vsize inputs) by (apply Hidx; left; reflexivity).
    rewrite Input_ok by lia. cbn [rbind].
    destruct (Hreadable _ (nth_inputs_In inputs j ltac:(lia))) as [Hs Hr].
    rewrite dim32_ok by (try assumption; lia). cbn [rbind]. fold (ext j i).
    destruct (Z.eqb_spec dim (ext j i)) as [E|E].
    + rewrite <- E, Z.eqb_refl. cbn [andb].
      apply IH. intros k Hk. apply Hidx. right. exact Hk.
    + right. split.
      * destruct (Z.eqb_spec (ext j i) dim); [congruence|reflexivity].
      * exists j. split; [exact Hj|]. split; [congruence|reflexivity].
Qed.

Lemma check_dim_spec (i dim : Z) :
  0 <= i < ndim input_zero ->
  (agree_at inputs i dim = true
   /\ ConcatOp.check_dim inputs input_zero c i dim = Ok tt)
  \/ (agree_at inputs i dim = false
      /\ exists j, 1 <= j < vsize inputs /\ ext j i <> dim
         /\ ConcatOp.check_dim inputs input_zero c i dim
            = Err (ShapeMismatch dim (ext j i) i j c (sizes input_zero)
                     (sizes (nth (Z.to_nat j) inputs empty_tensor)))).
Proof.
  intros Hi. rewrite agree_at_range. unfold ConcatOp.check_dim.
  apply (check_dim_idx i dim (range 1 (vsize inputs)) Hi).
  intros j Hj. apply in_range in Hj. exact Hj.
Qed.

Lemma dims_loop_idx (idx : list Z) (acc : Z * Z) :
  (forall i, In i idx -> 0 <= i < ndim input_zero) ->
  (forallb (fun i => negb (dim_checked op c i)
                     || agree_at inputs i (nth (Z.to_nat i) (sizes input_zero) 0))
           idx = true
   /\ exists ba, foldR (ConcatOp.dims_step op inputs input_zero c) idx acc = Ok ba)
  \/ (forallb (fun i => negb (dim_checked op c i)
                        || agree_at inputs i (nth (Z.to_nat i) (sizes input_zero) 0))
              idx = false
      /\ exists i j,
           0 <= i < ndim input_zero /\ dim_checked op c i = true
           /\ 1 <= j < vsize inputs
           /\ ext j i <> nth (Z.to_nat i) (sizes input_zero) 0
           /\ foldR (ConcatOp.dims_step op inputs input_zero c) idx acc
              = Err (ShapeMismatch (nth (Z.to_nat i) (sizes input_zero) 0) (ext j i)
                       i j c (sizes input_zero)
                       (sizes (nth (Z.to_nat j) inputs empty_tensor)))).
Proof.
  revert acc. induction idx as [|i idx IH]; intros [before after] Hidx;
    cbn [foldR forallb].
  - left. split; [reflexivity|]. eexists. reflexivity.
  - assert (Hi : 0 <= i < ndim input_zero) by (apply Hidx; left; reflexivity).
    assert (Hrest : forall k, In k idx -> 0 <= k < ndim input_zero)
      by (intros k Hk; apply Hidx; right; exact Hk).
    unfold ConcatOp.dims_step at 1 3. unfold dim_checked at 1 3.
    destruct ((i =? c) && negb (truthy (ConcatOp.add_axis_ op))) eqn:Echk;
      cbn [negb orb rbind].
    + apply IH. exact Hrest.
    + rewrite dim32_ok by assumption. cbn [rbind].
      destruct (check_dim_spec i (nth (Z.to_nat i) (sizes input_zero) 0) Hi)
        as [[Hag Hck]|[Hag [j [Hj [Hne Hck]]]]]; rewrite Hag, Hck; cbn [rbind andb].
      * apply IH. exact Hrest.
      * right. split; [reflexivity|]. exists i, j.
        split; [exact Hi|]. split.
        { unfold dim_checked. rewrite Echk. reflexivity. }
        split; [exact Hj|]. split; [exact Hne|reflexivity].
Qed.

End ConcatShapes.

Lemma concat_axis_dim_ok (op : ConcatOp.t) (inputs : list Tensor) (input_zero : Tensor)
      (c i : Z) :
  (forall t, In t inputs -> shape_ok (sizes t) /\ ndim input_zero <= ndim t) ->
  (truthy (ConcatOp.add_axis_ op) = false -> 0 <= c < ndim input_zero) ->
  0 <= i < vsize inputs ->
  concat_axis_dim op inputs c i
  = Ok (if truthy (ConcatOp.add_axis_ op) then 1
        else nth (Z.to_nat c) (sizes (nth (Z.to_nat i) inputs empty_tensor)) 0).
Proof.
  intros Hread Hc Hi. unfold concat_axis_dim.
  destruct (truthy (ConcatOp.add_axis_ op)); [reflexivity|].
  rewrite Input_ok by exact Hi. cbn [rbind].
  destruct (Hread _ (nth_inputs_In inputs i Hi)) as [Hs Hr].
  specialize (Hc eq_refl). apply dim32_ok; [exact Hs|lia].
Qed.

Lemma ConcatOp_run_total (op : ConcatOp.t) (inputs : list Tensor)
      (s : ConcatOp.Outputs) (input_zero : Tensor) (c before after : Z) :
  concat_plan op inputs = Ok (input_zero, c, before, after) ->
  (forall i, 0 <= i < vsize inputs -> is_ok (concat_axis_dim op inputs c i) = true) ->
  exists s', ConcatOp.RunOnDevice op inputs s = (s', Ok true).
Proof.
  intros Hplan Hok. rewrite (ConcatOp_run_plan_ok _ _ _ _ _ _ _ Hplan).
  destruct (channels_loop_total op inputs c (range 0 (vsize inputs)) 0
                                (split_resized inputs s))
    as [s1 [oc [Hch _]]].
  { intros i Hi. apply in_range in Hi. apply Hok. exact Hi. }
  rewrite Hch. cbv zeta.
  match goal with
  | |- context [foldM ?f ?idx ?acc0 ?st] =>
      destruct (copy_loop_total op inputs input_zero c before after oc idx acc0 st)
        as [s2 [off [Hcp _]]]
  end.
  - intros i Hi. apply in_range in Hi. exact Hi.
  - intros i Hi. apply in_range in Hi. apply Hok. exact Hi.
  - rewrite Hcp. exists s2. reflexivity.
Qed.

(** C4.  Once the axis has resolved and the types agree, Concat succeeds
    exactly when every input has the extent of input 0 at every dimension
    other than the canonical axis (at every dimension of input 0 under
    add-axis); otherwise it fails with ShapeMismatch, and the error carries
    the two extents that differ, their dimension, the input, and the shapes
    of input 0 and of that input. *)
Theorem concat_shape_mismatch :
  forall (op : ConcatOp.t) (inputs : list Tensor) (input_zero : Tensor) (c : Z)
         (s : ConcatOp.Outputs),
    Input inputs 0 = Ok input_zero ->
    ndim input_zero < Int32.INT_MAX ->
    canonical_axis_index_ (ConcatOp.axis_ op)
      (ndim input_zero + (if truthy (ConcatOp.add_axis_ op) then 1 else 0)) = Ok c ->
    (forall t, In t inputs ->
       TypeMeta_eqb (dtype t) (dtype input_zero) = true
       /\ shape_ok (sizes t) /\ ndim input_zero <= ndim t) ->
    (shapes_agree op inputs input_zero c = true ->
     exists s', ConcatOp.RunOnDevice op inputs s = (s', Ok true)) /\
    (shapes_agree op inputs input_zero c = false ->
     exists i j input_j,
       0 <= i < ndim input_zero /\ dim_checked op c i = true
       /\ Input inputs j = Ok input_j
       /\ nth (Z.to_nat i) (sizes input_j) 0 <> nth (Z.to_nat i) (sizes input_zero) 0
       /\ ConcatOp.RunOnDevice op inputs s
          = (split_resized inputs s,
             Err (ShapeMismatch (nth (Z.to_nat i) (sizes input_zero) 0)
                                (nth (Z.to_nat i) (sizes input_j) 0)
                                i j c (sizes input_zero) (sizes input_j)))).
Proof.
  intros op inputs t0 c s Hin Hrank Hc Hall.
  destruct (Input_inv _ _ _ Hin) as [_ [_ Hin0]].
  assert (Hread : forall t, In t inputs -> shape_ok (sizes t) /\ ndim t0 <= ndim t)
    by (intros t Ht; destruct (Hall t Ht) as [_ H]; exact H).
  assert (Hshape0 : shape_ok (sizes t0)) by (apply (Hread t0 Hin0)).
  assert (Hadj : Int32.add (ndim t0) (if truthy (ConcatOp.add_axis_ op) then 1 else 0)
                 = ndim t0 + (if truthy (ConcatOp.add_axis_ op) then 1 else 0)).
  { unfold Int32.add. apply wrap_small. unfold ndim, Int32.INT_MAX in *.
    destruct (truthy (ConcatOp.add_axis_ op)); lia. }
  assert (Htypes : ConcatOp.check_types inputs t0 = Ok tt).
  { apply check_types_ok. intros t Ht. apply (Hall t Ht). }
  pose proof (canonical_axis_index__range _ _ _ Hc) as Hcr.
  destruct (dims_loop_idx op inputs t0 c Hshape0 Hread (range 0 (ndim t0)) (1, 1))
    as [[Hag [ba Hloop]]|[Hag [i [j [Hi [Hchk [Hj [Hne Hloop]]]]]]]].
  { intros i Hi. apply in_range in Hi. exact Hi. }
  - split; [|unfold shapes_agree; rewrite Hag; discriminate].
    intros _.
    apply (ConcatOp_run_total op inputs s t0 c (fst ba) (snd ba)).
    + unfold concat_plan. rewrite Hin. cbn [rbind]. rewrite Hadj, Hc. cbn [rbind].
      rewrite Htypes. cbn [rbind]. unfold ConcatOp.dims_loop. rewrite Hloop.
      reflexivity.
    + intros i Hi.
      rewrite (concat_axis_dim_ok op inputs t0 c i Hread); [reflexivity| |exact Hi].
      intros Hadd. rewrite Hadd in Hcr. lia.
  - split; [unfold shapes_agree; rewrite Hag; discriminate|].
    intros _. exists i, j, (nth (Z.to_nat j) inputs empty_tensor).
    split; [exact Hi|]. split; [exact Hchk|].
    split; [apply Input_ok; lia|]. split; [exact Hne|].
    apply ConcatOp_run_plan_err.
    unfold concat_plan. rewrite Hin. cbn [rbind]. rewrite Hadj, Hc. cbn [rbind].
    rewrite Htypes. cbn [rbind]. unfold ConcatOp.dims_loop. rewrite Hloop.
    reflexivity.
Qed.

(** C4 on the example of the specification: shapes [[2, 3]] and [[2, 4]]
    along axis 0. *)
Lemma concat_shape_mismatch_witness :
  exists i j input_j,
    0 <= i < 2 /\ dim_checked (ConcatOp.mk 0 0) 0 i = true
    /\ Input [mkTensor [2; 3] byte_meta (zeros 6); mkTensor [2; 4] byte_meta (zeros 8)] j
       = Ok input_j
    /\ nth (Z.to_nat i) (sizes input_j) 0 <> nth (Z.to_nat i) [2; 3] 0
    /\ ConcatOp.RunOnDevice (ConcatOp.mk 0 0)
         [mkTensor [2; 3] byte_meta (zeros 6); mkTensor [2; 4] byte_meta (zeros 8)]
         fresh_concat_outputs
       = (split_resized
            [mkTensor [2; 3] byte_meta (zeros 6); mkTensor [2; 4] byte_meta (zeros 8)]
            fresh_concat_outputs,
          Err (ShapeMismatch (nth (Z.to_nat i) [2; 3] 0)
                             (nth (Z.to_nat i) (sizes input_j) 0)
                             i j 0 [2; 3] (sizes input_j))).
Proof.
  assert (Hall : forall t,
             In t [mkTensor [2; 3] byte_meta (zeros 6);
                   mkTensor [2; 4] byte_meta (zeros 8)] ->
             TypeMeta_eqb (dtype t) (dtype (mkTensor [2; 3] byte_meta (zeros 6))) = true
             /\ shape_ok (sizes t)
             /\ ndim (mkTensor [2; 3] byte_meta (zeros 6)) <= ndim t).
  { intros t [Ht|[Ht|[]]]; subst t; (split; [reflexivity|]);
      (split; [repeat constructor; unfold Int32.INT_MAX; lia
              |unfold ndim; cbn [sizes length]; lia]). }
  destruct (concat_shape_mismatch (ConcatOp.mk 0 0)
              [mkTensor [2; 3] byte_meta (zeros 6); mkTensor [2; 4] byte_meta (zeros 8)]
              (mkTensor [2; 3] byte_meta (zeros 6)) 0 fresh_concat_outputs
              eq_refl eq_refl eq_refl Hall) as [_ H].
  exact (H eq_refl).
Defined.

(** ** The channel loop and the copy loop of Concat, in closed form *)

Section ConcatLoops.
Variables (op : ConcatOp.t) (inputs : list Tensor) (input_zero : Tensor).
Variables (c before after oc : Z) (E : Z -> Z).
Hypothesis HE : forall i, 0 <= i < vsize inputs -> concat_axis_dim op inputs c i = Ok (E i).

Lemma channels_loop_values (n : nat) (s : ConcatOp.Outputs) :
  Z.of_nat n <= vsize inputs ->
  Z.of_nat n <= vsize (idata (ConcatOp.split s)) ->
  exists s',
    foldM (ConcatOp.channels_step op inputs c) (range 0 (Z.of_nat n)) 0 s
    = (s', Ok (fold_left Int32.add (map E (range 0 (Z.of_nat n))) 0))
    /\ ConcatOp.output s' = ConcatOp.output s
    /\ isizes (ConcatOp.split s') = isizes (ConcatOp.split s)
    /\ length (idata (ConcatOp.split s')) = length (idata (ConcatOp.split s))
    /\ (forall i, 0 <= i < Z.of_nat n -> at_ (idata (ConcatOp.split s')) i = E i)
    /\ (forall i, Z.of_nat n <= i ->
          at_ (idata (ConcatOp.split s')) i = at_ (idata (ConcatOp.split s)) i).
Proof.
  induction n as [|n IH]; intros Hn Hlen.
  - exists s. cbn [Z.of_nat]. rewrite range_nil by lia.
    repeat split; try reflexivity. intros i Hi. lia.
  - destruct IH as [s1 [Hrun [Ho [Hs [Hl [Hdone Hrest]]]]]]; [lia|lia|].
    replace (Z.of_nat (S n)) with (Z.of_nat n + 1) by lia.
    rewrite range_snoc by lia. rewrite foldM_app. unfold bind at 1. rewrite Hrun.
    cbn [foldM]. unfold bind, ConcatOp.channels_step, bind, lift, modify, gets, ret.
    fold (concat_axis_dim op inputs c (Z.of_nat n)).
    rewrite HE by lia.
    assert (Hin : 0 <= Z.of_nat n < Z.of_nat (length (idata (ConcatOp.split s1)))).
    { rewrite Hl. unfold vsize in Hlen. lia. }
    exists (ConcatOp.set_split
              (fun t => {| isizes := isizes t;
                           idata := vset (idata t) (Z.of_nat n) (E (Z.of_nat n)) |})
              s1).
    cbn [ConcatOp.set_split ConcatOp.output ConcatOp.split isizes idata].
    split; [|split; [exact Ho|split; [exact Hs|split; [|split]]]].
    + unfold at_. rewrite nth_vset_same by exact Hin.
      rewrite map_app, fold_left_app. reflexivity.
    + rewrite vset_length. exact Hl.
    + intros i Hi. unfold at_. destruct (Z.eq_dec i (Z.of_nat n)) as [->|Hne].
      * apply nth_vset_same. exact Hin.
      * rewrite nth_vset_other by lia. apply Hdone. lia.
    + intros i Hi. unfold at_. rewrite nth_vset_other by lia. apply Hrest. lia.
Qed.

Lemma concat_offset_succ (k : Z) :
  0 <= k ->
  concat_offset inputs after E (k + 1)
  = to_size_t (concat_offset inputs after E k
               + to_size_t (Int32.mul (E k) after)
                 * itemsize (dtype (nth (Z.to_nat k) inputs empty_tensor))).
Proof.
  intros Hk. unfold concat_offset. rewrite range_snoc by lia.
  rewrite fold_left_app. reflexivity.
Qed.

Lemma concat_output_succ (k : Z) (o : Tensor) :
  0 <= k ->
  concat_output inputs input_zero before after oc E (k + 1) o
  = concat_copy input_zero before after oc
                (nth (Z.to_nat k) inputs empty_tensor) (E k)
                (concat_offset inputs after E k)
                (concat_output inputs input_zero before after oc E k o).
Proof.
  intros Hk. unfold concat_output. rewrite range_snoc by lia.
  rewrite fold_left_app. reflexivity.
Qed.

Lemma copy_loop_values (n : nat) (s : ConcatOp.Outputs) :
  Z.of_nat n <= vsize inputs ->
  foldM (ConcatOp.copy_step op inputs input_zero c before after oc)
        (range 0 (Z.of_nat n)) 0 s
  = ({| ConcatOp.output :=
          concat_output inputs input_zero before after oc E (Z.of_nat n)
                        (ConcatOp.output s);
        ConcatOp.split := ConcatOp.split s |},
     Ok (concat_offset inputs after E (Z.of_nat n))).
Proof.
  induction n as [|n IH]; intros Hn.
  - cbn [Z.of_nat]. unfold concat_output, concat_offset.
    rewrite range_nil by lia. destruct s. reflexivity.
  - replace (Z.of_nat (S n)) with (Z.of_nat n + 1) by lia.
    rewrite range_snoc by lia. rewrite foldM_app. unfold bind at 1.
    rewrite IH by lia.
    cbn [foldM]. unfold bind, ConcatOp.copy_step, bind, lift, modify, ret.
    rewrite Input_ok by lia.
    pose proof (HE (Z.of_nat n) ltac:(lia)) as Hv. unfold concat_axis_dim in Hv.
    rewrite Input_ok in Hv by lia. cbn [rbind] in Hv. rewrite Hv.
    unfold ConcatOp.set_output. cbn [ConcatOp.output ConcatOp.split].
    rewrite concat_offset_succ by lia. rewrite concat_output_succ by lia.
    reflexivity.
Qed.

End ConcatLoops.

Lemma nth_range (lo hi d : Z) (k : nat) :
  (k < Z.to_nat (hi - lo))%nat -> nth k (range lo hi) d = lo + Z.of_nat k.
Proof.
  intros Hk. unfold range.
  rewrite (nth_indep (map (fun k0 => lo + Z.of_nat k0) (seq 0 (Z.to_nat (hi - lo))))
                     d (lo + Z.of_nat 0))
    by (rewrite length_map, length_seq; exact Hk).
  rewrite (map_nth (fun k0 => lo + Z.of_nat k0) (seq 0 (Z.to_nat (hi - lo))) 0%nat k).
  rewrite seq_nth by exact Hk. reflexivity.
Qed.

Lemma idata_of_values (l : list Z) (E : Z -> Z) (n : Z) :
  vsize l = n -> (forall i, 0 <= i < n -> at_ l i = E i) -> l = map E (range 0 n).
Proof.
  intros Hlen H. unfold vsize in Hlen. apply (nth_ext _ _ 0 (E 0)).
  - rewrite length_map, range_length. lia.
  - intros k Hk.
    rewrite (map_nth E (range 0 n) 0 k). rewrite nth_range by lia.
    specialize (H (Z.of_nat k)). unfold at_ in H. rewrite Nat2Z.id in H.
    rewrite H by lia. f_equal.
Qed.

(** ** C5: Concat in add-axis mode *)

Lemma concat_plan_ok (op : ConcatOp.t) (inputs : list Tensor) (input_zero : Tensor)
      (c : Z) :
  Input inputs 0 = Ok input_zero ->
  ndim input_zero < Int32.INT_MAX ->
  canonical_axis_index_ (ConcatOp.axis_ op)
    (ndim input_zero + (if truthy (ConcatOp.add_axis_ op) then 1 else 0)) = Ok c ->
  (forall t, In t inputs ->
     TypeMeta_eqb (dtype t) (dtype input_zero) = true
     /\ shape_ok (sizes t) /\ ndim input_zero <= ndim t) ->
  shapes_agree op inputs input_zero c = true ->
  exists before after,
    ConcatOp.dims_loop op inputs input_zero c = Ok (before, after)
    /\ concat_plan op inputs = Ok (input_zero, c, before, after).
Proof.
  intros Hin Hrank Hc Hall Hagree.
  destruct (Input_inv _ _ _ Hin) as [_ [_ Hin0]].
  assert (Hread : forall t, In t inputs ->
                            shape_ok (sizes t) /\ ndim input_zero <= ndim t)
    by (intros t Ht; destruct (Hall t Ht) as [_ H]; exact H).
  assert (Hshape0 : shape_ok (sizes input_zero)) by (apply (Hread _ Hin0)).
  assert (Hadj : Int32.add (ndim input_zero)
                           (if truthy (ConcatOp.add_axis_ op) then 1 else 0)
                 = ndim input_zero + (if truthy (ConcatOp.add_axis_ op) then 1 else 0)).
  { unfold Int32.add. apply wrap_small. unfold ndim, Int32.INT_MAX in *.
    destruct (truthy (ConcatOp.add_axis_ op)); lia. }
  assert (Htypes : ConcatOp.check_types inputs input_zero = Ok tt).
  { apply check_types_ok. intros t Ht. apply (Hall t Ht). }
  destruct (dims_loop_idx op inputs input_zero c Hshape0 Hread
                          (range 0 (ndim input_zero)) (1, 1))
    as [[Hag [[b a] Hloop]]|[Hag _]].
  { intros i Hi. apply in_range in Hi. exact Hi. }
  - exists b, a. split; [exact Hloop|].
    unfold concat_plan. rewrite Hin. cbn [rbind]. rewrite Hadj, Hc. cbn [rbind].
    rewrite Htypes. cbn [rbind]. unfold ConcatOp.dims_loop in *. rewrite Hloop.
    reflexivity.
  - unfold shapes_agree in Hagree. rewrite Hag in Hagree. discriminate Hagree.
Qed.

Lemma concat_copy_sizes (input_zero : Tensor) (before after oc : Z) (input : Tensor)
      (axis_dim off : Z) (o : Tensor) :
  sizes (concat_copy input_zero before after oc input axis_dim off o) = sizes o.
Proof. reflexivity. Qed.

Lemma concat_output_sizes (inputs : list Tensor) (input_zero : Tensor)
      (before after oc : Z) (E : Z -> Z) (k : Z) (o : Tensor) :
  sizes (concat_output inputs input_zero before after oc E k o) = sizes o.
Proof.
  unfold concat_output. revert o.
  induction (range 0 k) as [|i l IH]; intros o; cbn [fold_left]; [reflexivity|].
  rewrite IH. apply concat_copy_sizes.
Qed.

Lemma split_resized_idata_length (inputs : list Tensor) (s : ConcatOp.Outputs) :
  vsize (idata (ConcatOp.split (split_resized inputs s))) = vsize inputs.
Proof.
  unfold split_resized, ConcatOp.set_split, IntResize, resize_ints, vsize.
  cbn [ConcatOp.split idata prodZ fold_right].
  rewrite length_app, length_firstn, repeat_length. lia.
Qed.

Lemma sumZ_map_const (v : Z) (l : list Z) :
  sumZ (map (fun _ => v) l) = v * Z.of_nat (length l).
Proof.
  induction l as [|x l IH]; cbn [map sumZ fold_right length]; [lia|].
  fold (sumZ (map (fun _ : Z => v) l)). rewrite IH. lia.
Qed.

Lemma map_const_repeat {A : Type} (v : Z) (l : list A) :
  map (fun _ => v) l = repeat v (length l).
Proof.
  induction l as [|x l IH]; cbn [map repeat length]; [reflexivity|].
  rewrite IH. reflexivity.
Qed.

Lemma ConcatOp_run_values (op : ConcatOp.t) (inputs : list Tensor)
      (s : ConcatOp.Outputs) (input_zero : Tensor) (c before after : Z) (E : Z -> Z) :
  concat_plan op inputs = Ok (input_zero, c, before, after) ->
  (forall i, 0 <= i < vsize inputs -> concat_axis_dim op inputs c i = Ok (E i)) ->
  let n := vsize inputs in
  let oc := fold_left Int32.add (map E (range 0 n)) 0 in
  let output_dims :=
    if truthy (ConcatOp.add_axis_ op) then vinsert (sizes input_zero) c oc
    else vset (sizes input_zero) c oc in
  ConcatOp.RunOnDevice op inputs s
  = ({| ConcatOp.output :=
          concat_output inputs input_zero before after oc E n
                        (Resize (ConcatOp.output s) output_dims);
        ConcatOp.split := {| isizes := [n]; idata := map E (range 0 n) |} |},
     Ok true).
Proof.
  intros Hplan HE n oc output_dims.
  rewrite (ConcatOp_run_plan_ok _ _ _ _ _ _ _ Hplan).
  destruct (channels_loop_values op inputs c E HE (length inputs)
                                 (split_resized inputs s))
    as [s1 [Hch [Ho [Hs [Hl [Hdone _]]]]]].
  { unfold vsize. lia. }
  { rewrite split_resized_idata_length. unfold vsize. lia. }
  fold (vsize inputs) in Hch, Hdone. fold n in Hch, Hdone. fold oc in Hch.
  fold n. rewrite Hch. cbv zeta. fold output_dims.
  pose proof (copy_loop_values op inputs input_zero c before after oc E HE
                               (length inputs)
                               (ConcatOp.set_output (fun o => Resize o output_dims) s1))
    as Hcp.
  fold (vsize inputs) in Hcp. fold n in Hcp. rewrite Hcp by (unfold n; lia).
  f_equal. unfold ConcatOp.set_output. cbn [ConcatOp.output ConcatOp.split].
  rewrite Ho. f_equal.
  destruct (ConcatOp.split s1) as [sz dat] eqn:Hsp. cbn [isizes idata] in *.
  f_equal.
  - rewrite Hs. reflexivity.
  - apply idata_of_values; [|exact Hdone].
    pose proof (split_resized_idata_length inputs s) as Hlen.
    unfold vsize in *. rewrite Hl. exact Hlen.
Qed.

Lemma vinsert_length {A : Type} (v : list A) (i : Z) (x : A) :
  length (vinsert v i x) = S (length v).
Proof.
  unfold vinsert. rewrite length_app. cbn [length].
  rewrite length_firstn, length_skipn. lia.
Qed.

(** C5.  In add-axis mode a Concat run over inputs of one type and one shape
    succeeds; the shape of its output is the shape of input 0 with the
    number of inputs inserted at the canonical axis, one dimension more
    than the inputs have, and [split] holds a one per input.  On two
    inputs of shape [[2, 3]] along axis 1 the output has shape [[2, 2, 3]]
    and [split] is [[1, 1]], and a Split run with [add_axis] on that output
    with that [split] as its ratio tensor gives the two inputs back. *)
Theorem add_axis_concat_inserts_axis :
  (forall (op : ConcatOp.t) (inputs : list Tensor) (input_zero : Tensor) (c : Z)
          (s : ConcatOp.Outputs),
      truthy (ConcatOp.add_axis_ op) = true ->
      Input inputs 0 = Ok input_zero ->
      ndim input_zero < Int32.INT_MAX ->
      vsize inputs <= Int32.INT_MAX ->
      canonical_axis_index_ (ConcatOp.axis_ op) (ndim input_zero + 1) = Ok c ->
      (forall t, In t inputs ->
         TypeMeta_eqb (dtype t) (dtype input_zero) = true
         /\ shape_ok (sizes t) /\ ndim input_zero <= ndim t) ->
      shapes_agree op inputs input_zero c = true ->
      exists s',
        ConcatOp.RunOnDevice op inputs s = (s', Ok true)
        /\ sizes (ConcatOp.output s') = vinsert (sizes input_zero) c (vsize inputs)
        /\ ndim (ConcatOp.output s') = ndim input_zero + 1
        /\ ConcatOp.split s'
           = {| isizes := [vsize inputs]; idata := repeat 1 (length inputs) |}) /\
  (forall f g : nat -> byte,
      let A := mkTensor [2; 3] float_meta (bytes_of f 24) in
      let B := mkTensor [2; 3] float_meta (bytes_of g 24) in
      let r := ConcatOp.RunOnDevice (ConcatOp.mk 1 1) [A; B] fresh_concat_outputs in
      snd r = Ok true
      /\ sizes (ConcatOp.output (fst r)) = [2; 2; 3]
      /\ idata (ConcatOp.split (fst r)) = [1; 1]
      /\ SplitOp.RunOnDevice (SplitOp.mk 1 1 [])
           (SplitOp.mkInputs (ConcatOp.output (fst r)) (Some (ConcatOp.split (fst r))))
           (fresh_outputs 2)
         = ([A; B], Ok true)).
Proof.
  split.
  - intros op inputs t0 c s Hadd Hin Hrank Hn Hc Hall Hagree.
    assert (Hc' : canonical_axis_index_ (ConcatOp.axis_ op)
                    (ndim t0 + (if truthy (ConcatOp.add_axis_ op) then 1 else 0)) = Ok c)
      by (rewrite Hadd; exact Hc).
    destruct (concat_plan_ok op inputs t0 c Hin Hrank Hc' Hall Hagree)
      as [b [a [_ Hplan]]].
    assert (HE : forall i, 0 <= i < vsize inputs ->
                           concat_axis_dim op inputs c i = Ok ((fun _ => 1) i)).
    { intros i Hi. unfold concat_axis_dim. rewrite Hadd. reflexivity. }
    pose proof (ConcatOp_run_values op inputs s t0 c b a (fun _ => 1) Hplan HE) as Hrun.
    cbv zeta in Hrun. rewrite Hadd in Hrun.
    assert (Hoc : fold_left Int32.add (map (fun _ : Z => 1) (range 0 (vsize inputs))) 0
                  = vsize inputs).
    { rewrite fold_add_nowrap.
      - rewrite sumZ_map_const, range_length. unfold vsize. lia.
      - lia.
      - apply Forall_forall. intros x Hx. apply in_map_iff in Hx.
        destruct Hx as [y [Hy _]]. lia.
      - rewrite sumZ_map_const, range_length. unfold vsize in *. lia. }
    rewrite Hoc in Hrun.
    eexists. split; [exact Hrun|].
    cbn [ConcatOp.output ConcatOp.split].
    split; [|split].
    + rewrite concat_output_sizes. reflexivity.
    + unfold ndim. rewrite concat_output_sizes. cbn [Resize sizes].
      rewrite vinsert_length. lia.
    + f_equal. rewrite map_const_repeat, range_length. unfold vsize.
      f_equal. lia.
  - intros f g. vm_compute. repeat split; reflexivity.
Qed.

(** C5 on two inputs of shape [[2, 3]] along axis 1. *)
Lemma add_axis_concat_inserts_axis_witness :
  exists s',
    ConcatOp.RunOnDevice (ConcatOp.mk 1 1)
      [mkTensor [2; 3] float_meta (zeros 24); mkTensor [2; 3] float_meta (zeros 24)]
      fresh_concat_outputs
    = (s', Ok true)
    /\ sizes (ConcatOp.output s') = [2; 2; 3]
    /\ ndim (ConcatOp.output s') = 3
    /\ ConcatOp.split s' = {| isizes := [2]; idata := [1; 1] |}.
Proof.
  assert (Hall : forall t,
             In t [mkTensor [2; 3] float_meta (zeros 24);
                   mkTensor [2; 3] float_meta (zeros 24)] ->
             TypeMeta_eqb (dtype t) (dtype (mkTensor [2; 3] float_meta (zeros 24))) = true
             /\ shape_ok (sizes t)
             /\ ndim (mkTensor [2; 3] float_meta (zeros 24)) <= ndim t).
  { intros t [Ht|[Ht|[]]]; subst t; (split; [reflexivity|]);
      (split; [repeat constructor; unfold Int32.INT_MAX; lia
              |unfold ndim; cbn [sizes length]; lia]). }
  assert (Hn : vsize [mkTensor [2; 3] float_meta (zeros 24);
                      mkTensor [2; 3] float_meta (zeros 24)] <= Int32.INT_MAX)
    by (vm_compute; discriminate).
  destruct add_axis_concat_inserts_axis as [H _].
  exact (H (ConcatOp.mk 1 1)
           [mkTensor [2; 3] float_meta (zeros 24); mkTensor [2; 3] float_meta (zeros 24)]
           (mkTensor [2; 3] float_meta (zeros 24)) 1 fresh_concat_outputs
           eq_refl eq_refl eq_refl Hn eq_refl Hall eq_refl).
Defined.

(** ** Products of extents computed on ints *)

Lemma fold_mul_nowrap (D : Z -> Z) (idx : list Z) (acc : Z) :
  0 <= acc ->
  (forall i, In i idx -> 0 <= D i) ->
  Z.max 1 acc * span (map D idx) <= Int32.INT_MAX ->
  fold_left (fun b i => Int32.mul b (D i)) idx acc = acc * prodZ (map D idx).
Proof.
  revert acc. induction idx as [|i idx IH]; intros acc Hacc HD Hb;
    cbn [fold_left map prodZ span fold_right] in *.
  - lia.
  - fold (prodZ (map D idx)) in *. fold (span (map D idx)) in *.
    assert (Hd : 0 <= D i) by (apply HD; left; reflexivity).
    pose proof (span_pos (map D idx)) as Hsp.
    assert (Hm : Z.max 1 (acc * D i) <= Z.max 1 acc * Z.max 1 (D i)) by nia.
    assert (Hle : Z.max 1 (acc * D i) * span (map D idx) <= Int32.INT_MAX) by nia.
    unfold Int32.mul at 2. rewrite wrap_small by (unfold Int32.INT_MAX in *; nia).
    rewrite IH; [ring|nia| |exact Hle].
    intros j Hj. apply HD. right. exact Hj.
Qed.

Lemma mul_loop_fold (t : Tensor) (idx : list Z) (acc : Z) :
  shape_ok (sizes t) -> (forall i, In i idx -> 0 <= i < ndim t) ->
  foldR (fun b i => rbind (dim32 t i) (fun d => Ok (Int32.mul b d))) idx acc
  = Ok (fold_left (fun b i => Int32.mul b (extent (sizes t) i)) idx acc).
Proof.
  intros Hs. revert acc. induction idx as [|i idx IH]; intros acc Hidx;
    cbn [foldR fold_left].
  - reflexivity.
  - rewrite dim32_ok by (try assumption; apply Hidx; left; reflexivity).
    cbn [rbind]. apply IH. intros j Hj. apply Hidx. right. exact Hj.
Qed.

Lemma map_extent_range (dims : list Z) (a b : Z) :
  0 <= a <= b -> b <= vsize dims ->
  map (extent dims) (range a b)
  = firstn (Z.to_nat (b - a)) (skipn (Z.to_nat a) dims).
Proof.
  intros Hab Hb. unfold vsize in Hb. apply (nth_ext _ _ (extent dims 0) 0).
  - rewrite length_map, range_length, length_firstn, length_skipn. lia.
  - intros k Hk. rewrite length_map, range_length in Hk.
    rewrite (map_nth (extent dims) (range a b) 0 k). rewrite nth_range by exact Hk.
    rewrite nth_firstn_lt by exact Hk. rewrite nth_skipn_add.
    unfold extent. f_equal. lia.
Qed.

Lemma extent_nonneg (dims : list Z) (i : Z) : shape_ok dims -> 0 <= extent dims i.
Proof. intros H. unfold extent. apply shape_ok_nth. exact H. Qed.

Lemma before_loop_value (t : Tensor) (c : Z) :
  shape_ok (sizes t) -> span (sizes t) <= Int32.INT_MAX -> 0 <= c < ndim t ->
  SplitOp.before_loop t c = Ok (prodZ (firstn (Z.to_nat c) (sizes t))).
Proof.
  intros Hs Hsp Hc. unfold SplitOp.before_loop.
  rewrite mul_loop_fold by (try assumption; intros i Hi; apply in_range in Hi; lia).
  f_equal.
  assert (Hmap : map (extent (sizes t)) (range 0 c) = firstn (Z.to_nat c) (sizes t)).
  { rewrite map_extent_range by (unfold ndim, vsize in *; lia).
    cbn [Z.to_nat skipn]. f_equal. lia. }
  rewrite fold_mul_nowrap.
  - rewrite Hmap. lia.
  - lia.
  - intros i _. apply extent_nonneg. exact Hs.
  - rewrite Hmap. pose proof (span_firstn (Z.to_nat c) (sizes t)).
    change (Z.max 1 1) with 1. lia.
Qed.

Lemma after_loop_value (t : Tensor) (c : Z) :
  shape_ok (sizes t) -> span (sizes t) <= Int32.INT_MAX -> 0 <= c < ndim t ->
  SplitOp.after_loop t c = Ok (prodZ (skipn (Z.to_nat (c + 1)) (sizes t))).
Proof.
  intros Hs Hsp Hc. unfold SplitOp.after_loop.
  rewrite mul_loop_fold by (try assumption; intros i Hi; apply in_range in Hi; lia).
  f_equal.
  assert (Hmap : map (extent (sizes t)) (range (c + 1) (ndim t))
                 = skipn (Z.to_nat (c + 1)) (sizes t)).
  { rewrite map_extent_range by (unfold ndim, vsize in *; lia).
    apply firstn_all2. rewrite length_skipn. unfold ndim. lia. }
  rewrite fold_mul_nowrap.
  - rewrite Hmap. lia.
  - lia.
  - intros i _. apply extent_nonneg. exact Hs.
  - rewrite Hmap. pose proof (span_skipn (Z.to_nat (c + 1)) (sizes t)).
    change (Z.max 1 1) with 1. lia.
Qed.

(** A shape cut at an axis: the extents before it, its extent, the extents
    after it. *)
Lemma shape_cut (dims : list Z) (c : Z) :
  0 <= c < vsize dims ->
  dims = firstn (Z.to_nat c) dims ++ extent dims c :: skipn (Z.to_nat (c + 1)) dims.
Proof.
  intros Hc. unfold vsize in Hc. apply (nth_ext _ _ 0 0).
  - rewrite length_app, length_firstn. cbn [length]. rewrite length_skipn. lia.
  - intros k Hk. destruct (Nat.lt_trichotomy k (Z.to_nat c)) as [Hlt|[Heq|Hgt]].
    + rewrite app_nth1 by (rewrite length_firstn; lia).
      rewrite nth_firstn_lt by exact Hlt. reflexivity.
    + rewrite app_nth2 by (rewrite length_firstn; lia).
      rewrite length_firstn.
      replace (k - Nat.min (Z.to_nat c) (length dims))%nat with 0%nat by lia.
      cbn [nth]. unfold extent. subst k. reflexivity.
    + rewrite app_nth2 by (rewrite length_firstn; lia).
      rewrite length_firstn.
      replace (k - Nat.min (Z.to_nat c) (length dims))%nat
        with (S (k - S (Z.to_nat c))) by lia.
      cbn [nth]. rewrite nth_skipn_add. f_equal. lia.
Qed.

Lemma numel_cut (dims : list Z) (c : Z) :
  0 <= c < vsize dims ->
  prodZ dims = prodZ (firstn (Z.to_nat c) dims)
               * (extent dims c * prodZ (skipn (Z.to_nat (c + 1)) dims)).
Proof.
  intros Hc. rewrite (shape_cut dims c Hc) at 1.
  rewrite prodZ_app. reflexivity.
Qed.

Lemma span_cut (dims : list Z) (c : Z) :
  0 <= c < vsize dims ->
  span dims = span (firstn (Z.to_nat c) dims)
              * (Z.max 1 (extent dims c) * span (skipn (Z.to_nat (c + 1)) dims)).
Proof.
  intros Hc. rewrite (shape_cut dims c Hc) at 1.
  rewrite span_app. reflexivity.
Qed.

(** ** The slabs of a split tensor *)

Lemma range_split (lo mid hi : Z) :
  lo <= mid <= hi -> range lo hi = range lo mid ++ range mid hi.
Proof.
  intros H. remember (Z.to_nat (mid - lo)) as d eqn:Hd.
  revert lo H Hd. induction d as [|d IH]; intros lo H Hd.
  - assert (lo = mid) by lia. subst lo. rewrite (range_nil mid mid) by lia.
    reflexivity.
  - rewrite (range_cons lo hi) by lia. rewrite (range_cons lo mid) by lia.
    cbn [app]. f_equal. apply IH; lia.
Qed.

Lemma prefix_sum_succ (e : Z -> Z) (k : Z) :
  0 <= k -> prefix_sum e (k + 1) = prefix_sum e k + e k.
Proof.
  intros Hk. unfold prefix_sum. rewrite range_snoc by lia.
  rewrite map_app, sumZ_app. cbn [map sumZ fold_right]. lia.
Qed.

Lemma prefix_sum_mono (e : Z -> Z) (n k k' : Z) :
  (forall i, 0 <= i < n -> 0 <= e i) ->
  0 <= k <= k' -> k' <= n -> 0 <= prefix_sum e k <= prefix_sum e k'.
Proof.
  intros He Hk Hk'. unfold prefix_sum.
  rewrite (range_split 0 k k') by lia. rewrite map_app, sumZ_app.
  assert (H1 : 0 <= sumZ (map e (range 0 k))).
  { apply sumZ_nonneg. apply Forall_forall. intros x Hx.
    apply in_map_iff in Hx. destruct Hx as [i [<- Hi]]. apply in_range in Hi.
    apply He. lia. }
  assert (H2 : 0 <= sumZ (map e (range k k'))).
  { apply sumZ_nonneg. apply Forall_forall. intros x Hx.
    apply in_map_iff in Hx. destruct Hx as [i [<- Hi]]. apply in_range in Hi.
    apply He. lia. }
  lia.
Qed.

Lemma shape_ok_nonneg (dims : list Z) :
  shape_ok dims -> Forall (fun d => 0 <= d) dims.
Proof.
  intros H. apply Forall_forall. intros d Hd. unfold shape_ok in H.
  rewrite Forall_forall in H. apply H in Hd. lia.
Qed.

Section Slabs.
Variables (X : Tensor) (c : Z) (e : Z -> Z) (n : Z).
Hypothesis HX : tensor_ok X.
Hypothesis Hc : 0 <= c < ndim X.
Hypothesis He : forall k, 0 <= k < n -> 0 <= e k.
Hypothesis Hn : 0 <= n.
Hypothesis Hsum : prefix_sum e n = extent (sizes X) c.

Let item := itemsize (dtype X).
Let Bf := prodZ (firstn (Z.to_nat c) (sizes X)).
Let Af := prodZ (skipn (Z.to_nat (c + 1)) (sizes X)).
Let ic := extent (sizes X) c.

Lemma slab_geometry :
  0 <= item /\ 0 <= Bf /\ 0 <= Af /\ 0 <= ic
  /\ Bf < Int32.INT_MAX /\ ic * Af < Int32.INT_MAX /\ Af < Int32.INT_MAX
  /\ ic * Af * item < 18446744073709551616
  /\ blen (raw_data X) = Bf * (ic * Af) * item.
Proof.
  destruct HX as [Hs [Hsp [Hr [Hi [Hsz Hlen]]]]].
  pose proof (shape_ok_nonneg _ Hs) as Hnn.
  assert (Hc' : 0 <= c < vsize (sizes X)) by exact Hc.
  pose proof (span_cut (sizes X) c Hc') as Hcut.
  pose proof (numel_cut (sizes X) c Hc') as Hnum.
  pose proof (prodZ_nonneg _ (Forall_firstn _ (Z.to_nat c) _ Hnn)) as HB0.
  pose proof (prodZ_nonneg _ (Forall_skipn _ (Z.to_nat (c + 1)) _ Hnn)) as HA0.
  pose proof (prodZ_le_span _ (Forall_firstn _ (Z.to_nat c) _ Hnn)) as HB1.
  pose proof (prodZ_le_span _ (Forall_skipn _ (Z.to_nat (c + 1)) _ Hnn)) as HA1.
  pose proof (span_pos (firstn (Z.to_nat c) (sizes X))) as HsB.
  pose proof (span_pos (skipn (Z.to_nat (c + 1)) (sizes X))) as HsA.
  pose proof (extent_nonneg (sizes X) c Hs) as Hic.
  fold Bf in HB0, HB1, Hnum. fold Af in HA0, HA1, Hnum. fold ic in Hic, Hnum, Hcut.
  fold item in Hi, Hsz, Hlen.
  set (sB := span (firstn (Z.to_nat c) (sizes X))) in *.
  set (sA := span (skipn (Z.to_nat (c + 1)) (sizes X))) in *.
  assert (Hm1 : 1 <= Z.max 1 ic /\ ic <= Z.max 1 ic) by lia.
  set (mx := Z.max 1 ic) in *.
  assert (HicA : ic * Af <= mx * sA) by nia.
  assert (Hq1 : 1 <= mx * sA) by nia.
  assert (HicAs : mx * sA <= span (sizes X)) by nia.
  assert (HAs : sA <= span (sizes X)) by nia.
  assert (HBs : sB <= span (sizes X)) by nia.
  repeat split; try lia.
  - assert (ic * Af * item <= span (sizes X) * item) by nia. lia.
  - rewrite Hlen. unfold numel. rewrite Hnum. reflexivity.
Qed.

Lemma prefix_sum_bounds (k : Z) :
  0 <= k < n ->
  0 <= prefix_sum e k /\ 0 <= e k /\ prefix_sum e k + e k <= ic.
Proof.
  intros Hk. pose proof (prefix_sum_mono e n k (k + 1) He ltac:(lia) ltac:(lia)) as H1.
  pose proof (prefix_sum_mono e n (k + 1) n He ltac:(lia) ltac:(lia)) as H2.
  rewrite prefix_sum_succ in H1, H2 by lia. fold ic in Hsum.
  pose proof (He k Hk). lia.
Qed.

Lemma slab_cols (k : Z) :
  0 <= k < n ->
  Int32.mul (e k) Af = e k * Af /\ Int32.mul ic Af = ic * Af
  /\ 0 <= e k * Af <= ic * Af.
Proof.
  intros Hk. destruct slab_geometry as [_ [_ [HA0 [Hic [_ [HicA _]]]]]].
  destruct (prefix_sum_bounds k Hk) as [HO [Hek Hle]].
  assert (Hw : 0 <= e k * Af <= ic * Af) by nia.
  unfold Int32.mul. rewrite !wrap_small by (unfold Int32.INT_MAX in *; lia).
  repeat split; lia.
Qed.

Lemma slab_offset_value (k : Z) :
  0 <= k <= n -> slab_offset X Af e k = prefix_sum e k * Af * item.
Proof.
  intros Hk. replace k with (Z.of_nat (Z.to_nat k)) by lia.
  assert (Hk' : Z.of_nat (Z.to_nat k) <= n) by lia. clear Hk.
  induction (Z.to_nat k) as [|m IH].
  - reflexivity.
  - replace (Z.of_nat (S m)) with (Z.of_nat m + 1) in * by lia.
    rewrite slab_offset_succ by lia. rewrite IH by lia.
    rewrite prefix_sum_succ by lia.
    destruct slab_geometry as [Hi [_ [HA0 [Hic [_ [HicA [_ [Hsz _]]]]]]]].
    destruct (slab_cols (Z.of_nat m) ltac:(lia)) as [Hmul [_ Hw]].
    destruct (prefix_sum_bounds (Z.of_nat m) ltac:(lia)) as [HO [Hek Hle]].
    rewrite Hmul. fold item.
    assert (H1 : 0 <= e (Z.of_nat m) * Af * item) by nia.
    assert (H2 : 0 <= prefix_sum e (Z.of_nat m) * Af * item) by nia.
    assert (H3 : (prefix_sum e (Z.of_nat m) + e (Z.of_nat m)) * Af * item
                 <= ic * Af * item).
    { apply Z.mul_le_mono_nonneg_r; [lia|].
      apply Z.mul_le_mono_nonneg_r; lia. }
    rewrite (to_size_t_small (e (Z.of_nat m) * Af))
      by (unfold Int32.INT_MAX in *; lia).
    rewrite to_size_t_small by lia. ring.
Qed.

End Slabs.

(** ** Gathering a slab out of a buffer and scattering it back *)

Section Interleave.
Variables (item Bf rowc W Off : Z).
Hypothesis Hitem : 0 <= item.
Hypothesis HBf : 0 <= Bf.
Hypothesis HW : 0 <= W.
Hypothesis HOff : 0 <= Off.
Hypothesis Hfit : Off + W <= rowc.

Lemma row_bound (r stride width off : Z) :
  0 <= r < Bf -> 0 <= stride -> 0 <= off -> 0 <= width -> off + width <= stride ->
  off * item + stride * r * item + item * width <= Bf * stride * item.
Proof.
  intros Hr Hs Ho Hw Hf.
  assert (H1 : (off + width) * item <= stride * item)
    by (apply Z.mul_le_mono_nonneg_r; lia).
  assert (H2 : stride * item * (r + 1) <= stride * item * Bf)
    by (apply Z.mul_le_mono_nonneg_l; nia).
  nia.
Qed.

Lemma gather_slab (data old : list byte) :
  blen data = Bf * rowc * item ->
  blen old = Bf * W * item ->
  blen (CopyMatrix item Bf W data (Off * item) rowc old 0 W) = Bf * W * item
  /\ forall r t, 0 <= r < Bf -> 0 <= t < item * W ->
       zth (CopyMatrix item Bf W data (Off * item) rowc old 0 W) (W * r * item + t)
       = zth data (Off * item + rowc * r * item + t).
Proof.
  intros Hdata Hold.
  assert (HA : forall r, 0 <= r < Bf ->
                 Off * item + rowc * r * item + item * W <= blen data).
  { intros r Hr. rewrite Hdata. apply row_bound; lia. }
  assert (HB : forall r, 0 <= r < Bf -> 0 + W * r * item + item * W <= blen old).
  { intros r Hr. rewrite Hold.
    pose proof (row_bound r W W 0 Hr HW ltac:(lia) HW ltac:(lia)). lia. }
  pose proof (CopyMatrix_rows item W data (Off * item) rowc old 0 W Bf
                Hitem HW ltac:(nia) ltac:(lia) ltac:(lia) HW HA HB
                (Z.to_nat Bf) ltac:(lia)) as H.
  cbv beta in H. rewrite Z2Nat.id in H by lia.
  destruct H as [Hlen [_ Hhit]]. split; [rewrite Hlen; exact Hold|].
  intros r t Hr Ht. specialize (Hhit ltac:(lia) r t Hr Ht).
  rewrite <- Hhit. f_equal.
Qed.

Lemma scatter_slab (slab buf : list byte) :
  blen slab = Bf * W * item ->
  blen buf = Bf * rowc * item ->
  blen (CopyMatrix item Bf W slab 0 W buf (Off * item) rowc) = blen buf
  /\ (forall r t, 0 <= r < Bf -> 0 <= t < item * W ->
        zth (CopyMatrix item Bf W slab 0 W buf (Off * item) rowc)
            (Off * item + rowc * r * item + t)
        = zth slab (W * r * item + t))
  /\ (forall r q, 0 <= r < Bf -> 0 <= q < rowc * item ->
        ~ (Off * item <= q < Off * item + item * W) ->
        zth (CopyMatrix item Bf W slab 0 W buf (Off * item) rowc)
            (rowc * r * item + q)
        = zth buf (rowc * r * item + q)).
Proof.
  intros Hslab Hbuf.
  assert (HA : forall r, 0 <= r < Bf -> 0 + W * r * item + item * W <= blen slab).
  { intros r Hr. rewrite Hslab.
    pose proof (row_bound r W W 0 Hr HW ltac:(lia) HW ltac:(lia)). lia. }
  assert (HB : forall r, 0 <= r < Bf ->
                 Off * item + rowc * r * item + item * W <= blen buf).
  { intros r Hr. rewrite Hbuf. apply row_bound; lia. }
  pose proof (CopyMatrix_rows item W slab 0 W buf (Off * item) rowc Bf
                Hitem HW ltac:(lia) ltac:(nia) HW ltac:(lia) HA HB
                (Z.to_nat Bf) ltac:(lia)) as H.
  cbv beta in H. rewrite Z2Nat.id in H by lia.
  destruct H as [Hlen [Hmiss Hhit]]. split; [exact Hlen|]. split.
  - intros r t Hr Ht. specialize (Hhit ltac:(lia) r t Hr Ht).
    rewrite Hhit. f_equal.
  - intros r q Hr Hq Hout. apply Hmiss; [nia|].
    intros r' Hr' Hwin.
    assert (HR : 0 <= rowc * item) by nia.
    assert (Hw : Off * item + item * W <= rowc * item) by nia.
    destruct (Z.lt_trichotomy r' r) as [Hlt|[Heq|Hgt]].
    + assert (rowc * item * (r' + 1) <= rowc * item * r)
        by (apply Z.mul_le_mono_nonneg_l; lia).
      nia.
    + subst r'. apply Hout. lia.
    + assert (rowc * item * (r + 1) <= rowc * item * r')
        by (apply Z.mul_le_mono_nonneg_l; lia).
      nia.
Qed.

End Interleave.

(** ** Concatenating the slabs of a tensor gives the tensor back *)

Section Reassemble.
Variables (X : Tensor) (c : Z) (e : Z -> Z) (n : Z).
Variables (inputs : list Tensor) (input_zero : Tensor).
Hypothesis HX : tensor_ok X.
Hypothesis Hc : 0 <= c < ndim X.
Hypothesis He : forall k, 0 <= k < n -> 0 <= e k.
Hypothesis Hn : 0 < n.
Hypothesis Hsum : prefix_sum e n = extent (sizes X) c.
Hypothesis Hzero : dtype input_zero = dtype X.

Let item := itemsize (dtype X).
Let Bf := prodZ (firstn (Z.to_nat c) (sizes X)).
Let Af := prodZ (skipn (Z.to_nat (c + 1)) (sizes X)).
Let ic := extent (sizes X) c.
Let slab (k : Z) : Tensor := nth (Z.to_nat k) inputs empty_tensor.

Hypothesis Hslab_type : forall k, 0 <= k < n -> dtype (slab k) = dtype X.
Hypothesis Hslab_len :
  forall k, 0 <= k < n -> blen (raw_data (slab k)) = Bf * (e k * Af) * item.
Hypothesis Hslab_data :
  forall k r t, 0 <= k < n -> 0 <= r < Bf -> 0 <= t < item * (e k * Af) ->
    zth (raw_data (slab k)) (e k * Af * r * item + t)
    = zth (raw_data X) (prefix_sum e k * Af * item + ic * Af * r * item + t).

Lemma concat_offset_value (k : Z) :
  0 <= k <= n -> concat_offset inputs Af e k = prefix_sum e k * Af * item.
Proof.
  intros Hk. replace k with (Z.of_nat (Z.to_nat k)) by lia.
  assert (Hk' : Z.of_nat (Z.to_nat k) <= n) by lia. clear Hk.
  induction (Z.to_nat k) as [|m IH].
  - reflexivity.
  - replace (Z.of_nat (S m)) with (Z.of_nat m + 1) in * by lia.
    rewrite concat_offset_succ by lia. rewrite IH by lia.
    rewrite (prefix_sum_succ e) by lia.
    destruct (slab_geometry X c HX Hc) as [Hi [_ [HA0 [Hic [_ [HicA [_ [Hsz _]]]]]]]].
    destruct (slab_cols X c e n HX Hc He Hsum (Z.of_nat m) ltac:(lia))
      as [Hmul [_ Hw]].
    destruct (prefix_sum_bounds X c e n He Hsum (Z.of_nat m) ltac:(lia))
      as [HO [Hek Hle]].
    fold Af in Hmul, Hw, HA0, HicA, Hsz. fold ic in Hw, Hle, Hic, HicA, Hsz.
    fold item in Hi, Hsz.
    rewrite Hmul. fold (slab (Z.of_nat m)). rewrite Hslab_type by lia. fold item.
    assert (H1 : 0 <= e (Z.of_nat m) * Af * item) by nia.
    assert (H2 : 0 <= prefix_sum e (Z.of_nat m) * Af * item) by nia.
    assert (H3 : (prefix_sum e (Z.of_nat m) + e (Z.of_nat m)) * Af * item
                 <= ic * Af * item).
    { apply Z.mul_le_mono_nonneg_r; [lia|].
      apply Z.mul_le_mono_nonneg_r; lia. }
    rewrite (to_size_t_small (e (Z.of_nat m) * Af))
      by (unfold Int32.INT_MAX in *; lia).
    rewrite to_size_t_small by lia. ring.
Qed.

Lemma reassemble_step (k : Z) (o : Tensor) :
  0 <= k < n ->
  sizes o = sizes X ->
  (forall r q, 0 <= r < Bf -> 0 <= q < prefix_sum e k * Af * item ->
     zth (resize_buf (numel X * item) (raw_data o)) (ic * Af * r * item + q)
     = zth (raw_data X) (ic * Af * r * item + q)) ->
  let o' := concat_copy input_zero Bf Af ic (slab k) (e k)
                        (concat_offset inputs Af e k) o in
  sizes o' = sizes X /\ dtype o' = dtype X
  /\ blen (raw_data o') = numel X * item
  /\ (forall r q, 0 <= r < Bf -> 0 <= q < prefix_sum e (k + 1) * Af * item ->
        zth (raw_data o') (ic * Af * r * item + q)
        = zth (raw_data X) (ic * Af * r * item + q)).
Proof.
  intros Hk Hsz Hinv.
  destruct (slab_geometry X c HX Hc) as [Hi [HB0 [HA0 [Hic [_ [HicA [_ [_ Hlen]]]]]]]].
  destruct (slab_cols X c e n HX Hc He Hsum k Hk) as [Hmul [Hmulc Hw]].
  destruct (prefix_sum_bounds X c e n He Hsum k Hk) as [HO [Hek Hle]].
  fold Af in Hmul, Hmulc, Hw, HA0, HicA, Hlen. fold ic in Hw, Hle, Hic, HicA, Hmulc, Hlen.
  fold item in Hi, Hlen. fold Bf in HB0, Hlen.
  assert (HL : numel X * item = Bf * (ic * Af) * item).
  { destruct HX as [_ [_ [_ [_ [_ HlenX]]]]]. fold item in HlenX. lia. }
  assert (HL0 : 0 <= numel X * item) by (rewrite HL; nia).
  assert (Hfit : prefix_sum e k * Af + e k * Af <= ic * Af) by nia.
  assert (HOff : 0 <= prefix_sum e k * Af) by nia.
  cbv zeta. unfold concat_copy.
  cbn [sizes dtype raw_data set_raw_data raw_mutable_data].
  assert (Hnum : numel o = numel X) by (unfold numel; rewrite Hsz; reflexivity).
  rewrite Hzero. fold item. rewrite Hnum.
  rewrite Hmul, Hmulc, (concat_offset_value k) by lia.
  rewrite (Hslab_type k Hk). fold item.
  destruct (scatter_slab item Bf (ic * Af) (e k * Af) (prefix_sum e k * Af)
              Hi HB0 ltac:(lia) HOff Hfit
              (raw_data (slab k)) (resize_buf (numel X * item) (raw_data o)))
    as [Hlen' [Hhit Hmiss]].
  { rewrite (Hslab_len k Hk). reflexivity. }
  { rewrite resize_buf_length by exact HL0. exact HL. }
  rewrite resize_buf_length in Hlen' by exact HL0.
  split; [exact Hsz|]. split; [reflexivity|]. split; [exact Hlen'|].
  intros r q Hr Hq. rewrite (prefix_sum_succ e) in Hq by lia.
  destruct (Z.lt_ge_cases q (prefix_sum e k * Af * item)) as [Hlt|Hge].
  - rewrite Hmiss; [apply Hinv; lia|lia| |lia].
    assert ((prefix_sum e k + e k) * Af * item <= ic * Af * item).
    { apply Z.mul_le_mono_nonneg_r; [lia|]. nia. }
    lia.
  - assert (Ht : 0 <= q - prefix_sum e k * Af * item < item * (e k * Af)) by nia.
    replace (ic * Af * r * item + q)
      with (prefix_sum e k * Af * item + ic * Af * r * item
            + (q - prefix_sum e k * Af * item)) by lia.
    rewrite Hhit by (try exact Hr; exact Ht).
    apply Hslab_data; [exact Hk|exact Hr|exact Ht].
Qed.

Lemma reassemble_prefix (m : nat) (o : Tensor) :
  Z.of_nat m <= n ->
  sizes o = sizes X ->
  let o' := concat_output inputs input_zero Bf Af ic e (Z.of_nat m) o in
  sizes o' = sizes X
  /\ (0 < Z.of_nat m ->
      dtype o' = dtype X /\ blen (raw_data o') = numel X * item)
  /\ (forall r q, 0 <= r < Bf -> 0 <= q < prefix_sum e (Z.of_nat m) * Af * item ->
        zth (resize_buf (numel X * item) (raw_data o')) (ic * Af * r * item + q)
        = zth (raw_data X) (ic * Af * r * item + q)).
Proof.
  intros Hm Hsz. induction m as [|m IH]; cbv zeta.
  - split; [exact Hsz|]. split; [lia|].
    intros r q Hr Hq. unfold prefix_sum in Hq. cbn in Hq. lia.
  - destruct IH as [IHsz [_ IHinv]]; [lia|].
    replace (Z.of_nat (S m)) with (Z.of_nat m + 1) by lia.
    rewrite concat_output_succ by lia.
    destruct (reassemble_step (Z.of_nat m)
                (concat_output inputs input_zero Bf Af ic e (Z.of_nat m) o)
                ltac:(lia) IHsz IHinv) as [H1 [H2 [H3 H4]]].
    fold (slab (Z.of_nat m)).
    split; [exact H1|]. split; [intros _; split; [exact H2|exact H3]|].
    intros r q Hr Hq. rewrite resize_buf_id by exact H3.
    apply H4; assumption.
Qed.

Lemma reassemble (o : Tensor) :
  sizes o = sizes X ->
  concat_output inputs input_zero Bf Af ic e n o = X.
Proof.
  intros Hsz.
  destruct (reassemble_prefix (Z.to_nat n) o ltac:(lia) Hsz) as [H1 [H2 H3]].
  rewrite Z2Nat.id in * by lia.
  destruct (H2 Hn) as [Hty Hlen].
  rewrite resize_buf_id in H3 by exact Hlen.
  destruct (slab_geometry X c HX Hc) as [Hi [HB0 [HA0 [Hic [_ [_ [_ [_ HlenX]]]]]]]].
  fold Af in HA0, HlenX. fold ic in Hic, HlenX. fold item in Hi, HlenX.
  fold Bf in HB0, HlenX.
  assert (HL : numel X * item = Bf * (ic * Af) * item).
  { destruct HX as [_ [_ [_ [_ [_ HlX]]]]]. fold item in HlX. lia. }
  set (Y := concat_output inputs input_zero Bf Af ic e n o) in *.
  assert (Hdata : raw_data Y = raw_data X).
  { apply (nth_ext _ _ zero_byte zero_byte).
    - unfold blen in *. lia.
    - intros p Hp.
      assert (Hp' : 0 <= Z.of_nat p < Bf * (ic * Af) * item)
        by (unfold blen in *; lia).
      assert (HR : 0 < ic * Af * item) by nia.
      pose proof (Z.div_mod (Z.of_nat p) (ic * Af * item) ltac:(lia)) as Hdm.
      pose proof (Z.mod_pos_bound (Z.of_nat p) (ic * Af * item) HR) as Hmod.
      assert (Hdiv0 : 0 <= Z.of_nat p / (ic * Af * item))
        by (apply Z.div_pos; lia).
      assert (Hdiv : Z.of_nat p / (ic * Af * item) < Bf).
      { apply Z.div_lt_upper_bound; [exact HR|]. nia. }
      specialize (H3 (Z.of_nat p / (ic * Af * item))
                     (Z.of_nat p mod (ic * Af * item)) ltac:(lia)).
      rewrite Hsum in H3. fold ic in H3. specialize (H3 Hmod).
      replace (ic * Af * (Z.of_nat p / (ic * Af * item)) * item
               + Z.of_nat p mod (ic * Af * item))
        with (Z.of_nat p) in H3 by lia.
      unfold zth in H3. rewrite Nat2Z.id in H3. exact H3. }
  destruct Y as [sz ty dat]. destruct X as [szX tyX datX].
  cbn [sizes dtype raw_data] in *. subst. reflexivity.
Qed.

End Reassemble.

(** ** Shapes with one extent replaced, removed or inserted *)

Lemma vset_in_range {A : Type} (v : list A) (i : Z) (x : A) :
  0 <= i < vsize v ->
  vset v i x = firstn (Z.to_nat i) v ++ x :: skipn (Z.to_nat (i + 1)) v.
Proof.
  intros H. unfold vset, vsize in *.
  destruct (Z.leb_spec 0 i); destruct (Z.ltb_spec i (Z.of_nat (length v)));
    cbn [andb]; try lia.
  replace (Z.to_nat (i + 1)) with (S (Z.to_nat i)) by lia. reflexivity.
Qed.

Lemma verase_eq {A : Type} (v : list A) (i : Z) :
  0 <= i -> verase v i = firstn (Z.to_nat i) v ++ skipn (Z.to_nat (i + 1)) v.
Proof.
  intros H. unfold verase.
  replace (Z.to_nat (i + 1)) with (S (Z.to_nat i)) by lia. reflexivity.
Qed.

Lemma firstn_app_exact {A : Type} (l1 l2 : list A) (k : nat) :
  length l1 = k -> firstn k (l1 ++ l2) = l1.
Proof.
  intros H. rewrite firstn_app, H. replace (k - k)%nat with 0%nat by lia.
  cbn [firstn]. rewrite app_nil_r. apply firstn_all2. lia.
Qed.

Lemma skipn_app_exact {A : Type} (l1 l2 : list A) (k : nat) :
  length l1 = k -> skipn k (l1 ++ l2) = l2.
Proof.
  intros H. rewrite skipn_app, H. replace (k - k)%nat with 0%nat by lia.
  cbn [skipn]. rewrite skipn_all2 by lia. reflexivity.
Qed.

Section ShapeEdits.
Variables (dims : list Z) (c : Z).
Hypothesis Hc : 0 <= c < vsize dims.

Lemma firstn_len : length (firstn (Z.to_nat c) dims) = Z.to_nat c.
Proof. rewrite length_firstn. unfold vsize in Hc. lia. Qed.

Lemma vset_firstn (v : Z) :
  firstn (Z.to_nat c) (vset dims c v) = firstn (Z.to_nat c) dims.
Proof. rewrite vset_in_range by exact Hc. apply firstn_app_exact, firstn_len. Qed.

Lemma vset_skipn (v : Z) :
  skipn (Z.to_nat (c + 1)) (vset dims c v) = skipn (Z.to_nat (c + 1)) dims.
Proof.
  rewrite vset_in_range by exact Hc.
  replace (Z.to_nat (c + 1)) with (S (Z.to_nat c)) at 1 by lia.
  change (firstn (Z.to_nat c) dims ++ v :: skipn (Z.to_nat (c + 1)) dims)
    with (firstn (Z.to_nat c) dims ++ [v] ++ skipn (Z.to_nat (c + 1)) dims).
  rewrite app_assoc. apply skipn_app_exact.
  rewrite length_app, firstn_len. cbn [length]. lia.
Qed.

Lemma vset_extent (v : Z) : extent (vset dims c v) c = v.
Proof. unfold extent. apply nth_vset_same. exact Hc. Qed.

Lemma vset_prodZ (v : Z) :
  prodZ (vset dims c v)
  = prodZ (firstn (Z.to_nat c) dims) * (v * prodZ (skipn (Z.to_nat (c + 1)) dims)).
Proof. rewrite vset_in_range by exact Hc. rewrite prodZ_app. reflexivity. Qed.

Lemma vset_extent_same : vset dims c (extent dims c) = dims.
Proof. unfold extent. apply vset_nth_same. exact Hc. Qed.

Lemma verase_firstn :
  firstn (Z.to_nat c) (verase dims c) = firstn (Z.to_nat c) dims.
Proof. rewrite verase_eq by lia. apply firstn_app_exact, firstn_len. Qed.

Lemma verase_skipn :
  skipn (Z.to_nat c) (verase dims c) = skipn (Z.to_nat (c + 1)) dims.
Proof. rewrite verase_eq by lia. apply skipn_app_exact, firstn_len. Qed.

Lemma verase_length : vsize (verase dims c) = vsize dims - 1.
Proof.
  rewrite verase_eq by lia. unfold vsize in *.
  rewrite length_app, firstn_len, length_skipn. lia.
Qed.

Lemma verase_prodZ :
  prodZ (verase dims c)
  = prodZ (firstn (Z.to_nat c) dims) * prodZ (skipn (Z.to_nat (c + 1)) dims).
Proof. rewrite verase_eq by lia. apply prodZ_app. Qed.

Lemma vinsert_verase : vinsert (verase dims c) c (extent dims c) = dims.
Proof.
  unfold vinsert. rewrite verase_firstn, verase_skipn.
  symmetry. apply shape_cut. exact Hc.
Qed.

Lemma vset_shape_ok (v : Z) :
  shape_ok dims -> 0 <= v < Int32.INT_MAX -> shape_ok (vset dims c v).
Proof.
  intros Hs Hv. rewrite vset_in_range by exact Hc. unfold shape_ok in *.
  apply Forall_app. split; [apply Forall_firstn; exact Hs|].
  constructor; [exact Hv|apply Forall_skipn; exact Hs].
Qed.

Lemma verase_shape_ok : shape_ok dims -> shape_ok (verase dims c).
Proof.
  intros Hs. rewrite verase_eq by lia. unfold shape_ok in *.
  apply Forall_app. split; [apply Forall_firstn|apply Forall_skipn]; exact Hs.
Qed.

End ShapeEdits.

(** ** The dimension loop of Concat, in closed form *)

Lemma dim32_inv (t : Tensor) (i d : Z) :
  dim32 t i = Ok d -> 0 <= i < ndim t /\ d = extent (sizes t) i /\ d < Int32.INT_MAX.
Proof.
  unfold dim32, ndim, extent. destruct (Z.ltb_spec i 0); [discriminate|].
  destruct (nth_error (sizes t) (Z.to_nat i)) as [s|] eqn:Hn; [|discriminate].
  destruct (Z.ltb_spec s Int32.INT_MAX); [|discriminate].
  intros Heq. inversion Heq; subst d.
  assert (Hlt : (Z.to_nat i < length (sizes t))%nat).
  { apply nth_error_Some. rewrite Hn. discriminate. }
  split; [lia|]. split; [|assumption].
  symmetry. apply nth_error_nth. exact Hn.
Qed.

Lemma dims_step_value (op : ConcatOp.t) (inputs : list Tensor) (input_zero : Tensor)
      (c : Z) (acc r : Z * Z) (i : Z) :
  ConcatOp.dims_step op inputs input_zero c acc i = Ok r ->
  r = dims_acc op (sizes input_zero) c acc i.
Proof.
  destruct acc as [b a]. unfold ConcatOp.dims_step, dims_acc. cbn [fst snd].
  destruct ((i =? c) && negb (truthy (ConcatOp.add_axis_ op))).
  - intros H. inversion H. reflexivity.
  - destruct (dim32 input_zero i) as [d|e0] eqn:Hd; cbn [rbind]; [|discriminate].
    destruct (dim32_inv _ _ _ Hd) as [_ [-> _]].
    destruct (ConcatOp.check_dim inputs input_zero c i (extent (sizes input_zero) i));
      cbn [rbind]; [|discriminate].
    intros H. inversion H. reflexivity.
Qed.

Lemma dims_loop_value (op : ConcatOp.t) (inputs : list Tensor) (input_zero : Tensor)
      (c : Z) (idx : list Z) (acc r : Z * Z) :
  foldR (ConcatOp.dims_step op inputs input_zero c) idx acc = Ok r ->
  r = fold_left (dims_acc op (sizes input_zero) c) idx acc.
Proof.
  revert acc. induction idx as [|i idx IH]; intros acc H; cbn [foldR fold_left] in *.
  - inversion H. reflexivity.
  - destruct (ConcatOp.dims_step op inputs input_zero c acc i) as [r'|e0] eqn:Hs;
      cbn [rbind] in H; [|discriminate].
    rewrite <- (dims_step_value _ _ _ _ _ _ _ Hs). apply IH. exact H.
Qed.

Lemma dims_acc_before (op : ConcatOp.t) (d0 : list Z) (c : Z) (idx : list Z)
      (b a : Z) :
  (forall i, In i idx -> i < c) ->
  fold_left (dims_acc op d0 c) idx (b, a)
  = (fold_left (fun b i => Int32.mul b (extent d0 i)) idx b, a).
Proof.
  revert b. induction idx as [|i idx IH]; intros b Hidx; cbn [fold_left].
  - reflexivity.
  - assert (Hi : i < c) by (apply Hidx; left; reflexivity).
    unfold dims_acc at 2. cbn [fst snd].
    destruct (Z.eqb_spec i c); [lia|]. cbn [andb].
    destruct (Z.ltb_spec i c); [|lia].
    apply IH. intros j Hj. apply Hidx. right. exact Hj.
Qed.

Lemma dims_acc_after (op : ConcatOp.t) (d0 : list Z) (c : Z) (idx : list Z)
      (b a : Z) :
  (forall i, In i idx -> c <= i /\ (i = c -> truthy (ConcatOp.add_axis_ op) = true)) ->
  fold_left (dims_acc op d0 c) idx (b, a)
  = (b, fold_left (fun a i => Int32.mul a (extent d0 i)) idx a).
Proof.
  revert a. induction idx as [|i idx IH]; intros a Hidx; cbn [fold_left].
  - reflexivity.
  - destruct (Hidx i (or_introl eq_refl)) as [Hi Hadd].
    unfold dims_acc at 2. cbn [fst snd].
    assert (Hskip : (i =? c) && negb (truthy (ConcatOp.add_axis_ op)) = false).
    { destruct (Z.eqb_spec i c) as [E|E]; [|reflexivity].
      rewrite (Hadd E). reflexivity. }
    rewrite Hskip. destruct (Z.ltb_spec i c); [lia|].
    apply IH. intros j Hj. apply Hidx. right. exact Hj.
Qed.

Lemma dims_acc_skip (op : ConcatOp.t) (d0 : list Z) (c : Z) (acc : Z * Z) :
  truthy (ConcatOp.add_axis_ op) = false -> dims_acc op d0 c acc c = acc.
Proof.
  intros H. unfold dims_acc. rewrite Z.eqb_refl, H. reflexivity.
Qed.

Lemma dims_acc_range (op : ConcatOp.t) (d0 : list Z) (c : Z) :
  shape_ok d0 ->
  0 <= c ->
  (if truthy (ConcatOp.add_axis_ op) then c <= vsize d0 else c < vsize d0) ->
  span d0 <= Int32.INT_MAX ->
  fold_left (dims_acc op d0 c) (range 0 (vsize d0)) (1, 1)
  = (prodZ (firstn (Z.to_nat c) d0),
     prodZ (skipn (Z.to_nat (if truthy (ConcatOp.add_axis_ op) then c else c + 1)) d0)).
Proof.
  intros Hs Hc0 Hc Hsp.
  assert (Hcle : c <= vsize d0) by (destruct (truthy (ConcatOp.add_axis_ op)); lia).
  rewrite (range_split 0 c (vsize d0)) by lia. rewrite fold_left_app.
  rewrite dims_acc_before by (intros i Hi; apply in_range in Hi; lia).
  assert (Hb : fold_left (fun b i => Int32.mul b (extent d0 i)) (range 0 c) 1
               = prodZ (firstn (Z.to_nat c) d0)).
  { assert (Hmap : map (extent d0) (range 0 c) = firstn (Z.to_nat c) d0).
    { rewrite map_extent_range by lia. cbn [Z.to_nat skipn]. f_equal. lia. }
    rewrite fold_mul_nowrap.
    - rewrite Hmap. lia.
    - lia.
    - intros i _. apply extent_nonneg. exact Hs.
    - rewrite Hmap. pose proof (span_firstn (Z.to_nat c) d0).
      change (Z.max 1 1) with 1. lia. }
  rewrite Hb.
  assert (Ha : forall lo, c <= lo <= vsize d0 ->
                 fold_left (fun a i => Int32.mul a (extent d0 i)) (range lo (vsize d0)) 1
                 = prodZ (skipn (Z.to_nat lo) d0)).
  { intros lo Hlo.
    assert (Hmap : map (extent d0) (range lo (vsize d0)) = skipn (Z.to_nat lo) d0).
    { rewrite map_extent_range by lia.
      apply firstn_all2. rewrite length_skipn. unfold vsize. lia. }
    rewrite fold_mul_nowrap.
    - rewrite Hmap. lia.
    - lia.
    - intros i _. apply extent_nonneg. exact Hs.
    - rewrite Hmap. pose proof (span_skipn (Z.to_nat lo) d0).
      change (Z.max 1 1) with 1. lia. }
  destruct (truthy (ConcatOp.add_axis_ op)) eqn:Hadd.
  - rewrite dims_acc_after.
    + rewrite Ha by lia. reflexivity.
    + intros i Hi. apply in_range in Hi. split; [lia|]. intros _. exact Hadd.
  - rewrite (range_cons c (vsize d0)) by lia. cbn [fold_left].
    rewrite dims_acc_skip by exact Hadd. rewrite dims_acc_after.
    + rewrite Ha by lia. reflexivity.
    + intros i Hi. apply in_range in Hi. split; [lia|]. intros E. lia.
Qed.

Lemma firstn_as_map_at (p : list Z) (n : Z) :
  0 <= n <= vsize p -> firstn (Z.to_nat n) p = map (at_ p) (range 0 n).
Proof.
  intros H. pose proof (map_extent_range p 0 n ltac:(lia) ltac:(lia)) as E.
  cbn [Z.to_nat skipn] in E. replace (n - 0) with n in E by lia.
  symmetry. exact E.
Qed.

Lemma accumulate_prefix (p : list Z) (n : Z) :
  0 <= n <= vsize p ->
  (forall k, 0 <= k < n -> 0 <= at_ p k) ->
  prefix_sum (at_ p) n <= Int32.INT_MAX ->
  accumulate p n = prefix_sum (at_ p) n.
Proof.
  intros Hn Hnn Hs. unfold prefix_sum in *.
  rewrite accumulate_sum; rewrite firstn_as_map_at by exact Hn.
  - reflexivity.
  - apply Forall_forall. intros x Hx. apply in_map_iff in Hx.
    destruct Hx as [k [<- Hk]]. apply in_range in Hk. apply Hnn. exact Hk.
  - exact Hs.
Qed.

Lemma fold_add_prefix (e : Z -> Z) (n : Z) :
  (forall k, 0 <= k < n -> 0 <= e k) ->
  prefix_sum e n <= Int32.INT_MAX ->
  fold_left Int32.add (map e (range 0 n)) 0 = prefix_sum e n.
Proof.
  intros Hnn Hs. unfold prefix_sum in *. rewrite fold_add_nowrap; try lia.
  apply Forall_forall. intros x Hx. apply in_map_iff in Hx.
  destruct Hx as [k [<- Hk]]. apply in_range in Hk. apply Hnn. exact Hk.
Qed.

(** ** C1: Split and then Concat *)

Lemma prefix_sum_const (v n : Z) : 0 <= n -> prefix_sum (fun _ => v) n = v * n.
Proof.
  intros H. unfold prefix_sum. rewrite sumZ_map_const, range_length.
  rewrite Z2Nat.id by lia. f_equal. lia.
Qed.

Lemma split_total_value (op : SplitOp.t) (axis_data : list Z) (n ic : Z) :
  0 <= n <= vsize axis_data -> ic <= Int32.INT_MAX ->
  (forall k, 0 <= k < n -> 0 <= split_axis_dim op axis_data k) ->
  prefix_sum (split_axis_dim op axis_data) n = ic ->
  split_total op axis_data n = ic.
Proof.
  unfold split_total, split_axis_dim.
  destruct (truthy (SplitOp.add_axis_ op)); intros Hn Hic Hnn Hsum.
  - rewrite prefix_sum_const in Hsum by lia. lia.
  - change (fun k : Z => at_ axis_data k) with (at_ axis_data) in Hsum.
    rewrite accumulate_prefix; try assumption. lia.
Qed.

Lemma split_output_dims_prodZ (op : SplitOp.t) (X : Tensor) (c : Z)
      (axis_data : list Z) (k : Z) :
  0 <= c < ndim X ->
  prodZ (split_output_dims op X c axis_data k)
  = prodZ (firstn (Z.to_nat c) (sizes X))
    * (split_axis_dim op axis_data k * prodZ (skipn (Z.to_nat (c + 1)) (sizes X))).
Proof.
  intros Hc. unfold split_output_dims, split_axis_dim.
  destruct (truthy (SplitOp.add_axis_ op)).
  - rewrite verase_prodZ by exact Hc. lia.
  - apply vset_prodZ. exact Hc.
Qed.

Lemma roundtrip_split_run (op : SplitOp.t) (ins : SplitOp.Inputs) (outs : list Tensor)
      (c : Z) (axis_data : list Z) :
  tensor_ok (SplitOp.X ins) ->
  canonical_axis_index (SplitOp.X ins) (SplitOp.axis_ op) = Ok c ->
  SplitOp.select_axis_data op ins (extent (sizes (SplitOp.X ins)) c) (OutputSize outs)
  = Ok axis_data ->
  OutputSize outs <= vsize axis_data ->
  (forall k, 0 <= k < OutputSize outs -> 0 <= split_axis_dim op axis_data k) ->
  prefix_sum (split_axis_dim op axis_data) (OutputSize outs)
  = extent (sizes (SplitOp.X ins)) c ->
  exists outs',
    SplitOp.RunOnDevice op ins outs = (outs', Ok true)
    /\ length outs' = length outs
    /\ forall k, 0 <= k < OutputSize outs ->
         sizes (Output outs' k) = split_output_dims op (SplitOp.X ins) c axis_data k
         /\ dtype (Output outs' k) = dtype (SplitOp.X ins)
         /\ blen (raw_data (Output outs' k))
            = prodZ (firstn (Z.to_nat c) (sizes (SplitOp.X ins)))
              * (split_axis_dim op axis_data k
                 * prodZ (skipn (Z.to_nat (c + 1)) (sizes (SplitOp.X ins))))
              * itemsize (dtype (SplitOp.X ins))
         /\ forall r t,
              0 <= r < prodZ (firstn (Z.to_nat c) (sizes (SplitOp.X ins))) ->
              0 <= t < itemsize (dtype (SplitOp.X ins))
                       * (split_axis_dim op axis_data k
                          * prodZ (skipn (Z.to_nat (c + 1)) (sizes (SplitOp.X ins)))) ->
              zth (raw_data (Output outs' k))
                  (split_axis_dim op axis_data k
                   * prodZ (skipn (Z.to_nat (c + 1)) (sizes (SplitOp.X ins)))
                   * r * itemsize (dtype (SplitOp.X ins)) + t)
              = zth (raw_data (SplitOp.X ins))
                    (prefix_sum (split_axis_dim op axis_data) k
                     * prodZ (skipn (Z.to_nat (c + 1)) (sizes (SplitOp.X ins)))
                     * itemsize (dtype (SplitOp.X ins))
                     + extent (sizes (SplitOp.X ins)) c
                       * prodZ (skipn (Z.to_nat (c + 1)) (sizes (SplitOp.X ins)))
                       * r * itemsize (dtype (SplitOp.X ins)) + t).
Proof.
  intros HX Hc Hsel Hlen Hnn Hsum.
  set (X := SplitOp.X ins) in *. set (n := OutputSize outs) in *.
  set (e := split_axis_dim op axis_data) in *.
  pose proof (canonical_axis_index__range _ _ _ Hc) as Hcr.
  assert (Hn0 : 0 <= n) by (unfold n, OutputSize; lia).
  destruct (HX) as [Hshape [Hspan [Hrank [Hitem [Hsz HlenX]]]]].
  destruct (slab_geometry X c HX Hcr) as [Hi [HB0 [HA0 [Hic [HBm [HicA [HAm [Hoff Hdata]]]]]]]].
  set (Bf := prodZ (firstn (Z.to_nat c) (sizes X))) in *.
  set (Af := prodZ (skipn (Z.to_nat (c + 1)) (sizes X))) in *.
  set (ic := extent (sizes X) c) in *.
  set (item := itemsize (dtype X)) in *.
  assert (Hicm : ic < Int32.INT_MAX) by (apply shape_ok_nth; exact Hshape).
  assert (Hdim : dim32 X c = Ok ic) by (apply dim32_ok; assumption).
  assert (Htot : split_total op axis_data n = ic)
    by (apply split_total_value; try assumption; lia).
  assert (Hb : SplitOp.before_loop X c = Ok Bf)
    by (apply before_loop_value; try assumption; lia).
  assert (Ha : SplitOp.after_loop X c = Ok Af)
    by (apply after_loop_value; try assumption; lia).
  destruct (SplitOp_run op ins outs c ic Bf Af axis_data Hc Hdim Hsel Htot Hb Ha)
    as [outs' [Hrun [Hl Hout]]].
  exists outs'. split; [exact Hrun|]. split; [exact Hl|].
  intros k Hk. fold X n e in Hout. rewrite (Hout k Hk).
  destruct (slab_cols X c e n HX Hcr Hnn Hsum k Hk) as [Hmul [Hmulc Hw]].
  destruct (prefix_sum_bounds X c e n Hnn Hsum k Hk) as [HO [Hek Hle]].
  fold Af in Hmul, Hmulc, Hw. fold ic in Hmulc, Hw, Hle.
  fold e. rewrite Hmul, Hmulc.
  pose proof (slab_offset_value X c e n HX Hcr Hnn Hn0 Hsum k ltac:(lia)) as Hso.
  fold Af item in Hso. rewrite Hso.
  split; [reflexivity|]. split; [reflexivity|].
  unfold fill_output. cbn [raw_data set_raw_data raw_mutable_data Resize sizes dtype].
  fold item. unfold numel, Resize. cbn [sizes].
  rewrite (split_output_dims_prodZ op X c axis_data k Hcr). fold Bf Af e.
  assert (Hfit : prefix_sum e k * Af + e k * Af <= ic * Af) by nia.
  assert (HOff : 0 <= prefix_sum e k * Af) by nia.
  assert (HL0 : 0 <= Bf * (e k * Af) * item) by nia.
  apply (gather_slab item Bf (ic * Af) (e k * Af) (prefix_sum e k * Af)
           Hi HB0 ltac:(lia) HOff Hfit).
  - exact Hdata.
  - rewrite resize_buf_length by exact HL0. reflexivity.
Qed.

(** The slabs Split writes, given that the sum check of line 158 passes. *)
Lemma split_run_slabs (op : SplitOp.t) (ins : SplitOp.Inputs) (outs : list Tensor)
      (c : Z) (axis_data : list Z) :
  tensor_ok (SplitOp.X ins) ->
  canonical_axis_index (SplitOp.X ins) (SplitOp.axis_ op) = Ok c ->
  SplitOp.select_axis_data op ins (extent (sizes (SplitOp.X ins)) c) (OutputSize outs)
  = Ok axis_data ->
  split_total op axis_data (OutputSize outs) = extent (sizes (SplitOp.X ins)) c ->
  (forall k, 0 <= k < OutputSize outs -> 0 <= split_axis_dim op axis_data k) ->
  prefix_sum (split_axis_dim op axis_data) (OutputSize outs)
  = extent (sizes (SplitOp.X ins)) c ->
  exists outs',
    SplitOp.RunOnDevice op ins outs = (outs', Ok true)
    /\ length outs' = length outs
    /\ forall k, 0 <= k < OutputSize outs ->
         sizes (Output outs' k) = split_output_dims op (SplitOp.X ins) c axis_data k
         /\ dtype (Output outs' k) = dtype (SplitOp.X ins)
         /\ blen (raw_data (Output outs' k))
            = prodZ (firstn (Z.to_nat c) (sizes (SplitOp.X ins)))
              * (split_axis_dim op axis_data k
                 * prodZ (skipn (Z.to_nat (c + 1)) (sizes (SplitOp.X ins))))
              * itemsize (dtype (SplitOp.X ins))
         /\ forall r t,
              0 <= r < prodZ (firstn (Z.to_nat c) (sizes (SplitOp.X ins))) ->
              0 <= t < itemsize (dtype (SplitOp.X ins))
                       * (split_axis_dim op axis_data k
                          * prodZ (skipn (Z.to_nat (c + 1)) (sizes (SplitOp.X ins)))) ->
              zth (raw_data (Output outs' k))
                  (split_axis_dim op axis_data k
                   * prodZ (skipn (Z.to_nat (c + 1)) (sizes (SplitOp.X ins)))
                   * r * itemsize (dtype (SplitOp.X ins)) + t)
              = zth (raw_data (SplitOp.X ins))
                    (prefix_sum (split_axis_dim op axis_data) k
                     * prodZ (skipn (Z.to_nat (c + 1)) (sizes (SplitOp.X ins)))
                     * itemsize (dtype (SplitOp.X ins))
                     + extent (sizes (SplitOp.X ins)) c
                       * prodZ (skipn (Z.to_nat (c + 1)) (sizes (SplitOp.X ins)))
                       * r * itemsize (dtype (SplitOp.X ins)) + t).
Proof.
  intros HX Hc Hsel Htot Hnn Hsum.
  set (X := SplitOp.X ins) in *. set (n := OutputSize outs) in *.
  set (e := split_axis_dim op axis_data) in *.
  pose proof (canonical_axis_index__range _ _ _ Hc) as Hcr.
  assert (Hn0 : 0 <= n) by (unfold n, OutputSize; lia).
  destruct (HX) as [Hshape [Hspan [Hrank [Hitem [Hsz HlenX]]]]].
  destruct (slab_geometry X c HX Hcr) as [Hi [HB0 [HA0 [Hic [HBm [HicA [HAm [Hoff Hdata]]]]]]]].
  set (Bf := prodZ (firstn (Z.to_nat c) (sizes X))) in *.
  set (Af := prodZ (skipn (Z.to_nat (c + 1)) (sizes X))) in *.
  set (ic := extent (sizes X) c) in *.
  set (item := itemsize (dtype X)) in *.
  assert (Hdim : dim32 X c = Ok ic) by (apply dim32_ok; assumption).
  assert (Hb : SplitOp.before_loop X c = Ok Bf)
    by (apply before_loop_value; try assumption; lia).
  assert (Ha : SplitOp.after_loop X c = Ok Af)
    by (apply after_loop_value; try assumption; lia).
  destruct (SplitOp_run op ins outs c ic Bf Af axis_data Hc Hdim Hsel Htot Hb Ha)
    as [outs' [Hrun [Hl Hout]]].
  exists outs'. split; [exact Hrun|]. split; [exact Hl|].
  intros k Hk. fold X n e in Hout. rewrite (Hout k Hk).
  destruct (slab_cols X c e n HX Hcr Hnn Hsum k Hk) as [Hmul [Hmulc Hw]].
  destruct (prefix_sum_bounds X c e n Hnn Hsum k Hk) as [HO [Hek Hle]].
  fold Af in Hmul, Hmulc, Hw. fold ic in Hmulc, Hw, Hle.
  fold e. rewrite Hmul, Hmulc.
  pose proof (slab_offset_value X c e n HX Hcr Hnn Hn0 Hsum k ltac:(lia)) as Hso.
  fold Af item in Hso. rewrite Hso.
  split; [reflexivity|]. split; [reflexivity|].
  unfold fill_output. cbn [raw_data set_raw_data raw_mutable_data Resize sizes dtype].
  fold item. unfold numel, Resize. cbn [sizes].
  rewrite (split_output_dims_prodZ op X c axis_data k Hcr). fold Bf Af e.
  assert (Hfit : prefix_sum e k * Af + e k * Af <= ic * Af) by nia.
  assert (HOff : 0 <= prefix_sum e k * Af) by nia.
  assert (HL0 : 0 <= Bf * (e k * Af) * item) by nia.
  apply (gather_slab item Bf (ic * Af) (e k * Af) (prefix_sum e k * Af)
           Hi HB0 ltac:(lia) HOff Hfit).
  - exact Hdata.
  - rewrite resize_buf_length by exact HL0. reflexivity.
Qed.

Lemma prefix_sum_ext (e e' : Z -> Z) (k : Z) :
  (forall i, 0 <= i < k -> e i = e' i) -> prefix_sum e k = prefix_sum e' k.
Proof.
  intros H. unfold prefix_sum. f_equal. apply map_ext_in.
  intros i Hi. apply in_range in Hi. apply H. exact Hi.
Qed.

(** ** C7: the equal split, amended *)

(** C7 (counterexample).  A well-formed input of shape [[2, 4]] split with
    [add_axis] along axis 1 into two outputs, with neither sizes nor a
    ratio tensor: the extent 4 is divisible by 2, yet the run fails, with
    ShapeSumMismatch, because line 158 compares the number of outputs with
    the extent; so the claim does not hold. *)
Lemma equal_split_add_axis_count_mismatch :
  Z.rem 4 2 = 0
  /\ SplitOp.RunOnDevice (SplitOp.mk 1 1 [])
       (SplitOp.mkInputs (mkTensor [2; 4] byte_meta (count_bytes 8)) None)
       (fresh_outputs 2)
     = (fresh_outputs 2, Err (ShapeSumMismatch 2 4))
  /\ ~ equal_split_claim.
Proof.
  split; [reflexivity|]. split; [reflexivity|].
  intros H.
  assert (HX : tensor_ok (mkTensor [2; 4] byte_meta (count_bytes 8))).
  { unfold tensor_ok. cbn [sizes dtype raw_data itemsize byte_meta].
    split; [repeat constructor; unfold Int32.INT_MAX; lia|].
    repeat split; vm_compute; try reflexivity; discriminate. }
  specialize (H (SplitOp.mk 1 1 []) (mkTensor [2; 4] byte_meta (count_bytes 8))
                (fresh_outputs 2) 1 4 eq_refl HX eq_refl eq_refl eq_refl).
  vm_compute in H. discriminate H.
Qed.

(** C7.  A Split run with neither a [split] argument nor a ratio tensor
    fails with IndivisibleSplit when the extent at the axis is not divisible
    by the number of outputs.  When it is divisible and an axis is added,
    the run fails with ShapeSumMismatch unless the number of outputs is the
    extent.  In the remaining cases the run on a well-formed input
    succeeds: output [k] has the shape of the input with the quotient at
    the axis (with the axis left out when an axis is added; the quotient is
    then 1), the element type of the input, and in each of the [before] rows
    the bytes of the [k]-th run of quotient times [after] items of the
    input's row. *)
Theorem equal_split_divisibility :
  forall (op : SplitOp.t) (input : Tensor) (outs : list Tensor) (c ic : Z),
    SplitOp.split_ op = [] ->
    canonical_axis_index input (SplitOp.axis_ op) = Ok c ->
    dim32 input c = Ok ic ->
    0 < OutputSize outs ->
    let ins := SplitOp.mkInputs input None in
    let n := OutputSize outs in
    let q := Z.quot ic n in
    let before := prodZ (firstn (Z.to_nat c) (sizes input)) in
    let after := prodZ (skipn (Z.to_nat (c + 1)) (sizes input)) in
    let item := itemsize (dtype input) in
    (Z.rem ic n <> 0 ->
     SplitOp.RunOnDevice op ins outs = (outs, Err IndivisibleSplit)) /\
    (Z.rem ic n = 0 -> truthy (SplitOp.add_axis_ op) = true -> n <> ic ->
     SplitOp.RunOnDevice op ins outs = (outs, Err (ShapeSumMismatch n ic))) /\
    (Z.rem ic n = 0 -> (truthy (SplitOp.add_axis_ op) = true -> n = ic) ->
     tensor_ok input ->
     exists outs',
       SplitOp.RunOnDevice op ins outs = (outs', Ok true)
       /\ length outs' = length outs
       /\ forall k, 0 <= k < n ->
            sizes (Output outs' k)
            = firstn (Z.to_nat c) (sizes input)
              ++ (if truthy (SplitOp.add_axis_ op) then [] else [q])
              ++ skipn (Z.to_nat (c + 1)) (sizes input)
            /\ dtype (Output outs' k) = dtype input
            /\ blen (raw_data (Output outs' k)) = before * (q * after) * item
            /\ forall r t,
                 0 <= r < before -> 0 <= t < item * (q * after) ->
                 zth (raw_data (Output outs' k)) (q * after * r * item + t)
                 = zth (raw_data input)
                       (k * q * after * item + ic * after * r * item + t)).
Proof.
  intros op input outs c ic Hs Hc Hdim Hn ins n q before after item.
  pose proof (canonical_axis_index__range _ _ _ Hc) as Hrange.
  assert (Hplan : forall ad,
             SplitOp.select_axis_data op ins ic n = ad ->
             split_plan op ins n
             = rbind ad (fun axis_data =>
                 if split_total op axis_data n =? ic then
                   rbind (SplitOp.before_loop input c) (fun b =>
                   rbind (SplitOp.after_loop input c) (fun a =>
                   Ok (c, ic, axis_data, b, a)))
                 else Err (ShapeSumMismatch (split_total op axis_data n) ic))).
  { intros ad Had. unfold split_plan. subst ins. cbn [SplitOp.X].
    rewrite Hc. cbn [rbind]. rewrite Hdim. cbn [rbind]. rewrite Had. reflexivity. }
  pose proof (SplitOp_run_plan op ins outs) as Hrun. fold n in Hrun.
  split; [|split].
  - intros Hrem. rewrite (Hplan _ eq_refl) in Hrun. subst ins.
    rewrite select_axis_data_equal in Hrun by exact Hs.
    destruct (Z.eqb_spec (Z.rem ic n) 0) as [E|E]; [contradiction|].
    exact Hrun.
  - intros Hrem Hadd Hne. rewrite (Hplan _ eq_refl) in Hrun. subst ins.
    rewrite select_axis_data_equal in Hrun by exact Hs.
    rewrite Hrem in Hrun. cbn [Z.eqb rbind] in Hrun.
    unfold split_total in Hrun. rewrite Hadd in Hrun.
    destruct (Z.eqb_spec n ic) as [E|E]; [contradiction|]. exact Hrun.
  - intros Hrem Hmode HX. clear Hrun Hplan.
    destruct (dim32_inv _ _ _ Hdim) as [_ [Hic _]].
    pose proof HX as [Hshape _].
    pose proof (shape_ok_nth (sizes input) (Z.to_nat c) Hshape) as Hicr.
    fold (extent (sizes input) c) in Hicr. rewrite <- Hic in Hicr.
    assert (Hq : ic = n * q).
    { pose proof (Z.quot_rem' ic n) as E. rewrite Hrem in E. unfold q. lia. }
    assert (Hq0 : 0 <= q) by (unfold q; apply Z.quot_pos; lia).
    set (ad := repeat q (Z.to_nat n)).
    assert (Hsel : SplitOp.select_axis_data op ins (extent (sizes (SplitOp.X ins)) c) n
                   = Ok ad).
    { subst ins. cbn [SplitOp.X]. rewrite <- Hic.
      rewrite select_axis_data_equal by exact Hs. rewrite Hrem. reflexivity. }
    assert (He : forall k, 0 <= k < n -> split_axis_dim op ad k = q).
    { intros k Hk. unfold split_axis_dim.
      destruct (truthy (SplitOp.add_axis_ op)) eqn:Hadd.
      - specialize (Hmode eq_refl). nia.
      - unfold ad. apply at_repeat. lia. }
    assert (Hpre : forall k, 0 <= k <= n ->
              prefix_sum (split_axis_dim op ad) k = q * k).
    { intros k Hk. rewrite (prefix_sum_ext _ (fun _ => q)).
      - apply prefix_sum_const. lia.
      - intros i Hi. apply He. lia. }
    destruct (roundtrip_split_run op ins outs c ad HX Hc Hsel) as [outs' [R [L F]]].
    { fold n. unfold ad, vsize. rewrite repeat_length. lia. }
    { intros k Hk. rewrite (He k Hk). exact Hq0. }
    { fold n. rewrite Hpre by lia. subst ins. cbn [SplitOp.X]. lia. }
    exists outs'. split; [exact R|]. split; [exact L|].
    intros k Hk. destruct (F k Hk) as [Fs [Ft [Fl Fd]]].
    subst ins. cbn [SplitOp.X] in Fs, Ft, Fl, Fd.
    rewrite (He k Hk) in Fl, Fd. rewrite (Hpre k) in Fd by lia.
    rewrite <- Hic in Fd. fold before after item in Fl, Fd.
    assert (Hcv : 0 <= c < vsize (sizes input)) by (unfold vsize, ndim in *; lia).
    split.
    { rewrite Fs. unfold split_output_dims.
      destruct (truthy (SplitOp.add_axis_ op)) eqn:Hadd.
      - rewrite verase_eq by lia. reflexivity.
      - rewrite vset_in_range by exact Hcv. unfold ad.
        rewrite at_repeat by lia. reflexivity. }
    split; [exact Ft|]. split; [exact Fl|].
    intros r t Hr Ht. rewrite (Fd r t Hr Ht). f_equal. ring.
Qed.

(** C7 on the example of the specification (shape [[5, 4]], axis 0, three
    outputs: IndivisibleSplit) and on a tensor of shape [[4, 2]] split
    along axis 0 into two outputs of shape [[2, 2]]. *)
Lemma equal_split_divisibility_witness :
  SplitOp.RunOnDevice (SplitOp.mk 0 0 [])
                      (SplitOp.mkInputs (mkTensor [5; 4] byte_meta (zeros 20)) None)
                      (fresh_outputs 3)
  = (fresh_outputs 3, Err IndivisibleSplit)
  /\ SplitOp.RunOnDevice (SplitOp.mk 0 0 [])
       (SplitOp.mkInputs (mkTensor [4; 2] byte_meta (count_bytes 8)) None)
       (fresh_outputs 2)
     = ([mkTensor [2; 2] byte_meta [x00; x01; x02; x03];
         mkTensor [2; 2] byte_meta [x04; x05; x06; x07]], Ok true)
  /\ exists outs',
       SplitOp.RunOnDevice (SplitOp.mk 0 0 [])
         (SplitOp.mkInputs (mkTensor [4; 2] byte_meta (count_bytes 8)) None)
         (fresh_outputs 2)
       = (outs', Ok true)
       /\ length outs' = 2%nat
       /\ forall k, 0 <= k < 2 ->
            sizes (Output outs' k) = [2; 2]
            /\ dtype (Output outs' k) = byte_meta
            /\ blen (raw_data (Output outs' k)) = 1 * (2 * 2) * 1
            /\ forall r t,
                 0 <= r < 1 -> 0 <= t < 1 * (2 * 2) ->
                 zth (raw_data (Output outs' k)) (2 * 2 * r * 1 + t)
                 = zth (count_bytes 8) (k * 2 * 2 * 1 + 4 * 2 * r * 1 + t).
Proof.
  split.
  { apply (equal_split_divisibility (SplitOp.mk 0 0 [])
             (mkTensor [5; 4] byte_meta (zeros 20)) (fresh_outputs 3) 0 5);
      try reflexivity.
    intros H. discriminate H. }
  split; [reflexivity|].
  assert (HX : tensor_ok (mkTensor [4; 2] byte_meta (count_bytes 8))).
  { unfold tensor_ok. cbn [sizes dtype raw_data itemsize byte_meta].
    split; [repeat constructor; unfold Int32.INT_MAX; lia|].
    repeat split; vm_compute; try reflexivity; discriminate. }
  destruct (equal_split_divisibility (SplitOp.mk 0 0 [])
              (mkTensor [4; 2] byte_meta (count_bytes 8)) (fresh_outputs 2) 0 4
              eq_refl eq_refl eq_refl eq_refl) as [_ [_ H]].
  apply H; [reflexivity| |exact HX].
  intros Hadd. discriminate Hadd.
Defined.

(** ** C10: Split in add-axis mode *)

(** C10.  In add-axis mode a Split run that is given a partition spec with
    one entry per output never reads the entries: it fails with
    ShapeSumMismatch when the number of outputs differs from the extent at
    the axis and otherwise succeeds; every output then has the shape of the
    input with the entry at the canonical axis left out and the element
    type of the input, and, the input being well formed, holds in each of
    the [before] rows the [k]-th run of [after] items of the input's row (a
    slab of extent one); and any two such specs, whatever their entries,
    give the same result. *)
Theorem add_axis_split_ignores_spec_values :
  forall (op : SplitOp.t) (ins : SplitOp.Inputs) (outs : list Tensor) (c ic : Z),
    truthy (SplitOp.add_axis_ op) = true ->
    shape_ok (sizes (SplitOp.X ins)) ->
    canonical_axis_index (SplitOp.X ins) (SplitOp.axis_ op) = Ok c ->
    dim32 (SplitOp.X ins) c = Ok ic ->
    spec_supplied op ins (OutputSize outs) = true ->
    let X := SplitOp.X ins in
    let before := prodZ (firstn (Z.to_nat c) (sizes X)) in
    let after := prodZ (skipn (Z.to_nat (c + 1)) (sizes X)) in
    let item := itemsize (dtype X) in
    (OutputSize outs <> ic ->
     SplitOp.RunOnDevice op ins outs
     = (outs, Err (ShapeSumMismatch (OutputSize outs) ic))) /\
    (OutputSize outs = ic ->
     exists outs',
       SplitOp.RunOnDevice op ins outs = (outs', Ok true)
       /\ length outs' = length outs
       /\ forall k, 0 <= k < OutputSize outs ->
            sizes (Output outs' k)
            = firstn (Z.to_nat c) (sizes X) ++ skipn (Z.to_nat (c + 1)) (sizes X)
            /\ dtype (Output outs' k) = dtype X
            /\ (tensor_ok X ->
                blen (raw_data (Output outs' k)) = before * after * item
                /\ forall r t,
                     0 <= r < before -> 0 <= t < item * after ->
                     zth (raw_data (Output outs' k)) (after * r * item + t)
                     = zth (raw_data X)
                           (k * after * item + ic * after * r * item + t))) /\
    (forall (split' : list Z) (ratio' : option IntTensor),
        spec_supplied (SplitOp.mk (SplitOp.axis_ op) (SplitOp.add_axis_ op) split')
                      (SplitOp.mkInputs (SplitOp.X ins) ratio') (OutputSize outs) = true ->
        SplitOp.RunOnDevice (SplitOp.mk (SplitOp.axis_ op) (SplitOp.add_axis_ op) split')
                            (SplitOp.mkInputs (SplitOp.X ins) ratio') outs
        = SplitOp.RunOnDevice op ins outs).
Proof.
  intros op ins outs c ic Hadd Hshape Hc Hdim Hsup X before after item.
  destruct (add_axis_split_run op ins outs c ic Hadd Hshape Hc Hdim Hsup) as [Hne Heq].
  pose proof (canonical_axis_index__range _ _ _ Hc) as Hcr.
  split; [exact Hne|]. split.
  - intros E. destruct (Heq E) as [outs' [b [a [Hb [Ha [Hrun [Hlen Hout]]]]]]].
    exists outs'. split; [exact Hrun|]. split; [exact Hlen|].
    intros k Hk. split.
    { rewrite Hout by exact Hk. rewrite fill_output_sizes.
      apply verase_eq. lia. }
    split.
    { rewrite Hout by exact Hk. reflexivity. }
    intros HX.
    destruct (dim32_inv _ _ _ Hdim) as [_ [Hic _]].
    destruct (select_axis_data_supplied op ins (extent (sizes (SplitOp.X ins)) c) _ Hsup)
      as [ad Hsel].
    assert (He : forall i, split_axis_dim op ad i = 1)
      by (intros i; unfold split_axis_dim; rewrite Hadd; reflexivity).
    assert (Hpre : forall i, 0 <= i ->
              prefix_sum (split_axis_dim op ad) i = i).
    { intros i Hi. rewrite (prefix_sum_ext _ (fun _ => 1)).
      - rewrite prefix_sum_const by lia. lia.
      - intros j _. apply He. }
    destruct (split_run_slabs op ins outs c ad HX Hc Hsel) as [outs2 [R [L F]]].
    { unfold split_total. rewrite Hadd. lia. }
    { intros i Hi. rewrite He. lia. }
    { rewrite Hpre by (unfold OutputSize; lia). lia. }
    rewrite Hrun in R. inversion R; subst outs2.
    destruct (F k Hk) as [_ [_ [Fl Fd]]].
    rewrite He in Fl, Fd. rewrite Hpre in Fd by lia. rewrite <- Hic in Fd.
    fold X in Fl, Fd. fold before after item in Fl, Fd.
    split.
    { rewrite Fl. ring. }
    intros r t Hr Ht.
    replace (after * r * item + t) with (1 * after * r * item + t) by ring.
    rewrite Fd by (try exact Hr; lia). reflexivity.
  - intros split' ratio' Hsup'.
    destruct (add_axis_split_run
                (SplitOp.mk (SplitOp.axis_ op) (SplitOp.add_axis_ op) split')
                (SplitOp.mkInputs (SplitOp.X ins) ratio') outs c ic
                Hadd Hshape Hc Hdim Hsup') as [Hne' Heq'].
    destruct (Z.eq_dec (OutputSize outs) ic) as [E|E].
    + destruct (Heq E) as [outs1 [b [a [Hb [Ha [Hrun [Hlen Hout]]]]]]].
      destruct (Heq' E) as [outs2 [b' [a' [Hb' [Ha' [Hrun' [Hlen' Hout']]]]]]].
      cbn [SplitOp.X] in *. rewrite Hb in Hb'. rewrite Ha in Ha'.
      inversion Hb'; inversion Ha'; subst b' a'.
      rewrite Hrun, Hrun'. f_equal. apply outputs_ext; [congruence|].
      intros k Hk. unfold OutputSize in Hk. rewrite Hlen' in Hk.
      rewrite Hout' by exact Hk. rewrite Hout by exact Hk. reflexivity.
    + rewrite (Hne E), (Hne' E). reflexivity.
Qed.

(** C10 on a tensor of shape [[2, 3]] holding the bytes 0 to 5: three
    outputs, extent three at axis 1, and a spec [[7, 7, 7]] whose entries do
    not sum to three.  Output [k] has shape [[2]] and holds the bytes [k]
    and [k + 3]. *)
Lemma add_axis_split_ignores_spec_values_witness :
  SplitOp.RunOnDevice (SplitOp.mk 1 1 [7; 7; 7])
    (SplitOp.mkInputs (mkTensor [2; 3] byte_meta (count_bytes 6)) None)
    (fresh_outputs 3)
  = ([mkTensor [2] byte_meta [x00; x03]; mkTensor [2] byte_meta [x01; x04];
      mkTensor [2] byte_meta [x02; x05]], Ok true)
  /\ (exists outs',
        SplitOp.RunOnDevice (SplitOp.mk 1 1 [7; 7; 7])
          (SplitOp.mkInputs (mkTensor [2; 3] byte_meta (count_bytes 6)) None)
          (fresh_outputs 3)
        = (outs', Ok true)
        /\ length outs' = 3%nat
        /\ forall k, 0 <= k < 3 ->
             sizes (Output outs' k) = [2]
             /\ dtype (Output outs' k) = byte_meta
             /\ (tensor_ok (mkTensor [2; 3] byte_meta (count_bytes 6)) ->
                 blen (raw_data (Output outs' k)) = 2 * 1 * 1
                 /\ forall r t,
                      0 <= r < 2 -> 0 <= t < 1 * 1 ->
                      zth (raw_data (Output outs' k)) (1 * r * 1 + t)
                      = zth (count_bytes 6) (k * 1 * 1 + 3 * 1 * r * 1 + t)))
  /\ SplitOp.RunOnDevice (SplitOp.mk 1 1 [1; 1; 1])
         (SplitOp.mkInputs (mkTensor [2; 3] byte_meta (count_bytes 6)) None)
         (fresh_outputs 3)
     = SplitOp.RunOnDevice (SplitOp.mk 1 1 [7; 7; 7])
         (SplitOp.mkInputs (mkTensor [2; 3] byte_meta (count_bytes 6)) None)
         (fresh_outputs 3).
Proof.
  split; [reflexivity|].
  assert (Hshape : shape_ok [2; 3]).
  { repeat constructor; unfold Int32.INT_MAX; lia. }
  destruct (add_axis_split_ignores_spec_values
              (SplitOp.mk 1 1 [7; 7; 7])
              (SplitOp.mkInputs (mkTensor [2; 3] byte_meta (count_bytes 6)) None)
              (fresh_outputs 3) 1 3 eq_refl Hshape eq_refl eq_refl eq_refl)
    as [_ [Hok H]].
  split; [exact (Hok eq_refl)|].
  exact (H [1; 1; 1] None eq_refl).
Defined.

Lemma vset_span_le (dims : list Z) (c v : Z) :
  0 <= c < vsize dims -> 0 <= v <= extent dims c ->
  span (vset dims c v) <= span dims.
Proof.
  intros Hc Hv. rewrite (span_cut dims c Hc).
  rewrite vset_in_range by exact Hc. rewrite span_app.
  cbn [span fold_right]. fold (span (skipn (Z.to_nat (c + 1)) dims)).
  pose proof (span_pos (firstn (Z.to_nat c) dims)).
  pose proof (span_pos (skipn (Z.to_nat (c + 1)) dims)).
  assert (Z.max 1 v <= Z.max 1 (extent dims c)) by lia.
  apply Z.mul_le_mono_nonneg_l; [lia|].
  apply Z.mul_le_mono_nonneg_r; lia.
Qed.

Lemma verase_span_le (dims : list Z) (c : Z) :
  0 <= c < vsize dims -> span (verase dims c) <= span dims.
Proof.
  intros Hc. rewrite (span_cut dims c Hc).
  rewrite verase_eq by lia. rewrite span_app.
  pose proof (span_pos (firstn (Z.to_nat c) dims)).
  pose proof (span_pos (skipn (Z.to_nat (c + 1)) dims)).
  apply Z.mul_le_mono_nonneg_l; [lia|]. nia.
Qed.

Lemma In_Output (outs : list Tensor) (t : Tensor) :
  In t outs -> exists k, 0 <= k < vsize outs /\ t = Output outs k.
Proof.
  intros H. destruct (In_nth _ _ empty_tensor H) as [i [Hi Ht]].
  exists (Z.of_nat i). unfold vsize, Output. rewrite Nat2Z.id.
  split; [lia|]. symmetry. exact Ht.
Qed.

Lemma TypeMeta_eqb_refl (m : TypeMeta) : TypeMeta_eqb m m = true.
Proof. unfold TypeMeta_eqb. apply Z.eqb_refl. Qed.

Section RoundTripConcat.
Variables (op : SplitOp.t) (X : Tensor) (c : Z) (axis_data : list Z).
Variables (outs' : list Tensor) (s : ConcatOp.Outputs).
Hypothesis HX : tensor_ok X.
Hypothesis Hc : canonical_axis_index X (SplitOp.axis_ op) = Ok c.
Hypothesis Hn : 0 < vsize outs'.
Hypothesis Hnn : forall k, 0 <= k < vsize outs' -> 0 <= split_axis_dim op axis_data k.
Hypothesis Hsum : prefix_sum (split_axis_dim op axis_data) (vsize outs')
                  = extent (sizes X) c.
Hypothesis Hsizes :
  forall k, 0 <= k < vsize outs' ->
    sizes (Output outs' k) = split_output_dims op X c axis_data k.
Hypothesis Htypes :
  forall k, 0 <= k < vsize outs' -> dtype (Output outs' k) = dtype X.

Let cop := ConcatOp.mk (SplitOp.axis_ op) (SplitOp.add_axis_ op).
Let e := split_axis_dim op axis_data.
Let n := vsize outs'.

Lemma rt_axis_range : 0 <= c < ndim X.
Proof. apply (canonical_axis_index__range _ _ _ Hc). Qed.

Lemma rt_extent_bounds (k : Z) :
  0 <= k < n -> 0 <= e k <= extent (sizes X) c /\ e k < Int32.INT_MAX.
Proof.
  intros Hk. destruct (prefix_sum_bounds X c e n Hnn Hsum k Hk) as [HO [Hek Hle]].
  destruct HX as [Hshape _].
  pose proof (shape_ok_nth (sizes X) (Z.to_nat c) Hshape) as Hic.
  fold (extent (sizes X) c) in Hic. lia.
Qed.

Lemma rt_slab_shape_ok (k : Z) :
  0 <= k < n -> shape_ok (split_output_dims op X c axis_data k).
Proof.
  intros Hk. pose proof rt_axis_range as Hcr. destruct HX as [Hshape _].
  destruct (rt_extent_bounds k Hk) as [Hek Hem].
  unfold split_output_dims. unfold e, split_axis_dim in Hek, Hem.
  destruct (truthy (SplitOp.add_axis_ op)).
  - apply verase_shape_ok; [exact Hcr|exact Hshape].
  - apply vset_shape_ok; [exact Hcr|exact Hshape|lia].
Qed.

Lemma rt_slab_rank (k : Z) :
  0 <= k < n ->
  vsize (split_output_dims op X c axis_data k)
  = ndim X - (if truthy (SplitOp.add_axis_ op) then 1 else 0).
Proof.
  intros Hk. pose proof rt_axis_range as Hcr. unfold split_output_dims.
  destruct (truthy (SplitOp.add_axis_ op)).
  - apply verase_length. exact Hcr.
  - unfold vsize. rewrite vset_length. unfold ndim. lia.
Qed.

Lemma rt_axis_dims (k : Z) :
  0 <= k < n -> concat_axis_dim cop outs' c k = Ok (e k).
Proof.
  intros Hk. pose proof rt_axis_range as Hcr.
  unfold concat_axis_dim, cop. cbn [ConcatOp.add_axis_].
  unfold e, split_axis_dim.
  destruct (truthy (SplitOp.add_axis_ op)) eqn:Hadd; [reflexivity|].
  rewrite Input_ok by exact Hk. cbn [rbind].
  fold (Output outs' k).
  pose proof (rt_slab_shape_ok k Hk) as Hok.
  pose proof (rt_slab_rank k Hk) as Hrk. rewrite Hadd in Hrk.
  rewrite <- (Hsizes k Hk) in Hok, Hrk.
  rewrite dim32_ok by (try exact Hok; unfold ndim, vsize in *; lia).
  rewrite (Hsizes k Hk). unfold split_output_dims. rewrite Hadd.
  f_equal. apply (vset_extent (sizes X) c Hcr).
Qed.

Lemma rt_dims_loop :
  ConcatOp.dims_loop cop outs' (Output outs' 0) c
  = Ok (prodZ (firstn (Z.to_nat c) (sizes X)),
        prodZ (skipn (Z.to_nat (c + 1)) (sizes X))).
Proof.
  pose proof rt_axis_range as Hcr.
  assert (H0 : 0 <= 0 < n) by (unfold n; lia).
  pose proof (rt_slab_shape_ok 0 H0) as Hok0.
  pose proof (rt_slab_rank 0 H0) as Hrk0.
  rewrite <- (Hsizes 0 H0) in Hok0, Hrk0.
  assert (Hread : forall t, In t outs' ->
                    shape_ok (sizes t) /\ ndim (Output outs' 0) <= ndim t).
  { intros t Ht. destruct (In_Output _ _ Ht) as [k [Hk ->]].
    pose proof (rt_slab_shape_ok k Hk) as Hok. pose proof (rt_slab_rank k Hk) as Hrk.
    rewrite <- (Hsizes k Hk) in Hok, Hrk. split; [exact Hok|].
    unfold ndim at 1 2. unfold vsize in Hrk, Hrk0. lia. }
  destruct (dims_loop_idx cop outs' (Output outs' 0) c Hok0 Hread
              (range 0 (ndim (Output outs' 0))) (1, 1))
    as [[_ [ba Hloop]]|[_ [i [j [Hi [Hchk [Hj [Hne _]]]]]]]].
  { intros i Hi. apply in_range in Hi. exact Hi. }
  - unfold ConcatOp.dims_loop. rewrite Hloop. f_equal.
    rewrite (dims_loop_value _ _ _ _ _ _ _ Hloop).
    destruct HX as [Hshape [Hspan _]].
    change (ndim (Output outs' 0)) with (vsize (sizes (Output outs' 0))).
    rewrite dims_acc_range.
    + unfold cop. cbn [ConcatOp.add_axis_].
      rewrite (Hsizes 0 H0). unfold split_output_dims.
      destruct (truthy (SplitOp.add_axis_ op)).
      * rewrite (verase_firstn (sizes X) c Hcr), (verase_skipn (sizes X) c Hcr).
        reflexivity.
      * rewrite (vset_firstn (sizes X) c Hcr), (vset_skipn (sizes X) c Hcr).
        reflexivity.
    + exact Hok0.
    + lia.
    + unfold cop. cbn [ConcatOp.add_axis_]. revert Hrk0.
      destruct (truthy (SplitOp.add_axis_ op)); intros Hrk0;
        unfold ndim, vsize in *; lia.
    + rewrite (Hsizes 0 H0). unfold split_output_dims.
      destruct (rt_extent_bounds 0 H0) as [Hek _]. unfold e, split_axis_dim in Hek.
      destruct (truthy (SplitOp.add_axis_ op)).
      * pose proof (verase_span_le (sizes X) c Hcr). lia.
      * pose proof (vset_span_le (sizes X) c (at_ axis_data 0) Hcr Hek). lia.
  - exfalso. apply Hne.
    assert (Hj' : 0 <= j < n) by (unfold n; lia).
    fold (Output outs' j). rewrite (Hsizes j Hj'), (Hsizes 0 H0).
    unfold split_output_dims. unfold dim_checked, cop in Hchk.
    cbn [ConcatOp.add_axis_] in Hchk.
    destruct (truthy (SplitOp.add_axis_ op)); [reflexivity|].
    cbn [negb] in Hchk. rewrite andb_true_r in Hchk.
    destruct (Z.eqb_spec i c) as [E|E]; [discriminate Hchk|].
    rewrite !nth_vset_other by lia. reflexivity.
Qed.

Lemma rt_concat_plan :
  concat_plan cop outs'
  = Ok (Output outs' 0, c, prodZ (firstn (Z.to_nat c) (sizes X)),
        prodZ (skipn (Z.to_nat (c + 1)) (sizes X))).
Proof.
  pose proof rt_axis_range as Hcr.
  assert (H0 : 0 <= 0 < n) by (unfold n; lia).
  pose proof (rt_slab_rank 0 H0) as Hrk0. rewrite <- (Hsizes 0 H0) in Hrk0.
  destruct HX as [_ [_ [Hrank _]]].
  unfold concat_plan. rewrite Input_ok by exact H0. cbn [rbind].
  change (nth (Z.to_nat 0) outs' empty_tensor) with (Output outs' 0).
  assert (Hadj : Int32.add (ndim (Output outs' 0))
                   (if truthy (ConcatOp.add_axis_ cop) then 1 else 0) = ndim X).
  { unfold cop. cbn [ConcatOp.add_axis_]. unfold Int32.add.
    change (ndim (Output outs' 0)) with (vsize (sizes (Output outs' 0))).
    rewrite Hrk0. unfold ndim in *.
    destruct (truthy (SplitOp.add_axis_ op));
      rewrite wrap_small by (unfold Int32.INT_MAX in *; lia); lia. }
  rewrite Hadj. unfold cop at 1. cbn [ConcatOp.axis_].
  unfold canonical_axis_index in Hc. rewrite Hc. cbn [rbind].
  rewrite check_types_ok.
  - cbn [rbind]. rewrite rt_dims_loop. reflexivity.
  - intros t Ht. destruct (In_Output _ _ Ht) as [k [Hk ->]].
    rewrite (Htypes k Hk), (Htypes 0 H0). apply TypeMeta_eqb_refl.
Qed.

Lemma rt_output_dims :
  (if truthy (ConcatOp.add_axis_ cop)
   then vinsert (sizes (Output outs' 0)) c (extent (sizes X) c)
   else vset (sizes (Output outs' 0)) c (extent (sizes X) c))
  = sizes X.
Proof.
  pose proof rt_axis_range as Hcr.
  assert (H0 : 0 <= 0 < n) by (unfold n; lia).
  rewrite (Hsizes 0 H0). unfold cop, split_output_dims. cbn [ConcatOp.add_axis_].
  destruct (truthy (SplitOp.add_axis_ op)).
  - apply vinsert_verase. exact Hcr.
  - rewrite vset_vset. apply vset_extent_same. exact Hcr.
Qed.

End RoundTripConcat.

(** C1.  For a tensor [X], an axis that resolves on [X], at least one
    output, and a partition spec (the [split] argument, the ratio tensor or
    the equal split) whose per-output extents (its entries; one unit per
    output in add-axis mode) are non-negative and sum to the extent of [X]
    at the axis: the Split run succeeds, the Concat run on its outputs with
    the same axis and add-axis setting succeeds, and the concatenated output
    is [X], shape, type and bytes; [split] records the per-output
    extents.  Whatever the outputs held before the two runs. *)
Theorem split_then_concat_roundtrip :
  forall (op : SplitOp.t) (ins : SplitOp.Inputs) (outs : list Tensor)
         (s : ConcatOp.Outputs) (c : Z) (axis_data : list Z),
    tensor_ok (SplitOp.X ins) ->
    canonical_axis_index (SplitOp.X ins) (SplitOp.axis_ op) = Ok c ->
    0 < OutputSize outs ->
    SplitOp.select_axis_data op ins (extent (sizes (SplitOp.X ins)) c) (OutputSize outs)
    = Ok axis_data ->
    OutputSize outs <= vsize axis_data ->
    (forall k, 0 <= k < OutputSize outs -> 0 <= split_axis_dim op axis_data k) ->
    prefix_sum (split_axis_dim op axis_data) (OutputSize outs)
    = extent (sizes (SplitOp.X ins)) c ->
    exists outs',
      SplitOp.RunOnDevice op ins outs = (outs', Ok true)
      /\ ConcatOp.RunOnDevice (ConcatOp.mk (SplitOp.axis_ op) (SplitOp.add_axis_ op))
                              outs' s
         = ({| ConcatOp.output := SplitOp.X ins;
               ConcatOp.split :=
                 {| isizes := [OutputSize outs];
                    idata := map (split_axis_dim op axis_data)
                                 (range 0 (OutputSize outs)) |} |},
            Ok true).
Proof.
  intros op ins outs s c axis_data HX Hc Hn Hsel Hlen Hnn Hsum.
  destruct (roundtrip_split_run op ins outs c axis_data HX Hc Hsel Hlen Hnn Hsum)
    as [outs' [Hrun [Hl Hout]]].
  exists outs'. split; [exact Hrun|].
  assert (Hsize : vsize outs' = OutputSize outs)
    by (unfold vsize, OutputSize; rewrite Hl; reflexivity).
  rewrite <- Hsize in *.
  set (X := SplitOp.X ins) in *.
  set (cop := ConcatOp.mk (SplitOp.axis_ op) (SplitOp.add_axis_ op)).
  set (e := split_axis_dim op axis_data) in *.
  pose proof (canonical_axis_index__range _ _ _ Hc) as Hcr.
  assert (Hsizes : forall k, 0 <= k < vsize outs' ->
                     sizes (Output outs' k) = split_output_dims op X c axis_data k)
    by (intros k Hk; apply (Hout k Hk)).
  assert (Htypes : forall k, 0 <= k < vsize outs' -> dtype (Output outs' k) = dtype X)
    by (intros k Hk; apply (Hout k Hk)).
  pose proof (rt_concat_plan op X c axis_data outs' HX Hc Hn Hnn Hsum Hsizes Htypes)
    as Hplan.
  pose proof (rt_axis_dims op X c axis_data outs' HX Hc Hnn Hsum Hsizes) as Hdims.
  fold cop in Hplan, Hdims. fold e in Hdims.
  pose proof (ConcatOp_run_values cop outs' s _ _ _ _ e Hplan Hdims) as Hcat.
  cbv zeta in Hcat.
  assert (Hoc : fold_left Int32.add (map e (range 0 (vsize outs'))) 0
                = extent (sizes X) c).
  { rewrite fold_add_prefix; [exact Hsum|exact Hnn|].
    rewrite Hsum. destruct HX as [Hshape _].
    pose proof (shape_ok_nth (sizes X) (Z.to_nat c) Hshape) as Hic.
    unfold extent. lia. }
  rewrite Hoc in Hcat.
  pose proof (rt_output_dims op X c axis_data outs' Hc Hn Hsizes) as Hod.
  fold cop in Hod. rewrite Hod in Hcat.
  rewrite Hcat. f_equal. f_equal.
  apply (reassemble X c e (vsize outs') outs' (Output outs' 0) HX Hcr Hnn Hn Hsum).
  - apply Htypes. lia.
  - intros k Hk. apply (Htypes k Hk).
  - intros k Hk. apply (Hout k Hk).
  - intros k r t Hk Hr Ht. apply (Hout k Hk); assumption.
  - reflexivity.
Qed.

(** C1 on a tensor of shape [[2, 3]] split along axis 1 into extents 1
    and 2. *)
Lemma split_then_concat_roundtrip_witness :
  exists outs',
    SplitOp.RunOnDevice (SplitOp.mk 1 0 [1; 2])
      (SplitOp.mkInputs (mkTensor [2; 3] byte_meta (bytes_of (fun _ => x2a) 6)) None)
      (fresh_outputs 2)
    = (outs', Ok true)
    /\ ConcatOp.RunOnDevice (ConcatOp.mk 1 0) outs' fresh_concat_outputs
       = ({| ConcatOp.output := mkTensor [2; 3] byte_meta (bytes_of (fun _ => x2a) 6);
             ConcatOp.split := {| isizes := [2]; idata := [1; 2] |} |},
          Ok true).
Proof.
  assert (HX : tensor_ok (mkTensor [2; 3] byte_meta (bytes_of (fun _ => x2a) 6))).
  { unfold tensor_ok. cbn [sizes dtype raw_data itemsize byte_meta].
    split; [repeat constructor; unfold Int32.INT_MAX; lia|].
    repeat split; vm_compute; try reflexivity; discriminate. }
  assert (Hnn : forall k, 0 <= k < OutputSize (fresh_outputs 2) ->
                  0 <= split_axis_dim (SplitOp.mk 1 0 [1; 2]) [1; 2] k).
  { intros k Hk. change (OutputSize (fresh_outputs 2)) with 2 in Hk.
    assert (Hcases : k = 0 \/ k = 1) by lia.
    destruct Hcases as [-> | ->]; vm_compute; discriminate. }
  exact (split_then_concat_roundtrip (SplitOp.mk 1 0 [1; 2])
           (SplitOp.mkInputs (mkTensor [2; 3] byte_meta (bytes_of (fun _ => x2a) 6)) None)
           (fresh_outputs 2) fresh_concat_outputs 1 [1; 2]
           HX eq_refl eq_refl eq_refl ltac:(vm_compute; discriminate) Hnn eq_refl).
Defined.

(** * Further properties of the operators *)

(** ** The constructors *)

(** X1.  Without an [axis] argument the three constructors take the axis
    from the layout order, whose default is NCHW: NHWC gives axis 3, NCHW
    gives axis 1, and a name that is none of NHWC, nhwc, NCHW, nchw makes
    all three fail with UnsupportedStorageOrder carrying the name.  Split
    and Concat then set [add_axis_] to 0 whatever [add_axis] argument was
    given, and Split keeps its [split] argument. *)
Theorem constructors_without_axis :
  (forall (order : option string) (add : option Z) (sp : list Z),
     let def := mkOperatorDef None order add sp in
     let name := GetSingleArgument order "NCHW"%string in
     match StringToStorageOrder name with
     | NHWC => SplitOp.new def = Ok (SplitOp.mk 3 0 sp)
               /\ ConcatOp.new def = Ok (ConcatOp.mk 3 0)
               /\ SplitByLengthsOp.new def = Ok (SplitByLengthsOp.mk 3)
     | NCHW => SplitOp.new def = Ok (SplitOp.mk 1 0 sp)
               /\ ConcatOp.new def = Ok (ConcatOp.mk 1 0)
               /\ SplitByLengthsOp.new def = Ok (SplitByLengthsOp.mk 1)
     | UNKNOWN => SplitOp.new def = Err (UnsupportedStorageOrder name)
                  /\ ConcatOp.new def = Err (UnsupportedStorageOrder name)
                  /\ SplitByLengthsOp.new def = Err (UnsupportedStorageOrder name)
     end) /\
  (forall (add : option Z) (sp : list Z),
     let def := mkOperatorDef None (Some "NHWC"%string) add sp in
     SplitOp.new def = Ok (SplitOp.mk 3 0 sp)
     /\ ConcatOp.new def = Ok (ConcatOp.mk 3 0)
     /\ SplitByLengthsOp.new def = Ok (SplitByLengthsOp.mk 3)) /\
  (forall (add : option Z) (sp : list Z),
     let def := mkOperatorDef None (Some "NCHW"%string) add sp in
     SplitOp.new def = Ok (SplitOp.mk 1 0 sp)
     /\ ConcatOp.new def = Ok (ConcatOp.mk 1 0)
     /\ SplitByLengthsOp.new def = Ok (SplitByLengthsOp.mk 1)) /\
  (forall (add : option Z) (sp : list Z),
     let def := mkOperatorDef None None add sp in
     SplitOp.new def = Ok (SplitOp.mk 1 0 sp)
     /\ ConcatOp.new def = Ok (ConcatOp.mk 1 0)
     /\ SplitByLengthsOp.new def = Ok (SplitByLengthsOp.mk 1)) /\
  (forall (name : string) (add : option Z) (sp : list Z),
     name <> "NHWC"%string -> name <> "nhwc"%string ->
     name <> "NCHW"%string -> name <> "nchw"%string ->
     let def := mkOperatorDef None (Some name) add sp in
     SplitOp.new def = Err (UnsupportedStorageOrder name)
     /\ ConcatOp.new def = Err (UnsupportedStorageOrder name)
     /\ SplitByLengthsOp.new def = Err (UnsupportedStorageOrder name)).
Proof.
  assert (Hgen : forall (order : option string) (add : option Z) (sp : list Z),
     let def := mkOperatorDef None order add sp in
     let name := GetSingleArgument order "NCHW"%string in
     match StringToStorageOrder name with
     | NHWC => SplitOp.new def = Ok (SplitOp.mk 3 0 sp)
               /\ ConcatOp.new def = Ok (ConcatOp.mk 3 0)
               /\ SplitByLengthsOp.new def = Ok (SplitByLengthsOp.mk 3)
     | NCHW => SplitOp.new def = Ok (SplitOp.mk 1 0 sp)
               /\ ConcatOp.new def = Ok (ConcatOp.mk 1 0)
               /\ SplitByLengthsOp.new def = Ok (SplitByLengthsOp.mk 1)
     | UNKNOWN => SplitOp.new def = Err (UnsupportedStorageOrder name)
                  /\ ConcatOp.new def = Err (UnsupportedStorageOrder name)
                  /\ SplitByLengthsOp.new def = Err (UnsupportedStorageOrder name)
     end).
  { intros order add sp def name. subst def.
    unfold SplitOp.new, ConcatOp.new, SplitByLengthsOp.new.
    cbn [arg_axis arg_order arg_add_axis arg_split HasArgument andb].
    unfold GetDimFromOrderString. fold name.
    destruct (StringToStorageOrder name); cbn [rbind]; repeat split; reflexivity. }
  split; [exact Hgen|].
  split; [intros add sp; exact (Hgen (Some "NHWC"%string) add sp)|].
  split; [intros add sp; exact (Hgen (Some "NCHW"%string) add sp)|].
  split; [intros add sp; exact (Hgen None add sp)|].
  intros name add sp H1 H2 H3 H4.
  pose proof (Hgen (Some name) add sp) as H. cbv zeta in H.
  cbn [GetSingleArgument] in H. unfold StringToStorageOrder in H.
  apply String.eqb_neq in H1, H2, H3, H4. rewrite H1, H2, H3, H4 in H.
  exact H.
Qed.

(** X1 on the order NHWC with an [add_axis] argument of 1, and on the
    order CHWN. *)
Lemma constructors_without_axis_witness :
  (SplitOp.new (mkOperatorDef None (Some "NHWC"%string) (Some 1) [2; 2])
   = Ok (SplitOp.mk 3 0 [2; 2])
   /\ ConcatOp.new (mkOperatorDef None (Some "NHWC"%string) (Some 1) [2; 2])
      = Ok (ConcatOp.mk 3 0)
   /\ SplitByLengthsOp.new (mkOperatorDef None (Some "NHWC"%string) (Some 1) [2; 2])
      = Ok (SplitByLengthsOp.mk 3))
  /\ (SplitOp.new (mkOperatorDef None (Some "CHWN"%string) None [])
      = Err (UnsupportedStorageOrder "CHWN")
      /\ ConcatOp.new (mkOperatorDef None (Some "CHWN"%string) None [])
         = Err (UnsupportedStorageOrder "CHWN")
      /\ SplitByLengthsOp.new (mkOperatorDef None (Some "CHWN"%string) None [])
         = Err (UnsupportedStorageOrder "CHWN")).
Proof.
  destruct constructors_without_axis as [_ [Hnhwc [_ [_ Hother]]]].
  split.
  - exact (Hnhwc (Some 1) [2; 2]).
  - apply (Hother "CHWN"%string None []); discriminate.
Defined.

(** ** What a failed Split leaves behind *)

(** X2.  A Split run never changes the number of outputs, and a failed run
    leaves every output as it was: all its checks precede the first
    write. *)
Theorem split_failure_leaves_outputs :
  forall (op : SplitOp.t) (ins : SplitOp.Inputs) (outs outs' : list Tensor)
         (r : result bool),
    SplitOp.RunOnDevice op ins outs = (outs', r) ->
    length outs' = length outs
    /\ (forall e, r = Err e -> outs' = outs)
    /\ (forall b, r = Ok b -> b = true).
Proof.
  intros op ins outs outs' r Hrun.
  pose proof (SplitOp_run_plan op ins outs) as H.
  destruct (split_plan op ins (OutputSize outs)) as [[[[[c ic] ad] b] a]|e0].
  - destruct H as [outs1 [H1 [Hl _]]]. rewrite H1 in Hrun.
    inversion Hrun; subst. split; [exact Hl|]. split.
    + intros e He. discriminate He.
    + intros b0 Hb. inversion Hb. reflexivity.
  - rewrite H in Hrun. inversion Hrun; subst. split; [reflexivity|]. split.
    + intros e He. reflexivity.
    + intros b0 Hb. discriminate Hb.
Qed.

(** X2 on a split of extent 5 into three equal parts. *)
Lemma split_failure_leaves_outputs_witness :
  length (fresh_outputs 3) = length (fresh_outputs 3)
  /\ (forall e, @Err bool IndivisibleSplit = Err e -> fresh_outputs 3 = fresh_outputs 3)
  /\ (forall b, @Err bool IndivisibleSplit = Ok b -> b = true).
Proof.
  apply (split_failure_leaves_outputs (SplitOp.mk 0 0 [])
           (SplitOp.mkInputs (mkTensor [5; 4] byte_meta (zeros 20)) None)
           (fresh_outputs 3)).
  reflexivity.
Defined.

(** X3.  A SplitByLengths run never changes the number of outputs, and a
    failed run leaves every output as it was. *)
Theorem split_by_lengths_failure_leaves_outputs :
  forall (op : SplitByLengthsOp.t) (ins : SplitByLengthsOp.Inputs)
         (outs outs' : list Tensor) (r : result bool),
    SplitByLengthsOp.RunOnDevice op ins outs = (outs', r) ->
    length outs' = length outs
    /\ (forall e, r = Err e -> outs' = outs)
    /\ (forall b, r = Ok b -> b = true).
Proof.
  intros op ins outs outs' r Hrun.
  destruct (Z.eqb_spec (Z.rem (inumel (SplitByLengthsOp.lengths ins)) (OutputSize outs)) 0)
    as [Hrem|Hrem].
  2:{ unfold SplitByLengthsOp.RunOnDevice, bind, lift, gets, CAFFE_ENFORCE, ret, throw
        in Hrun.
      destruct (Z.eqb_spec (Z.rem (inumel (SplitByLengthsOp.lengths ins))
                                  (OutputSize outs)) 0); [contradiction|].
      inversion Hrun; subst. repeat split; try reflexivity; intros; discriminate. }
  destruct (canonical_axis_index (SplitByLengthsOp.X ins) (SplitByLengthsOp.axis_ op))
    as [c|e0] eqn:Hc.
  2:{ unfold SplitByLengthsOp.RunOnDevice, bind, lift, gets, CAFFE_ENFORCE, ret, throw
        in Hrun.
      rewrite Hrem in Hrun. cbn [Z.eqb] in Hrun. rewrite Hc in Hrun.
      inversion Hrun; subst. repeat split; try reflexivity; intros; discriminate. }
  pose proof (canonical_axis_index__range _ _ _ Hc) as Hcr.
  destruct (dim32 (SplitByLengthsOp.X ins) c) as [ic|e0] eqn:Hdim.
  2:{ unfold SplitByLengthsOp.RunOnDevice, bind, lift, gets, CAFFE_ENFORCE, ret, throw
        in Hrun.
      rewrite Hrem in Hrun. cbn [Z.eqb] in Hrun. rewrite Hc in Hrun.
      rewrite (proj2 (Z.ltb_lt c _)) in Hrun by lia. rewrite Hdim in Hrun.
      inversion Hrun; subst. repeat split; try reflexivity; intros; discriminate. }
  destruct (SplitByLengthsOp_run op ins outs c ic Hrem Hc Hdim) as [Hbad Hgood].
  destruct (Z.eq_dec (accumulate (idata (SplitByLengthsOp.lengths ins))
                                 (inumel (SplitByLengthsOp.lengths ins))) ic) as [E|E].
  - destruct (Hgood E) as [outs1 [H1 [Hl _]]]. rewrite H1 in Hrun.
    inversion Hrun; subst. split; [exact Hl|]. split.
    + intros e He. discriminate He.
    + intros b0 Hb. inversion Hb. reflexivity.
  - rewrite (Hbad E) in Hrun. inversion Hrun; subst.
    repeat split; try reflexivity; intros; discriminate.
Qed.

(** X3 on three lengths for two outputs. *)
Lemma split_by_lengths_failure_leaves_outputs_witness :
  length (fresh_outputs 2) = length (fresh_outputs 2)
  /\ (forall e, @Err bool SizeMismatch = Err e -> fresh_outputs 2 = fresh_outputs 2)
  /\ (forall b, @Err bool SizeMismatch = Ok b -> b = true).
Proof.
  apply (split_by_lengths_failure_leaves_outputs (SplitByLengthsOp.mk 0)
           (SplitByLengthsOp.mkInputs (mkTensor [6; 1] byte_meta (zeros 6))
                                      (mkIntTensor [3] [1; 2; 3]))
           (fresh_outputs 2)).
  reflexivity.
Defined.

(** ** What a Split run depends on *)

(** Two runs over the same input that resolve the axis alike, share the
    add-axis flag and take the same per-output extents are the same run. *)
Lemma SplitOp_run_congr (op op' : SplitOp.t) (ins ins' : SplitOp.Inputs)
      (outs : list Tensor) :
  SplitOp.X ins = SplitOp.X ins' ->
  canonical_axis_index (SplitOp.X ins) (SplitOp.axis_ op)
  = canonical_axis_index (SplitOp.X ins) (SplitOp.axis_ op') ->
  SplitOp.add_axis_ op = SplitOp.add_axis_ op' ->
  (forall c ic,
     canonical_axis_index (SplitOp.X ins) (SplitOp.axis_ op) = Ok c ->
     dim32 (SplitOp.X ins) c = Ok ic ->
     SplitOp.select_axis_data op ins ic (OutputSize outs)
     = SplitOp.select_axis_data op' ins' ic (OutputSize outs)) ->
  SplitOp.RunOnDevice op ins outs = SplitOp.RunOnDevice op' ins' outs.
Proof.
  intros HX Hax Hadd Hsel.
  pose proof (SplitOp_run_plan op ins outs) as H1.
  pose proof (SplitOp_run_plan op' ins' outs) as H2.
  assert (Hplan : split_plan op' ins' (OutputSize outs)
                  = split_plan op ins (OutputSize outs)).
  { unfold split_plan. rewrite <- HX, <- Hax.
    destruct (canonical_axis_index (SplitOp.X ins) (SplitOp.axis_ op)) as [c|e] eqn:Hc;
      cbn [rbind]; [|reflexivity].
    destruct (dim32 (SplitOp.X ins) c) as [ic|e] eqn:Hd; cbn [rbind]; [|reflexivity].
    rewrite <- (Hsel c ic eq_refl Hd).
    destruct (SplitOp.select_axis_data op ins ic (OutputSize outs)) as [ad|e];
      cbn [rbind]; [|reflexivity].
    unfold split_total. rewrite <- Hadd. reflexivity. }
  rewrite Hplan in H2.
  destruct (split_plan op ins (OutputSize outs)) as [[[[[c ic] ad] b] a]|e].
  - destruct H1 as [o1 [R1 [L1 V1]]]. destruct H2 as [o2 [R2 [L2 V2]]].
    rewrite R1, R2. f_equal. apply outputs_ext; [congruence|].
    intros k Hk. unfold OutputSize in Hk. rewrite L1 in Hk.
    rewrite (V1 k Hk), (V2 k Hk). unfold split_output_dims, split_axis_dim.
    rewrite <- HX, <- Hadd. reflexivity.
  - rewrite H1, H2. reflexivity.
Qed.

(** X4.  A ratio tensor and a [split] argument holding the same sizes give
    the same run: the ratio tensor (input 1) is only another way of passing
    the per-output extents. *)
Theorem split_ratio_tensor_is_split_argument :
  forall (axis add : Z) (X : Tensor) (st : IntTensor) (outs : list Tensor),
    idata st <> [] ->
    inumel st = vsize (idata st) ->
    SplitOp.RunOnDevice (SplitOp.mk axis add []) (SplitOp.mkInputs X (Some st)) outs
    = SplitOp.RunOnDevice (SplitOp.mk axis add (idata st)) (SplitOp.mkInputs X None) outs.
Proof.
  intros axis add X st outs Hne Hnum.
  apply SplitOp_run_congr; try reflexivity.
  intros c ic _ _. rewrite !select_axis_data_cases.
  cbn [SplitOp.split_tensor SplitOp.split_ vsize length Z.of_nat Z.eqb negb].
  rewrite Hnum.
  destruct (Z.eqb_spec (vsize (idata st)) 0) as [E|E]; [|reflexivity].
  exfalso. apply Hne. unfold vsize in E. destruct (idata st); [reflexivity|].
  cbn [length] in E. lia.
Qed.

(** X4 on the sizes 1 and 2 of an axis of extent 3. *)
Lemma split_ratio_tensor_is_split_argument_witness :
  SplitOp.RunOnDevice (SplitOp.mk 0 0 [])
    (SplitOp.mkInputs (mkTensor [3; 2] byte_meta (count_bytes 6))
                      (Some (mkIntTensor [2] [1; 2]))) (fresh_outputs 2)
  = SplitOp.RunOnDevice (SplitOp.mk 0 0 [1; 2])
    (SplitOp.mkInputs (mkTensor [3; 2] byte_meta (count_bytes 6)) None)
    (fresh_outputs 2).
Proof.
  apply (split_ratio_tensor_is_split_argument 0 0
           (mkTensor [3; 2] byte_meta (count_bytes 6))
           (mkIntTensor [2] [1; 2]) (fresh_outputs 2)).
  - discriminate.
  - reflexivity.
Defined.

(** X5.  The equal split is the explicit split into N copies of the
    quotient: when the extent of the axis is a multiple of the number of
    outputs, a run without sizes and a run with the quotient repeated once
    per output are the same. *)
Theorem split_equal_is_repeated_quotient :
  forall (axis add : Z) (X : Tensor) (outs : list Tensor) (c ic : Z),
    canonical_axis_index X axis = Ok c ->
    dim32 X c = Ok ic ->
    0 < OutputSize outs ->
    Z.rem ic (OutputSize outs) = 0 ->
    SplitOp.RunOnDevice (SplitOp.mk axis add []) (SplitOp.mkInputs X None) outs
    = SplitOp.RunOnDevice
        (SplitOp.mk axis add
           (repeat (Z.quot ic (OutputSize outs)) (Z.to_nat (OutputSize outs))))
        (SplitOp.mkInputs X None) outs.
Proof.
  intros axis add X outs c ic Hc Hd Hn Hrem.
  apply SplitOp_run_congr; try reflexivity.
  intros c' ic' Hc' Hd'. cbn [SplitOp.X SplitOp.axis_] in Hc', Hd'.
  rewrite Hc in Hc'. inversion Hc'; subst c'. rewrite Hd in Hd'. inversion Hd'; subst ic'.
  rewrite !select_axis_data_cases.
  cbn [SplitOp.split_tensor SplitOp.split_ vsize length Z.of_nat Z.eqb].
  rewrite Hrem. cbn [Z.eqb negb]. unfold vsize. rewrite repeat_length.
  rewrite Z2Nat.id by lia.
  destruct (Z.eqb_spec (OutputSize outs) 0) as [E|E]; [lia|].
  rewrite Z.eqb_refl. reflexivity.
Qed.

(** X5 on an axis of extent 4 and two outputs. *)
Lemma split_equal_is_repeated_quotient_witness :
  SplitOp.RunOnDevice (SplitOp.mk 0 0 [])
    (SplitOp.mkInputs (mkTensor [4; 2] byte_meta (count_bytes 8)) None)
    (fresh_outputs 2)
  = SplitOp.RunOnDevice (SplitOp.mk 0 0 [2; 2])
    (SplitOp.mkInputs (mkTensor [4; 2] byte_meta (count_bytes 8)) None)
    (fresh_outputs 2).
Proof.
  apply (split_equal_is_repeated_quotient 0 0
           (mkTensor [4; 2] byte_meta (count_bytes 8)) (fresh_outputs 2) 0 4).
  - reflexivity.
  - reflexivity.
  - reflexivity.
  - reflexivity.
Defined.

(** X6.  How a supplied [split] argument is validated when no axis is
    added, for non-negative sizes whose sum stays in the range of int: the
    run fails with SizeMismatch unless there is one size per output, then
    with ShapeSumMismatch unless the sizes add up to the extent of the
    axis; otherwise the run on a well-formed input succeeds and output [k]
    has the shape of the input with the k-th size at the axis, the element
    type of the input and a buffer of element count times item size
    bytes. *)
Theorem split_sizes_validation :
  forall (axis : Z) (sp : list Z) (X : Tensor) (outs : list Tensor) (c : Z),
    sp <> [] ->
    shape_ok (sizes X) ->
    canonical_axis_index X axis = Ok c ->
    Forall (fun d => 0 <= d) sp ->
    sumZ sp <= Int32.INT_MAX ->
    let run := SplitOp.RunOnDevice (SplitOp.mk axis 0 sp) (SplitOp.mkInputs X None) outs in
    let n := OutputSize outs in
    if negb (vsize sp =? n) then run = (outs, Err SizeMismatch)
    else if negb (sumZ sp =? extent (sizes X) c)
    then run = (outs, Err (ShapeSumMismatch (sumZ sp) (extent (sizes X) c)))
    else tensor_ok X ->
         exists outs',
           run = (outs', Ok true)
           /\ length outs' = length outs
           /\ forall k, 0 <= k < n ->
                sizes (Output outs' k)
                = firstn (Z.to_nat c) (sizes X) ++ at_ sp k
                  :: skipn (Z.to_nat (c + 1)) (sizes X)
                /\ dtype (Output outs' k) = dtype X
                /\ blen (raw_data (Output outs' k))
                   = numel (Output outs' k) * itemsize (dtype X).
Proof.
  intros axis sp X outs c Hne Hs Hc Hnn Hsum run n. subst run n.
  pose proof (canonical_axis_index__range _ _ _ Hc) as Hcr.
  assert (Hcv : 0 <= c < vsize (sizes X)) by (unfold vsize, ndim in *; lia).
  set (op := SplitOp.mk axis 0 sp). set (ins := SplitOp.mkInputs X None).
  pose proof (SplitOp_run_plan op ins outs) as H.
  unfold split_plan in H. cbn [SplitOp.X SplitOp.axis_ op ins] in H.
  rewrite Hc in H. cbn [rbind] in H.
  rewrite (dim32_ok X c Hs Hcr) in H. cbn [rbind] in H.
  rewrite select_axis_data_cases in H.
  cbn [SplitOp.split_tensor SplitOp.split_ op ins] in H.
  assert (Hv : (vsize sp =? 0) = false).
  { apply Z.eqb_neq. unfold vsize. destruct sp; [congruence|]. cbn [length]. lia. }
  rewrite Hv in H. fold (extent (sizes X) c) in H.
  destruct (Z.eqb_spec (vsize sp) (OutputSize outs)) as [Hcount|Hcount];
    cbn [negb rbind] in *; [|exact H].
  unfold split_total in H. cbn [SplitOp.add_axis_ op] in H.
  change (truthy 0) with false in H. cbv iota in H.
  assert (Hacc : accumulate sp (OutputSize outs) = sumZ sp).
  { rewrite <- Hcount. unfold vsize. rewrite accumulate_sum;
      rewrite Nat2Z.id, firstn_all; try assumption. reflexivity. }
  rewrite Hacc in H.
  destruct (Z.eqb_spec (sumZ sp) (extent (sizes X) c)) as [Htot|Htot];
    cbn [negb]; [|exact H].
  clear H. intros HX.
  assert (Hsel : SplitOp.select_axis_data op ins (extent (sizes (SplitOp.X ins)) c)
                                          (OutputSize outs) = Ok sp).
  { rewrite select_axis_data_cases. cbn [SplitOp.split_tensor SplitOp.split_ op ins].
    rewrite Hv, Hcount, Z.eqb_refl. reflexivity. }
  assert (He : forall k, split_axis_dim op sp k = at_ sp k) by reflexivity.
  assert (Hat : forall k, 0 <= at_ sp k).
  { intros k. unfold at_. destruct (Nat.ltb_spec (Z.to_nat k) (length sp)) as [Hlt|Hge].
    - rewrite Forall_forall in Hnn. apply Hnn. apply nth_In. exact Hlt.
    - rewrite nth_overflow by exact Hge. lia. }
  destruct (roundtrip_split_run op ins outs c sp HX Hc Hsel) as [outs' [R [L F]]].
  { lia. }
  { intros k Hk. rewrite He. apply Hat. }
  { cbn [SplitOp.X ins]. rewrite <- Htot.
    rewrite (prefix_sum_ext _ (at_ sp)) by (intros; apply He).
    unfold prefix_sum. rewrite <- Hcount.
    rewrite <- firstn_as_map_at by (unfold vsize; lia).
    unfold vsize. rewrite Nat2Z.id, firstn_all. reflexivity. }
  exists outs'. split; [exact R|]. split; [exact L|].
  intros k Hk. destruct (F k Hk) as [Fs [Ft [Fl _]]].
  cbn [SplitOp.X ins] in Fs, Ft, Fl.
  unfold split_output_dims in Fs. cbn [SplitOp.add_axis_ op] in Fs.
  change (truthy 0) with false in Fs. cbv iota in Fs.
  split; [rewrite Fs; apply vset_in_range; exact Hcv|].
  split; [exact Ft|].
  rewrite Fl. unfold numel. rewrite Fs, vset_prodZ by exact Hcv. reflexivity.
Qed.

(** X6 on an axis of extent 3: the sizes 1 and 3 add up to 4, the sizes 1
    and 2 give outputs of shapes [[1, 2]] and [[2, 2]]. *)
Lemma split_sizes_validation_witness :
  SplitOp.RunOnDevice (SplitOp.mk 0 0 [1; 3])
    (SplitOp.mkInputs (mkTensor [3; 2] byte_meta (count_bytes 6)) None) (fresh_outputs 2)
  = (fresh_outputs 2, Err (ShapeSumMismatch 4 3))
  /\ exists outs',
       SplitOp.RunOnDevice (SplitOp.mk 0 0 [1; 2])
         (SplitOp.mkInputs (mkTensor [3; 2] byte_meta (count_bytes 6)) None)
         (fresh_outputs 2)
       = (outs', Ok true)
       /\ length outs' = 2%nat
       /\ forall k, 0 <= k < 2 ->
            sizes (Output outs' k) = [] ++ at_ [1; 2] k :: [2]
            /\ dtype (Output outs' k) = byte_meta
            /\ blen (raw_data (Output outs' k)) = numel (Output outs' k) * 1.
Proof.
  assert (Hs : shape_ok [3; 2]) by (repeat constructor; unfold Int32.INT_MAX; lia).
  split.
  - apply (split_sizes_validation 0 [1; 3] (mkTensor [3; 2] byte_meta (count_bytes 6))
             (fresh_outputs 2) 0).
    + discriminate.
    + exact Hs.
    + reflexivity.
    + repeat constructor; lia.
    + vm_compute. discriminate.
  - apply (split_sizes_validation 0 [1; 2] (mkTensor [3; 2] byte_meta (count_bytes 6))
             (fresh_outputs 2) 0).
    + discriminate.
    + exact Hs.
    + reflexivity.
    + repeat constructor; lia.
    + vm_compute. discriminate.
    + unfold tensor_ok. cbn [sizes dtype raw_data itemsize byte_meta].
      split; [exact Hs|].
      repeat split; vm_compute; try reflexivity; discriminate.
Defined.

(** ** The checks of Concat *)

Lemma foldR_first_err (body : unit -> Z -> result unit) (lo j hi : Z) (e : Error) :
  lo <= j < hi ->
  (forall i, lo <= i < j -> body tt i = Ok tt) ->
  body tt j = Err e ->
  foldR body (range lo hi) tt = Err e.
Proof.
  intros Hj Hbefore Hat.
  rewrite (range_split lo j hi) by lia. rewrite (range_cons j hi) by lia.
  assert (Hgen : forall idx rest,
             (forall i, In i idx -> body tt i = Ok tt) ->
             foldR body (idx ++ rest) tt = foldR body rest tt).
  { induction idx as [|i idx IH]; intros rest Hok; cbn [app foldR]; [reflexivity|].
    rewrite Hok by (left; reflexivity). cbn [rbind].
    apply IH. intros k Hk. apply Hok. right. exact Hk. }
  rewrite Hgen by (intros i Hi; apply in_range in Hi; apply Hbefore; exact Hi).
  cbn [foldR]. rewrite Hat. reflexivity.
Qed.

(** X7.  Concat compares the element type of every input with that of
    input 0 before it looks at any shape: the run fails with TypeMismatch
    at the first input whose type differs, whatever the shapes are, having
    resized [split] and nothing else. *)
Theorem concat_type_mismatch :
  forall (op : ConcatOp.t) (inputs : list Tensor) (s : ConcatOp.Outputs)
         (input_zero : Tensor) (c j : Z),
    Input inputs 0 = Ok input_zero ->
    canonical_axis_index_ (ConcatOp.axis_ op)
      (Int32.add (ndim input_zero) (if truthy (ConcatOp.add_axis_ op) then 1 else 0))
    = Ok c ->
    1 <= j < vsize inputs ->
    (forall i, 1 <= i < j ->
       TypeMeta_eqb (dtype (nth (Z.to_nat i) inputs empty_tensor)) (dtype input_zero)
       = true) ->
    TypeMeta_eqb (dtype (nth (Z.to_nat j) inputs empty_tensor)) (dtype input_zero)
    = false ->
    ConcatOp.RunOnDevice op inputs s = (split_resized inputs s, Err (TypeMismatch j)).
Proof.
  intros op inputs s t0 c j H0 Hc Hj Hbefore Hat.
  apply ConcatOp_run_plan_err. unfold concat_plan.
  rewrite H0. cbn [rbind]. rewrite Hc. cbn [rbind].
  unfold ConcatOp.check_types.
  rewrite (foldR_first_err _ 1 j (vsize inputs) (TypeMismatch j)); [reflexivity|exact Hj| |].
  - intros i Hi. rewrite Input_ok by lia. cbn [rbind].
    rewrite Hbefore by exact Hi. reflexivity.
  - rewrite Input_ok by lia. cbn [rbind]. rewrite Hat. reflexivity.
Qed.

(** X7 on three inputs of which the last holds floats; the shapes differ
    as well. *)
Lemma concat_type_mismatch_witness :
  ConcatOp.RunOnDevice (ConcatOp.mk 0 0)
    [mkTensor [1; 2] byte_meta (zeros 2); mkTensor [1; 2] byte_meta (zeros 2);
     mkTensor [1; 3] float_meta (zeros 12)]
    fresh_concat_outputs
  = (split_resized
       [mkTensor [1; 2] byte_meta (zeros 2); mkTensor [1; 2] byte_meta (zeros 2);
        mkTensor [1; 3] float_meta (zeros 12)]
       fresh_concat_outputs,
     Err (TypeMismatch 2)).
Proof.
  apply (concat_type_mismatch (ConcatOp.mk 0 0)
           [mkTensor [1; 2] byte_meta (zeros 2); mkTensor [1; 2] byte_meta (zeros 2);
            mkTensor [1; 3] float_meta (zeros 12)]
           fresh_concat_outputs (mkTensor [1; 2] byte_meta (zeros 2)) 0 2).
  - reflexivity.
  - reflexivity.
  - unfold vsize. cbn [length]. lia.
  - intros i Hi. assert (i = 1) by lia. subst i. reflexivity.
  - reflexivity.
Defined.

Lemma foldM_err {S A : Type} (body : A -> Z -> M S A) (P : Error -> Prop) :
  (forall a i s s' e, body a i s = (s', Err e) -> P e) ->
  forall idx acc s s' e, foldM body idx acc s = (s', Err e) -> P e.
Proof.
  intros Hbody idx. induction idx as [|i idx IH]; intros acc s s' e H; cbn [foldM] in H.
  - unfold ret in H. inversion H.
  - unfold bind in H. destruct (body acc i s) as [s1 [a|e1]] eqn:Hb.
    + apply (IH a s1 s'). exact H.
    + inversion H; subst. apply (Hbody acc i s s'). exact Hb.
Qed.

Lemma check_types_err (inputs : list Tensor) (input_zero : Tensor) (e : Error) :
  ConcatOp.check_types inputs input_zero = Err e -> e <> AxisOutOfRange.
Proof.
  apply (foldR_err _ (fun e => e <> AxisOutOfRange)).
  intros a i e0 H.
  destruct (Input inputs i) as [t|e1] eqn:Hi; cbn [rbind] in H.
  - destruct (TypeMeta_eqb (dtype t) (dtype input_zero)); inversion H; discriminate.
  - inversion H; subst. rewrite (Input_err _ _ _ Hi). discriminate.
Qed.

Lemma check_dim_err (inputs : list Tensor) (input_zero : Tensor) (c i dim : Z) (e : Error) :
  ConcatOp.check_dim inputs input_zero c i dim = Err e -> e <> AxisOutOfRange.
Proof.
  apply (foldR_err _ (fun e => e <> AxisOutOfRange)).
  intros a j e0 H.
  destruct (Input inputs j) as [t|e1] eqn:Hi; cbn [rbind] in H.
  - destruct (dim32 t i) as [d|e2] eqn:Hd; cbn [rbind] in H.
    + destruct (dim =? d); inversion H; discriminate.
    + inversion H; subst. rewrite (dim32_err _ _ _ Hd). discriminate.
  - inversion H; subst. rewrite (Input_err _ _ _ Hi). discriminate.
Qed.

Lemma dims_loop_err (op : ConcatOp.t) (inputs : list Tensor) (input_zero : Tensor)
      (c : Z) (e : Error) :
  ConcatOp.dims_loop op inputs input_zero c = Err e -> e <> AxisOutOfRange.
Proof.
  apply (foldR_err _ (fun e => e <> AxisOutOfRange)).
  intros [b a] i e0 H. unfold ConcatOp.dims_step in H.
  destruct ((i =? c) && negb (truthy (ConcatOp.add_axis_ op))); [discriminate|].
  destruct (dim32 input_zero i) as [d|e2] eqn:Hd; cbn [rbind] in H.
  - destruct (ConcatOp.check_dim inputs input_zero c i d) as [u|e3] eqn:Hcd;
      cbn [rbind] in H; [destruct (i <? c); discriminate|].
    inversion H; subst. apply (check_dim_err _ _ _ _ _ _ Hcd).
  - inversion H; subst. rewrite (dim32_err _ _ _ Hd). discriminate.
Qed.

Lemma copy_loop_err (op : ConcatOp.t) (inputs : list Tensor) (input_zero : Tensor)
      (c before after oc : Z) (idx : list Z) (acc : Z) (s s' : ConcatOp.Outputs)
      (e : Error) :
  foldM (ConcatOp.copy_step op inputs input_zero c before after oc) idx acc s
  = (s', Err e) ->
  e <> AxisOutOfRange.
Proof.
  apply (foldM_err _ (fun e => e <> AxisOutOfRange)).
  intros a i s0 s1 e0 H.
  unfold ConcatOp.copy_step, bind, lift, modify, ret in H.
  destruct (Input inputs i) as [t|e1] eqn:Hi.
  - destruct (truthy (ConcatOp.add_axis_ op)); [discriminate|].
    destruct (dim32 t c) as [d|e2] eqn:Hd; [discriminate|].
    inversion H; subst. rewrite (dim32_err _ _ _ Hd). discriminate.
  - inversion H; subst. rewrite (Input_err _ _ _ Hi). discriminate.
Qed.

(** X8.  Concat accepts the axis exactly when its canonical value lies in
    [[0, rank)], or in [[0, rank + 1)] when an axis is added, where rank is
    that of input 0: a run fails with AxisOutOfRange if and only if the
    canonical axis is outside that range, whatever the other inputs are. *)
Theorem concat_axis_accepted_iff_in_adjusted_rank :
  forall (op : ConcatOp.t) (input_zero : Tensor) (rest : list Tensor)
         (s : ConcatOp.Outputs),
    ndim input_zero < Int32.INT_MAX ->
    let adj := ndim input_zero + (if truthy (ConcatOp.add_axis_ op) then 1 else 0) in
    let c := canonical_value adj (ConcatOp.axis_ op) in
    is_AxisOutOfRange (snd (ConcatOp.RunOnDevice op (input_zero :: rest) s))
    = negb ((0 <=? c) && (c <? adj)).
Proof.
  intros op t0 rest s Hrank adj c.
  assert (Hadj : Int32.add (ndim t0) (if truthy (ConcatOp.add_axis_ op) then 1 else 0)
                 = adj).
  { unfold Int32.add, adj. apply wrap_small. unfold Int32.INT_MAX in *.
    unfold ndim in *. destruct (truthy (ConcatOp.add_axis_ op)); lia. }
  destruct (concat_plan op (t0 :: rest)) as [[[[tz c0] b] a]|e] eqn:Hplan.
  - pose proof Hplan as Hp. unfold concat_plan in Hp.
    change (Input (t0 :: rest) 0) with (Ok t0) in Hp. cbn [rbind] in Hp.
    rewrite Hadj in Hp. unfold canonical_axis_index_ in Hp. fold c in Hp.
    destruct ((0 <=? c) && (c <? adj)); [|discriminate Hp]. cbn [negb].
    rewrite (ConcatOp_run_plan_ok _ _ _ _ _ _ _ Hplan).
    destruct (channels_loop_frame op (t0 :: rest) c0 (range 0 (vsize (t0 :: rest))) 0
                                  (split_resized (t0 :: rest) s))
      as [s1 [r [Hch [_ [_ [_ [Herr _]]]]]]].
    rewrite Hch. destruct r as [oc|e]; [|rewrite (Herr e eq_refl); reflexivity].
    cbv zeta.
    match goal with
    | |- context [foldM ?f ?idx ?acc0 ?st] => destruct (foldM f idx acc0 st) as [s2 [v|e]] eqn:Hcp
    end; [reflexivity|].
    apply copy_loop_err in Hcp. cbn [snd is_AxisOutOfRange].
    destruct e; try reflexivity. congruence.
  - rewrite (ConcatOp_run_plan_err _ _ _ _ Hplan). cbn [snd].
    unfold concat_plan in Hplan.
    change (Input (t0 :: rest) 0) with (Ok t0) in Hplan. cbn [rbind] in Hplan.
    rewrite Hadj in Hplan. unfold canonical_axis_index_ in Hplan. fold c in Hplan.
    destruct ((0 <=? c) && (c <? adj)); [|inversion Hplan; reflexivity]. cbn [rbind negb] in *.
    destruct (ConcatOp.check_types (t0 :: rest) t0) as [u|e1] eqn:Hct; cbn [rbind] in Hplan.
    + destruct (ConcatOp.dims_loop op (t0 :: rest) t0 c) as [ba|e2] eqn:Hdl;
        cbn [rbind] in Hplan; [discriminate|].
      inversion Hplan; subst. apply dims_loop_err in Hdl.
      destruct e; try reflexivity. congruence.
    + inversion Hplan; subst. apply check_types_err in Hct.
      destruct e; try reflexivity. congruence.
Qed.

(** X8 on a rank-2 input: with an axis added, axis 2 is accepted and axis 3
    is not. *)
Lemma concat_axis_accepted_iff_in_adjusted_rank_witness :
  is_AxisOutOfRange
    (snd (ConcatOp.RunOnDevice (ConcatOp.mk 2 1) [mkTensor [1; 2] byte_meta (zeros 2)]
                               fresh_concat_outputs)) = false
  /\ is_AxisOutOfRange
       (snd (ConcatOp.RunOnDevice (ConcatOp.mk 3 1) [mkTensor [1; 2] byte_meta (zeros 2)]
                                  fresh_concat_outputs)) = true.
Proof.
  split.
  - apply (concat_axis_accepted_iff_in_adjusted_rank (ConcatOp.mk 2 1)
             (mkTensor [1; 2] byte_meta (zeros 2)) [] fresh_concat_outputs).
    vm_compute. reflexivity.
  - apply (concat_axis_accepted_iff_in_adjusted_rank (ConcatOp.mk 3 1)
             (mkTensor [1; 2] byte_meta (zeros 2)) [] fresh_concat_outputs).
    vm_compute. reflexivity.
Defined.

(** ** What a successful Concat run produces *)

Lemma concat_output_dtype (inputs : list Tensor) (input_zero : Tensor)
      (before after oc : Z) (E : Z -> Z) (k : Z) (o : Tensor) :
  0 < k ->
  dtype (concat_output inputs input_zero before after oc E k o) = dtype input_zero.
Proof.
  intros Hk. replace k with (k - 1 + 1) by lia.
  rewrite concat_output_succ by lia. reflexivity.
Qed.

Lemma accumulate_all (l : list Z) :
  accumulate l (vsize l) = fold_left Int32.add l 0.
Proof.
  unfold accumulate, vsize. rewrite Nat2Z.id, firstn_all. reflexivity.
Qed.

(** X9.  Every successful Concat run without an added axis leaves in
    [split] one entry per input, the extent of that input along the axis,
    and gives output 0 the shape of input 0 with the axis extent replaced by
    the sum, as ints, of those entries, and the element type of input 0. *)
Theorem concat_success_records_extents :
  forall (op : ConcatOp.t) (inputs : list Tensor) (s s' : ConcatOp.Outputs),
    truthy (ConcatOp.add_axis_ op) = false ->
    ndim (nth 0 inputs empty_tensor) <= Int32.INT_MAX ->
    ConcatOp.RunOnDevice op inputs s = (s', Ok true) ->
    let n := vsize inputs in
    let input_zero := nth 0 inputs empty_tensor in
    exists c,
      canonical_axis_index input_zero (ConcatOp.axis_ op) = Ok c
      /\ 0 < n
      /\ ConcatOp.split s'
         = {| isizes := [n];
              idata := map (fun i => extent (sizes (nth (Z.to_nat i) inputs empty_tensor)) c)
                           (range 0 n) |}
      /\ sizes (ConcatOp.output s')
         = vset (sizes input_zero) c (accumulate (idata (ConcatOp.split s')) n)
      /\ dtype (ConcatOp.output s') = dtype input_zero.
Proof.
  intros op inputs s s' Hadd Hrank Hrun n tz.
  destruct (concat_plan op inputs) as [[[[t0 c] b] a]|e] eqn:Hplan.
  2:{ rewrite (ConcatOp_run_plan_err _ _ _ _ Hplan) in Hrun. inversion Hrun. }
  pose proof Hplan as Hp. unfold concat_plan in Hp.
  destruct (Input inputs 0) as [t0'|e0] eqn:H0; cbn [rbind] in Hp; [|discriminate].
  destruct (Input_inv _ _ _ H0) as [Hn [Ht0 _]]. change (Z.to_nat 0) with 0%nat in Ht0.
  fold tz in Ht0. subst t0'.
  rewrite Hadd in Hp.
  assert (Hadj : Int32.add (ndim tz) 0 = Int32.wrap (ndim tz))
    by (unfold Int32.add; rewrite Z.add_0_r; reflexivity).
  destruct (canonical_axis_index_ (ConcatOp.axis_ op) (Int32.add (ndim tz) 0))
    as [c'|e0] eqn:Hc; cbn [rbind] in Hp; [|discriminate].
  destruct (ConcatOp.check_types inputs tz) as [u|e0]; cbn [rbind] in Hp; [|discriminate].
  destruct (ConcatOp.dims_loop op inputs tz c') as [ba|e0] eqn:Hdl; cbn [rbind] in Hp;
    [|discriminate].
  inversion Hp; subst t0 c' b a. clear Hp.
  pose proof Hrun as Hrun'.
  rewrite (ConcatOp_run_plan_ok _ _ _ _ _ _ _ Hplan) in Hrun'.
  destruct (channels_loop_frame op inputs c (range 0 (vsize inputs)) 0
                                (split_resized inputs s))
    as [s1 [r [Hch [_ [_ [_ [_ Hok]]]]]]].
  rewrite Hch in Hrun'. destruct r as [oc|e]; [|inversion Hrun'].
  specialize (Hok oc eq_refl). clear Hrun' Hch.
  set (E := fun i => extent (sizes (nth (Z.to_nat i) inputs empty_tensor)) c).
  assert (HE : forall i, 0 <= i < vsize inputs -> concat_axis_dim op inputs c i = Ok (E i)).
  { intros i Hi. specialize (Hok i (proj2 (in_range i 0 (vsize inputs)) Hi)).
    unfold concat_axis_dim in *. rewrite Hadd in *.
    rewrite Input_ok in * by exact Hi. cbn [rbind] in *.
    destruct (dim32 (nth (Z.to_nat i) inputs empty_tensor) c) as [d|e] eqn:Hd;
      [|discriminate Hok].
    destruct (dim32_inv _ _ _ Hd) as [_ [Hv _]]. unfold E. rewrite Hv. reflexivity. }
  pose proof (ConcatOp_run_values op inputs s tz c (fst ba) (snd ba) E Hplan HE) as Hval.
  cbv zeta in Hval. rewrite Hval in Hrun. inversion Hrun; subst s'. clear Hrun Hval.
  cbn [ConcatOp.output ConcatOp.split idata]. fold n.
  exists c. split.
  { unfold canonical_axis_index. rewrite <- Hc. f_equal.
    rewrite Hadj. symmetry. apply wrap_small.
    unfold tz, ndim, Int32.INT_MAX in *. lia. }
  split; [unfold n; lia|]. split; [reflexivity|].
  split.
  - rewrite concat_output_sizes. cbn [sizes Resize]. rewrite Hadd.
    f_equal. unfold accumulate. rewrite firstn_all2; [reflexivity|].
    rewrite length_map, range_length. unfold n. lia.
  - apply concat_output_dtype. unfold n. lia.
Qed.

(** X9 on inputs of extents 1 and 2 along axis 1. *)
Lemma concat_success_records_extents_witness :
  exists c,
    canonical_axis_index (mkTensor [2; 1] byte_meta (count_bytes 2)) 1 = Ok c
    /\ 0 < 2
    /\ {| isizes := [2]; idata := [1; 2] |}
       = {| isizes := [2];
            idata := map (fun i => extent (sizes (nth (Z.to_nat i)
                            [mkTensor [2; 1] byte_meta (count_bytes 2);
                             mkTensor [2; 2] byte_meta (count_bytes 4)] empty_tensor)) c)
                         (range 0 2) |}
    /\ [2; 3] = vset [2; 1] c (accumulate [1; 2] 2)
    /\ byte_meta = byte_meta.
Proof.
  apply (concat_success_records_extents (ConcatOp.mk 1 0)
           [mkTensor [2; 1] byte_meta (count_bytes 2);
            mkTensor [2; 2] byte_meta (count_bytes 4)]
           fresh_concat_outputs
           {| ConcatOp.output :=
                mkTensor [2; 3] byte_meta [x00; x00; x01; x01; x02; x03];
              ConcatOp.split := {| isizes := [2]; idata := [1; 2] |} |}).
  - reflexivity.
  - vm_compute. discriminate.
  - vm_compute. reflexivity.
Defined.

(** ** Inserting an axis into a shape *)

Section ShapeInsert.
Variables (dims : list Z) (c : Z).
Hypothesis Hc : 0 <= c <= vsize dims.

Lemma firstn_len_le : length (firstn (Z.to_nat c) dims) = Z.to_nat c.
Proof. rewrite length_firstn. unfold vsize in Hc. lia. Qed.

Lemma vinsert_firstn (v : Z) :
  firstn (Z.to_nat c) (vinsert dims c v) = firstn (Z.to_nat c) dims.
Proof. unfold vinsert. apply firstn_app_exact, firstn_len_le. Qed.

Lemma vinsert_skipn (v : Z) :
  skipn (Z.to_nat (c + 1)) (vinsert dims c v) = skipn (Z.to_nat c) dims.
Proof.
  unfold vinsert. replace (Z.to_nat (c + 1)) with (S (Z.to_nat c)) by lia.
  change (firstn (Z.to_nat c) dims ++ v :: skipn (Z.to_nat c) dims)
    with (firstn (Z.to_nat c) dims ++ [v] ++ skipn (Z.to_nat c) dims).
  rewrite app_assoc. apply skipn_app_exact.
  rewrite length_app, firstn_len_le. cbn [length]. lia.
Qed.

Lemma vinsert_extent (v : Z) : extent (vinsert dims c v) c = v.
Proof.
  unfold extent, vinsert. rewrite app_nth2 by (rewrite firstn_len_le; lia).
  rewrite firstn_len_le, Nat.sub_diag. reflexivity.
Qed.

Lemma verase_vinsert (v : Z) : verase (vinsert dims c v) c = dims.
Proof.
  rewrite verase_eq by lia. rewrite vinsert_firstn, vinsert_skipn.
  apply firstn_skipn.
Qed.

Lemma prodZ_split : prodZ dims = prodZ (firstn (Z.to_nat c) dims) * prodZ (skipn (Z.to_nat c) dims).
Proof. rewrite <- prodZ_app, firstn_skipn. reflexivity. Qed.

Lemma span_split : span dims = span (firstn (Z.to_nat c) dims) * span (skipn (Z.to_nat c) dims).
Proof. rewrite <- span_app, firstn_skipn. reflexivity. Qed.

Lemma vinsert_prodZ (v : Z) :
  prodZ (vinsert dims c v)
  = prodZ (firstn (Z.to_nat c) dims) * (v * prodZ (skipn (Z.to_nat c) dims)).
Proof. unfold vinsert. rewrite prodZ_app. reflexivity. Qed.

Lemma vinsert_span (v : Z) : span (vinsert dims c v) = span dims * Z.max 1 v.
Proof.
  unfold vinsert. rewrite span_app. cbn [span fold_right].
  fold (span (skipn (Z.to_nat c) dims)). rewrite span_split. lia.
Qed.

Lemma vinsert_shape_ok (v : Z) :
  shape_ok dims -> 0 <= v < Int32.INT_MAX -> shape_ok (vinsert dims c v).
Proof.
  intros Hs Hv. unfold vinsert, shape_ok in *.
  apply Forall_app. split; [apply Forall_firstn; exact Hs|].
  constructor; [exact Hv|apply Forall_skipn; exact Hs].
Qed.

End ShapeInsert.

(** ** Concat on the slabs of a tensor *)

(** Concat on tensors that are, bytes and shapes, the slabs of [X] along
    the axis puts [X] in output 0. *)
Lemma concat_slabs_run (op : SplitOp.t) (X : Tensor) (c : Z) (axis_data : list Z)
      (outs' : list Tensor) (s : ConcatOp.Outputs) :
  tensor_ok X ->
  canonical_axis_index X (SplitOp.axis_ op) = Ok c ->
  0 < vsize outs' ->
  (forall k, 0 <= k < vsize outs' -> 0 <= split_axis_dim op axis_data k) ->
  prefix_sum (split_axis_dim op axis_data) (vsize outs') = extent (sizes X) c ->
  (forall k, 0 <= k < vsize outs' ->
     sizes (Output outs' k) = split_output_dims op X c axis_data k
     /\ dtype (Output outs' k) = dtype X
     /\ blen (raw_data (Output outs' k))
        = prodZ (firstn (Z.to_nat c) (sizes X))
          * (split_axis_dim op axis_data k
             * prodZ (skipn (Z.to_nat (c + 1)) (sizes X)))
          * itemsize (dtype X)
     /\ forall r t,
          0 <= r < prodZ (firstn (Z.to_nat c) (sizes X)) ->
          0 <= t < itemsize (dtype X)
                   * (split_axis_dim op axis_data k
                      * prodZ (skipn (Z.to_nat (c + 1)) (sizes X))) ->
          zth (raw_data (Output outs' k))
              (split_axis_dim op axis_data k
               * prodZ (skipn (Z.to_nat (c + 1)) (sizes X))
               * r * itemsize (dtype X) + t)
          = zth (raw_data X)
                (prefix_sum (split_axis_dim op axis_data) k
                 * prodZ (skipn (Z.to_nat (c + 1)) (sizes X))
                 * itemsize (dtype X)
                 + extent (sizes X) c
                   * prodZ (skipn (Z.to_nat (c + 1)) (sizes X))
                   * r * itemsize (dtype X) + t)) ->
  ConcatOp.RunOnDevice (ConcatOp.mk (SplitOp.axis_ op) (SplitOp.add_axis_ op)) outs' s
  = ({| ConcatOp.output := X;
        ConcatOp.split :=
          {| isizes := [vsize outs'];
             idata := map (split_axis_dim op axis_data) (range 0 (vsize outs')) |} |},
     Ok true).
Proof.
  intros HX Hc Hn Hnn Hsum Hout.
  set (cop := ConcatOp.mk (SplitOp.axis_ op) (SplitOp.add_axis_ op)).
  set (e := split_axis_dim op axis_data) in *.
  pose proof (canonical_axis_index__range _ _ _ Hc) as Hcr.
  assert (Hsizes : forall k, 0 <= k < vsize outs' ->
                     sizes (Output outs' k) = split_output_dims op X c axis_data k)
    by (intros k Hk; apply (Hout k Hk)).
  assert (Htypes : forall k, 0 <= k < vsize outs' -> dtype (Output outs' k) = dtype X)
    by (intros k Hk; apply (Hout k Hk)).
  pose proof (rt_concat_plan op X c axis_data outs' HX Hc Hn Hnn Hsum Hsizes Htypes)
    as Hplan.
  pose proof (rt_axis_dims op X c axis_data outs' HX Hc Hnn Hsum Hsizes) as Hdims.
  fold cop in Hplan, Hdims. fold e in Hdims.
  pose proof (ConcatOp_run_values cop outs' s _ _ _ _ e Hplan Hdims) as Hcat.
  cbv zeta in Hcat.
  assert (Hoc : fold_left Int32.add (map e (range 0 (vsize outs'))) 0
                = extent (sizes X) c).
  { rewrite fold_add_prefix; [exact Hsum|exact Hnn|].
    rewrite Hsum. destruct HX as [Hshape _].
    pose proof (shape_ok_nth (sizes X) (Z.to_nat c) Hshape) as Hic.
    unfold extent. lia. }
  rewrite Hoc in Hcat.
  pose proof (rt_output_dims op X c axis_data outs' Hc Hn Hsizes) as Hod.
  fold cop in Hod. rewrite Hod in Hcat.
  rewrite Hcat. f_equal. f_equal.
  apply (reassemble X c e (vsize outs') outs' (Output outs' 0) HX Hcr Hnn Hn Hsum).
  - apply Htypes. lia.
  - intros k Hk. apply (Htypes k Hk).
  - intros k Hk. apply (Hout k Hk).
  - intros k r t Hk Hr Ht. apply (Hout k Hk); assumption.
  - reflexivity.
Qed.

(** X10.  Concat of a single tensor copies it: without an added axis
    output 0 is the input itself, shape, type and bytes; with an added axis
    it is the input with an axis of extent 1 inserted at the canonical axis
    and the same bytes.  [split] holds the one extent. *)
Theorem concat_single_input :
  forall (axis add : Z) (T : Tensor) (s : ConcatOp.Outputs) (c : Z),
    tensor_ok T ->
    ndim T + 1 < Int32.INT_MAX ->
    canonical_axis_index_ axis (ndim T + (if truthy add then 1 else 0)) = Ok c ->
    ConcatOp.RunOnDevice (ConcatOp.mk axis add) [T] s
    = ({| ConcatOp.output :=
            if truthy add
            then mkTensor (vinsert (sizes T) c 1) (dtype T) (raw_data T)
            else T;
          ConcatOp.split :=
            {| isizes := [1];
               idata := [if truthy add then 1 else extent (sizes T) c] |} |},
       Ok true).
Proof.
  intros axis add T s c HT Hrank Hc.
  pose proof (canonical_axis_index__range _ _ _ Hc) as Hcr.
  destruct HT as [Hshape [Hspan [Hrk [Hitem [Hsz Hlen]]]]].
  destruct (truthy add) eqn:Hadd.
  - set (X := mkTensor (vinsert (sizes T) c 1) (dtype T) (raw_data T)).
    assert (Hcv : 0 <= c <= vsize (sizes T)) by (unfold vsize, ndim in *; lia).
    assert (HX : tensor_ok X).
    { unfold tensor_ok, X. cbn [sizes dtype raw_data].
      split; [apply vinsert_shape_ok; [exact Hshape|unfold Int32.INT_MAX; lia]|].
      rewrite vinsert_span. change (Z.max 1 1) with 1. rewrite Z.mul_1_r.
      split; [exact Hspan|]. split.
      { unfold ndim. cbn [sizes]. rewrite vinsert_length. unfold ndim in Hrank. lia. }
      split; [exact Hitem|]. split; [exact Hsz|].
      rewrite Hlen. unfold numel. cbn [sizes]. rewrite vinsert_prodZ.
      rewrite (prodZ_split (sizes T) c). ring. }
    assert (HcX : canonical_axis_index X axis = Ok c).
    { unfold canonical_axis_index. rewrite <- Hc. f_equal.
      unfold ndim, X. cbn [sizes]. rewrite vinsert_length. lia. }
    pose proof (concat_slabs_run (SplitOp.mk axis add []) X c [] [T] s HX HcX) as H.
    unfold split_axis_dim, split_output_dims in H.
    cbn [SplitOp.axis_ SplitOp.add_axis_] in H. rewrite Hadd in H.
    change (vsize [T]) with 1 in H. change (range 0 1) with [0] in H.
    cbn [map] in H. apply H; clear H.
    + lia.
    + intros k Hk. lia.
    + unfold prefix_sum. change (range 0 1) with [0]. cbn [map sumZ fold_right].
      unfold X. cbn [sizes]. rewrite (vinsert_extent _ _ Hcv). reflexivity.
    + intros k Hk. assert (k = 0) by lia. subst k.
      change (Output [T] 0) with T. unfold X. cbn [sizes dtype raw_data].
      rewrite (vinsert_firstn _ _ Hcv), (vinsert_skipn _ _ Hcv), (vinsert_extent _ _ Hcv).
      split; [symmetry; apply (verase_vinsert _ _ Hcv)|]. split; [reflexivity|].
      split.
      * rewrite Hlen. unfold numel. rewrite (prodZ_split (sizes T) c). ring.
      * intros r t Hr Ht. reflexivity.
  - rewrite Z.add_0_r in Hc, Hcr.
    assert (Hcv : 0 <= c < vsize (sizes T)) by (unfold vsize, ndim in *; lia).
    assert (HT : tensor_ok T) by (repeat split; assumption || lia).
    pose proof (concat_slabs_run (SplitOp.mk axis add []) T c [extent (sizes T) c] [T] s
                                 HT Hc) as H.
    unfold split_axis_dim, split_output_dims in H.
    cbn [SplitOp.axis_ SplitOp.add_axis_] in H. rewrite Hadd in H.
    change (vsize [T]) with 1 in H. change (range 0 1) with [0] in H.
    cbn [map] in H. change (at_ [extent (sizes T) c] 0) with (extent (sizes T) c) in H.
    pose proof (shape_ok_nth (sizes T) (Z.to_nat c) Hshape) as Hic.
    fold (extent (sizes T) c) in Hic.
    apply H; clear H.
    + lia.
    + intros k Hk. assert (k = 0) by lia. subst k.
      change (at_ [extent (sizes T) c] 0) with (extent (sizes T) c). lia.
    + unfold prefix_sum. change (range 0 1) with [0]. cbn [map sumZ fold_right].
      change (at_ [extent (sizes T) c] 0) with (extent (sizes T) c). lia.
    + intros k Hk. assert (k = 0) by lia. subst k.
      change (Output [T] 0) with T.
      change (at_ [extent (sizes T) c] 0) with (extent (sizes T) c).
      split; [symmetry; apply vset_extent_same; exact Hcv|]. split; [reflexivity|].
      split.
      * rewrite Hlen. unfold numel. rewrite (numel_cut _ _ Hcv) at 1. reflexivity.
      * intros r t Hr Ht. reflexivity.
Qed.

(** X10 on a tensor of shape [[2, 3]] stacked along a new last axis. *)
Lemma concat_single_input_witness :
  ConcatOp.RunOnDevice (ConcatOp.mk (-1) 1) [mkTensor [2; 3] byte_meta (count_bytes 6)]
                       fresh_concat_outputs
  = ({| ConcatOp.output := mkTensor [2; 3; 1] byte_meta (count_bytes 6);
        ConcatOp.split := {| isizes := [1]; idata := [1] |} |},
     Ok true).
Proof.
  apply (concat_single_input (-1) 1 (mkTensor [2; 3] byte_meta (count_bytes 6))
           fresh_concat_outputs 2).
  - unfold tensor_ok. cbn [sizes dtype raw_data itemsize byte_meta].
    split; [repeat constructor; unfold Int32.INT_MAX; lia|].
    repeat split; vm_compute; try reflexivity; discriminate.
  - vm_compute. reflexivity.
  - reflexivity.
Defined.

(** ** The outputs of Split as tensors *)

Lemma sumZ_map_scaled (e : Z -> Z) (a b : Z) (n : nat) :
  sumZ (map (fun k => a * (e k * b)) (range 0 (Z.of_nat n)))
  = a * (prefix_sum e (Z.of_nat n) * b).
Proof.
  induction n as [|n IH].
  - unfold prefix_sum. change (range 0 (Z.of_nat 0)) with (@nil Z).
    cbn [map sumZ fold_right]. ring.
  - replace (Z.of_nat (S n)) with (Z.of_nat n + 1) by lia.
    rewrite prefix_sum_succ by lia. rewrite range_snoc by lia.
    rewrite map_app, sumZ_app, IH. cbn [map sumZ fold_right]. ring.
Qed.

(** X11.  Split keeps tensors well formed and loses no element: on an
    input whose extents, rank and byte size stay in the range of int and
    size_t and whose buffer holds extent-product times item-size bytes,
    with non-negative per-output extents that sum to the extent of the
    axis, the run succeeds, every output is again such a tensor, and the
    element counts of the outputs add up to that of the input. *)
Theorem split_outputs_well_formed :
  forall (op : SplitOp.t) (ins : SplitOp.Inputs) (outs : list Tensor)
         (c : Z) (axis_data : list Z),
    tensor_ok (SplitOp.X ins) ->
    canonical_axis_index (SplitOp.X ins) (SplitOp.axis_ op) = Ok c ->
    SplitOp.select_axis_data op ins (extent (sizes (SplitOp.X ins)) c) (OutputSize outs)
    = Ok axis_data ->
    OutputSize outs <= vsize axis_data ->
    (forall k, 0 <= k < OutputSize outs -> 0 <= split_axis_dim op axis_data k) ->
    prefix_sum (split_axis_dim op axis_data) (OutputSize outs)
    = extent (sizes (SplitOp.X ins)) c ->
    exists outs',
      SplitOp.RunOnDevice op ins outs = (outs', Ok true)
      /\ (forall k, 0 <= k < OutputSize outs -> tensor_ok (Output outs' k))
      /\ sumZ (map (fun k => numel (Output outs' k)) (range 0 (OutputSize outs)))
         = numel (SplitOp.X ins).
Proof.
  intros op ins outs c axis_data HX Hc Hsel Hlen Hnn Hsum.
  destruct (roundtrip_split_run op ins outs c axis_data HX Hc Hsel Hlen Hnn Hsum)
    as [outs' [Hrun [Hl Hout]]].
  exists outs'. split; [exact Hrun|].
  assert (Hsize : vsize outs' = OutputSize outs)
    by (unfold vsize, OutputSize; rewrite Hl; reflexivity).
  rewrite <- Hsize in *.
  set (X := SplitOp.X ins) in *.
  pose proof (canonical_axis_index__range _ _ _ Hc) as Hcr.
  assert (Hcv : 0 <= c < vsize (sizes X)) by (unfold vsize, ndim in *; lia).
  assert (Hnumel : forall k, 0 <= k < vsize outs' ->
            numel (Output outs' k)
            = prodZ (firstn (Z.to_nat c) (sizes X))
              * (split_axis_dim op axis_data k
                 * prodZ (skipn (Z.to_nat (c + 1)) (sizes X)))).
  { intros k Hk. destruct (Hout k Hk) as [Hs _]. unfold numel. rewrite Hs.
    apply split_output_dims_prodZ. exact Hcr. }
  split.
  - intros k Hk. destruct (Hout k Hk) as [Hs [Ht [Hb _]]].
    pose proof (rt_slab_shape_ok op X c axis_data outs' HX Hc Hnn Hsum k Hk) as Hok.
    pose proof (rt_slab_rank op X c axis_data outs' Hc k Hk) as Hrk.
    destruct (rt_extent_bounds op X c axis_data outs' HX Hnn Hsum k Hk) as [Hek Hem].
    destruct HX as [Hshape [Hspan [Hrank [Hitem [Hsz HlenX]]]]].
    assert (Hsp : span (sizes (Output outs' k)) <= span (sizes X)).
    { rewrite Hs. unfold split_output_dims. unfold split_axis_dim in Hek.
      destruct (truthy (SplitOp.add_axis_ op)).
      - apply verase_span_le. exact Hcv.
      - apply vset_span_le; [exact Hcv|exact Hek]. }
    unfold tensor_ok. rewrite Ht.
    split; [rewrite Hs; exact Hok|].
    split; [lia|].
    split.
    { unfold ndim. rewrite Hs. unfold vsize in Hrk.
      destruct (truthy (SplitOp.add_axis_ op)); lia. }
    split; [exact Hitem|].
    split.
    { apply Z.le_lt_trans with (span (sizes X) * itemsize (dtype X)); [|exact Hsz].
      apply Z.mul_le_mono_nonneg_r; [exact Hitem|exact Hsp]. }
    rewrite Hb, (Hnumel k Hk). reflexivity.
  - rewrite (map_ext_in _ (fun k => prodZ (firstn (Z.to_nat c) (sizes X))
                                    * (split_axis_dim op axis_data k
                                       * prodZ (skipn (Z.to_nat (c + 1)) (sizes X))))).
    2:{ intros k Hk. apply in_range in Hk. apply Hnumel. exact Hk. }
    replace (vsize outs') with (Z.of_nat (length outs')) by reflexivity.
    rewrite sumZ_map_scaled. fold (vsize outs'). rewrite Hsum.
    unfold numel. rewrite (numel_cut (sizes X) c Hcv) at 1. reflexivity.
Qed.

(** X11 on a tensor of shape [[2, 3]] split along axis 1 into extents 1
    and 2. *)
Lemma split_outputs_well_formed_witness :
  exists outs',
    SplitOp.RunOnDevice (SplitOp.mk 1 0 [1; 2])
      (SplitOp.mkInputs (mkTensor [2; 3] byte_meta (count_bytes 6)) None)
      (fresh_outputs 2)
    = (outs', Ok true)
    /\ (forall k, 0 <= k < 2 -> tensor_ok (Output outs' k))
    /\ sumZ (map (fun k => numel (Output outs' k)) (range 0 2)) = 6.
Proof.
  assert (HX : tensor_ok (mkTensor [2; 3] byte_meta (count_bytes 6))).
  { unfold tensor_ok. cbn [sizes dtype raw_data itemsize byte_meta].
    split; [repeat constructor; unfold Int32.INT_MAX; lia|].
    repeat split; vm_compute; try reflexivity; discriminate. }
  assert (Hnn : forall k, 0 <= k < OutputSize (fresh_outputs 2) ->
                  0 <= split_axis_dim (SplitOp.mk 1 0 [1; 2]) [1; 2] k).
  { intros k Hk. change (OutputSize (fresh_outputs 2)) with 2 in Hk.
    assert (Hcases : k = 0 \/ k = 1) by lia.
    destruct Hcases as [-> | ->]; vm_compute; discriminate. }
  exact (split_outputs_well_formed (SplitOp.mk 1 0 [1; 2])
           (SplitOp.mkInputs (mkTensor [2; 3] byte_meta (count_bytes 6)) None)
           (fresh_outputs 2) 1 [1; 2]
           HX eq_refl eq_refl ltac:(vm_compute; discriminate) Hnn eq_refl).
Defined.

(** ** SplitByLengths as a Split *)

Lemma firstn_plus {A : Type} (a b : nat) (l : list A) :
  firstn (a + b) l = firstn a l ++ firstn b (skipn a l).
Proof.
  revert l. induction a as [|a IH]; intros l; [reflexivity|].
  destruct l as [|x l]; cbn [Nat.add firstn skipn app].
  - rewrite firstn_nil. reflexivity.
  - f_equal. apply IH.
Qed.

Lemma group_sums_prefix (l : list Z) (n : Z) (m : nat) :
  0 < n ->
  prefix_sum (group_extent l n) (Z.of_nat m)
  = sumZ (firstn (m * Z.to_nat (group_size l n)) l).
Proof.
  intros Hn. induction m as [|m IH].
  - reflexivity.
  - replace (Z.of_nat (S m)) with (Z.of_nat m + 1) by lia.
    rewrite prefix_sum_succ by lia. rewrite IH.
    replace (S m * Z.to_nat (group_size l n))%nat
      with (m * Z.to_nat (group_size l n) + Z.to_nat (group_size l n))%nat by lia.
    rewrite firstn_plus, sumZ_app. f_equal.
    unfold group_extent, group_of. do 3 f_equal.
    assert (0 <= group_size l n)
      by (unfold group_size, vsize; apply Z.div_pos; lia).
    nia.
Qed.

Lemma group_sums_total (l : list Z) (n : Z) :
  0 < n -> Z.rem (vsize l) n = 0 ->
  prefix_sum (group_extent l n) n = sumZ l.
Proof.
  intros Hn Hrem.
  assert (Hg : vsize l = n * group_size l n).
  { unfold group_size. rewrite Z.rem_mod_nonneg in Hrem by (unfold vsize; lia).
    apply Z.div_exact; lia. }
  replace n with (Z.of_nat (Z.to_nat n)) at 2 by lia.
  rewrite group_sums_prefix by exact Hn.
  rewrite firstn_all2; [reflexivity|].
  assert (0 <= group_size l n)
    by (unfold group_size, vsize; apply Z.div_pos; lia).
  unfold vsize in Hg. nia.
Qed.

Lemma at_map_range (E : Z -> Z) (n k : Z) :
  0 <= k < n -> at_ (map E (range 0 n)) k = E k.
Proof.
  intros Hk. unfold at_.
  rewrite (nth_indep _ 0 (E 0)) by (rewrite length_map, range_length; lia).
  rewrite map_nth. rewrite nth_range by lia. f_equal. lia.
Qed.

Lemma slab_offset_ext (input : Tensor) (after : Z) (e e' : Z -> Z) (k : Z) :
  (forall i, 0 <= i < k -> e i = e' i) ->
  slab_offset input after e k = slab_offset input after e' k.
Proof.
  intros H. unfold slab_offset.
  assert (Hgen : forall idx acc,
             (forall i, In i idx -> e i = e' i) ->
             fold_left (fun off i =>
                          to_size_t (off + to_size_t (Int32.mul (e i) after)
                                           * itemsize (dtype input))) idx acc
             = fold_left (fun off i =>
                            to_size_t (off + to_size_t (Int32.mul (e' i) after)
                                             * itemsize (dtype input))) idx acc).
  { induction idx as [|i idx IH]; intros acc Hin; cbn [fold_left]; [reflexivity|].
    rewrite (Hin i (or_introl eq_refl)). apply IH.
    intros j Hj. apply Hin. right. exact Hj. }
  apply Hgen. intros i Hi. apply in_range in Hi. apply H. exact Hi.
Qed.

Lemma size_dims_as_int (X : Tensor) (c : Z) :
  shape_ok (sizes X) -> span (sizes X) <= Int32.INT_MAX ->
  Int32.wrap (size_to_dim X c) = prodZ (firstn (Z.to_nat c) (sizes X))
  /\ Int32.wrap (size_from_dim X (c + 1)) = prodZ (skipn (Z.to_nat (c + 1)) (sizes X)).
Proof.
  intros Hs Hspan. pose proof (shape_ok_nonneg _ Hs) as Hnn.
  unfold size_to_dim, size_from_dim. split; apply wrap_small.
  - pose proof (prodZ_nonneg _ (Forall_firstn _ (Z.to_nat c) _ Hnn)).
    pose proof (prodZ_le_span _ (Forall_firstn _ (Z.to_nat c) _ Hnn)).
    pose proof (span_firstn (Z.to_nat c) (sizes X)). lia.
  - pose proof (prodZ_nonneg _ (Forall_skipn _ (Z.to_nat (c + 1)) _ Hnn)).
    pose proof (prodZ_le_span _ (Forall_skipn _ (Z.to_nat (c + 1)) _ Hnn)).
    pose proof (span_skipn (Z.to_nat (c + 1)) (sizes X)). lia.
Qed.

Lemma SplitByLengthsOp_as_SplitOp :
  forall (axis : Z) (X : Tensor) (lengths : IntTensor) (outs : list Tensor) (c : Z),
    shape_ok (sizes X) ->
    span (sizes X) <= Int32.INT_MAX ->
    canonical_axis_index X axis = Ok c ->
    0 < OutputSize outs ->
    inumel lengths = vsize (idata lengths) ->
    Z.rem (inumel lengths) (OutputSize outs) = 0 ->
    Forall (fun d => 0 <= d) (idata lengths) ->
    sumZ (idata lengths) <= Int32.INT_MAX ->
    SplitByLengthsOp.RunOnDevice (SplitByLengthsOp.mk axis)
                                 (SplitByLengthsOp.mkInputs X lengths) outs
    = SplitOp.RunOnDevice
        (SplitOp.mk axis 0
           (map (group_extent (idata lengths) (OutputSize outs))
                (range 0 (OutputSize outs))))
        (SplitOp.mkInputs X None) outs.
Proof.
  intros axis X lengths outs c Hs Hspan Hc Hn Hlen Hrem Hnn Hsum.
  set (n := OutputSize outs) in *. set (l := idata lengths) in *.
  set (GE := group_extent l n). set (sp := map GE (range 0 n)).
  pose proof (canonical_axis_index__range _ _ _ Hc) as Hcr.
  pose proof (dim32_ok X c Hs Hcr) as Hdim. fold (extent (sizes X) c) in Hdim.
  set (ic := extent (sizes X) c) in *.
  destruct (size_dims_as_int X c Hs Hspan) as [Hbw Haw].
  assert (Hspn : vsize sp = n)
    by (unfold sp, vsize; rewrite length_map, range_length; lia).
  assert (Hat : forall k, 0 <= k < n -> at_ sp k = GE k)
    by (intros k Hk; apply at_map_range; exact Hk).
  assert (HGE : forall k, 0 <= k -> lengths_axis_dim l (inumel lengths) n k = GE k).
  { intros k Hk. rewrite Hlen. apply lengths_axis_dim_group; assumption. }
  assert (HGEnn : forall k, 0 <= k < n -> 0 <= at_ sp k).
  { intros k Hk. rewrite (Hat k Hk). unfold GE, group_extent, group_of.
    apply sumZ_nonneg, Forall_firstn, Forall_skipn, Hnn. }
  assert (Htot : prefix_sum (at_ sp) n = sumZ l).
  { rewrite <- (group_sums_total l n Hn); [|rewrite <- Hlen; exact Hrem].
    unfold prefix_sum. f_equal. apply map_ext_in. intros k Hk.
    apply in_range in Hk. apply Hat. exact Hk. }
  assert (Hacc1 : accumulate l (inumel lengths) = sumZ l).
  { rewrite Hlen. unfold vsize. rewrite accumulate_sum;
      rewrite Nat2Z.id, firstn_all; try assumption. reflexivity. }
  assert (Hacc2 : accumulate sp n = sumZ l).
  { rewrite accumulate_prefix; [exact Htot|lia|exact HGEnn|lia]. }
  pose proof (SplitOp_run_plan (SplitOp.mk axis 0 sp) (SplitOp.mkInputs X None) outs) as H2.
  unfold split_plan in H2. cbn [SplitOp.X SplitOp.axis_] in H2. fold n in H2.
  rewrite Hc in H2. cbn [rbind] in H2. rewrite Hdim in H2. cbn [rbind] in H2.
  rewrite select_axis_data_cases in H2. cbn [SplitOp.split_tensor SplitOp.split_] in H2.
  rewrite Hspn in H2.
  rewrite (proj2 (Z.eqb_neq n 0)) in H2 by lia. rewrite Z.eqb_refl in H2.
  cbn [negb rbind] in H2.
  unfold split_total in H2. cbn [SplitOp.add_axis_] in H2.
  change (truthy 0) with false in H2. cbv iota in H2. rewrite Hacc2 in H2.
  destruct (SplitByLengthsOp_run (SplitByLengthsOp.mk axis)
              (SplitByLengthsOp.mkInputs X lengths) outs c ic Hrem Hc Hdim)
    as [Hbad Hgood].
  cbn [SplitByLengthsOp.X SplitByLengthsOp.lengths] in Hbad, Hgood.
  fold l n in Hbad, Hgood. rewrite Hacc1 in Hbad, Hgood.
  destruct (Z.eqb_spec (sumZ l) ic) as [E|E].
  - rewrite (before_loop_value X c Hs Hspan Hcr) in H2.
    rewrite (after_loop_value X c Hs Hspan Hcr) in H2. cbn [rbind] in H2.
    destruct H2 as [o2 [R2 [L2 V2]]]. destruct (Hgood E) as [o1 [R1 [L1 V1]]].
    rewrite R1, R2. f_equal. apply outputs_ext; [congruence|].
    intros k Hk. unfold OutputSize in Hk. rewrite L1 in Hk. fold (OutputSize outs) in Hk.
    fold n in Hk.
    rewrite (V1 k Hk), (V2 k Hk). rewrite Hbw, Haw.
    unfold split_output_dims, split_axis_dim. cbn [SplitOp.add_axis_ SplitOp.X].
    change (truthy 0) with false. cbv iota.
    rewrite (HGE k) by lia. rewrite (Hat k Hk).
    f_equal. apply slab_offset_ext. intros i Hi.
    rewrite (HGE i) by lia. rewrite Hat by lia. reflexivity.
  - rewrite (Hbad E), H2. reflexivity.
Qed.

(** X12.  SplitByLengths is Split with the sums of the groups as sizes: on
    lengths that are non-negative, sum to no more than INT_MAX and come in
    a multiple of the number of outputs, a SplitByLengths run and a Split
    run along the same axis whose [split] argument holds, for each output,
    the sum of its group of lengths are the same run, failures included. *)
Theorem split_by_lengths_is_split_by_group_sums :
  forall (axis : Z) (X : Tensor) (lengths : IntTensor) (outs : list Tensor) (c : Z),
    shape_ok (sizes X) ->
    span (sizes X) <= Int32.INT_MAX ->
    canonical_axis_index X axis = Ok c ->
    0 < OutputSize outs ->
    inumel lengths = vsize (idata lengths) ->
    Z.rem (inumel lengths) (OutputSize outs) = 0 ->
    Forall (fun d => 0 <= d) (idata lengths) ->
    sumZ (idata lengths) <= Int32.INT_MAX ->
    SplitByLengthsOp.RunOnDevice (SplitByLengthsOp.mk axis)
                                 (SplitByLengthsOp.mkInputs X lengths) outs
    = SplitOp.RunOnDevice
        (SplitOp.mk axis 0
           (map (group_extent (idata lengths) (OutputSize outs))
                (range 0 (OutputSize outs))))
        (SplitOp.mkInputs X None) outs.
Proof.
  intros axis X lengths outs c Hs Hspan Hc Hn Hlen Hrem Hnn Hsum.
  apply (SplitByLengthsOp_as_SplitOp axis X lengths outs c); assumption.
Qed.

(** X12 on the lengths 1, 1, 2, 0 and two outputs: the sizes are 2 and 2. *)
Lemma split_by_lengths_is_split_by_group_sums_witness :
  SplitByLengthsOp.RunOnDevice (SplitByLengthsOp.mk 0)
    (SplitByLengthsOp.mkInputs (mkTensor [4; 2] byte_meta (count_bytes 8))
                               (mkIntTensor [4] [1; 1; 2; 0]))
    (fresh_outputs 2)
  = SplitOp.RunOnDevice (SplitOp.mk 0 0 [2; 2])
      (SplitOp.mkInputs (mkTensor [4; 2] byte_meta (count_bytes 8)) None)
      (fresh_outputs 2).
Proof.
  apply (split_by_lengths_is_split_by_group_sums 0
           (mkTensor [4; 2] byte_meta (count_bytes 8))
           (mkIntTensor [4] [1; 1; 2; 0]) (fresh_outputs 2) 0).
  - repeat constructor; unfold Int32.INT_MAX; lia.
  - vm_compute. discriminate.
  - reflexivity.
  - reflexivity.
  - reflexivity.
  - reflexivity.
  - repeat constructor; lia.
  - vm_compute. discriminate.
Defined.

(** X13.  Concat undoes SplitByLengths: on a well-formed tensor and
    non-negative lengths that come in a multiple of the number of outputs
    and sum to the extent of the axis, the SplitByLengths run succeeds and
    a Concat run on its outputs along the same axis returns the input,
    shape, type and bytes, and records the sums of the groups in
    [split]. *)
Theorem split_by_lengths_then_concat_roundtrip :
  forall (axis : Z) (X : Tensor) (lengths : IntTensor) (outs : list Tensor)
         (s : ConcatOp.Outputs) (c : Z),
    tensor_ok X ->
    canonical_axis_index X axis = Ok c ->
    0 < OutputSize outs ->
    inumel lengths = vsize (idata lengths) ->
    Z.rem (inumel lengths) (OutputSize outs) = 0 ->
    Forall (fun d => 0 <= d) (idata lengths) ->
    sumZ (idata lengths) = extent (sizes X) c ->
    exists outs',
      SplitByLengthsOp.RunOnDevice (SplitByLengthsOp.mk axis)
                                   (SplitByLengthsOp.mkInputs X lengths) outs
      = (outs', Ok true)
      /\ ConcatOp.RunOnDevice (ConcatOp.mk axis 0) outs' s
         = ({| ConcatOp.output := X;
               ConcatOp.split :=
                 {| isizes := [OutputSize outs];
                    idata := map (group_extent (idata lengths) (OutputSize outs))
                                 (range 0 (OutputSize outs)) |} |},
            Ok true).
Proof.
  intros axis X lengths outs s c HX Hc Hn Hlen Hrem Hnn Hsum.
  pose proof HX as [Hshape [Hspan [_ _]]].
  pose proof (shape_ok_nth (sizes X) (Z.to_nat c) Hshape) as Hic.
  fold (extent (sizes X) c) in Hic.
  rewrite (SplitByLengthsOp_as_SplitOp axis X lengths outs c) by (assumption || lia).
  set (n := OutputSize outs) in *. set (l := idata lengths) in *.
  set (sp := map (group_extent l n) (range 0 n)).
  set (op := SplitOp.mk axis 0 sp). set (ins := SplitOp.mkInputs X None).
  assert (Hspn : vsize sp = n)
    by (unfold sp, vsize; rewrite length_map, range_length; lia).
  assert (He : forall k, 0 <= k < n -> split_axis_dim op sp k = group_extent l n k).
  { intros k Hk. unfold split_axis_dim, op. cbn [SplitOp.add_axis_].
    change (truthy 0) with false. cbv iota. apply at_map_range. exact Hk. }
  assert (Hsel : SplitOp.select_axis_data op ins (extent (sizes (SplitOp.X ins)) c) n = Ok sp).
  { rewrite select_axis_data_cases. cbn [SplitOp.split_tensor SplitOp.split_ ins op].
    rewrite Hspn. rewrite (proj2 (Z.eqb_neq n 0)) by lia. rewrite Z.eqb_refl.
    reflexivity. }
  assert (Hnonneg : forall k, 0 <= k < n -> 0 <= split_axis_dim op sp k).
  { intros k Hk. rewrite (He k Hk). unfold group_extent, group_of.
    apply sumZ_nonneg, Forall_firstn, Forall_skipn, Hnn. }
  assert (Htot : prefix_sum (split_axis_dim op sp) n = extent (sizes (SplitOp.X ins)) c).
  { cbn [SplitOp.X ins]. rewrite <- Hsum.
    rewrite <- (group_sums_total l n Hn); [|rewrite <- Hlen; exact Hrem].
    unfold prefix_sum. f_equal. apply map_ext_in. intros k Hk.
    apply in_range in Hk. apply He. exact Hk. }
  destruct (roundtrip_split_run op ins outs c sp HX Hc Hsel ltac:(fold n; lia)
                                Hnonneg Htot)
    as [outs' [Hrun [Hl Hout]]].
  exists outs'. split; [exact Hrun|].
  assert (Hsize : vsize outs' = n)
    by (unfold vsize, n, OutputSize; rewrite Hl; reflexivity).
  pose proof (concat_slabs_run op X c sp outs' s HX Hc) as Hcat.
  rewrite Hsize in Hcat. cbn [SplitOp.axis_ SplitOp.add_axis_ op] in Hcat.
  rewrite Hcat; [|lia|exact Hnonneg|exact Htot|exact Hout].
  do 4 f_equal. apply map_ext_in. intros k Hk. apply in_range in Hk.
  apply He. exact Hk.
Qed.

(** X13 on a tensor of shape [[4, 2]], the lengths 1, 1, 2, 0 and two
    outputs. *)
Lemma split_by_lengths_then_concat_roundtrip_witness :
  exists outs',
    SplitByLengthsOp.RunOnDevice (SplitByLengthsOp.mk 0)
      (SplitByLengthsOp.mkInputs (mkTensor [4; 2] byte_meta (count_bytes 8))
                                 (mkIntTensor [4] [1; 1; 2; 0]))
      (fresh_outputs 2)
    = (outs', Ok true)
    /\ ConcatOp.RunOnDevice (ConcatOp.mk 0 0) outs' fresh_concat_outputs
       = ({| ConcatOp.output := mkTensor [4; 2] byte_meta (count_bytes 8);
             ConcatOp.split := {| isizes := [2]; idata := [2; 2] |} |},
          Ok true).
Proof.
  assert (HX : tensor_ok (mkTensor [4; 2] byte_meta (count_bytes 8))).
  { unfold tensor_ok. cbn [sizes dtype raw_data itemsize byte_meta].
    split; [repeat constructor; unfold Int32.INT_MAX; lia|].
    repeat split; vm_compute; try reflexivity; discriminate. }
  exact (split_by_lengths_then_concat_roundtrip 0
           (mkTensor [4; 2] byte_meta (count_bytes 8))
           (mkIntTensor [4] [1; 1; 2; 0]) (fresh_outputs 2) fresh_concat_outputs 0
           HX eq_refl eq_refl eq_refl eq_refl
           ltac:(repeat constructor; lia) eq_refl).
Defined.

(** ** The bytes Concat writes *)

Section Assemble.
Variables (inputs : list Tensor) (input_zero : Tensor).
Variables (Bf Af oc item : Z) (e : Z -> Z) (n : Z).
Hypothesis Hitem : 0 <= item.
Hypothesis HBf : 0 <= Bf.
Hypothesis HAf : 0 <= Af.
Hypothesis He : forall k, 0 <= k < n -> 0 <= e k.
Hypothesis Hsum : prefix_sum e n = oc.
Hypothesis Hrow : oc * Af <= Int32.INT_MAX.
Hypothesis Hbytes : oc * Af * item < 18446744073709551616.
Hypothesis Hzero : itemsize (dtype input_zero) = item.

Let slab (k : Z) : Tensor := nth (Z.to_nat k) inputs empty_tensor.

Hypothesis Hslab_item : forall k, 0 <= k < n -> itemsize (dtype (slab k)) = item.
Hypothesis Hslab_len :
  forall k, 0 <= k < n -> blen (raw_data (slab k)) = Bf * (e k * Af) * item.

Lemma assemble_bounds (k : Z) :
  0 <= k < n ->
  0 <= prefix_sum e k /\ 0 <= e k /\ prefix_sum e k + e k <= oc
  /\ Int32.mul (e k) Af = e k * Af /\ Int32.mul oc Af = oc * Af
  /\ 0 <= oc.
Proof.
  intros Hk.
  pose proof (prefix_sum_mono e n 0 k He ltac:(lia) ltac:(lia)) as H1.
  pose proof (prefix_sum_mono e n (k + 1) n He ltac:(lia) ltac:(lia)) as H2.
  rewrite prefix_sum_succ in H2 by lia. rewrite Hsum in H2.
  pose proof (He k Hk) as Hek.
  assert (Hoc : 0 <= oc) by lia.
  assert (HW : 0 <= e k * Af <= oc * Af).
  { split; [nia|]. apply Z.mul_le_mono_nonneg_r; lia. }
  repeat split; try lia.
  - unfold Int32.mul. apply wrap_small. unfold Int32.INT_MAX in *. lia.
  - unfold Int32.mul. apply wrap_small. unfold Int32.INT_MAX in *. nia.
Qed.

Lemma assemble_offset (k : Z) :
  0 <= k <= n -> concat_offset inputs Af e k = prefix_sum e k * Af * item.
Proof.
  intros Hk. replace k with (Z.of_nat (Z.to_nat k)) by lia.
  assert (Hk' : Z.of_nat (Z.to_nat k) <= n) by lia. clear Hk.
  induction (Z.to_nat k) as [|m IH].
  - reflexivity.
  - replace (Z.of_nat (S m)) with (Z.of_nat m + 1) in * by lia.
    rewrite concat_offset_succ by lia. rewrite IH by lia.
    rewrite (prefix_sum_succ e) by lia.
    destruct (assemble_bounds (Z.of_nat m) ltac:(lia))
      as [HO [Hek [Hle [Hmul [_ Hoc]]]]].
    rewrite Hmul. fold (slab (Z.of_nat m)). rewrite Hslab_item by lia.
    assert (HW : 0 <= e (Z.of_nat m) * Af <= oc * Af).
    { split; [nia|]. apply Z.mul_le_mono_nonneg_r; lia. }
    assert (H1 : 0 <= e (Z.of_nat m) * Af * item) by nia.
    assert (H2 : 0 <= prefix_sum e (Z.of_nat m) * Af * item) by nia.
    assert (H3 : (prefix_sum e (Z.of_nat m) + e (Z.of_nat m)) * Af * item
                 <= oc * Af * item).
    { apply Z.mul_le_mono_nonneg_r; [lia|].
      apply Z.mul_le_mono_nonneg_r; lia. }
    rewrite (to_size_t_small (e (Z.of_nat m) * Af))
      by (unfold Int32.INT_MAX in *; lia).
    rewrite to_size_t_small by lia. ring.
Qed.

(** What output 0 holds after [m] copies: slab [k < m] sits in columns
    [[prefix_sum e k * Af, prefix_sum e (k + 1) * Af)] of every row. *)
Lemma assemble_prefix (m : nat) (o : Tensor) :
  Z.of_nat m <= n ->
  numel o = Bf * (oc * Af) ->
  let o' := concat_output inputs input_zero Bf Af oc e (Z.of_nat m) o in
  sizes o' = sizes o
  /\ (0 < Z.of_nat m ->
      dtype o' = dtype input_zero /\ blen (raw_data o') = Bf * (oc * Af) * item)
  /\ (forall k r t,
        0 <= k < Z.of_nat m -> 0 <= r < Bf -> 0 <= t < item * (e k * Af) ->
        zth (raw_data o') (prefix_sum e k * Af * item + oc * Af * r * item + t)
        = zth (raw_data (slab k)) (e k * Af * r * item + t)).
Proof.
  intros Hm Hnum. induction m as [|m IH]; cbv zeta.
  - split; [reflexivity|]. split; [lia|]. intros k r t Hk. lia.
  - destruct IH as [IHsz [IHlen IHdata]]; [lia|].
    replace (Z.of_nat (S m)) with (Z.of_nat m + 1) by lia.
    rewrite concat_output_succ by lia.
    set (Y := concat_output inputs input_zero Bf Af oc e (Z.of_nat m) o) in *.
    destruct (assemble_bounds (Z.of_nat m) ltac:(lia))
      as [HO [Hek [Hle [Hmul [Hmulc Hoc]]]]].
    assert (HnumY : numel Y = Bf * (oc * Af))
      by (unfold numel in *; rewrite IHsz; exact Hnum).
    assert (HL0 : 0 <= Bf * (oc * Af) * item) by nia.
    assert (Hfit : prefix_sum e (Z.of_nat m) * Af + e (Z.of_nat m) * Af <= oc * Af) by nia.
    assert (HOff : 0 <= prefix_sum e (Z.of_nat m) * Af) by nia.
    unfold concat_copy.
    cbn [sizes dtype raw_data set_raw_data raw_mutable_data].
    rewrite Hzero, HnumY, Hmul, Hmulc, (assemble_offset (Z.of_nat m)) by lia.
    fold (slab (Z.of_nat m)). rewrite (Hslab_item (Z.of_nat m)) by lia.
    destruct (scatter_slab item Bf (oc * Af) (e (Z.of_nat m) * Af)
                (prefix_sum e (Z.of_nat m) * Af)
                Hitem HBf ltac:(nia) HOff Hfit
                (raw_data (slab (Z.of_nat m)))
                (resize_buf (Bf * (oc * Af) * item) (raw_data Y)))
      as [Hlen' [Hhit Hmiss]].
    { rewrite (Hslab_len (Z.of_nat m)) by lia. reflexivity. }
    { rewrite resize_buf_length by exact HL0. reflexivity. }
    rewrite resize_buf_length in Hlen' by exact HL0.
    split; [exact IHsz|]. split; [intros _; split; [reflexivity|exact Hlen']|].
    intros k r t Hk Hr Ht.
    destruct (Z.eq_dec k (Z.of_nat m)) as [->|Hne].
    + rewrite <- Hhit by (try exact Hr; exact Ht). reflexivity.
    + assert (Hkm : 0 <= k < Z.of_nat m) by lia.
      destruct (assemble_bounds k ltac:(lia)) as [HOk [Hekk [Hlek _]]].
      pose proof (prefix_sum_mono e n (k + 1) (Z.of_nat m) He ltac:(lia) ltac:(lia))
        as Hmono.
      rewrite prefix_sum_succ in Hmono by lia.
      assert (Hq1 : item * (e k * Af) + prefix_sum e k * Af * item
                    = (prefix_sum e k + e k) * Af * item) by ring.
      assert (Hq2 : (prefix_sum e k + e k) * Af * item
                    <= prefix_sum e (Z.of_nat m) * Af * item).
      { apply Z.mul_le_mono_nonneg_r; [lia|].
        apply Z.mul_le_mono_nonneg_r; lia. }
      assert (Hq3 : prefix_sum e (Z.of_nat m) * Af * item <= oc * Af * item).
      { apply Z.mul_le_mono_nonneg_r; [lia|].
        apply Z.mul_le_mono_nonneg_r; lia. }
      assert (Hq0 : 0 <= prefix_sum e k * Af * item) by nia.
      replace (prefix_sum e k * Af * item + oc * Af * r * item + t)
        with (oc * Af * r * item + (prefix_sum e k * Af * item + t)) by ring.
      rewrite Hmiss; [|exact Hr|lia|lia].
      assert (Hpos : 0 < Z.of_nat m) by lia.
      destruct (IHlen Hpos) as [_ HlenY].
      rewrite resize_buf_id by exact HlenY.
      rewrite <- (IHdata k r t Hkm Hr Ht). f_equal. ring.
Qed.

End Assemble.

(** ** Split on the output of Concat *)

Section ConcatThenSplit.
Variables (axis add : Z) (inputs : list Tensor) (c : Z).
Hypothesis Hn : 0 < vsize inputs.
Hypothesis Hc :
  canonical_axis_index_ axis
    (ndim (nth 0 inputs empty_tensor) + (if truthy add then 1 else 0)) = Ok c.
Hypothesis Hin : concat_inputs_ok add inputs c.
Hypothesis Hdims :
  dims_in_range (concat_dims add inputs c)
                (itemsize (dtype (nth 0 inputs empty_tensor))).

Let t0 := nth 0 inputs empty_tensor.
Let d0 := sizes t0.
Let n := vsize inputs.
Let e := concat_extent add inputs c.
Let oc := prefix_sum e n.
Let item := itemsize (dtype t0).
Let Bf := prodZ (firstn (Z.to_nat c) d0).
Let Af := prodZ (skipn (Z.to_nat (if truthy add then c else c + 1)) d0).
Let slab (k : Z) : Tensor := nth (Z.to_nat k) inputs empty_tensor.
Let cop := ConcatOp.mk axis add.

Lemma cs_axis_range : 0 <= c /\ (if truthy add then c <= vsize d0 else c < vsize d0).
Proof.
  pose proof (canonical_axis_index__range _ _ _ Hc) as H.
  fold t0 in H. unfold ndim in H. fold d0 in H. unfold vsize.
  destruct (truthy add); lia.
Qed.

Lemma cs_slab_in (k : Z) : 0 <= k < n -> In (slab k) inputs.
Proof. intros Hk. apply nth_inputs_In. exact Hk. Qed.

Lemma cs_extent_nonneg (k : Z) : 0 <= k < n -> 0 <= e k.
Proof.
  intros Hk. unfold e, concat_extent. destruct (truthy add); [lia|].
  destruct (Hin _ (cs_slab_in k Hk)) as [_ [_ [Hs _]]].
  apply extent_nonneg. exact Hs.
Qed.

Lemma cs_dims_extent : extent (concat_dims add inputs c) c = oc.
Proof.
  destruct cs_axis_range as [Hc0 Hcr]. unfold concat_dims. fold n e oc t0 d0.
  destruct (truthy add).
  - apply vinsert_extent. lia.
  - apply vset_extent. lia.
Qed.

Lemma cs_oc_range : 0 <= oc < Int32.INT_MAX.
Proof.
  destruct Hdims as [Hs _].
  pose proof (shape_ok_nth _ (Z.to_nat c) Hs) as H.
  fold (extent (concat_dims add inputs c) c) in H. rewrite cs_dims_extent in H.
  exact H.
Qed.

Lemma cs_dims_firstn :
  firstn (Z.to_nat c) (concat_dims add inputs c) = firstn (Z.to_nat c) d0.
Proof.
  destruct cs_axis_range as [Hc0 Hcr]. unfold concat_dims. fold n e oc t0 d0.
  destruct (truthy add).
  - apply vinsert_firstn. lia.
  - apply vset_firstn. lia.
Qed.

Lemma cs_dims_skipn :
  skipn (Z.to_nat (c + 1)) (concat_dims add inputs c)
  = skipn (Z.to_nat (if truthy add then c else c + 1)) d0.
Proof.
  destruct cs_axis_range as [Hc0 Hcr]. unfold concat_dims. fold n e oc t0 d0.
  destruct (truthy add).
  - apply vinsert_skipn. lia.
  - apply vset_skipn. lia.
Qed.

Lemma cs_dims_length :
  vsize (concat_dims add inputs c) = vsize d0 + (if truthy add then 1 else 0).
Proof.
  unfold concat_dims. fold n e oc t0 d0. unfold vsize.
  destruct (truthy add).
  - rewrite vinsert_length. lia.
  - rewrite vset_length. lia.
Qed.

Lemma cs_axis_in_dims : 0 <= c < vsize (concat_dims add inputs c).
Proof.
  destruct cs_axis_range as [Hc0 Hcr]. rewrite cs_dims_length.
  destruct (truthy add); lia.
Qed.

Lemma cs_dims_prodZ : prodZ (concat_dims add inputs c) = Bf * (oc * Af).
Proof.
  rewrite (numel_cut _ _ cs_axis_in_dims).
  rewrite cs_dims_firstn, cs_dims_skipn, cs_dims_extent. reflexivity.
Qed.

Lemma cs_geometry :
  0 <= item /\ 0 <= Bf /\ 0 <= Af
  /\ oc * Af < Int32.INT_MAX
  /\ oc * Af * item < 18446744073709551616
  /\ span d0 <= Int32.INT_MAX.
Proof.
  destruct Hdims as [Hs [Hspan [Hrank [Hitem Hsz]]]]. fold t0 item in Hitem, Hsz.
  pose proof (shape_ok_nonneg _ Hs) as Hnn.
  pose proof (span_cut _ _ cs_axis_in_dims) as Hcut.
  rewrite cs_dims_extent in Hcut.
  set (D := concat_dims add inputs c) in *.
  pose proof (span_pos (firstn (Z.to_nat c) D)) as HsB.
  pose proof (span_pos (skipn (Z.to_nat (c + 1)) D)) as HsA.
  pose proof (prodZ_nonneg _ (Forall_firstn _ (Z.to_nat c) _ Hnn)) as HB0.
  pose proof (prodZ_nonneg _ (Forall_skipn _ (Z.to_nat (c + 1)) _ Hnn)) as HA0.
  pose proof (prodZ_le_span _ (Forall_skipn _ (Z.to_nat (c + 1)) _ Hnn)) as HAs.
  assert (HAle : Af <= span (skipn (Z.to_nat (c + 1)) D))
    by (unfold Af; rewrite <- cs_dims_skipn; exact HAs).
  clear HAs. unfold D in HB0, HA0. rewrite cs_dims_firstn in HB0.
  rewrite cs_dims_skipn in HA0. fold Bf in HB0. fold Af in HA0.
  pose proof cs_oc_range as Hoc.
  set (sB := span (firstn (Z.to_nat c) D)) in *.
  set (sA := span (skipn (Z.to_nat (c + 1)) D)) in *.
  set (mx := Z.max 1 oc) in *.
  assert (Hmx : oc <= mx /\ 1 <= mx) by (unfold mx; lia).
  assert (H1 : oc * Af <= mx * sA).
  { apply Z.le_trans with (mx * Af).
    - apply Z.mul_le_mono_nonneg_r; lia.
    - apply Z.mul_le_mono_nonneg_l; lia. }
  assert (H2 : mx * sA <= span D).
  { rewrite Hcut. assert (0 <= mx * sA) by nia. nia. }
  assert (H3 : 0 <= oc * Af) by nia.
  split; [exact Hitem|]. split; [exact HB0|]. split; [exact HA0|].
  split; [lia|]. split.
  - apply Z.le_lt_trans with (span D * item); [|exact Hsz].
    apply Z.mul_le_mono_nonneg_r; lia.
  - destruct cs_axis_range as [Hc0 Hcr]. unfold D, concat_dims in Hspan.
    fold n e oc t0 d0 in Hspan. pose proof cs_extent_nonneg as Hextnn.
    destruct (truthy add) eqn:Hadd.
    + rewrite vinsert_span in Hspan. pose proof (span_pos d0). nia.
    + assert (Hcv : 0 <= c < vsize d0) by lia.
      assert (Hcv' : 0 <= c < vsize (vset d0 c oc))
        by (unfold vsize in *; rewrite vset_length; lia).
      assert (He0 : 0 <= extent d0 c <= oc).
      { assert (H0n : 0 <= 0 < n) by (unfold n; lia).
        pose proof (Hextnn 0 H0n) as Hnn0.
        pose proof (prefix_sum_mono e n 1 n Hextnn ltac:(lia) ltac:(lia))
          as Hmono.
        change 1 with (0 + 1) in Hmono at 2. rewrite prefix_sum_succ in Hmono by lia.
        change (prefix_sum e 0) with 0 in Hmono. fold oc in Hmono.
        assert (Heq : e 0 = extent d0 c)
          by (unfold e, concat_extent; rewrite Hadd; reflexivity).
        lia. }
      pose proof (vset_span_le (vset d0 c oc) c (extent d0 c) Hcv') as Hle.
      rewrite (vset_extent d0 c Hcv) in Hle. specialize (Hle He0).
      rewrite vset_vset, (vset_extent_same d0 c Hcv) in Hle. lia.
Qed.

Lemma cs_slab_facts (k : Z) :
  0 <= k < n ->
  dtype (slab k) = dtype t0
  /\ shape_ok (sizes (slab k))
  /\ sizes (slab k) = (if truthy add then d0 else vset d0 c (e k))
  /\ blen (raw_data (slab k)) = Bf * (e k * Af) * item.
Proof.
  intros Hk. destruct cs_axis_range as [Hc0 Hcr].
  destruct (Hin _ (cs_slab_in k Hk)) as [Hty [Hlen [Hs Hsz]]].
  fold t0 d0 in Hty, Hsz.
  split; [exact Hty|]. split; [exact Hs|].
  rewrite Hlen, Hty. fold item. unfold numel, e, concat_extent, Af. fold (slab k).
  clear Hlen Hty Hs. revert Hsz Hcr. clear Hc Hin Hdims.
  destruct (truthy add); intros Hsz Hcr.
  - split; [exact Hsz|]. rewrite Hsz. rewrite (prodZ_split d0 c). fold Bf. ring.
  - split; [exact Hsz|]. rewrite Hsz at 1.
    rewrite vset_prodZ by lia. reflexivity.
Qed.

Lemma cs_rank : ndim t0 < Int32.INT_MAX.
Proof.
  destruct Hdims as [_ [_ [Hrank _]]]. rewrite cs_dims_length in Hrank.
  unfold ndim. fold d0. unfold vsize in Hrank.
  revert Hrank. clear. destruct (truthy add); lia.
Qed.

Lemma cs_shapes_agree : shapes_agree cop inputs t0 c = true.
Proof.
  unfold shapes_agree. apply forallb_forall. intros i Hi. apply in_range in Hi.
  unfold dim_checked, cop. cbn [ConcatOp.add_axis_].
  assert (Hall : forall t, In t (tl inputs) ->
            sizes t = if truthy add then d0 else vset d0 c (extent (sizes t) c)).
  { intros t Ht. apply Hin. destruct inputs; [destruct Ht|right; exact Ht]. }
  destruct cs_axis_range as [Hc0 _].
  revert Hall. clear Hc Hin Hdims. destruct (truthy add); intros Hall.
  - rewrite andb_false_r. cbn [negb orb].
    unfold agree_at. apply forallb_forall. intros t Ht.
    rewrite (Hall t Ht). apply Z.eqb_refl.
  - rewrite andb_true_r, negb_involutive.
    destruct (Z.eqb_spec i c) as [->|Hne]; [reflexivity|]. cbn [orb].
    unfold agree_at. apply forallb_forall. intros t Ht.
    rewrite (Hall t Ht). rewrite nth_vset_other by lia. apply Z.eqb_refl.
Qed.

Lemma cs_concat_plan : concat_plan cop inputs = Ok (t0, c, Bf, Af).
Proof.
  assert (H0 : Input inputs 0 = Ok t0) by (apply Input_ok; unfold n in *; lia).
  assert (Hall : forall t, In t inputs ->
            TypeMeta_eqb (dtype t) (dtype t0) = true
            /\ shape_ok (sizes t) /\ ndim t0 <= ndim t).
  { intros t Ht. destruct (Hin t Ht) as [Hty [_ [Hs Hsz]]]. fold t0 in Hty, Hsz.
    split; [rewrite Hty; apply TypeMeta_eqb_refl|]. split; [exact Hs|].
    unfold ndim. rewrite Hsz. clear. destruct (truthy add); [lia|].
    rewrite vset_length. lia. }
  destruct (concat_plan_ok cop inputs t0 c H0 cs_rank Hc Hall cs_shapes_agree)
    as [b [a [Hdl Hplan]]].
  rewrite Hplan. pose proof (dims_loop_value _ _ _ _ _ _ _ Hdl) as Hval.
  destruct cs_geometry as [_ [_ [_ [_ [_ Hspan]]]]].
  destruct cs_axis_range as [Hc0 Hcr].
  assert (Hs0 : shape_ok d0).
  { apply (Hall t0). apply nth_In. unfold n, vsize in Hn. lia. }
  change (range 0 (ndim t0)) with (range 0 (vsize d0)) in Hval. fold d0 in Hval.
  rewrite (dims_acc_range cop d0 c Hs0 Hc0 Hcr Hspan) in Hval.
  inversion Hval; subst b a. reflexivity.
Qed.

Lemma cs_axis_dims (k : Z) : 0 <= k < n -> concat_axis_dim cop inputs c k = Ok (e k).
Proof.
  intros Hk. destruct cs_axis_range as [Hc0 Hcr].
  rewrite (concat_axis_dim_ok cop inputs t0 c k).
  - reflexivity.
  - intros t Ht. destruct (Hin t Ht) as [_ [_ [Hs Hsz]]]. fold t0 in Hsz.
    split; [exact Hs|]. unfold ndim. rewrite Hsz. clear.
    destruct (truthy add); [lia|]. rewrite vset_length. lia.
  - cbn [ConcatOp.add_axis_ cop]. intros Hadd. rewrite Hadd in Hcr.
    unfold ndim. fold d0. unfold vsize in Hcr. lia.
  - exact Hk.
Qed.

Lemma cs_channels : fold_left Int32.add (map e (range 0 n)) 0 = oc.
Proof.
  apply fold_add_prefix; [exact cs_extent_nonneg|].
  pose proof cs_oc_range. fold oc. lia.
Qed.

(** Output 0 of the Concat run. *)
Let Y (s : ConcatOp.Outputs) : Tensor :=
  concat_output inputs t0 Bf Af oc e n
                (Resize (ConcatOp.output s) (concat_dims add inputs c)).

Lemma cs_concat_run (s : ConcatOp.Outputs) :
  ConcatOp.RunOnDevice cop inputs s
  = ({| ConcatOp.output := Y s;
        ConcatOp.split := {| isizes := [n]; idata := map e (range 0 n) |} |},
     Ok true).
Proof.
  pose proof (ConcatOp_run_values cop inputs s t0 c Bf Af e cs_concat_plan cs_axis_dims)
    as H.
  cbv zeta in H. fold n in H. rewrite cs_channels in H.
  rewrite H. reflexivity.
Qed.

Lemma cs_output_facts (s : ConcatOp.Outputs) :
  sizes (Y s) = concat_dims add inputs c
  /\ dtype (Y s) = dtype t0
  /\ blen (raw_data (Y s)) = Bf * (oc * Af) * item
  /\ (forall k r t,
        0 <= k < n -> 0 <= r < Bf -> 0 <= t < item * (e k * Af) ->
        zth (raw_data (Y s)) (prefix_sum e k * Af * item + oc * Af * r * item + t)
        = zth (raw_data (slab k)) (e k * Af * r * item + t)).
Proof.
  destruct cs_geometry as [Hitem [HB [HA [Hrow [Hbytes _]]]]].
  assert (Hsi : forall k, 0 <= k < n ->
            itemsize (dtype (nth (Z.to_nat k) inputs empty_tensor)) = item).
  { intros k Hk. destruct (cs_slab_facts k Hk) as [Hty _].
    unfold slab in Hty. rewrite Hty. reflexivity. }
  assert (Hsl : forall k, 0 <= k < n ->
            blen (raw_data (nth (Z.to_nat k) inputs empty_tensor))
            = Bf * (e k * Af) * item).
  { intros k Hk. apply (cs_slab_facts k Hk). }
  destruct (assemble_prefix inputs t0 Bf Af oc item e n Hitem HB HA cs_extent_nonneg
              eq_refl ltac:(lia) Hbytes eq_refl Hsi Hsl (Z.to_nat n)
              (Resize (ConcatOp.output s) (concat_dims add inputs c))
              ltac:(unfold n in *; lia) cs_dims_prodZ)
    as [H1 [H2 H3]].
  rewrite Z2Nat.id in H1, H2, H3 by (unfold n in *; lia).
  fold (Y s) in H1, H2, H3.
  destruct (H2 Hn) as [Hty Hlen].
  split; [exact H1|]. split; [exact Hty|]. split; [exact Hlen|].
  intros k r t Hk Hr Ht. apply H3; assumption.
Qed.

Lemma cs_output_ok (s : ConcatOp.Outputs) : tensor_ok (Y s).
Proof.
  destruct (cs_output_facts s) as [Hsz [Hty [Hlen _]]].
  destruct Hdims as [Hs [Hspan [Hrank [Hitem Hbytes]]]].
  unfold tensor_ok, ndim, numel. rewrite Hsz, Hty, Hlen, cs_dims_prodZ.
  repeat split; assumption.
Qed.

(** Split, given the extents Concat recorded, takes output 0 of Concat
    apart into the inputs. *)
Lemma cs_split_run (s : ConcatOp.Outputs) (outs : list Tensor) :
  OutputSize outs = n ->
  SplitOp.RunOnDevice (SplitOp.mk axis add [])
    (SplitOp.mkInputs (Y s) (Some {| isizes := [n]; idata := map e (range 0 n) |}))
    outs
  = (inputs, Ok true).
Proof.
  intros Hout.
  set (op := SplitOp.mk axis add []).
  set (ad := map e (range 0 n)).
  set (ins := SplitOp.mkInputs (Y s) (Some {| isizes := [n]; idata := ad |})).
  destruct (cs_output_facts s) as [Hsz [Hty [Hlen Hdata]]].
  pose proof (cs_output_ok s) as HY.
  pose proof cs_axis_in_dims as Hcd.
  pose proof cs_dims_firstn as Hfst. pose proof cs_dims_skipn as Hskp.
  pose proof cs_dims_extent as Hext. pose proof cs_slab_facts as Hslabs.
  pose proof cs_extent_nonneg as Hnn.
  destruct cs_axis_range as [Hc0 Hcr].
  destruct cs_geometry as [Hitem [HB [HA _]]].
  assert (HcY : canonical_axis_index (SplitOp.X ins) (SplitOp.axis_ op) = Ok c).
  { cbn [SplitOp.X SplitOp.axis_ ins op]. unfold canonical_axis_index.
    rewrite <- Hc. f_equal. unfold ndim. rewrite Hsz.
    fold (vsize (concat_dims add inputs c)). rewrite cs_dims_length. reflexivity. }
  assert (Hsel : SplitOp.select_axis_data op ins (extent (sizes (SplitOp.X ins)) c)
                                          (OutputSize outs) = Ok ad).
  { rewrite select_axis_data_cases. cbn [SplitOp.split_tensor SplitOp.split_ ins op].
    unfold inumel. cbn [isizes prodZ fold_right vsize length Z.of_nat Z.eqb negb].
    rewrite Hout, Z.mul_1_r, Z.eqb_refl. reflexivity. }
  assert (Hadn : vsize ad = n)
    by (unfold ad, vsize; rewrite length_map, range_length; unfold n in *; lia).
  assert (Hsad : forall k, 0 <= k < n -> split_axis_dim op ad k = e k).
  { intros k Hk. unfold split_axis_dim, op, ad. cbn [SplitOp.add_axis_].
    rewrite at_map_range by exact Hk. unfold e, concat_extent.
    clear. destruct (truthy add); reflexivity. }
  assert (Hnonneg : forall k, 0 <= k < OutputSize outs -> 0 <= split_axis_dim op ad k).
  { intros k Hk. rewrite Hout in Hk. rewrite (Hsad k Hk). apply Hnn. exact Hk. }
  assert (Hsum : prefix_sum (split_axis_dim op ad) (OutputSize outs)
                 = extent (sizes (SplitOp.X ins)) c).
  { cbn [SplitOp.X ins]. rewrite Hsz, Hext, Hout. unfold oc, prefix_sum. f_equal.
    apply map_ext_in. intros k Hk. apply in_range in Hk. apply Hsad. exact Hk. }
  assert (Hpre : forall k, 0 <= k < n ->
            prefix_sum (split_axis_dim op ad) k = prefix_sum e k).
  { intros k Hk. unfold prefix_sum. f_equal. apply map_ext_in. intros i Hi.
    apply in_range in Hi. apply Hsad. lia. }
  destruct (roundtrip_split_run op ins outs c ad HY HcY Hsel ltac:(lia) Hnonneg Hsum)
    as [outs' [Hrun [Hl Hfacts]]].
  rewrite Hrun. f_equal.
  rewrite Hout in Hfacts. cbn [SplitOp.X ins] in Hfacts.
  rewrite Hsz, Hty, Hfst, Hskp, Hext in Hfacts. fold Bf Af item in Hfacts.
  apply (nth_ext _ _ empty_tensor empty_tensor).
  { rewrite Hl. unfold OutputSize, n, vsize in Hout. lia. }
  intros j Hj.
  assert (Hk : 0 <= Z.of_nat j < n).
  { rewrite Hl in Hj. unfold OutputSize, n, vsize in *. lia. }
  destruct (Hfacts (Z.of_nat j) Hk) as [Fs [Ft [Fl Fd]]].
  destruct (Hslabs (Z.of_nat j) Hk) as [Sty [_ [Ssz Slen]]].
  unfold Output in Fs, Ft, Fl, Fd. unfold slab in *.
  rewrite Nat2Z.id in *.
  rewrite (Hsad _ Hk) in Fl, Fd. rewrite (Hpre _ Hk) in Fd.
  fold t0 d0 in Ssz.
  assert (Hsizes : sizes (nth j outs' empty_tensor) = sizes (nth j inputs empty_tensor)).
  { rewrite Fs, Ssz. unfold split_output_dims, op, ad. cbn [SplitOp.add_axis_].
    rewrite Hsz. rewrite at_map_range by exact Hk.
    unfold concat_dims. fold n e oc t0 d0.
    revert Hcr Hc0. clear. intros Hcr Hc0. destruct (truthy add).
    - apply verase_vinsert. lia.
    - apply vset_vset. }
  assert (Hbytes : raw_data (nth j outs' empty_tensor)
                   = raw_data (nth j inputs empty_tensor)).
  { apply (nth_ext _ _ zero_byte zero_byte).
    - unfold blen in *. lia.
    - intros p Hp.
      pose proof (Hnn _ Hk) as Hek.
      set (W := e (Z.of_nat j) * Af) in *.
      assert (Hp' : 0 <= Z.of_nat p < Bf * W * item) by (unfold blen in *; lia).
      assert (HW0 : 0 <= W) by (unfold W; nia).
      assert (HR : 0 < W * item) by nia.
      pose proof (Z.div_mod (Z.of_nat p) (W * item) ltac:(lia)) as Hdm.
      pose proof (Z.mod_pos_bound (Z.of_nat p) (W * item) HR) as Hmod.
      assert (Hdiv0 : 0 <= Z.of_nat p / (W * item)) by (apply Z.div_pos; lia).
      assert (Hdiv : Z.of_nat p / (W * item) < Bf).
      { apply Z.div_lt_upper_bound; [exact HR|]. nia. }
      set (r := Z.of_nat p / (W * item)) in *.
      set (t := Z.of_nat p mod (W * item)) in *.
      assert (Ht : 0 <= t < item * W) by lia.
      pose proof (Fd r t ltac:(lia) Ht) as F1.
      pose proof (Hdata (Z.of_nat j) r t Hk ltac:(lia) Ht) as F2.
      unfold slab in F2. rewrite Nat2Z.id in F2. fold W in F2.
      rewrite F2 in F1.
      replace (W * r * item + t) with (Z.of_nat p) in F1 by lia.
      unfold zth in F1. rewrite Nat2Z.id in F1. exact F1. }
  assert (Htypes : dtype (nth j outs' empty_tensor) = dtype (nth j inputs empty_tensor))
    by (rewrite Ft, Sty; reflexivity).
  destruct (nth j outs' empty_tensor) as [sz1 ty1 dat1].
  destruct (nth j inputs empty_tensor) as [sz2 ty2 dat2].
  cbn [sizes dtype raw_data] in Hsizes, Hbytes, Htypes. subst. reflexivity.
Qed.

End ConcatThenSplit.

(** X14.  Split undoes Concat.  For inputs of one element type whose
    shapes agree off the axis (everywhere, when an axis is added), with
    well-formed buffers and a joined shape that stays in the range of int
    and size_t: the Concat run succeeds, and a Split run along the same axis
    and add-axis setting, given output 0 of Concat as input and the [split]
    output of Concat as ratio tensor, returns exactly the inputs of Concat,
    shapes, types and bytes. *)
Theorem concat_then_split_roundtrip :
  forall (axis add : Z) (inputs : list Tensor) (s : ConcatOp.Outputs)
         (outs : list Tensor) (c : Z),
    0 < vsize inputs ->
    OutputSize outs = vsize inputs ->
    canonical_axis_index_ axis
      (ndim (nth 0 inputs empty_tensor) + (if truthy add then 1 else 0)) = Ok c ->
    concat_inputs_ok add inputs c ->
    dims_in_range (concat_dims add inputs c)
                  (itemsize (dtype (nth 0 inputs empty_tensor))) ->
    exists s',
      ConcatOp.RunOnDevice (ConcatOp.mk axis add) inputs s = (s', Ok true)
      /\ sizes (ConcatOp.output s') = concat_dims add inputs c
      /\ SplitOp.RunOnDevice (SplitOp.mk axis add [])
           (SplitOp.mkInputs (ConcatOp.output s') (Some (ConcatOp.split s'))) outs
         = (inputs, Ok true).
Proof.
  intros axis add inputs s outs c Hn Hout Hc Hin Hdims.
  eexists. split; [apply (cs_concat_run axis add inputs c Hn Hc Hin Hdims s)|].
  cbn [ConcatOp.output ConcatOp.split]. split.
  - apply (cs_output_facts axis add inputs c Hn Hc Hin Hdims s).
  - apply (cs_split_run axis add inputs c Hn Hc Hin Hdims s outs Hout).
Qed.

(** X14 on inputs of shapes [[2, 1]] and [[2, 2]] joined along axis 1. *)
Lemma concat_then_split_roundtrip_witness :
  exists s',
    ConcatOp.RunOnDevice (ConcatOp.mk 1 0)
      [mkTensor [2; 1] byte_meta (count_bytes 2);
       mkTensor [2; 2] byte_meta (count_bytes 4)]
      fresh_concat_outputs
    = (s', Ok true)
    /\ sizes (ConcatOp.output s') = [2; 3]
    /\ SplitOp.RunOnDevice (SplitOp.mk 1 0 [])
         (SplitOp.mkInputs (ConcatOp.output s') (Some (ConcatOp.split s')))
         (fresh_outputs 2)
       = ([mkTensor [2; 1] byte_meta (count_bytes 2);
           mkTensor [2; 2] byte_meta (count_bytes 4)],
          Ok true).
Proof.
  apply (concat_then_split_roundtrip 1 0
           [mkTensor [2; 1] byte_meta (count_bytes 2);
            mkTensor [2; 2] byte_meta (count_bytes 4)]
           fresh_concat_outputs (fresh_outputs 2) 1).
  - reflexivity.
  - reflexivity.
  - reflexivity.
  - intros t [<-|[<-|[]]];
      (split; [reflexivity|]; split; [reflexivity|];
       split; [repeat constructor; unfold Int32.INT_MAX; lia|reflexivity]).
  - unfold dims_in_range.
    change (concat_dims 0
              [mkTensor [2; 1] byte_meta (count_bytes 2);
               mkTensor [2; 2] byte_meta (count_bytes 4)] 1) with [2; 3].
    split; [repeat constructor; unfold Int32.INT_MAX; lia|].
    repeat split; vm_compute; try reflexivity; discriminate.
Defined.

(** ** Buffers told apart row by row *)

Lemma rows_ext (a b : list byte) (Bf W item : Z) :
  0 <= Bf -> 0 <= W -> 0 <= item ->
  blen a = Bf * W * item ->
  blen b = Bf * W * item ->
  (forall r t, 0 <= r < Bf -> 0 <= t < item * W ->
     zth a (W * r * item + t) = zth b (W * r * item + t)) ->
  a = b.
Proof.
  intros HB HW Hi Ha Hb Hrows.
  apply (nth_ext _ _ zero_byte zero_byte).
  - unfold blen in *. lia.
  - intros p Hp.
    assert (Hp' : 0 <= Z.of_nat p < Bf * W * item) by (unfold blen in *; lia).
    assert (HR : 0 < W * item) by nia.
    pose proof (Z.div_mod (Z.of_nat p) (W * item) ltac:(lia)) as Hdm.
    pose proof (Z.mod_pos_bound (Z.of_nat p) (W * item) HR) as Hmod.
    assert (Hdiv0 : 0 <= Z.of_nat p / (W * item)) by (apply Z.div_pos; lia).
    assert (Hdiv : Z.of_nat p / (W * item) < Bf).
    { apply Z.div_lt_upper_bound; [exact HR|]. nia. }
    specialize (Hrows (Z.of_nat p / (W * item)) (Z.of_nat p mod (W * item))
                      ltac:(lia) ltac:(lia)).
    replace (W * (Z.of_nat p / (W * item)) * item + Z.of_nat p mod (W * item))
      with (Z.of_nat p) in Hrows by lia.
    unfold zth in Hrows. rewrite Nat2Z.id in Hrows. exact Hrows.
Qed.

Lemma tensor_ext (a b : Tensor) :
  sizes a = sizes b -> dtype a = dtype b -> raw_data a = raw_data b -> a = b.
Proof.
  destruct a, b. cbn [sizes dtype raw_data]. intros -> -> ->. reflexivity.
Qed.

(** ** Where the bytes go *)

(** X15.  The bytes of the outputs of Split.  On a well-formed input and
    non-negative per-output extents that sum to the extent of the axis,
    Split succeeds and output [k] has the shape of its slab, the element
    type of the input and, in each of the [before] rows, the bytes of the
    input's row from column offset (extents of the earlier outputs, times
    [after]) on, for the width of the slab. *)
Theorem split_outputs_are_slabs :
  forall (op : SplitOp.t) (ins : SplitOp.Inputs) (outs : list Tensor)
         (c : Z) (axis_data : list Z),
    tensor_ok (SplitOp.X ins) ->
    canonical_axis_index (SplitOp.X ins) (SplitOp.axis_ op) = Ok c ->
    SplitOp.select_axis_data op ins (extent (sizes (SplitOp.X ins)) c) (OutputSize outs)
    = Ok axis_data ->
    OutputSize outs <= vsize axis_data ->
    (forall k, 0 <= k < OutputSize outs -> 0 <= split_axis_dim op axis_data k) ->
    prefix_sum (split_axis_dim op axis_data) (OutputSize outs)
    = extent (sizes (SplitOp.X ins)) c ->
    let X := SplitOp.X ins in
    let item := itemsize (dtype X) in
    let before := prodZ (firstn (Z.to_nat c) (sizes X)) in
    let after := prodZ (skipn (Z.to_nat (c + 1)) (sizes X)) in
    let e := split_axis_dim op axis_data in
    exists outs',
      SplitOp.RunOnDevice op ins outs = (outs', Ok true)
      /\ length outs' = length outs
      /\ forall k, 0 <= k < OutputSize outs ->
           sizes (Output outs' k) = split_output_dims op X c axis_data k
           /\ dtype (Output outs' k) = dtype X
           /\ blen (raw_data (Output outs' k)) = before * (e k * after) * item
           /\ forall r t,
                0 <= r < before -> 0 <= t < item * (e k * after) ->
                zth (raw_data (Output outs' k)) (e k * after * r * item + t)
                = zth (raw_data X)
                      (prefix_sum e k * after * item
                       + extent (sizes X) c * after * r * item + t).
Proof.
  intros op ins outs c axis_data HX Hc Hsel Hlen Hnn Hsum. cbv zeta.
  exact (roundtrip_split_run op ins outs c axis_data HX Hc Hsel Hlen Hnn Hsum).
Qed.

(** X15 on a tensor of shape [[2, 3]] split along axis 1 into extents 1
    and 2: the second output holds the bytes 1, 2, 4, 5. *)
Lemma split_outputs_are_slabs_witness :
  exists outs',
    SplitOp.RunOnDevice (SplitOp.mk 1 0 [1; 2])
      (SplitOp.mkInputs (mkTensor [2; 3] byte_meta (count_bytes 6)) None)
      (fresh_outputs 2)
    = (outs', Ok true)
    /\ length outs' = 2%nat
    /\ forall k, 0 <= k < 2 ->
         sizes (Output outs' k) = vset [2; 3] 1 (at_ [1; 2] k)
         /\ dtype (Output outs' k) = byte_meta
         /\ blen (raw_data (Output outs' k)) = 2 * (at_ [1; 2] k * 1) * 1
         /\ forall r t,
              0 <= r < 2 -> 0 <= t < 1 * (at_ [1; 2] k * 1) ->
              zth (raw_data (Output outs' k)) (at_ [1; 2] k * 1 * r * 1 + t)
              = zth (count_bytes 6)
                    (prefix_sum (at_ [1; 2]) k * 1 * 1 + 3 * 1 * r * 1 + t).
Proof.
  assert (HX : tensor_ok (mkTensor [2; 3] byte_meta (count_bytes 6))).
  { unfold tensor_ok. cbn [sizes dtype raw_data itemsize byte_meta].
    split; [repeat constructor; unfold Int32.INT_MAX; lia|].
    repeat split; vm_compute; try reflexivity; discriminate. }
  assert (Hnn : forall k, 0 <= k < OutputSize (fresh_outputs 2) ->
                  0 <= split_axis_dim (SplitOp.mk 1 0 [1; 2]) [1; 2] k).
  { intros k Hk. change (OutputSize (fresh_outputs 2)) with 2 in Hk.
    assert (Hcases : k = 0 \/ k = 1) by lia.
    destruct Hcases as [-> | ->]; vm_compute; discriminate. }
  exact (split_outputs_are_slabs (SplitOp.mk 1 0 [1; 2])
           (SplitOp.mkInputs (mkTensor [2; 3] byte_meta (count_bytes 6)) None)
           (fresh_outputs 2) 1 [1; 2]
           HX eq_refl eq_refl ltac:(vm_compute; discriminate) Hnn eq_refl).
Defined.

(** X16.  The bytes of the output of Concat.  For inputs of one element
    type whose shapes agree off the axis, with well-formed buffers and a
    joined shape in the range of int and size_t, Concat succeeds, records
    the extents in [split], and output 0 is a well-formed tensor of the
    joined shape that holds, in each of the [before] rows, the rows of the
    inputs one after the other: input [k] from column offset (extents of
    the earlier inputs, times [after]) on. *)
Theorem concat_output_layout :
  forall (axis add : Z) (inputs : list Tensor) (s : ConcatOp.Outputs) (c : Z),
    0 < vsize inputs ->
    canonical_axis_index_ axis
      (ndim (nth 0 inputs empty_tensor) + (if truthy add then 1 else 0)) = Ok c ->
    concat_inputs_ok add inputs c ->
    dims_in_range (concat_dims add inputs c)
                  (itemsize (dtype (nth 0 inputs empty_tensor))) ->
    let input_zero := nth 0 inputs empty_tensor in
    let n := vsize inputs in
    let item := itemsize (dtype input_zero) in
    let before := prodZ (firstn (Z.to_nat c) (sizes input_zero)) in
    let after := prodZ (skipn (Z.to_nat (if truthy add then c else c + 1))
                              (sizes input_zero)) in
    let e := concat_extent add inputs c in
    exists s',
      ConcatOp.RunOnDevice (ConcatOp.mk axis add) inputs s = (s', Ok true)
      /\ ConcatOp.split s' = {| isizes := [n]; idata := map e (range 0 n) |}
      /\ tensor_ok (ConcatOp.output s')
      /\ sizes (ConcatOp.output s') = concat_dims add inputs c
      /\ dtype (ConcatOp.output s') = dtype input_zero
      /\ forall k r t,
           0 <= k < n -> 0 <= r < before -> 0 <= t < item * (e k * after) ->
           zth (raw_data (ConcatOp.output s'))
               (prefix_sum e k * after * item + prefix_sum e n * after * r * item + t)
           = zth (raw_data (nth (Z.to_nat k) inputs empty_tensor))
                 (e k * after * r * item + t).
Proof.
  intros axis add inputs s c Hn Hc Hin Hdims. cbv zeta.
  eexists. split; [apply (cs_concat_run axis add inputs c Hn Hc Hin Hdims s)|].
  cbn [ConcatOp.output ConcatOp.split].
  destruct (cs_output_facts axis add inputs c Hn Hc Hin Hdims s)
    as [Hsz [Hty [_ Hdata]]].
  split; [reflexivity|].
  split; [apply (cs_output_ok axis add inputs c Hn Hc Hin Hdims s)|].
  split; [exact Hsz|]. split; [exact Hty|]. exact Hdata.
Qed.

(** X16 on inputs of shapes [[2, 1]] and [[2, 2]] joined along axis 1. *)
Lemma concat_output_layout_witness :
  exists s',
    ConcatOp.RunOnDevice (ConcatOp.mk 1 0)
      [mkTensor [2; 1] byte_meta (count_bytes 2);
       mkTensor [2; 2] byte_meta (count_bytes 4)]
      fresh_concat_outputs
    = (s', Ok true)
    /\ ConcatOp.split s' = {| isizes := [2]; idata := [1; 2] |}
    /\ tensor_ok (ConcatOp.output s')
    /\ sizes (ConcatOp.output s') = [2; 3]
    /\ dtype (ConcatOp.output s') = byte_meta
    /\ forall k r t,
         0 <= k < 2 -> 0 <= r < 2 ->
         0 <= t < 1 * (concat_extent 0 [mkTensor [2; 1] byte_meta (count_bytes 2);
                                         mkTensor [2; 2] byte_meta (count_bytes 4)] 1 k
                       * 1) ->
         zth (raw_data (ConcatOp.output s'))
             (prefix_sum (concat_extent 0 [mkTensor [2; 1] byte_meta (count_bytes 2);
                                           mkTensor [2; 2] byte_meta (count_bytes 4)] 1) k
              * 1 * 1 + 3 * 1 * r * 1 + t)
         = zth (raw_data (nth (Z.to_nat k)
                            [mkTensor [2; 1] byte_meta (count_bytes 2);
                             mkTensor [2; 2] byte_meta (count_bytes 4)] empty_tensor))
               (concat_extent 0 [mkTensor [2; 1] byte_meta (count_bytes 2);
                                 mkTensor [2; 2] byte_meta (count_bytes 4)] 1 k
                * 1 * r * 1 + t).
Proof.
  apply (concat_output_layout 1 0
           [mkTensor [2; 1] byte_meta (count_bytes 2);
            mkTensor [2; 2] byte_meta (count_bytes 4)]
           fresh_concat_outputs 1).
  - reflexivity.
  - reflexivity.
  - intros t [<-|[<-|[]]];
      (split; [reflexivity|]; split; [reflexivity|];
       split; [repeat constructor; unfold Int32.INT_MAX; lia|reflexivity]).
  - unfold dims_in_range.
    change (concat_dims 0
              [mkTensor [2; 1] byte_meta (count_bytes 2);
               mkTensor [2; 2] byte_meta (count_bytes 4)] 1) with [2; 3].
    split; [repeat constructor; unfold Int32.INT_MAX; lia|].
    repeat split; vm_compute; try reflexivity; discriminate.
Defined.

(** ** No byte of an output is left as it was *)

(** X17.  Split overwrites its outputs: on a well-formed input and
    non-negative per-output extents that sum to the extent of the axis, the
    run does not depend on what the outputs held before (shapes, types or
    bytes), only on how many there are. *)
Theorem split_result_independent_of_old_outputs :
  forall (op : SplitOp.t) (ins : SplitOp.Inputs) (outs1 outs2 : list Tensor)
         (c : Z) (axis_data : list Z),
    length outs1 = length outs2 ->
    tensor_ok (SplitOp.X ins) ->
    canonical_axis_index (SplitOp.X ins) (SplitOp.axis_ op) = Ok c ->
    SplitOp.select_axis_data op ins (extent (sizes (SplitOp.X ins)) c) (OutputSize outs1)
    = Ok axis_data ->
    OutputSize outs1 <= vsize axis_data ->
    (forall k, 0 <= k < OutputSize outs1 -> 0 <= split_axis_dim op axis_data k) ->
    prefix_sum (split_axis_dim op axis_data) (OutputSize outs1)
    = extent (sizes (SplitOp.X ins)) c ->
    SplitOp.RunOnDevice op ins outs1 = SplitOp.RunOnDevice op ins outs2.
Proof.
  intros op ins outs1 outs2 c axis_data Hlen12 HX Hc Hsel Hlen Hnn Hsum.
  assert (Hsize : OutputSize outs2 = OutputSize outs1)
    by (unfold OutputSize; rewrite Hlen12; reflexivity).
  destruct (roundtrip_split_run op ins outs1 c axis_data HX Hc Hsel Hlen Hnn Hsum)
    as [o1 [R1 [L1 F1]]].
  rewrite <- Hsize in Hsel, Hlen, Hnn, Hsum.
  destruct (roundtrip_split_run op ins outs2 c axis_data HX Hc Hsel Hlen Hnn Hsum)
    as [o2 [R2 [L2 F2]]].
  rewrite Hsize in F2, Hnn.
  rewrite R1, R2. f_equal.
  pose proof (canonical_axis_index__range _ _ _ Hc) as Hcr.
  destruct (slab_geometry _ c HX Hcr) as [Hi [HB0 [HA0 _]]].
  apply outputs_ext; [congruence|].
  intros k Hk. unfold OutputSize in Hk. rewrite L1 in Hk. fold (OutputSize outs1) in Hk.
  destruct (F1 k Hk) as [S1 [T1 [B1 D1]]]. destruct (F2 k Hk) as [S2 [T2 [B2 D2]]].
  apply tensor_ext; [congruence|congruence|].
  pose proof (Hnn k Hk) as Hek.
  apply (rows_ext _ _ (prodZ (firstn (Z.to_nat c) (sizes (SplitOp.X ins))))
                  (split_axis_dim op axis_data k
                   * prodZ (skipn (Z.to_nat (c + 1)) (sizes (SplitOp.X ins))))
                  (itemsize (dtype (SplitOp.X ins))));
    try assumption; [nia|].
  intros r t Hr Ht. rewrite D1, D2 by assumption. reflexivity.
Qed.

(** X17 on outputs that are empty and outputs that hold other tensors. *)
Lemma split_result_independent_of_old_outputs_witness :
  SplitOp.RunOnDevice (SplitOp.mk 1 0 [1; 2])
    (SplitOp.mkInputs (mkTensor [2; 3] byte_meta (count_bytes 6)) None)
    (fresh_outputs 2)
  = SplitOp.RunOnDevice (SplitOp.mk 1 0 [1; 2])
      (SplitOp.mkInputs (mkTensor [2; 3] byte_meta (count_bytes 6)) None)
      [mkTensor [7] float_meta (count_bytes 28); mkTensor [1; 1] byte_meta [xff]].
Proof.
  assert (HX : tensor_ok (mkTensor [2; 3] byte_meta (count_bytes 6))).
  { unfold tensor_ok. cbn [sizes dtype raw_data itemsize byte_meta].
    split; [repeat constructor; unfold Int32.INT_MAX; lia|].
    repeat split; vm_compute; try reflexivity; discriminate. }
  assert (Hnn : forall k, 0 <= k < OutputSize (fresh_outputs 2) ->
                  0 <= split_axis_dim (SplitOp.mk 1 0 [1; 2]) [1; 2] k).
  { intros k Hk. change (OutputSize (fresh_outputs 2)) with 2 in Hk.
    assert (Hcases : k = 0 \/ k = 1) by lia.
    destruct Hcases as [-> | ->]; vm_compute; discriminate. }
  exact (split_result_independent_of_old_outputs (SplitOp.mk 1 0 [1; 2])
           (SplitOp.mkInputs (mkTensor [2; 3] byte_meta (count_bytes 6)) None)
           (fresh_outputs 2)
           [mkTensor [7] float_meta (count_bytes 28); mkTensor [1; 1] byte_meta [xff]]
           1 [1; 2]
           eq_refl HX eq_refl eq_refl ltac:(vm_compute; discriminate) Hnn eq_refl).
Defined.

Lemma prefix_cover (e : Z -> Z) (n u : Z) (m : nat) (q : Z) :
  (forall k, 0 <= k < n -> 0 <= e k) ->
  0 <= u ->
  Z.of_nat m <= n ->
  0 <= q < prefix_sum e (Z.of_nat m) * u ->
  exists k, 0 <= k < Z.of_nat m
            /\ prefix_sum e k * u <= q < prefix_sum e (k + 1) * u.
Proof.
  intros He Hu. induction m as [|m IH]; intros Hm Hq.
  - change (prefix_sum e (Z.of_nat 0)) with 0 in Hq. lia.
  - replace (Z.of_nat (S m)) with (Z.of_nat m + 1) in * by lia.
    destruct (Z.lt_ge_cases q (prefix_sum e (Z.of_nat m) * u)) as [Hlt|Hge].
    + destruct IH as [k [Hk Hin]]; [lia|lia|]. exists k. split; [lia|exact Hin].
    + exists (Z.of_nat m). split; [lia|]. split; [lia|apply Hq].
Qed.

(** X18.  Concat overwrites its outputs: for inputs of one element type
    whose shapes agree off the axis, with well-formed buffers and a joined
    shape in the range of int and size_t, the run does not depend on what
    output 0 and [split] held before. *)
Theorem concat_result_independent_of_old_outputs :
  forall (axis add : Z) (inputs : list Tensor) (s1 s2 : ConcatOp.Outputs) (c : Z),
    0 < vsize inputs ->
    canonical_axis_index_ axis
      (ndim (nth 0 inputs empty_tensor) + (if truthy add then 1 else 0)) = Ok c ->
    concat_inputs_ok add inputs c ->
    dims_in_range (concat_dims add inputs c)
                  (itemsize (dtype (nth 0 inputs empty_tensor))) ->
    ConcatOp.RunOnDevice (ConcatOp.mk axis add) inputs s1
    = ConcatOp.RunOnDevice (ConcatOp.mk axis add) inputs s2.
Proof.
  intros axis add inputs s1 s2 c Hn Hc Hin Hdims.
  rewrite (cs_concat_run axis add inputs c Hn Hc Hin Hdims s1).
  rewrite (cs_concat_run axis add inputs c Hn Hc Hin Hdims s2).
  destruct (cs_output_facts axis add inputs c Hn Hc Hin Hdims s1) as [S1 [T1 [B1 D1]]].
  destruct (cs_output_facts axis add inputs c Hn Hc Hin Hdims s2) as [S2 [T2 [B2 D2]]].
  destruct (cs_geometry axis add inputs c Hn Hc Hin Hdims) as [Hi [HB [HA _]]].
  pose proof (cs_extent_nonneg axis add inputs c Hc Hin) as He.
  pose proof (cs_oc_range axis add inputs c Hc Hdims) as Hoc.
  do 2 f_equal.
  apply tensor_ext; [congruence|congruence|].
  set (e := concat_extent add inputs c) in *.
  set (n := vsize inputs) in *.
  set (Af := prodZ (skipn (Z.to_nat (if truthy add then c else c + 1))
                          (sizes (nth 0 inputs empty_tensor)))) in *.
  set (Bf := prodZ (firstn (Z.to_nat c) (sizes (nth 0 inputs empty_tensor)))) in *.
  set (item := itemsize (dtype (nth 0 inputs empty_tensor))) in *.
  apply (rows_ext _ _ Bf (prefix_sum e n * Af) item); try assumption; [nia|].
  intros r t Hr Ht.
  assert (Hu : 0 <= Af * item) by nia.
  destruct (prefix_cover e n (Af * item) (Z.to_nat n) t He Hu ltac:(lia))
    as [k [Hk [Hlo Hhi]]].
  { rewrite Z2Nat.id by lia. lia. }
  rewrite Z2Nat.id in Hk by lia.
  rewrite prefix_sum_succ in Hhi by lia.
  assert (Ht' : 0 <= t - prefix_sum e k * Af * item < item * (e k * Af)) by lia.
  replace (prefix_sum e n * Af * r * item + t)
    with (prefix_sum e k * Af * item + prefix_sum e n * Af * r * item
          + (t - prefix_sum e k * Af * item)) by lia.
  rewrite D1, D2 by assumption. reflexivity.
Qed.

(** X18 on fresh outputs and outputs that hold other tensors. *)
Lemma concat_result_independent_of_old_outputs_witness :
  ConcatOp.RunOnDevice (ConcatOp.mk 1 0)
    [mkTensor [2; 1] byte_meta (count_bytes 2);
     mkTensor [2; 2] byte_meta (count_bytes 4)]
    fresh_concat_outputs
  = ConcatOp.RunOnDevice (ConcatOp.mk 1 0)
      [mkTensor [2; 1] byte_meta (count_bytes 2);
       mkTensor [2; 2] byte_meta (count_bytes 4)]
      {| ConcatOp.output := mkTensor [7] float_meta (count_bytes 28);
         ConcatOp.split := mkIntTensor [3] [9; 9; 9] |}.
Proof.
  apply (concat_result_independent_of_old_outputs 1 0
           [mkTensor [2; 1] byte_meta (count_bytes 2);
            mkTensor [2; 2] byte_meta (count_bytes 4)]
           fresh_concat_outputs
           {| ConcatOp.output := mkTensor [7] float_meta (count_bytes 28);
              ConcatOp.split := mkIntTensor [3] [9; 9; 9] |} 1).
  - reflexivity.
  - reflexivity.
  - intros t [<-|[<-|[]]];
      (split; [reflexivity|]; split; [reflexivity|];
       split; [repeat constructor; unfold Int32.INT_MAX; lia|reflexivity]).
  - unfold dims_in_range.
    change (concat_dims 0
              [mkTensor [2; 1] byte_meta (count_bytes 2);
               mkTensor [2; 2] byte_meta (count_bytes 4)] 1) with [2; 3].
    split; [repeat constructor; unfold Int32.INT_MAX; lia|].
    repeat split; vm_compute; try reflexivity; discriminate.
Defined.

(** ** Split into one output *)

(** X19.  Split into a single output copies the input: with no sizes
    given, the one output is the input itself, shape, type and bytes; when
    an axis is added (the extent of the axis must then be 1) it is the
    input with that axis removed from the shape and the same bytes. *)
Theorem split_single_output :
  forall (axis add : Z) (X o : Tensor) (c : Z),
    tensor_ok X ->
    canonical_axis_index X axis = Ok c ->
    (truthy add = true -> extent (sizes X) c = 1) ->
    SplitOp.RunOnDevice (SplitOp.mk axis add []) (SplitOp.mkInputs X None) [o]
    = ([if truthy add then mkTensor (verase (sizes X) c) (dtype X) (raw_data X) else X],
       Ok true).
Proof.
  intros axis add X o c HX Hc Hone.
  set (op := SplitOp.mk axis add []). set (ins := SplitOp.mkInputs X None).
  set (ic := extent (sizes X) c) in *.
  pose proof (canonical_axis_index__range _ _ _ Hc) as Hcr.
  destruct (slab_geometry X c HX Hcr) as [Hi [HB0 [HA0 [Hic [_ [_ [_ [_ HlenX]]]]]]]].
  fold ic in Hic, HlenX.
  assert (Hsel : SplitOp.select_axis_data op ins (extent (sizes (SplitOp.X ins)) c)
                                          (OutputSize [o]) = Ok [ic]).
  { rewrite select_axis_data_cases.
    cbn [SplitOp.split_tensor SplitOp.split_ SplitOp.X ins op vsize length Z.of_nat Z.eqb].
    change (OutputSize [o]) with 1. fold ic.
    rewrite Z.rem_1_r, Z.quot_1_r. reflexivity. }
  assert (He0 : split_axis_dim op [ic] 0 = ic).
  { unfold split_axis_dim, op. cbn [SplitOp.add_axis_].
    destruct (truthy add); [symmetry; apply Hone; reflexivity|reflexivity]. }
  assert (Hnn : forall k, 0 <= k < OutputSize [o] -> 0 <= split_axis_dim op [ic] k).
  { intros k Hk. change (OutputSize [o]) with 1 in Hk.
    assert (k = 0) by lia. subst k. rewrite He0. exact Hic. }
  assert (Hsum : prefix_sum (split_axis_dim op [ic]) (OutputSize [o])
                 = extent (sizes (SplitOp.X ins)) c).
  { change (OutputSize [o]) with 1. unfold prefix_sum. change (range 0 1) with [0].
    cbn [map sumZ fold_right]. rewrite He0. cbn [SplitOp.X ins]. fold ic. lia. }
  destruct (roundtrip_split_run op ins [o] c [ic] HX Hc Hsel
                                ltac:(vm_compute; discriminate) Hnn Hsum)
    as [outs' [Hrun [Hl Hfacts]]].
  rewrite Hrun. f_equal.
  destruct outs' as [|out [|extra rest]]; try discriminate Hl.
  f_equal.
  destruct (Hfacts 0 ltac:(vm_compute; split; [discriminate|reflexivity]))
    as [Fs [Ft [Fl Fd]]].
  change (Output [out] 0) with out in Fs, Ft, Fl, Fd.
  cbn [SplitOp.X ins] in Fs, Ft, Fl, Fd. fold ic in Fd. rewrite He0 in Fl, Fd.
  assert (Hcv : 0 <= c < vsize (sizes X)) by (unfold vsize, ndim in *; lia).
  assert (Hbytes : raw_data out = raw_data X).
  { apply (rows_ext _ _ (prodZ (firstn (Z.to_nat c) (sizes X)))
                    (ic * prodZ (skipn (Z.to_nat (c + 1)) (sizes X)))
                    (itemsize (dtype X))); try assumption; nia. }
  unfold split_output_dims, op in Fs. cbn [SplitOp.add_axis_] in Fs.
  destruct (truthy add).
  - apply tensor_ext; assumption.
  - apply tensor_ext; try assumption.
    rewrite Fs. change (at_ [ic] 0) with ic. apply vset_extent_same. exact Hcv.
Qed.

(** X19 on a tensor of shape [[2, 1, 3]] whose middle axis is removed. *)
Lemma split_single_output_witness :
  SplitOp.RunOnDevice (SplitOp.mk 1 1 [])
    (SplitOp.mkInputs (mkTensor [2; 1; 3] byte_meta (count_bytes 6)) None)
    [empty_tensor]
  = ([mkTensor [2; 3] byte_meta (count_bytes 6)], Ok true).
Proof.
  apply (split_single_output 1 1 (mkTensor [2; 1; 3] byte_meta (count_bytes 6))
           empty_tensor 1).
  - unfold tensor_ok. cbn [sizes dtype raw_data itemsize byte_meta].
    split; [repeat constructor; unfold Int32.INT_MAX; lia|].
    repeat split; vm_compute; try reflexivity; discriminate.
  - reflexivity.
  - reflexivity.
Defined.

(** ** Edge cases of the sizes *)

(** X20.  With as many lengths as outputs, SplitByLengths is Split with
    the lengths as sizes: for non-negative lengths whose sum fits in an
    int, one per output, the two runs along the same axis are the same. *)
Theorem split_by_lengths_one_length_per_output :
  forall (axis : Z) (X : Tensor) (lengths : IntTensor) (outs : list Tensor) (c : Z),
    shape_ok (sizes X) ->
    span (sizes X) <= Int32.INT_MAX ->
    canonical_axis_index X axis = Ok c ->
    0 < OutputSize outs ->
    inumel lengths = vsize (idata lengths) ->
    vsize (idata lengths) = OutputSize outs ->
    Forall (fun d => 0 <= d) (idata lengths) ->
    sumZ (idata lengths) <= Int32.INT_MAX ->
    SplitByLengthsOp.RunOnDevice (SplitByLengthsOp.mk axis)
                                 (SplitByLengthsOp.mkInputs X lengths) outs
    = SplitOp.RunOnDevice (SplitOp.mk axis 0 (idata lengths))
                          (SplitOp.mkInputs X None) outs.
Proof.
  intros axis X lengths outs c Hs Hspan Hc Hn Hlen Hcount Hnn Hsum.
  rewrite (SplitByLengthsOp_as_SplitOp axis X lengths outs c); try assumption.
  2:{ rewrite Hlen, Hcount. apply Z.rem_same. lia. }
  do 3 f_equal. symmetry. apply idata_of_values; [exact Hcount|].
  intros i Hi. unfold group_extent, group_of, group_size.
  rewrite Hcount, Z.div_same by lia. rewrite Z.mul_1_r.
  unfold at_. change (Z.to_nat 1) with 1%nat.
  assert (Hlt : (Z.to_nat i < length (idata lengths))%nat)
    by (unfold vsize in Hcount; lia).
  revert Hlt. generalize (Z.to_nat i). generalize (idata lengths). clear.
  induction l as [|x l IH]; intros j Hj; cbn [length] in Hj; [lia|].
  destruct j as [|j]; cbn [skipn nth].
  - destruct l; cbn [firstn sumZ fold_right]; lia.
  - apply IH. lia.
Qed.

(** X20 on the lengths 1 and 3 of an axis of extent 4. *)
Lemma split_by_lengths_one_length_per_output_witness :
  SplitByLengthsOp.RunOnDevice (SplitByLengthsOp.mk 0)
    (SplitByLengthsOp.mkInputs (mkTensor [4; 2] byte_meta (count_bytes 8))
                               (mkIntTensor [2] [1; 3]))
    (fresh_outputs 2)
  = SplitOp.RunOnDevice (SplitOp.mk 0 0 [1; 3])
      (SplitOp.mkInputs (mkTensor [4; 2] byte_meta (count_bytes 8)) None)
      (fresh_outputs 2).
Proof.
  apply (split_by_lengths_one_length_per_output 0
           (mkTensor [4; 2] byte_meta (count_bytes 8))
           (mkIntTensor [2] [1; 3]) (fresh_outputs 2) 0).
  - repeat constructor; unfold Int32.INT_MAX; lia.
  - vm_compute. discriminate.
  - reflexivity.
  - reflexivity.
  - reflexivity.
  - reflexivity.
  - repeat constructor; lia.
  - vm_compute. discriminate.
Defined.

(** X21.  An output of extent 0 is empty: on a well-formed input and
    non-negative per-output extents that sum to the extent of the axis, an
    output whose extent is 0 gets the shape of its slab and a buffer of no
    bytes, and the run still succeeds. *)
Theorem split_zero_extent_output_is_empty :
  forall (op : SplitOp.t) (ins : SplitOp.Inputs) (outs : list Tensor)
         (c : Z) (axis_data : list Z) (k : Z),
    tensor_ok (SplitOp.X ins) ->
    canonical_axis_index (SplitOp.X ins) (SplitOp.axis_ op) = Ok c ->
    SplitOp.select_axis_data op ins (extent (sizes (SplitOp.X ins)) c) (OutputSize outs)
    = Ok axis_data ->
    OutputSize outs <= vsize axis_data ->
    (forall i, 0 <= i < OutputSize outs -> 0 <= split_axis_dim op axis_data i) ->
    prefix_sum (split_axis_dim op axis_data) (OutputSize outs)
    = extent (sizes (SplitOp.X ins)) c ->
    0 <= k < OutputSize outs ->
    split_axis_dim op axis_data k = 0 ->
    exists outs',
      SplitOp.RunOnDevice op ins outs = (outs', Ok true)
      /\ sizes (Output outs' k) = split_output_dims op (SplitOp.X ins) c axis_data k
      /\ numel (Output outs' k) = 0
      /\ raw_data (Output outs' k) = [].
Proof.
  intros op ins outs c axis_data k HX Hc Hsel Hlen Hnn Hsum Hk Hzero.
  destruct (roundtrip_split_run op ins outs c axis_data HX Hc Hsel Hlen Hnn Hsum)
    as [outs' [Hrun [Hl Hfacts]]].
  exists outs'. split; [exact Hrun|].
  destruct (Hfacts k Hk) as [Fs [_ [Fl _]]].
  pose proof (canonical_axis_index__range _ _ _ Hc) as Hcr.
  split; [exact Fs|]. split.
  - unfold numel. rewrite Fs, split_output_dims_prodZ by exact Hcr.
    rewrite Hzero. ring.
  - rewrite Hzero in Fl. unfold blen in Fl.
    destruct (raw_data (Output outs' k)); [reflexivity|]. cbn [length] in Fl. lia.
Qed.

(** X21 on the sizes 0 and 3 of an axis of extent 3. *)
Lemma split_zero_extent_output_is_empty_witness :
  exists outs',
    SplitOp.RunOnDevice (SplitOp.mk 1 0 [0; 3])
      (SplitOp.mkInputs (mkTensor [2; 3] byte_meta (count_bytes 6)) None)
      (fresh_outputs 2)
    = (outs', Ok true)
    /\ sizes (Output outs' 0) = [2; 0]
    /\ numel (Output outs' 0) = 0
    /\ raw_data (Output outs' 0) = [].
Proof.
  assert (HX : tensor_ok (mkTensor [2; 3] byte_meta (count_bytes 6))).
  { unfold tensor_ok. cbn [sizes dtype raw_data itemsize byte_meta].
    split; [repeat constructor; unfold Int32.INT_MAX; lia|].
    repeat split; vm_compute; try reflexivity; discriminate. }
  assert (Hnn : forall k, 0 <= k < OutputSize (fresh_outputs 2) ->
                  0 <= split_axis_dim (SplitOp.mk 1 0 [0; 3]) [0; 3] k).
  { intros k Hk. change (OutputSize (fresh_outputs 2)) with 2 in Hk.
    assert (Hcases : k = 0 \/ k = 1) by lia.
    destruct Hcases as [-> | ->]; vm_compute; discriminate. }
  exact (split_zero_extent_output_is_empty (SplitOp.mk 1 0 [0; 3])
           (SplitOp.mkInputs (mkTensor [2; 3] byte_meta (count_bytes 6)) None)
           (fresh_outputs 2) 1 [0; 3] 0
           HX eq_refl eq_refl ltac:(vm_compute; discriminate) Hnn eq_refl
           ltac:(vm_compute; split; [discriminate|reflexivity]) eq_refl).
Defined.
